(** * MergeTask: a shallow embedding of the part-merge task

    Source: [src/Storages/MergeTree/MergeTask.cpp].

    Conventions.
    - [size_t], [UInt64] and [time_t] values are [N]; where the source does
      arithmetic on them the 64-bit wrap-around is written out ([UInt64]).
    - A C++ function that may throw returns an [outcome]: [Return], [Throw]
      with the error code and message of the exception, or [Undefined] where
      C++ leaves the behaviour undefined (an index outside a [std::vector],
      [front()] of an empty container).
    - [std::set<String>], [NameSet] are [gset string]; [std::unordered_map]
      and [std::map] are [gmap]; [std::vector] and [std::list] are [list].
    - Readers, writers, pipelines, codecs and disks are collaborators; what
      they deliver is data of the model ([Pulled], [Engine]). *)

From Stdlib Require Import NArith ZArith List Bool Lia Ascii.
From stdpp Require Import base option list gmap strings pretty.

Local Open Scope string_scope.
Local Open Scope list_scope.

(** ** 64-bit unsigned arithmetic *)

Module UInt64.
Definition modulus : N := (2 ^ 64)%N.
(** [UINT64_MAX] *)
Definition MAX : N := (modulus - 1)%N.
Definition wrap (n : N) : N := (n mod modulus)%N.
Definition add (a b : N) : N := wrap (a + b).
(** [++x] on a [UInt64] *)
Definition incr (a : N) : N := add a 1.
(** conversion of a signed literal, as in [UInt64 new_row_id = -1] *)
Definition of_Z (z : Z) : N := Z.to_N (z mod Z.of_N modulus).
End UInt64.

(** ** Exceptions *)

Inductive ErrorCode :=
| ABORTED
| DIRECTORY_ALREADY_EXISTS
| LOGICAL_ERROR
| BAD_ARGUMENTS
| FILE_DOESNT_EXIST
(** an exception of the C++ standard library, such as [std::out_of_range] *)
| STD_EXCEPTION.

#[global] Instance ErrorCode_eq_dec : EqDecision ErrorCode.
Proof. solve_decision. Defined.

Inductive outcome (A : Type) : Type :=
| Return (a : A)
| Throw (code : ErrorCode) (message : string)
| Undefined.
Arguments Return {A} a.
Arguments Throw {A} code message.
Arguments Undefined {A}.

#[global] Instance outcome_ret : MRet outcome := fun A a => Return a.

#[global] Instance outcome_bind : MBind outcome := fun A B k m =>
  match m with
  | Return a => k a
  | Throw c s => Throw c s
  | Undefined => Undefined
  end.

(** [v[i]] on a [std::vector]: undefined outside the range. *)
Definition at_index {A : Type} (v : list A) (i : nat) : outcome A :=
  match v !! i with
  | Some a => Return a
  | None => Undefined
  end.

(** ** Enumerations of the storage layer *)

Module MergeAlgorithm.
Inductive t := Undecided | Horizontal | Vertical.
#[global] Instance eq_dec : EqDecision t.
Proof. solve_decision. Defined.
End MergeAlgorithm.

Module MergeTreeDataPartType.
Inductive t := Wide | Compact | InMemory | Unknown.
#[global] Instance eq_dec : EqDecision t.
Proof. solve_decision. Defined.
End MergeTreeDataPartType.

Module MergeTreeDataPartStorageType.
Inductive t := Full | Unknown.
#[global] Instance eq_dec : EqDecision t.
Proof. solve_decision. Defined.
End MergeTreeDataPartStorageType.

(** Modelled from the spec: [MergeType] and [isTTLMergeType] are declared in
    [MergeType.h], which is not among the sources; "a TTL merge is requested"
    is a merge whose type is one of the two TTL kinds. *)
Module MergeType.
Inductive t := Regular | TTLDelete | TTLRecompress.
#[global] Instance eq_dec : EqDecision t.
Proof. solve_decision. Defined.
End MergeType.

Definition isTTLMergeType (merge_type : MergeType.t) : bool :=
  match merge_type with
  | MergeType.TTLDelete | MergeType.TTLRecompress => true
  | MergeType.Regular => false
  end.

(** The state of a part's vector index; the merge only asks whether it is
    [BUILT]. *)
Module VectorIndexState.
Inductive t := SMALL_PART | PENDING | BUILDING | BUILT | LOADED | ERROR.
#[global] Instance eq_dec : EqDecision t.
Proof. solve_decision. Defined.
End VectorIndexState.

Module MergingParams.
Inductive Mode :=
| Ordinary | Collapsing | Summing | Aggregating
| Replacing | Graphite | VersionedCollapsing.
#[global] Instance Mode_eq_dec : EqDecision Mode.
Proof. solve_decision. Defined.

Record t := {
  mode : Mode;
  sign_column : string;
  version_column : string;
  is_deleted_column : string;
  columns_to_sum : list string
}.
End MergingParams.

(** ** RowSourcePart *)

(** Modelled from the spec: [RowSourcePart] is declared in
    [ColumnGathererTransform.h], which is not among the sources.  It is one
    byte: the low seven bits are the source number, the high bit is the skip
    flag, and [MAX_PARTS] is the largest source number that fits. *)
Module RowSourcePart.
Definition t := N.
Definition MASK_NUMBER : N := 127%N.
Definition MASK_FLAG : N := 128%N.
Definition MAX_PARTS : N := 127%N.
Definition getSourceNum (data : t) : nat := N.to_nat (N.land data MASK_NUMBER).
Definition getSkipFlag (data : t) : bool := negb (N.land data MASK_FLAG =? 0)%N.
Definition make (source_num : N) (skip : bool) : t :=
  N.lor (N.land source_num MASK_NUMBER) (if skip then MASK_FLAG else 0%N).
End RowSourcePart.

(** ** Columns, parts, metadata *)

Module NameAndTypePair.
Record t := { name : string; type : string }.
#[global] Instance eq_dec : EqDecision t.
Proof. solve_decision. Defined.
End NameAndTypePair.

(** TTL information of a part, as far as [prepare] looks at it:
    [part_min_ttl] (0 when there is none) and, per column with a TTL,
    whether that TTL is [finished()]. *)
Module TTLInfos.
Record t := {
  part_min_ttl : N;
  columns_ttl : list (string * bool)
}.
Definition empty : t := {| part_min_ttl := 0%N; columns_ttl := [] |}.
End TTLInfos.

(** A source part, read-only for the merge.  The projection parts stored
    inside a part are parts themselves. *)
Module DataPart.
#[local] Unset Elimination Schemes.
Inductive t := Build {
  name : string;
  rows_count : N;
  (** [getType()] *)
  part_type : MergeTreeDataPartType.t;
  (** [index_granularity.getMarksCount()] *)
  marks_count : N;
  (** the values of [_part_offset] an in-order read of the part delivers *)
  part_offsets : list N;
  (** [vector_index.getColumnIndex(desc)]: the state of the index named
      [desc.name], when the part has one *)
  vector_index : gmap string VectorIndexState.t;
  (** [hasLightweightDelete()] *)
  has_lightweight_delete : bool;
  ttl_infos : TTLInfos.t;
  (** [checkAllTTLCalculated(metadata_snapshot)] *)
  all_ttl_calculated : bool;
  (** [getProjectionParts()] *)
  projection_parts : gmap string t;
  (** whether the part's storage is a [DataPartStorageOnDiskBase] *)
  storage_on_disk : bool
}.
Definition isEmpty (part : t) : bool := (rows_count part =? 0)%N.
End DataPart.

Definition isWidePart (part : DataPart.t) : bool :=
  bool_decide (DataPart.part_type part = MergeTreeDataPartType.Wide).

Module IndexDescription.
(** [required_columns] is [expression->getRequiredColumns()] *)
Record t := { name : string; required_columns : list string }.
End IndexDescription.

Module VectorIndexDescription.
Record t := { name : string; column : string }.
End VectorIndexDescription.

Module ProjectionDescription.
Inductive Type_ := Normal | Aggregate.
#[global] Instance Type_eq_dec : EqDecision Type_.
Proof. solve_decision. Defined.
(** The metadata of a projection has columns and a sorting key but no
    projections of its own. *)
Record t := {
  name : string;
  type : Type_;
  columns : list NameAndTypePair.t;
  sorting_key_columns : list string
}.
End ProjectionDescription.

Module StorageMetadata.
Record t := {
  (** [getColumns().getAllPhysical()] *)
  columns : list NameAndTypePair.t;
  (** [getSortingKey().expression->getRequiredColumns()] *)
  sorting_key_required_columns : list string;
  secondary_indices : list IndexDescription.t;
  vector_indices : list VectorIndexDescription.t;
  projections : list ProjectionDescription.t;
  hasAnyTTL : bool
}.
(** [projection.metadata] *)
Definition of_projection (projection : ProjectionDescription.t) : t :=
  {| columns := ProjectionDescription.columns projection;
     sorting_key_required_columns :=
       ProjectionDescription.sorting_key_columns projection;
     secondary_indices := [];
     vector_indices := [];
     projections := [];
     hasAnyTTL := false |}.
End StorageMetadata.

Module PartFormat.
Record t := {
  part_type : MergeTreeDataPartType.t;
  storage_type : MergeTreeDataPartStorageType.t
}.
End PartFormat.

Module FuturePart.
Record t := {
  name : string;
  parts : list DataPart.t;
  merge_type : MergeType.t;
  part_format : PartFormat.t
}.
End FuturePart.

(** The storage settings the merge reads. *)
Module Settings.
Record t := {
  enable_vertical_merge_algorithm : N;
  vertical_merge_algorithm_min_rows_to_activate : N;
  vertical_merge_algorithm_min_columns_to_activate : N;
  allow_vertical_merges_from_compact_to_wide_parts : bool;
  enable_decouple_vector_index : bool;
  (** [max_insert_delayed_streams_for_parallel_write], when [changed] *)
  max_insert_delayed_streams_for_parallel_write : option nat
}.
End Settings.

(** ** extractMergingAndGatheringColumns *)

Module ColumnSets.
Record t := {
  gathering_columns : list NameAndTypePair.t;
  gathering_column_names : list string;
  merging_columns : list NameAndTypePair.t;
  merging_column_names : list string
}.
Definition empty : t :=
  {| gathering_columns := []; gathering_column_names := [];
     merging_columns := []; merging_column_names := [] |}.
End ColumnSets.

(** The set of key columns before the "at least one column" guard. *)
Definition required_key_columns
    (sort_key_columns_vec : list string)
    (indexes : list IndexDescription.t)
    (merging_params : MergingParams.t) : gset string :=
  let key_columns : gset string := list_to_set sort_key_columns_vec in
  let key_columns :=
    foldl (fun (acc : gset string) index =>
             acc ∪ list_to_set (IndexDescription.required_columns index))
          key_columns indexes in
  (* Force sign column for Collapsing mode *)
  let key_columns :=
    if decide (MergingParams.mode merging_params = MergingParams.Collapsing)
    then key_columns ∪ {[ MergingParams.sign_column merging_params ]}
    else key_columns in
  (* Force version column for Replacing mode *)
  let key_columns :=
    if decide (MergingParams.mode merging_params = MergingParams.Replacing)
    then key_columns ∪ {[ MergingParams.is_deleted_column merging_params ]}
                     ∪ {[ MergingParams.version_column merging_params ]}
    else key_columns in
  (* Force sign column for VersionedCollapsing mode *)
  if decide (MergingParams.mode merging_params = MergingParams.VersionedCollapsing)
  then key_columns ∪ {[ MergingParams.sign_column merging_params ]}
  else key_columns.

(** One turn of the loop over [storage_columns]. *)
Definition emplace_column (key_columns : gset string)
    (acc : ColumnSets.t) (column : NameAndTypePair.t) : ColumnSets.t :=
  if bool_decide (NameAndTypePair.name column ∈ key_columns)
  then {| ColumnSets.gathering_columns := ColumnSets.gathering_columns acc;
          ColumnSets.gathering_column_names := ColumnSets.gathering_column_names acc;
          ColumnSets.merging_columns := ColumnSets.merging_columns acc ++ [column];
          ColumnSets.merging_column_names :=
            ColumnSets.merging_column_names acc ++ [NameAndTypePair.name column] |}
  else {| ColumnSets.gathering_columns := ColumnSets.gathering_columns acc ++ [column];
          ColumnSets.gathering_column_names :=
            ColumnSets.gathering_column_names acc ++ [NameAndTypePair.name column];
          ColumnSets.merging_columns := ColumnSets.merging_columns acc;
          ColumnSets.merging_column_names := ColumnSets.merging_column_names acc |}.

Definition extractMergingAndGatheringColumns
    (storage_columns : list NameAndTypePair.t)
    (sort_key_columns_vec : list string)
    (indexes : list IndexDescription.t)
    (merging_params : MergingParams.t)
    (out : ColumnSets.t) : outcome ColumnSets.t :=
  let key_columns := required_key_columns sort_key_columns_vec indexes merging_params in
  (* Force to merge at least one column in case of empty key *)
  key_columns ←
    (if decide (key_columns = ∅)
     then match storage_columns with
          | [] => Undefined
          | front :: _ => Return (key_columns ∪ {[ NameAndTypePair.name front ]})
          end
     else Return key_columns) ;
  Return (foldl (emplace_column key_columns) out storage_columns).

(** ** Files, checksums and what the collaborators deliver *)

Module Checksum.
Record t := { file_size : N; file_hash : N }.
#[global] Instance eq_dec : EqDecision t.
Proof. solve_decision. Defined.
End Checksum.

(** The content of a file in the new part's directory.  A row-ids map is
    ASCII: each entry is the decimal text of a [UInt64] followed by one
    tab, so the file is the list of its entries. *)
Inductive FileContent :=
| IntText (entries : list N)
| RowSources (records : list RowSourcePart.t)
| IndexFile (checksum : Checksum.t).

(** The collaborators of the merge that are outside [MergeTask.cpp]. *)
Class Engine := {
  VECTOR_INDEX_FILE_SUFFIX : string;
  DEFAULT_DELAYED_STREAMS_FOR_PARALLEL_WRITE : nat;
  (** [getDataPartStorage().supportParallelWrite()] *)
  supportParallelWrite : bool;
  (** [MergeTreeDataPartTTLInfos::update] *)
  ttl_infos_update : TTLInfos.t -> TTLInfos.t -> TTLInfos.t;
  (** [HashingReadBuffer]: [count()] and [getHash()] after [ignoreAll()] *)
  hashing_count : FileContent -> N;
  hashing_getHash : FileContent -> N;
  (** [moveVectorIndexFiles(decouple, part_id, part_name, index_name,
      old_part, new_part)]: the checksums of the files it moved *)
  moveVectorIndexFiles :
    bool -> string -> string -> string -> DataPart.t -> gmap string Checksum.t;
  (** [FutureMergedMutatedPart::assign(parts)]: the format it chooses *)
  assign_part_format : list DataPart.t -> PartFormat.t;
  (** the path [createTemporaryFile] hands out for the rows-sources file *)
  rows_sources_file_path : string;
  (** the directory of the table on the reserved disk *)
  data_path : string
}.

(** A [TemporaryFileOnDisk]: removed when destroyed unless [keep()] was
    called. *)
Module TemporaryFile.
Record t := { path : string; kept : bool }.
Definition keep (f : t) : t := {| path := path f; kept := true |}.
End TemporaryFile.

(** What one successful [pull] of the merged pipeline does besides
    returning a block: the merging transform writes one [RowSourcePart] per
    row it consumed to the rows-sources buffer when it was given one, the
    progress callback adds to [rows_read], the sequential sources add to
    [*input_rows_filtered]. *)
Module Pulled.
Record t := {
  rows : N;
  row_sources : list RowSourcePart.t;
  rows_read : N;
  rows_filtered : N
}.
End Pulled.

(** The cancellation flags as one [execute] step reads them. *)
Module Env.
Record t := {
  merges_blocker : bool;
  ttl_merges_blocker : bool;
  is_cancelled : bool
}.
Definition quiet : t :=
  {| merges_blocker := false; ttl_merges_blocker := false; is_cancelled := false |}.
End Env.

Module MergeListElement.
Record t := {
  total_rows_count : N;
  rows_read : N;
  columns_written : nat
}.
Definition with_rows_read (v : N) (r : t) : t :=
  {| total_rows_count := total_rows_count r; rows_read := v;
     columns_written := columns_written r |}.
Definition with_columns_written (v : nat) (r : t) : t :=
  {| total_rows_count := total_rows_count r; rows_read := rows_read r;
     columns_written := v |}.
End MergeListElement.


(** Modelled from the spec: the constructor of [MergeListElement] is not
    among the sources; the total row count of a merge is the sum of the row
    counts of its source parts. *)
Definition MergeListElement_make (future_part : FuturePart.t) : MergeListElement.t :=
  {| MergeListElement.total_rows_count :=
       foldr N.add 0%N (DataPart.rows_count <$> FuturePart.parts future_part);
     MergeListElement.rows_read := 0%N;
     MergeListElement.columns_written := 0 |}.

Module MergedPartNameAndId.
Record t := { name : string; id : nat; with_data : bool }.
End MergedPartNameAndId.

(** The part being written. *)
Module NewPart.
#[local] Unset Elimination Schemes.
Inductive t := Build {
  name : string;
  (** [getDataPartStorage().getFullPath()] *)
  full_path : string;
  (** the name of the parent part, for a projection *)
  parent_part : option string;
  is_temp : bool;
  rows_count : N;
  columns : list NameAndTypePair.t;
  ttl_infos : TTLInfos.t;
  expired_columns : gset string;
  (** [vector_index.setMergedSourceParts] *)
  merged_source_parts : list MergedPartNameAndId.t;
  (** the files written into the part's directory, by path *)
  files : gmap string FileContent;
  (** the checksums files written by [dumpCheckSums], by index name *)
  vector_index_checksums : gmap string (gmap string Checksum.t);
  (** [addProjectionPart] *)
  projection_parts : list (string * t);
  transaction_precommitted : bool
}.
Definition with_rows_count (v : N) (r : t) : t :=
  {| name := name r; full_path := full_path r;
     parent_part := parent_part r; is_temp := is_temp r; rows_count := v;
     columns := columns r; ttl_infos := ttl_infos r;
     expired_columns := expired_columns r;
     merged_source_parts := merged_source_parts r; files := files r;
     vector_index_checksums := vector_index_checksums r;
     projection_parts := projection_parts r;
     transaction_precommitted := transaction_precommitted r |}.
Definition with_columns (v : list NameAndTypePair.t) (r : t) : t :=
  {| name := name r; full_path := full_path r;
     parent_part := parent_part r; is_temp := is_temp r;
     rows_count := rows_count r; columns := v; ttl_infos := ttl_infos r;
     expired_columns := expired_columns r;
     merged_source_parts := merged_source_parts r; files := files r;
     vector_index_checksums := vector_index_checksums r;
     projection_parts := projection_parts r;
     transaction_precommitted := transaction_precommitted r |}.
Definition with_ttl_infos (v : TTLInfos.t) (r : t) : t :=
  {| name := name r; full_path := full_path r;
     parent_part := parent_part r; is_temp := is_temp r;
     rows_count := rows_count r; columns := columns r; ttl_infos := v;
     expired_columns := expired_columns r;
     merged_source_parts := merged_source_parts r; files := files r;
     vector_index_checksums := vector_index_checksums r;
     projection_parts := projection_parts r;
     transaction_precommitted := transaction_precommitted r |}.
Definition with_expired_columns (v : gset string) (r : t) : t :=
  {| name := name r; full_path := full_path r;
     parent_part := parent_part r; is_temp := is_temp r;
     rows_count := rows_count r; columns := columns r;
     ttl_infos := ttl_infos r; expired_columns := v;
     merged_source_parts := merged_source_parts r; files := files r;
     vector_index_checksums := vector_index_checksums r;
     projection_parts := projection_parts r;
     transaction_precommitted := transaction_precommitted r |}.
Definition with_merged_source_parts (v : list MergedPartNameAndId.t) (r : t) : t :=
  {| name := name r; full_path := full_path r;
     parent_part := parent_part r; is_temp := is_temp r;
     rows_count := rows_count r; columns := columns r;
     ttl_infos := ttl_infos r; expired_columns := expired_columns r;
     merged_source_parts := v; files := files r;
     vector_index_checksums := vector_index_checksums r;
     projection_parts := projection_parts r;
     transaction_precommitted := transaction_precommitted r |}.
Definition with_files (v : gmap string FileContent) (r : t) : t :=
  {| name := name r; full_path := full_path r;
     parent_part := parent_part r; is_temp := is_temp r;
     rows_count := rows_count r; columns := columns r;
     ttl_infos := ttl_infos r; expired_columns := expired_columns r;
     merged_source_parts := merged_source_parts r; files := v;
     vector_index_checksums := vector_index_checksums r;
     projection_parts := projection_parts r;
     transaction_precommitted := transaction_precommitted r |}.
Definition with_vector_index_checksums (v : gmap string (gmap string Checksum.t)) (r : t) : t :=
  {| name := name r; full_path := full_path r;
     parent_part := parent_part r; is_temp := is_temp r;
     rows_count := rows_count r; columns := columns r;
     ttl_infos := ttl_infos r; expired_columns := expired_columns r;
     merged_source_parts := merged_source_parts r; files := files r;
     vector_index_checksums := v; projection_parts := projection_parts r;
     transaction_precommitted := transaction_precommitted r |}.
Definition with_projection_parts (v : list (string * t)) (r : t) : t :=
  {| name := name r; full_path := full_path r;
     parent_part := parent_part r; is_temp := is_temp r;
     rows_count := rows_count r; columns := columns r;
     ttl_infos := ttl_infos r; expired_columns := expired_columns r;
     merged_source_parts := merged_source_parts r; files := files r;
     vector_index_checksums := vector_index_checksums r;
     projection_parts := v;
     transaction_precommitted := transaction_precommitted r |}.
Definition with_transaction_precommitted (v : bool) (r : t) : t :=
  {| name := name r; full_path := full_path r;
     parent_part := parent_part r; is_temp := is_temp r;
     rows_count := rows_count r; columns := columns r;
     ttl_infos := ttl_infos r; expired_columns := expired_columns r;
     merged_source_parts := merged_source_parts r; files := files r;
     vector_index_checksums := vector_index_checksums r;
     projection_parts := projection_parts r; transaction_precommitted := v |}.
End NewPart.


Module ParentPart.
Record t := { name : string; full_path : string }.
End ParentPart.

(** The arguments of the constructor of [MergeTask] that the model keeps. *)
Module MergeTaskArgs.
Record t := {
  future_part : FuturePart.t;
  metadata_snapshot : StorageMetadata.t;
  time_of_merge : N;
  deduplicate : bool;
  deduplicate_by_columns : list string;
  cleanup : bool;
  merging_params : MergingParams.t;
  need_prefix : bool;
  parent_part : option ParentPart.t;
  suffix : string;
  (** [data->getSettings()] *)
  settings : Settings.t;
  (** [data->getInMemoryMetadataPtr()], the metadata of the table at the
      time the row-ids maps are written *)
  in_memory_metadata : StorageMetadata.t
}.
End MergeTaskArgs.

(** What the readers and the disk deliver to one task. *)
Module World.
Record t := {
  (** [data_part_storage->exists()] for the new part's directory *)
  directory_exists : bool;
  (** the successive pulls of the merged pipeline *)
  merged_pipeline : list Pulled.t;
  (** per gathering column, the row counts of the blocks its gatherer
      pipeline delivers *)
  column_pipeline : string -> list N
}.
End World.

(** A call [updateBitMap(segment_id, deleteRowIds)] on a source part. *)
Module BitmapUpdate.
Record t := { part_name : string; index_name : string; row_ids : list N }.
End BitmapUpdate.

(** [global_ctx->merging_executor] with its pipeline: the pulls that remain,
    and whether the merging transform holds the rows-sources buffer. *)
Module MergingExecutor.
Record t := { remaining : list Pulled.t; rows_sources_out : bool }.
End MergingExecutor.

(** The fields of the global context that serve the reuse of vector indexes. *)
Module Decouple.
Record t := {
  can_be_decouple : bool;
  only_one_vpart_merged : bool;
  first_part_with_data : nat;
  all_parts_have_vector_index : gmap string bool;
  inverted_row_ids_map_file_path : string;
  inverted_row_sources_map_file_path : string;
  row_ids_map_files : list string;
  (** the entries written to the inverted map so far *)
  inverted_row_ids_map_buf : option (list N);
  (** per forward map, the entries written so far *)
  row_ids_map_bufs : list (list N)
}.
Definition with_can_be_decouple (v : bool) (r : t) : t :=
  {| can_be_decouple := v;
     only_one_vpart_merged := only_one_vpart_merged r;
     first_part_with_data := first_part_with_data r;
     all_parts_have_vector_index := all_parts_have_vector_index r;
     inverted_row_ids_map_file_path := inverted_row_ids_map_file_path r;
     inverted_row_sources_map_file_path := inverted_row_sources_map_file_path r;
     row_ids_map_files := row_ids_map_files r;
     inverted_row_ids_map_buf := inverted_row_ids_map_buf r;
     row_ids_map_bufs := row_ids_map_bufs r |}.
Definition with_only_one_vpart_merged (v : bool) (r : t) : t :=
  {| can_be_decouple := can_be_decouple r; only_one_vpart_merged := v;
     first_part_with_data := first_part_with_data r;
     all_parts_have_vector_index := all_parts_have_vector_index r;
     inverted_row_ids_map_file_path := inverted_row_ids_map_file_path r;
     inverted_row_sources_map_file_path := inverted_row_sources_map_file_path r;
     row_ids_map_files := row_ids_map_files r;
     inverted_row_ids_map_buf := inverted_row_ids_map_buf r;
     row_ids_map_bufs := row_ids_map_bufs r |}.
Definition with_first_part_with_data (v : nat) (r : t) : t :=
  {| can_be_decouple := can_be_decouple r;
     only_one_vpart_merged := only_one_vpart_merged r;
     first_part_with_data := v;
     all_parts_have_vector_index := all_parts_have_vector_index r;
     inverted_row_ids_map_file_path := inverted_row_ids_map_file_path r;
     inverted_row_sources_map_file_path := inverted_row_sources_map_file_path r;
     row_ids_map_files := row_ids_map_files r;
     inverted_row_ids_map_buf := inverted_row_ids_map_buf r;
     row_ids_map_bufs := row_ids_map_bufs r |}.
Definition with_all_parts_have_vector_index (v : gmap string bool) (r : t) : t :=
  {| can_be_decouple := can_be_decouple r;
     only_one_vpart_merged := only_one_vpart_merged r;
     first_part_with_data := first_part_with_data r;
     all_parts_have_vector_index := v;
     inverted_row_ids_map_file_path := inverted_row_ids_map_file_path r;
     inverted_row_sources_map_file_path := inverted_row_sources_map_file_path r;
     row_ids_map_files := row_ids_map_files r;
     inverted_row_ids_map_buf := inverted_row_ids_map_buf r;
     row_ids_map_bufs := row_ids_map_bufs r |}.
Definition with_inverted_row_ids_map_file_path (v : string) (r : t) : t :=
  {| can_be_decouple := can_be_decouple r;
     only_one_vpart_merged := only_one_vpart_merged r;
     first_part_with_data := first_part_with_data r;
     all_parts_have_vector_index := all_parts_have_vector_index r;
     inverted_row_ids_map_file_path := v;
     inverted_row_sources_map_file_path := inverted_row_sources_map_file_path r;
     row_ids_map_files := row_ids_map_files r;
     inverted_row_ids_map_buf := inverted_row_ids_map_buf r;
     row_ids_map_bufs := row_ids_map_bufs r |}.
Definition with_inverted_row_sources_map_file_path (v : string) (r : t) : t :=
  {| can_be_decouple := can_be_decouple r;
     only_one_vpart_merged := only_one_vpart_merged r;
     first_part_with_data := first_part_with_data r;
     all_parts_have_vector_index := all_parts_have_vector_index r;
     inverted_row_ids_map_file_path := inverted_row_ids_map_file_path r;
     inverted_row_sources_map_file_path := v;
     row_ids_map_files := row_ids_map_files r;
     inverted_row_ids_map_buf := inverted_row_ids_map_buf r;
     row_ids_map_bufs := row_ids_map_bufs r |}.
Definition with_row_ids_map_files (v : list string) (r : t) : t :=
  {| can_be_decouple := can_be_decouple r;
     only_one_vpart_merged := only_one_vpart_merged r;
     first_part_with_data := first_part_with_data r;
     all_parts_have_vector_index := all_parts_have_vector_index r;
     inverted_row_ids_map_file_path := inverted_row_ids_map_file_path r;
     inverted_row_sources_map_file_path := inverted_row_sources_map_file_path r;
     row_ids_map_files := v;
     inverted_row_ids_map_buf := inverted_row_ids_map_buf r;
     row_ids_map_bufs := row_ids_map_bufs r |}.
Definition with_inverted_row_ids_map_buf (v : option (list N)) (r : t) : t :=
  {| can_be_decouple := can_be_decouple r;
     only_one_vpart_merged := only_one_vpart_merged r;
     first_part_with_data := first_part_with_data r;
     all_parts_have_vector_index := all_parts_have_vector_index r;
     inverted_row_ids_map_file_path := inverted_row_ids_map_file_path r;
     inverted_row_sources_map_file_path := inverted_row_sources_map_file_path r;
     row_ids_map_files := row_ids_map_files r;
     inverted_row_ids_map_buf := v; row_ids_map_bufs := row_ids_map_bufs r |}.
Definition with_row_ids_map_bufs (v : list (list N)) (r : t) : t :=
  {| can_be_decouple := can_be_decouple r;
     only_one_vpart_merged := only_one_vpart_merged r;
     first_part_with_data := first_part_with_data r;
     all_parts_have_vector_index := all_parts_have_vector_index r;
     inverted_row_ids_map_file_path := inverted_row_ids_map_file_path r;
     inverted_row_sources_map_file_path := inverted_row_sources_map_file_path r;
     row_ids_map_files := row_ids_map_files r;
     inverted_row_ids_map_buf := inverted_row_ids_map_buf r;
     row_ids_map_bufs := v |}.
End Decouple.


Definition Decouple_initial : Decouple.t :=
  {| Decouple.can_be_decouple := false;
     Decouple.only_one_vpart_merged := false;
     Decouple.first_part_with_data := 0;
     Decouple.all_parts_have_vector_index := ∅;
     Decouple.inverted_row_ids_map_file_path := "";
     Decouple.inverted_row_sources_map_file_path := "";
     Decouple.row_ids_map_files := [];
     Decouple.inverted_row_ids_map_buf := None;
     Decouple.row_ids_map_bufs := [] |}.

(** [GlobalRuntimeContext] *)
Module GlobalCtx.
Record t := {
  args : MergeTaskArgs.t;
  world : World.t;
  merge_list_element : MergeListElement.t;
  new_data_part : option NewPart.t;
  all_column_names : list string;
  storage_columns : list NameAndTypePair.t;
  column_sets : ColumnSets.t;
  chosen_merge_algorithm : MergeAlgorithm.t;
  decouple : Decouple.t;
  rows_written : N;
  input_rows_filtered : N;
  merging_executor : option MergingExecutor.t;
  gathering_column_names_size : nat;
  (** the files of this task on the temporary disk *)
  tmp_disk : gmap string (list RowSourcePart.t);
  (** the calls of [updateBitMap], oldest first *)
  bitmap_updates : list BitmapUpdate.t;
  promise : option NewPart.t
}.
Definition with_merge_list_element (v : MergeListElement.t) (r : t) : t :=
  {| args := args r; world := world r; merge_list_element := v;
     new_data_part := new_data_part r;
     all_column_names := all_column_names r;
     storage_columns := storage_columns r; column_sets := column_sets r;
     chosen_merge_algorithm := chosen_merge_algorithm r;
     decouple := decouple r; rows_written := rows_written r;
     input_rows_filtered := input_rows_filtered r;
     merging_executor := merging_executor r;
     gathering_column_names_size := gathering_column_names_size r;
     tmp_disk := tmp_disk r; bitmap_updates := bitmap_updates r;
     promise := promise r |}.
Definition with_new_data_part (v : option NewPart.t) (r : t) : t :=
  {| args := args r; world := world r;
     merge_list_element := merge_list_element r; new_data_part := v;
     all_column_names := all_column_names r;
     storage_columns := storage_columns r; column_sets := column_sets r;
     chosen_merge_algorithm := chosen_merge_algorithm r;
     decouple := decouple r; rows_written := rows_written r;
     input_rows_filtered := input_rows_filtered r;
     merging_executor := merging_executor r;
     gathering_column_names_size := gathering_column_names_size r;
     tmp_disk := tmp_disk r; bitmap_updates := bitmap_updates r;
     promise := promise r |}.
Definition with_all_column_names (v : list string) (r : t) : t :=
  {| args := args r; world := world r;
     merge_list_element := merge_list_element r;
     new_data_part := new_data_part r; all_column_names := v;
     storage_columns := storage_columns r; column_sets := column_sets r;
     chosen_merge_algorithm := chosen_merge_algorithm r;
     decouple := decouple r; rows_written := rows_written r;
     input_rows_filtered := input_rows_filtered r;
     merging_executor := merging_executor r;
     gathering_column_names_size := gathering_column_names_size r;
     tmp_disk := tmp_disk r; bitmap_updates := bitmap_updates r;
     promise := promise r |}.
Definition with_storage_columns (v : list NameAndTypePair.t) (r : t) : t :=
  {| args := args r; world := world r;
     merge_list_element := merge_list_element r;
     new_data_part := new_data_part r;
     all_column_names := all_column_names r; storage_columns := v;
     column_sets := column_sets r;
     chosen_merge_algorithm := chosen_merge_algorithm r;
     decouple := decouple r; rows_written := rows_written r;
     input_rows_filtered := input_rows_filtered r;
     merging_executor := merging_executor r;
     gathering_column_names_size := gathering_column_names_size r;
     tmp_disk := tmp_disk r; bitmap_updates := bitmap_updates r;
     promise := promise r |}.
Definition with_column_sets (v : ColumnSets.t) (r : t) : t :=
  {| args := args r; world := world r;
     merge_list_element := merge_list_element r;
     new_data_part := new_data_part r;
     all_column_names := all_column_names r;
     storage_columns := storage_columns r; column_sets := v;
     chosen_merge_algorithm := chosen_merge_algorithm r;
     decouple := decouple r; rows_written := rows_written r;
     input_rows_filtered := input_rows_filtered r;
     merging_executor := merging_executor r;
     gathering_column_names_size := gathering_column_names_size r;
     tmp_disk := tmp_disk r; bitmap_updates := bitmap_updates r;
     promise := promise r |}.
Definition with_chosen_merge_algorithm (v : MergeAlgorithm.t) (r : t) : t :=
  {| args := args r; world := world r;
     merge_list_element := merge_list_element r;
     new_data_part := new_data_part r;
     all_column_names := all_column_names r;
     storage_columns := storage_columns r; column_sets := column_sets r;
     chosen_merge_algorithm := v; decouple := decouple r;
     rows_written := rows_written r;
     input_rows_filtered := input_rows_filtered r;
     merging_executor := merging_executor r;
     gathering_column_names_size := gathering_column_names_size r;
     tmp_disk := tmp_disk r; bitmap_updates := bitmap_updates r;
     promise := promise r |}.
Definition with_decouple (v : Decouple.t) (r : t) : t :=
  {| args := args r; world := world r;
     merge_list_element := merge_list_element r;
     new_data_part := new_data_part r;
     all_column_names := all_column_names r;
     storage_columns := storage_columns r; column_sets := column_sets r;
     chosen_merge_algorithm := chosen_merge_algorithm r; decouple := v;
     rows_written := rows_written r;
     input_rows_filtered := input_rows_filtered r;
     merging_executor := merging_executor r;
     gathering_column_names_size := gathering_column_names_size r;
     tmp_disk := tmp_disk r; bitmap_updates := bitmap_updates r;
     promise := promise r |}.
Definition with_rows_written (v : N) (r : t) : t :=
  {| args := args r; world := world r;
     merge_list_element := merge_list_element r;
     new_data_part := new_data_part r;
     all_column_names := all_column_names r;
     storage_columns := storage_columns r; column_sets := column_sets r;
     chosen_merge_algorithm := chosen_merge_algorithm r;
     decouple := decouple r; rows_written := v;
     input_rows_filtered := input_rows_filtered r;
     merging_executor := merging_executor r;
     gathering_column_names_size := gathering_column_names_size r;
     tmp_disk := tmp_disk r; bitmap_updates := bitmap_updates r;
     promise := promise r |}.
Definition with_input_rows_filtered (v : N) (r : t) : t :=
  {| args := args r; world := world r;
     merge_list_element := merge_list_element r;
     new_data_part := new_data_part r;
     all_column_names := all_column_names r;
     storage_columns := storage_columns r; column_sets := column_sets r;
     chosen_merge_algorithm := chosen_merge_algorithm r;
     decouple := decouple r; rows_written := rows_written r;
     input_rows_filtered := v; merging_executor := merging_executor r;
     gathering_column_names_size := gathering_column_names_size r;
     tmp_disk := tmp_disk r; bitmap_updates := bitmap_updates r;
     promise := promise r |}.
Definition with_merging_executor (v : option MergingExecutor.t) (r : t) : t :=
  {| args := args r; world := world r;
     merge_list_element := merge_list_element r;
     new_data_part := new_data_part r;
     all_column_names := all_column_names r;
     storage_columns := storage_columns r; column_sets := column_sets r;
     chosen_merge_algorithm := chosen_merge_algorithm r;
     decouple := decouple r; rows_written := rows_written r;
     input_rows_filtered := input_rows_filtered r; merging_executor := v;
     gathering_column_names_size := gathering_column_names_size r;
     tmp_disk := tmp_disk r; bitmap_updates := bitmap_updates r;
     promise := promise r |}.
Definition with_gathering_column_names_size (v : nat) (r : t) : t :=
  {| args := args r; world := world r;
     merge_list_element := merge_list_element r;
     new_data_part := new_data_part r;
     all_column_names := all_column_names r;
     storage_columns := storage_columns r; column_sets := column_sets r;
     chosen_merge_algorithm := chosen_merge_algorithm r;
     decouple := decouple r; rows_written := rows_written r;
     input_rows_filtered := input_rows_filtered r;
     merging_executor := merging_executor r;
     gathering_column_names_size := v; tmp_disk := tmp_disk r;
     bitmap_updates := bitmap_updates r; promise := promise r |}.
Definition with_tmp_disk (v : gmap string (list RowSourcePart.t)) (r : t) : t :=
  {| args := args r; world := world r;
     merge_list_element := merge_list_element r;
     new_data_part := new_data_part r;
     all_column_names := all_column_names r;
     storage_columns := storage_columns r; column_sets := column_sets r;
     chosen_merge_algorithm := chosen_merge_algorithm r;
     decouple := decouple r; rows_written := rows_written r;
     input_rows_filtered := input_rows_filtered r;
     merging_executor := merging_executor r;
     gathering_column_names_size := gathering_column_names_size r;
     tmp_disk := v; bitmap_updates := bitmap_updates r;
     promise := promise r |}.
Definition with_bitmap_updates (v : list BitmapUpdate.t) (r : t) : t :=
  {| args := args r; world := world r;
     merge_list_element := merge_list_element r;
     new_data_part := new_data_part r;
     all_column_names := all_column_names r;
     storage_columns := storage_columns r; column_sets := column_sets r;
     chosen_merge_algorithm := chosen_merge_algorithm r;
     decouple := decouple r; rows_written := rows_written r;
     input_rows_filtered := input_rows_filtered r;
     merging_executor := merging_executor r;
     gathering_column_names_size := gathering_column_names_size r;
     tmp_disk := tmp_disk r; bitmap_updates := v; promise := promise r |}.
Definition with_promise (v : option NewPart.t) (r : t) : t :=
  {| args := args r; world := world r;
     merge_list_element := merge_list_element r;
     new_data_part := new_data_part r;
     all_column_names := all_column_names r;
     storage_columns := storage_columns r; column_sets := column_sets r;
     chosen_merge_algorithm := chosen_merge_algorithm r;
     decouple := decouple r; rows_written := rows_written r;
     input_rows_filtered := input_rows_filtered r;
     merging_executor := merging_executor r;
     gathering_column_names_size := gathering_column_names_size r;
     tmp_disk := tmp_disk r; bitmap_updates := bitmap_updates r;
     promise := v |}.
End GlobalCtx.

(** [ExecuteAndFinalizeHorizontalPartRuntimeContext] *)
Module HorizontalCtx.
Record t := {
  need_remove_expired_values : bool;
  force_ttl : bool;
  rows_sources_file : option TemporaryFile.t;
  rows_sources_write_buf : option (list RowSourcePart.t);
  sum_input_rows_upper_bound : N;
  blocks_are_granules_size : bool;
  (** the [need_remove] captured by the [is_cancelled] closure *)
  is_cancelled_need_remove : bool
}.
Definition with_need_remove_expired_values (v : bool) (r : t) : t :=
  {| need_remove_expired_values := v; force_ttl := force_ttl r;
     rows_sources_file := rows_sources_file r;
     rows_sources_write_buf := rows_sources_write_buf r;
     sum_input_rows_upper_bound := sum_input_rows_upper_bound r;
     blocks_are_granules_size := blocks_are_granules_size r;
     is_cancelled_need_remove := is_cancelled_need_remove r |}.
Definition with_force_ttl (v : bool) (r : t) : t :=
  {| need_remove_expired_values := need_remove_expired_values r;
     force_ttl := v; rows_sources_file := rows_sources_file r;
     rows_sources_write_buf := rows_sources_write_buf r;
     sum_input_rows_upper_bound := sum_input_rows_upper_bound r;
     blocks_are_granules_size := blocks_are_granules_size r;
     is_cancelled_need_remove := is_cancelled_need_remove r |}.
Definition with_rows_sources_file (v : option TemporaryFile.t) (r : t) : t :=
  {| need_remove_expired_values := need_remove_expired_values r;
     force_ttl := force_ttl r; rows_sources_file := v;
     rows_sources_write_buf := rows_sources_write_buf r;
     sum_input_rows_upper_bound := sum_input_rows_upper_bound r;
     blocks_are_granules_size := blocks_are_granules_size r;
     is_cancelled_need_remove := is_cancelled_need_remove r |}.
Definition with_rows_sources_write_buf (v : option (list RowSourcePart.t)) (r : t) : t :=
  {| need_remove_expired_values := need_remove_expired_values r;
     force_ttl := force_ttl r; rows_sources_file := rows_sources_file r;
     rows_sources_write_buf := v;
     sum_input_rows_upper_bound := sum_input_rows_upper_bound r;
     blocks_are_granules_size := blocks_are_granules_size r;
     is_cancelled_need_remove := is_cancelled_need_remove r |}.
Definition with_sum_input_rows_upper_bound (v : N) (r : t) : t :=
  {| need_remove_expired_values := need_remove_expired_values r;
     force_ttl := force_ttl r; rows_sources_file := rows_sources_file r;
     rows_sources_write_buf := rows_sources_write_buf r;
     sum_input_rows_upper_bound := v;
     blocks_are_granules_size := blocks_are_granules_size r;
     is_cancelled_need_remove := is_cancelled_need_remove r |}.
Definition with_blocks_are_granules_size (v : bool) (r : t) : t :=
  {| need_remove_expired_values := need_remove_expired_values r;
     force_ttl := force_ttl r; rows_sources_file := rows_sources_file r;
     rows_sources_write_buf := rows_sources_write_buf r;
     sum_input_rows_upper_bound := sum_input_rows_upper_bound r;
     blocks_are_granules_size := v;
     is_cancelled_need_remove := is_cancelled_need_remove r |}.
Definition with_is_cancelled_need_remove (v : bool) (r : t) : t :=
  {| need_remove_expired_values := need_remove_expired_values r;
     force_ttl := force_ttl r; rows_sources_file := rows_sources_file r;
     rows_sources_write_buf := rows_sources_write_buf r;
     sum_input_rows_upper_bound := sum_input_rows_upper_bound r;
     blocks_are_granules_size := blocks_are_granules_size r;
     is_cancelled_need_remove := v |}.
End HorizontalCtx.


Module OneColumnState.
Inductive t := NEED_PREPARE | NEED_EXECUTE | NEED_FINISH.
End OneColumnState.

(** [VerticalMergeRuntimeContext] *)
Module VerticalCtx.
Record t := {
  rows_sources_file : option TemporaryFile.t;
  rows_sources_write_buf : option (list RowSourcePart.t);
  rows_sources_read_buf : option (list RowSourcePart.t);
  column_num_for_vertical_merge : nat;
  (** the iterator, as an index into [gathering_columns] *)
  it_name_and_type : nat;
  vertical_merge_one_column_state : OneColumnState.t;
  column_elems_written : N;
  (** the blocks the column pipeline still delivers *)
  executor : option (list N);
  (** the column-only output stream, by the column it writes *)
  column_to : option string;
  max_delayed_streams : nat;
  delayed_streams : list string
}.
Definition with_rows_sources_file (v : option TemporaryFile.t) (r : t) : t :=
  {| rows_sources_file := v;
     rows_sources_write_buf := rows_sources_write_buf r;
     rows_sources_read_buf := rows_sources_read_buf r;
     column_num_for_vertical_merge := column_num_for_vertical_merge r;
     it_name_and_type := it_name_and_type r;
     vertical_merge_one_column_state := vertical_merge_one_column_state r;
     column_elems_written := column_elems_written r;
     executor := executor r; column_to := column_to r;
     max_delayed_streams := max_delayed_streams r;
     delayed_streams := delayed_streams r |}.
Definition with_rows_sources_write_buf (v : option (list RowSourcePart.t)) (r : t) : t :=
  {| rows_sources_file := rows_sources_file r; rows_sources_write_buf := v;
     rows_sources_read_buf := rows_sources_read_buf r;
     column_num_for_vertical_merge := column_num_for_vertical_merge r;
     it_name_and_type := it_name_and_type r;
     vertical_merge_one_column_state := vertical_merge_one_column_state r;
     column_elems_written := column_elems_written r;
     executor := executor r; column_to := column_to r;
     max_delayed_streams := max_delayed_streams r;
     delayed_streams := delayed_streams r |}.
Definition with_rows_sources_read_buf (v : option (list RowSourcePart.t)) (r : t) : t :=
  {| rows_sources_file := rows_sources_file r;
     rows_sources_write_buf := rows_sources_write_buf r;
     rows_sources_read_buf := v;
     column_num_for_vertical_merge := column_num_for_vertical_merge r;
     it_name_and_type := it_name_and_type r;
     vertical_merge_one_column_state := vertical_merge_one_column_state r;
     column_elems_written := column_elems_written r;
     executor := executor r; column_to := column_to r;
     max_delayed_streams := max_delayed_streams r;
     delayed_streams := delayed_streams r |}.
Definition with_column_num_for_vertical_merge (v : nat) (r : t) : t :=
  {| rows_sources_file := rows_sources_file r;
     rows_sources_write_buf := rows_sources_write_buf r;
     rows_sources_read_buf := rows_sources_read_buf r;
     column_num_for_vertical_merge := v;
     it_name_and_type := it_name_and_type r;
     vertical_merge_one_column_state := vertical_merge_one_column_state r;
     column_elems_written := column_elems_written r;
     executor := executor r; column_to := column_to r;
     max_delayed_streams := max_delayed_streams r;
     delayed_streams := delayed_streams r |}.
Definition with_it_name_and_type (v : nat) (r : t) : t :=
  {| rows_sources_file := rows_sources_file r;
     rows_sources_write_buf := rows_sources_write_buf r;
     rows_sources_read_buf := rows_sources_read_buf r;
     column_num_for_vertical_merge := column_num_for_vertical_merge r;
     it_name_and_type := v;
     vertical_merge_one_column_state := vertical_merge_one_column_state r;
     column_elems_written := column_elems_written r;
     executor := executor r; column_to := column_to r;
     max_delayed_streams := max_delayed_streams r;
     delayed_streams := delayed_streams r |}.
Definition with_vertical_merge_one_column_state (v : OneColumnState.t) (r : t) : t :=
  {| rows_sources_file := rows_sources_file r;
     rows_sources_write_buf := rows_sources_write_buf r;
     rows_sources_read_buf := rows_sources_read_buf r;
     column_num_for_vertical_merge := column_num_for_vertical_merge r;
     it_name_and_type := it_name_and_type r;
     vertical_merge_one_column_state := v;
     column_elems_written := column_elems_written r;
     executor := executor r; column_to := column_to r;
     max_delayed_streams := max_delayed_streams r;
     delayed_streams := delayed_streams r |}.
Definition with_column_elems_written (v : N) (r : t) : t :=
  {| rows_sources_file := rows_sources_file r;
     rows_sources_write_buf := rows_sources_write_buf r;
     rows_sources_read_buf := rows_sources_read_buf r;
     column_num_for_vertical_merge := column_num_for_vertical_merge r;
     it_name_and_type := it_name_and_type r;
     vertical_merge_one_column_state := vertical_merge_one_column_state r;
     column_elems_written := v; executor := executor r;
     column_to := column_to r;
     max_delayed_streams := max_delayed_streams r;
     delayed_streams := delayed_streams r |}.
Definition with_executor (v : option (list N)) (r : t) : t :=
  {| rows_sources_file := rows_sources_file r;
     rows_sources_write_buf := rows_sources_write_buf r;
     rows_sources_read_buf := rows_sources_read_buf r;
     column_num_for_vertical_merge := column_num_for_vertical_merge r;
     it_name_and_type := it_name_and_type r;
     vertical_merge_one_column_state := vertical_merge_one_column_state r;
     column_elems_written := column_elems_written r; executor := v;
     column_to := column_to r;
     max_delayed_streams := max_delayed_streams r;
     delayed_streams := delayed_streams r |}.
Definition with_column_to (v : option string) (r : t) : t :=
  {| rows_sources_file := rows_sources_file r;
     rows_sources_write_buf := rows_sources_write_buf r;
     rows_sources_read_buf := rows_sources_read_buf r;
     column_num_for_vertical_merge := column_num_for_vertical_merge r;
     it_name_and_type := it_name_and_type r;
     vertical_merge_one_column_state := vertical_merge_one_column_state r;
     column_elems_written := column_elems_written r;
     executor := executor r; column_to := v;
     max_delayed_streams := max_delayed_streams r;
     delayed_streams := delayed_streams r |}.
Definition with_max_delayed_streams (v : nat) (r : t) : t :=
  {| rows_sources_file := rows_sources_file r;
     rows_sources_write_buf := rows_sources_write_buf r;
     rows_sources_read_buf := rows_sources_read_buf r;
     column_num_for_vertical_merge := column_num_for_vertical_merge r;
     it_name_and_type := it_name_and_type r;
     vertical_merge_one_column_state := vertical_merge_one_column_state r;
     column_elems_written := column_elems_written r;
     executor := executor r; column_to := column_to r;
     max_delayed_streams := v; delayed_streams := delayed_streams r |}.
Definition with_delayed_streams (v : list string) (r : t) : t :=
  {| rows_sources_file := rows_sources_file r;
     rows_sources_write_buf := rows_sources_write_buf r;
     rows_sources_read_buf := rows_sources_read_buf r;
     column_num_for_vertical_merge := column_num_for_vertical_merge r;
     it_name_and_type := it_name_and_type r;
     vertical_merge_one_column_state := vertical_merge_one_column_state r;
     column_elems_written := column_elems_written r;
     executor := executor r; column_to := column_to r;
     max_delayed_streams := max_delayed_streams r; delayed_streams := v |}.
End VerticalCtx.

(** [*p] on a pointer that may be null. *)
Definition deref {A : Type} (p : option A) : outcome A :=
  match p with
  | Some a => Return a
  | None => Undefined
  end.

(** [v[i]] where [i] is a signed 64-bit value converted to [size_t]. *)
Definition at_index_Z {A : Type} (v : list A) (i : Z) : outcome A :=
  if (i <? 0)%Z then Undefined else at_index v (Z.to_nat i).

(** What a subtask returns: its [bool] and the two contexts. *)
Definition subtask_result (C : Type) : Type := outcome (bool * GlobalCtx.t * C).

(** ** The horizontal stage *)

Section Horizontal.
Context `{Engine}.

(** *** chooseMergeAlgorithm *)

Definition is_supported_storage (mode : MergingParams.Mode) : bool :=
  bool_decide (mode = MergingParams.Ordinary)
  || bool_decide (mode = MergingParams.Collapsing)
  || bool_decide (mode = MergingParams.Replacing)
  || bool_decide (mode = MergingParams.VersionedCollapsing).

Definition chooseMergeAlgorithm
    (global_ctx : GlobalCtx.t) (ctx : HorizontalCtx.t) : MergeAlgorithm.t :=
  let args := GlobalCtx.args global_ctx in
  let future_part := MergeTaskArgs.future_part args in
  let sum_rows_upper_bound :=
    MergeListElement.total_rows_count (GlobalCtx.merge_list_element global_ctx) in
  let data_settings := MergeTaskArgs.settings args in
  if MergeTaskArgs.deduplicate args then MergeAlgorithm.Horizontal
  else if (Settings.enable_vertical_merge_algorithm data_settings =? 0)%N
  then MergeAlgorithm.Horizontal
  else if HorizontalCtx.need_remove_expired_values ctx
  then MergeAlgorithm.Horizontal
  else if negb (bool_decide (PartFormat.part_type (FuturePart.part_format future_part)
                             = MergeTreeDataPartType.Wide))
  then MergeAlgorithm.Horizontal
  else if negb (bool_decide (PartFormat.storage_type (FuturePart.part_format future_part)
                             = MergeTreeDataPartStorageType.Full))
  then MergeAlgorithm.Horizontal
  else if negb (Settings.allow_vertical_merges_from_compact_to_wide_parts data_settings)
          && existsb (fun part => negb (isWidePart part)) (FuturePart.parts future_part)
  then MergeAlgorithm.Horizontal
  else
    let is_supported_storage :=
      is_supported_storage (MergingParams.mode (MergeTaskArgs.merging_params args)) in
    let enough_ordinary_cols :=
      (Settings.vertical_merge_algorithm_min_columns_to_activate data_settings
       <=? N.of_nat (length (ColumnSets.gathering_columns
                               (GlobalCtx.column_sets global_ctx))))%N in
    let enough_total_rows :=
      (Settings.vertical_merge_algorithm_min_rows_to_activate data_settings
       <=? sum_rows_upper_bound)%N in
    let no_parts_overflow :=
      (N.of_nat (length (FuturePart.parts future_part))
       <=? RowSourcePart.MAX_PARTS)%N in
    if is_supported_storage && enough_total_rows
       && enough_ordinary_cols && no_parts_overflow
    then MergeAlgorithm.Vertical
    else MergeAlgorithm.Horizontal.

(** *** The eligibility of the merged part for decoupling (in [prepare]) *)

(** The counters of the loop over the source parts, for one vector index. *)
Record IndexScan := {
  num_parts_with_vector_index : nat;
  empty_parts_count : nat;
  (** the local [Int64 first_part_with_data] *)
  scan_first_part_with_data : Z;
  (** [global_ctx->first_part_with_data] *)
  scan_ctx_first_part_with_data : nat
}.

Definition scan_part (vec_index : VectorIndexDescription.t)
    (i : nat) (part : DataPart.t) (st : IndexScan) : IndexScan :=
  match DataPart.vector_index part !! VectorIndexDescription.name vec_index with
  | None => st (* continue *)
  | Some state =>
      let first_here :=
        (scan_first_part_with_data st =? -1)%Z
        && negb (DataPart.rows_count part =? 0)%N in
      {| num_parts_with_vector_index :=
           if decide (state = VectorIndexState.BUILT)
           then S (num_parts_with_vector_index st)
           else num_parts_with_vector_index st;
         empty_parts_count :=
           if (DataPart.rows_count part =? 0)%N
           then S (empty_parts_count st)
           else empty_parts_count st;
         scan_first_part_with_data :=
           if first_here then Z.of_nat i else scan_first_part_with_data st;
         scan_ctx_first_part_with_data :=
           if first_here then i else scan_ctx_first_part_with_data st |}
  end.

Fixpoint scan_parts (vec_index : VectorIndexDescription.t)
    (i : nat) (parts : list DataPart.t) (st : IndexScan) : IndexScan :=
  match parts with
  | [] => st
  | part :: rest => scan_parts vec_index (S i) rest (scan_part vec_index i part st)
  end.

(** The variables that live across the loop over the vector indices. *)
Record EligibilityScan := {
  first_part_with_data : Z;
  max_part_with_index : nat;
  scan_decouple : Decouple.t
}.

Definition scan_index (parts : list DataPart.t)
    (st : EligibilityScan) (vec_index : VectorIndexDescription.t) : EligibilityScan :=
  let num_parts := length parts in
  let s := scan_parts vec_index 0 parts
             {| num_parts_with_vector_index := 0;
                empty_parts_count := 0;
                scan_first_part_with_data := first_part_with_data st;
                scan_ctx_first_part_with_data :=
                  Decouple.first_part_with_data (scan_decouple st) |} in
  let d := Decouple.with_first_part_with_data
             (scan_ctx_first_part_with_data s) (scan_decouple st) in
  {| first_part_with_data := scan_first_part_with_data s;
     max_part_with_index :=
       if (max_part_with_index st <? num_parts_with_vector_index s)%nat
       then num_parts_with_vector_index s
       else max_part_with_index st;
     scan_decouple :=
       if (0 <? num_parts)%nat
          && (num_parts_with_vector_index s + empty_parts_count s =? num_parts)%nat
       then Decouple.with_can_be_decouple true
              (Decouple.with_all_parts_have_vector_index
                 (<[ VectorIndexDescription.name vec_index := true ]>
                    (Decouple.all_parts_have_vector_index d)) d)
       else d |}.

Definition scan_indices (vector_indices : list VectorIndexDescription.t)
    (parts : list DataPart.t) (d : Decouple.t) : EligibilityScan :=
  foldl (scan_index parts)
    {| first_part_with_data := (-1)%Z; max_part_with_index := 0; scan_decouple := d |}
    vector_indices.

(** Lines 319-373 of [prepare]. *)
Definition checkDecouple (settings : Settings.t)
    (vector_indices : list VectorIndexDescription.t)
    (parts : list DataPart.t) (d : Decouple.t) : outcome Decouple.t :=
  if Settings.enable_decouple_vector_index settings then
    let st := scan_indices vector_indices parts d in
    let d := scan_decouple st in
    (* When only one part is merged, the merged part can be decouple only
       when LWD exists.  If no LWD, still a VPart after merge. *)
    if Decouple.can_be_decouple d && (max_part_with_index st =? 1)%nat then
      part ← at_index_Z parts (first_part_with_data st);
      if negb (DataPart.has_lightweight_delete part)
      then Return (Decouple.with_can_be_decouple false
                     (Decouple.with_only_one_vpart_merged true d))
      else Return d
    else Return d
  else Return d.

(** *** createMergedStream *)

(** The merging transforms that are handed [ctx->rows_sources_write_buf]. *)
Definition takes_rows_sources_buf (mode : MergingParams.Mode) : bool :=
  match mode with
  | MergingParams.Ordinary | MergingParams.Collapsing
  | MergingParams.Replacing | MergingParams.VersionedCollapsing => true
  | MergingParams.Summing | MergingParams.Aggregating | MergingParams.Graphite => false
  end.

(** The pipeline itself is the collaborators' work; the model keeps what
    it will deliver.  [pipes.at(0)] throws when there is no source part. *)
Definition createMergedStream
    (global_ctx : GlobalCtx.t) (ctx : HorizontalCtx.t)
    : outcome (GlobalCtx.t * HorizontalCtx.t) :=
  let args := GlobalCtx.args global_ctx in
  match FuturePart.parts (MergeTaskArgs.future_part args) with
  | [] => Throw STD_EXCEPTION "vector::at"
  | _ :: _ =>
      let ctx :=
        HorizontalCtx.with_blocks_are_granules_size
          (bool_decide (GlobalCtx.chosen_merge_algorithm global_ctx
                        = MergeAlgorithm.Vertical)) ctx in
      let executor :=
        {| MergingExecutor.remaining := World.merged_pipeline (GlobalCtx.world global_ctx);
           MergingExecutor.rows_sources_out :=
             takes_rows_sources_buf
               (MergingParams.mode (MergeTaskArgs.merging_params args))
             && bool_decide (is_Some (HorizontalCtx.rows_sources_write_buf ctx)) |} in
      Return (GlobalCtx.with_merging_executor (Some executor) global_ctx, ctx)
  end.

(** *** prepare *)

Definition local_tmp_part_basename (args : MergeTaskArgs.t) : string :=
  let local_tmp_prefix :=
    if MergeTaskArgs.need_prefix args
    then match MergeTaskArgs.parent_part args with
         | Some _ => ""
         | None => "tmp_merge_"
         end
    else "" in
  let local_tmp_suffix :=
    match MergeTaskArgs.parent_part args with
    | Some _ => MergeTaskArgs.suffix args
    | None => ""
    end in
  local_tmp_prefix +:+ FuturePart.name (MergeTaskArgs.future_part args)
                   +:+ local_tmp_suffix.

(** The part the builder makes: inside the parent part for a projection,
    on the reserved disk otherwise. *)
Definition build_new_data_part (args : MergeTaskArgs.t) : NewPart.t :=
  let basename := local_tmp_part_basename args in
  {| NewPart.name := FuturePart.name (MergeTaskArgs.future_part args);
     NewPart.full_path :=
       match MergeTaskArgs.parent_part args with
       | Some parent => ParentPart.full_path parent +:+ basename +:+ "/"
       | None => data_path +:+ basename +:+ "/"
       end;
     NewPart.parent_part := ParentPart.name <$> MergeTaskArgs.parent_part args;
     NewPart.is_temp := bool_decide (MergeTaskArgs.parent_part args = None :> option _);
     NewPart.rows_count := 0%N;
     NewPart.columns := [];
     NewPart.ttl_infos := TTLInfos.empty;
     NewPart.expired_columns := ∅;
     NewPart.merged_source_parts := [];
     NewPart.files := ∅;
     NewPart.vector_index_checksums := ∅;
     NewPart.projection_parts := [];
     NewPart.transaction_precommitted := false |}.

(** One turn of the loop over the source parts that collects the TTL
    information. *)
Definition prepare_ttl_of_part (metadata_snapshot : StorageMetadata.t)
    (acc : TTLInfos.t * bool * bool) (part : DataPart.t) : TTLInfos.t * bool * bool :=
  let '(infos, need_remove_expired_values, force_ttl) := acc in
  let infos := ttl_infos_update infos (DataPart.ttl_infos part) in
  if StorageMetadata.hasAnyTTL metadata_snapshot
     && negb (DataPart.all_ttl_calculated part)
  then (infos, true, true)
  else (infos, need_remove_expired_values, force_ttl).

(** [need_remove_expired_values] as the source parts and the time of the
    merge decide it, before the TTL-merges blocker is looked at. *)
Definition ttl_eviction_required (args : MergeTaskArgs.t) : bool :=
  let '(infos, need_remove_expired_values, _) :=
    foldl (prepare_ttl_of_part (MergeTaskArgs.metadata_snapshot args))
          (TTLInfos.empty, false, false)
          (FuturePart.parts (MergeTaskArgs.future_part args)) in
  let local_part_min_ttl := TTLInfos.part_min_ttl infos in
  if negb (local_part_min_ttl =? 0)%N
     && (local_part_min_ttl <=? MergeTaskArgs.time_of_merge args)%N
  then true
  else need_remove_expired_values.

(** The file of the forward row-ids map of source part [i]. *)
Definition row_ids_map_filename (i : nat) (part : DataPart.t) : string :=
  "merged-" +:+ pretty i +:+ "-" +:+ DataPart.name part
            +:+ "-row_ids_map" +:+ VECTOR_INDEX_FILE_SUFFIX.

Definition inverted_row_ids_map_filename : string :=
  "merged-inverted_row_ids_map" +:+ VECTOR_INDEX_FILE_SUFFIX.

Definition inverted_row_sources_map_filename : string :=
  "merged-inverted_row_sources_map" +:+ VECTOR_INDEX_FILE_SUFFIX.

(** The state of the loop that skips the fully expired columns. *)
Record ExpiredScan := {
  scan_expired_columns : gset string;
  scan_gathering_column_names : list string;
  scan_merging_column_names : list string;
  expired_columns_count : nat
}.

Definition skip_expired_column (st : ExpiredScan) (entry : string * bool) : ExpiredScan :=
  let '(column_name, finished) := entry in
  if finished
  then {| scan_expired_columns := scan_expired_columns st ∪ {[ column_name ]};
          scan_gathering_column_names :=
            filter (fun n => n ≠ column_name) (scan_gathering_column_names st);
          scan_merging_column_names :=
            filter (fun n => n ≠ column_name) (scan_merging_column_names st);
          expired_columns_count := S (expired_columns_count st) |}
  else st.

(** [NamesAndTypesList::filter(names)] *)
Definition filter_columns (columns : list NameAndTypePair.t) (names : list string)
    : list NameAndTypePair.t :=
  filter (fun column => NameAndTypePair.name column ∈ names) columns.

Definition skip_expired_columns (new_data_part : NewPart.t) (sets : ColumnSets.t)
    : NewPart.t * ColumnSets.t :=
  let st :=
    foldl skip_expired_column
      {| scan_expired_columns := NewPart.expired_columns new_data_part;
         scan_gathering_column_names := ColumnSets.gathering_column_names sets;
         scan_merging_column_names := ColumnSets.merging_column_names sets;
         expired_columns_count := 0 |}
      (TTLInfos.columns_ttl (NewPart.ttl_infos new_data_part)) in
  (NewPart.with_expired_columns (scan_expired_columns st) new_data_part,
   if (0 <? expired_columns_count st)%nat
   then {| ColumnSets.gathering_columns :=
             filter_columns (ColumnSets.gathering_columns sets)
                            (scan_gathering_column_names st);
           ColumnSets.gathering_column_names := scan_gathering_column_names st;
           ColumnSets.merging_columns :=
             filter_columns (ColumnSets.merging_columns sets)
                            (scan_merging_column_names st);
           ColumnSets.merging_column_names := scan_merging_column_names st |}
   else {| ColumnSets.gathering_columns := ColumnSets.gathering_columns sets;
           ColumnSets.gathering_column_names := scan_gathering_column_names st;
           ColumnSets.merging_columns := ColumnSets.merging_columns sets;
           ColumnSets.merging_column_names := scan_merging_column_names st |}).

(** The rows-sources temporary file and its write buffer, created empty. *)
Definition open_rows_sources (global_ctx : GlobalCtx.t) (ctx : HorizontalCtx.t)
    : GlobalCtx.t * HorizontalCtx.t :=
  (GlobalCtx.with_tmp_disk
     (<[ rows_sources_file_path := [] ]> (GlobalCtx.tmp_disk global_ctx)) global_ctx,
   HorizontalCtx.with_rows_sources_write_buf (Some [])
     (HorizontalCtx.with_rows_sources_file
        (Some {| TemporaryFile.path := rows_sources_file_path;
                 TemporaryFile.kept := false |}) ctx)).

(** Lines 382-408: the files of the row-ids maps, when the merged part can
    be decoupled. *)
Definition prepare_row_ids_maps
    (new_data_part : NewPart.t) (global_ctx : GlobalCtx.t) (ctx : HorizontalCtx.t)
    : outcome (GlobalCtx.t * HorizontalCtx.t) :=
  if Decouple.can_be_decouple (GlobalCtx.decouple global_ctx) then
    (* we need rows_sources info for vector index case *)
    let '(global_ctx, ctx) :=
      match HorizontalCtx.rows_sources_write_buf ctx with
      | None => open_rows_sources global_ctx ctx
      | Some _ => (global_ctx, ctx)
      end in
    (* keep this file *)
    rows_sources_file ← deref (HorizontalCtx.rows_sources_file ctx);
    let rows_sources_file := TemporaryFile.keep rows_sources_file in
    let ctx := HorizontalCtx.with_rows_sources_file (Some rows_sources_file) ctx in
    let parts :=
      FuturePart.parts (MergeTaskArgs.future_part (GlobalCtx.args global_ctx)) in
    let d := GlobalCtx.decouple global_ctx in
    let d := Decouple.with_inverted_row_ids_map_file_path
               (NewPart.full_path new_data_part +:+ inverted_row_ids_map_filename) d in
    let d := Decouple.with_row_ids_map_files
               (Decouple.row_ids_map_files d
                ++ imap (fun i part =>
                           NewPart.full_path new_data_part +:+ row_ids_map_filename i part)
                        parts) d in
    let d := Decouple.with_inverted_row_sources_map_file_path
               (TemporaryFile.path rows_sources_file) d in
    Return (GlobalCtx.with_decouple d global_ctx, ctx)
  else Return (global_ctx, ctx).

(** Lines 199-266 of [prepare]: the columns, and whether expired values
    are to be removed. *)
Definition prepare_columns_and_ttl (env : Env.t) (global_ctx : GlobalCtx.t)
    (new_data_part : NewPart.t) (ctx : HorizontalCtx.t)
    : outcome (GlobalCtx.t * NewPart.t * HorizontalCtx.t) :=
  let args := GlobalCtx.args global_ctx in
  let metadata_snapshot := MergeTaskArgs.metadata_snapshot args in
  let all_column_names :=
    NameAndTypePair.name <$> StorageMetadata.columns metadata_snapshot in
  let storage_columns := StorageMetadata.columns metadata_snapshot in
  let global_ctx := GlobalCtx.with_all_column_names all_column_names global_ctx in
  let global_ctx := GlobalCtx.with_storage_columns storage_columns global_ctx in
  column_sets ←
    extractMergingAndGatheringColumns
      storage_columns
      (StorageMetadata.sorting_key_required_columns metadata_snapshot)
      (StorageMetadata.secondary_indices metadata_snapshot)
      (MergeTaskArgs.merging_params args)
      (GlobalCtx.column_sets global_ctx);
  let global_ctx := GlobalCtx.with_column_sets column_sets global_ctx in
  (* the TTL information of the sources *)
  let '(infos, need_remove_expired_values, force_ttl) :=
    foldl (prepare_ttl_of_part metadata_snapshot)
          (NewPart.ttl_infos new_data_part, false, false)
          (FuturePart.parts (MergeTaskArgs.future_part args)) in
  let new_data_part := NewPart.with_ttl_infos infos new_data_part in
  let new_data_part := NewPart.with_columns storage_columns new_data_part in
  let local_part_min_ttl := TTLInfos.part_min_ttl infos in
  let need_remove_expired_values :=
    if negb (local_part_min_ttl =? 0)%N
       && (local_part_min_ttl <=? MergeTaskArgs.time_of_merge args)%N
    then true
    else need_remove_expired_values in
  (* Part has values with expired TTL, but merges with TTL are cancelled. *)
  let need_remove_expired_values :=
    if need_remove_expired_values && Env.ttl_merges_blocker env
    then false
    else need_remove_expired_values in
  let ctx := HorizontalCtx.with_need_remove_expired_values need_remove_expired_values ctx in
  let ctx := HorizontalCtx.with_force_ttl force_ttl ctx in
  Return (global_ctx, new_data_part, ctx).

(** Lines 268-317 of [prepare]: the algorithm is chosen and the column
    sets or the rows-sources file are set up for it. *)
Definition prepare_algorithm (global_ctx : GlobalCtx.t) (ctx : HorizontalCtx.t)
    : outcome (GlobalCtx.t * HorizontalCtx.t) :=
  let ctx :=
    HorizontalCtx.with_sum_input_rows_upper_bound
      (MergeListElement.total_rows_count (GlobalCtx.merge_list_element global_ctx)) ctx in
  let global_ctx :=
    GlobalCtx.with_chosen_merge_algorithm (chooseMergeAlgorithm global_ctx ctx) global_ctx in
  match GlobalCtx.chosen_merge_algorithm global_ctx with
  | MergeAlgorithm.Horizontal =>
      Return
        (GlobalCtx.with_column_sets
           {| ColumnSets.gathering_columns := [];
              ColumnSets.gathering_column_names := [];
              ColumnSets.merging_columns := GlobalCtx.storage_columns global_ctx;
              ColumnSets.merging_column_names := GlobalCtx.all_column_names global_ctx |}
           global_ctx,
         ctx)
  | MergeAlgorithm.Vertical => Return (open_rows_sources global_ctx ctx)
  | MergeAlgorithm.Undecided => Throw LOGICAL_ERROR "Merge algorithm must be chosen"
  end.

(** Lines 374-380 of [prepare]. *)
Definition merge_source_parts (parts : list DataPart.t) : list MergedPartNameAndId.t :=
  imap (fun i old_part =>
          {| MergedPartNameAndId.name := DataPart.name old_part;
             MergedPartNameAndId.id := i;
             MergedPartNameAndId.with_data :=
               negb (DataPart.rows_count old_part =? 0)%N |})
       parts.

(** Lines 410-472 of [prepare]: the merged stream, the expired columns,
    the writer and the cancellation closure. *)
Definition prepare_stream (global_ctx : GlobalCtx.t)
    (new_data_part : NewPart.t) (ctx : HorizontalCtx.t)
    : outcome (GlobalCtx.t * HorizontalCtx.t) :=
  (* Merged stream will be created and available as merged_stream variable *)
  '(global_ctx, ctx) ← createMergedStream global_ctx ctx;
  (* Skip fully expired columns manually *)
  let '(new_data_part, column_sets) :=
    if negb (HorizontalCtx.need_remove_expired_values ctx)
    then skip_expired_columns new_data_part (GlobalCtx.column_sets global_ctx)
    else (new_data_part, GlobalCtx.column_sets global_ctx) in
  let global_ctx := GlobalCtx.with_column_sets column_sets global_ctx in
  let global_ctx := GlobalCtx.with_new_data_part (Some new_data_part) global_ctx in
  let global_ctx := GlobalCtx.with_rows_written 0%N global_ctx in
  let ctx :=
    HorizontalCtx.with_is_cancelled_need_remove
      (HorizontalCtx.need_remove_expired_values ctx) ctx in
  Return (global_ctx, ctx).

Definition prepare (env : Env.t) (global_ctx : GlobalCtx.t) (ctx : HorizontalCtx.t)
    : subtask_result HorizontalCtx.t :=
  let args := GlobalCtx.args global_ctx in
  let future_part := MergeTaskArgs.future_part args in
  if Env.merges_blocker env || Env.is_cancelled env
  then Throw ABORTED "Cancelled merging parts"
  (* We don't want to perform merge assigned with TTL as normal merge, so
     throw exception *)
  else if isTTLMergeType (FuturePart.merge_type future_part)
          && Env.ttl_merges_blocker env
  then Throw ABORTED "Cancelled merging parts with TTL"
  else
  let new_data_part := build_new_data_part args in
  if World.directory_exists (GlobalCtx.world global_ctx)
  then Throw DIRECTORY_ALREADY_EXISTS
         ("Directory " +:+ NewPart.full_path new_data_part +:+ " already exists")
  else
  '(global_ctx, new_data_part, ctx) ←
    prepare_columns_and_ttl env global_ctx new_data_part ctx;
  '(global_ctx, ctx) ← prepare_algorithm global_ctx ctx;
  (* Check if decoupled data part is enabled. *)
  d ← checkDecouple (MergeTaskArgs.settings args)
        (StorageMetadata.vector_indices (MergeTaskArgs.metadata_snapshot args))
        (FuturePart.parts future_part)
        (GlobalCtx.decouple global_ctx);
  let global_ctx := GlobalCtx.with_decouple d global_ctx in
  let new_data_part :=
    NewPart.with_merged_source_parts
      (merge_source_parts (FuturePart.parts future_part)) new_data_part in
  '(global_ctx, ctx) ← prepare_row_ids_maps new_data_part global_ctx ctx;
  '(global_ctx, ctx) ← prepare_stream global_ctx new_data_part ctx;
  (* This is the end of preparation. Execution will be per block. *)
  Return (false, global_ctx, ctx).

(** The [is_cancelled] closure that [prepare] leaves in the context. *)
Definition is_cancelled (env : Env.t) (ctx : HorizontalCtx.t) : bool :=
  Env.merges_blocker env
  || (HorizontalCtx.is_cancelled_need_remove ctx && Env.ttl_merges_blocker env)
  || Env.is_cancelled env.
End Horizontal.

(** A loop whose body may throw. *)
Fixpoint fold_outcome {A S : Type} (body : S -> A -> outcome S)
    (l : list A) (s : S) : outcome S :=
  match l with
  | [] => Return s
  | a :: rest => s' ← body s a; fold_outcome body rest s'
  end.

(** [TemporaryFileOnDisk::~TemporaryFileOnDisk] *)
Definition destroy_temporary_file
    (file : option TemporaryFile.t) (disk : gmap string (list RowSourcePart.t))
    : gmap string (list RowSourcePart.t) :=
  match file with
  | Some f => if TemporaryFile.kept f then disk else delete (TemporaryFile.path f) disk
  | None => disk
  end.

Section Execute.
Context `{Engine}.

(** *** executeImpl *)

Definition executeImpl (env : Env.t) (global_ctx : GlobalCtx.t) (ctx : HorizontalCtx.t)
    : subtask_result HorizontalCtx.t :=
  pulled ←
    (if is_cancelled env ctx then Return None
     else
       executor ← deref (GlobalCtx.merging_executor global_ctx);
       match MergingExecutor.remaining executor with
       | [] => Return None
       | block :: rest =>
           Return (Some (block,
                         {| MergingExecutor.remaining := rest;
                            MergingExecutor.rows_sources_out :=
                              MergingExecutor.rows_sources_out executor |}))
       end);
  match pulled with
  | Some (block, executor) =>
      (* what the pull did on the way *)
      ctx ←
        (if MergingExecutor.rows_sources_out executor
         then buf ← deref (HorizontalCtx.rows_sources_write_buf ctx);
              Return (HorizontalCtx.with_rows_sources_write_buf
                        (Some (buf ++ Pulled.row_sources block)) ctx)
         else Return ctx);
      let merge_list_element := GlobalCtx.merge_list_element global_ctx in
      let global_ctx :=
        GlobalCtx.with_merge_list_element
          (MergeListElement.with_rows_read
             (UInt64.add (MergeListElement.rows_read merge_list_element)
                         (Pulled.rows_read block)) merge_list_element) global_ctx in
      let global_ctx :=
        GlobalCtx.with_input_rows_filtered
          (UInt64.add (GlobalCtx.input_rows_filtered global_ctx)
                      (Pulled.rows_filtered block)) global_ctx in
      let global_ctx := GlobalCtx.with_merging_executor (Some executor) global_ctx in
      (* the body of the [if] *)
      let global_ctx :=
        GlobalCtx.with_rows_written
          (UInt64.add (GlobalCtx.rows_written global_ctx) (Pulled.rows block))
          global_ctx in
      (* Need execute again *)
      Return (true, global_ctx, ctx)
  | None =>
      let global_ctx := GlobalCtx.with_merging_executor None global_ctx in
      if Env.merges_blocker env || Env.is_cancelled env
      then Throw ABORTED "Cancelled merging parts"
      else if HorizontalCtx.need_remove_expired_values ctx
              && Env.ttl_merges_blocker env
      then Throw ABORTED "Cancelled merging parts with expired TTL"
      else Return (false, global_ctx, ctx)
  end.

(** *** generateRowIdsMap *)

(** The first loop: the [_part_offset] column of every source part with
    at least one mark. *)
Definition read_part_offsets (part : DataPart.t) : list N :=
  if (DataPart.marks_count part =? 0)%N then [] else DataPart.part_offsets part.

(** The variables of the loop that replays the rows-sources stream. *)
Record Replay := {
  new_part_row_id : N;
  source_row_ids : list N;
  parts_new_row_ids : list (gmap N N);
  inverted_row_ids_map_buf : list N
}.

Definition replay_start (parts_count : nat) : Replay :=
  {| new_part_row_id := 0%N;
     source_row_ids := replicate parts_count 0%N;
     parts_new_row_ids := replicate parts_count ∅;
     inverted_row_ids_map_buf := [] |}.

(** The body of the replay for a row that is kept: it goes to the inverted
    map and gets the next row id of the new part. *)
Definition record_new_row_id (part_offsets : list (list N))
    (st : Replay) (source_num : nat) : outcome Replay :=
  offsets ← at_index part_offsets source_num;
  cursor ← at_index (source_row_ids st) source_num;
  old_part_offset ← at_index offsets (N.to_nat cursor);
  ids ← at_index (parts_new_row_ids st) source_num;
  Return {| new_part_row_id := UInt64.incr (new_part_row_id st);
            source_row_ids := source_row_ids st;
            parts_new_row_ids :=
              <[ source_num := <[ old_part_offset := new_part_row_id st ]> ids ]>
                (parts_new_row_ids st);
            inverted_row_ids_map_buf :=
              inverted_row_ids_map_buf st ++ [old_part_offset] |}.

(** [++source_row_ids[source_num]] *)
Definition advance_source (st : Replay) (source_num : nat) : outcome Replay :=
  cursor ← at_index (source_row_ids st) source_num;
  Return {| new_part_row_id := new_part_row_id st;
            source_row_ids := <[ source_num := UInt64.incr cursor ]> (source_row_ids st);
            parts_new_row_ids := parts_new_row_ids st;
            inverted_row_ids_map_buf := inverted_row_ids_map_buf st |}.

(** One record, in Collapsing, Replacing and VersionedCollapsing mode. *)
Definition replay_record_collapsing (part_offsets : list (list N))
    (st : Replay) (row_source : RowSourcePart.t) : outcome Replay :=
  let source_num := RowSourcePart.getSourceNum row_source in
  st ← (if negb (RowSourcePart.getSkipFlag row_source)
        then record_new_row_id part_offsets st source_num
        else Return st);
  advance_source st source_num.

(** One record, in the other modes. *)
Definition replay_record_plain (part_offsets : list (list N))
    (st : Replay) (row_source : RowSourcePart.t) : outcome Replay :=
  let source_num := RowSourcePart.getSourceNum row_source in
  st ← record_new_row_id part_offsets st source_num;
  advance_source st source_num.

(** The [while (old_row_id < partRowNum)] loop of the collapsing modes:
    the entries written to the forward map and the row ids collected for
    deletion.  [old_row_id] stays below [partRowNum], so [++old_row_id]
    does not wrap. *)
Fixpoint write_row_ids_collapsing (ids : gmap N N) (remaining : nat)
    (old_row_id : N) (written deleted : list N) : list N * list N :=
  match remaining with
  | 0 => (written, deleted)
  | S remaining =>
      match ids !! old_row_id with
      | Some new_row_id =>
          write_row_ids_collapsing ids remaining (N.succ old_row_id)
            (written ++ [new_row_id]) deleted
      | None =>
          (* generate delete row id for using in vector index *)
          write_row_ids_collapsing ids remaining (N.succ old_row_id)
            written (deleted ++ [old_row_id])
      end
  end.

(** The same loop of the other modes. *)
Fixpoint write_row_ids_plain (ids : gmap N N) (remaining : nat)
    (old_row_id : N) (written : list N) : list N :=
  match remaining with
  | 0 => written
  | S remaining =>
      let new_row_id :=
        match ids !! old_row_id with
        | Some new_row_id => new_row_id
        | None => UInt64.of_Z (-1)
        end in
      write_row_ids_plain ids remaining (N.succ old_row_id) (written ++ [new_row_id])
  end.

(** Writing to [*global_ctx->row_ids_map_bufs[source_num]]; the buffer is
    only touched when there is something to write. *)
Definition append_to_buf (bufs : list (list N)) (source_num : nat) (entries : list N)
    : outcome (list (list N)) :=
  match entries with
  | [] => Return bufs
  | _ :: _ =>
      buf ← at_index bufs source_num;
      Return (<[ source_num := buf ++ entries ]> bufs)
  end.

Definition update_bitmaps (part : DataPart.t) (deleteRowIds : list N)
    (vector_indices : list VectorIndexDescription.t)
    (updates : list BitmapUpdate.t) : outcome (list BitmapUpdate.t) :=
  fold_outcome
    (fun updates vec_index_desc =>
       if DataPart.storage_on_disk part
       then Return (updates ++
                      [ {| BitmapUpdate.part_name := DataPart.name part;
                           BitmapUpdate.index_name :=
                             VectorIndexDescription.name vec_index_desc;
                           BitmapUpdate.row_ids := deleteRowIds |} ])
       else Throw BAD_ARGUMENTS "Unsupported part storage.")
    vector_indices updates.

(** The forward map of one source, collapsing modes.  [vector_indices]
    are the vector indices of the in-memory metadata of the table
    (line 699), not those of the snapshot of the merge. *)
Definition write_row_ids_map_collapsing
    (parts : list DataPart.t) (vector_indices : list VectorIndexDescription.t)
    (ids_of : list (gmap N N))
    (st : list (list N) * list BitmapUpdate.t) (source_num : nat)
    : outcome (list (list N) * list BitmapUpdate.t) :=
  let '(bufs, updates) := st in
  part ← at_index parts source_num;
  ids ← at_index ids_of source_num;
  let partRowNum := DataPart.rows_count part in
  let '(written, deleted) :=
    write_row_ids_collapsing ids (N.to_nat partRowNum) 0%N [] [] in
  bufs ← append_to_buf bufs source_num written;
  if (0 <? length deleted)%nat
  then
    let deleteRowIds :=
      deleted ++ replicate (N.to_nat partRowNum - length deleted) 0%N in
    updates ← update_bitmaps part deleteRowIds vector_indices updates;
    Return (bufs, updates)
  else Return (bufs, updates).

(** The forward map of one source, other modes. *)
Definition write_row_ids_map_plain
    (parts : list DataPart.t) (ids_of : list (gmap N N))
    (bufs : list (list N)) (source_num : nat) : outcome (list (list N)) :=
  part ← at_index parts source_num;
  ids ← at_index ids_of source_num;
  append_to_buf bufs source_num
    (write_row_ids_plain ids (N.to_nat (DataPart.rows_count part)) 0%N []).

Definition is_collapsing_mode (mode : MergingParams.Mode) : bool :=
  bool_decide (mode = MergingParams.Collapsing)
  || bool_decide (mode = MergingParams.Replacing)
  || bool_decide (mode = MergingParams.VersionedCollapsing).

(** The two branches of the [try] block, from the replay to the last
    forward map: the inverted map, the forward maps, the bitmap updates. *)
Definition build_row_ids_maps (mode : MergingParams.Mode)
    (parts : list DataPart.t) (vector_indices : list VectorIndexDescription.t)
    (rows_sources : list RowSourcePart.t)
    (bufs : list (list N)) (updates : list BitmapUpdate.t)
    : outcome (list N * list (list N) * list BitmapUpdate.t) :=
  let old_parts_num := length parts in
  let part_offsets := read_part_offsets <$> parts in
  if is_collapsing_mode mode then
    st ← fold_outcome (replay_record_collapsing part_offsets)
           rows_sources (replay_start old_parts_num);
    '(bufs, updates) ←
      fold_outcome
        (write_row_ids_map_collapsing parts vector_indices (parts_new_row_ids st))
        (seq 0 old_parts_num) (bufs, updates);
    Return (inverted_row_ids_map_buf st, bufs, updates)
  else
    st ← fold_outcome (replay_record_plain part_offsets)
           rows_sources (replay_start old_parts_num);
    bufs ← fold_outcome (write_row_ids_map_plain parts (parts_new_row_ids st))
             (seq 0 old_parts_num) bufs;
    Return (inverted_row_ids_map_buf st, bufs, updates).

(** [writeFile] and, at the end, [next(); finalize()] of a map file. *)
Definition store_map_file (path : string) (entries : list N)
    (files : gmap string FileContent) : gmap string FileContent :=
  <[ path := IntText entries ]> files.

(** The last loop: every forward map buffer, by source index, is flushed
    to its file. *)
Definition flush_row_ids_map (row_ids_map_files : list string) (bufs : list (list N))
    (files : gmap string FileContent) (i : nat) : outcome (gmap string FileContent) :=
  buf ← at_index bufs i;
  path ← at_index row_ids_map_files i;
  Return (store_map_file path buf files).

Definition generateRowIdsMap (global_ctx : GlobalCtx.t) (ctx : HorizontalCtx.t)
    : subtask_result HorizontalCtx.t :=
  let d := GlobalCtx.decouple global_ctx in
  if decide (Decouple.inverted_row_ids_map_file_path d = "")
  then Return (false, global_ctx, ctx)
  else
  let args := GlobalCtx.args global_ctx in
  let parts := FuturePart.parts (MergeTaskArgs.future_part args) in
  (* try *)
  rows_sources ← deref (HorizontalCtx.rows_sources_write_buf ctx);
  rows_sources_file ← deref (HorizontalCtx.rows_sources_file ctx);
  (* Ensure data has written to disk. *)
  let tmp_disk :=
    <[ TemporaryFile.path rows_sources_file := rows_sources ]>
      (GlobalCtx.tmp_disk global_ctx) in
  (* get rows sources info from local file *)
  rows_sources_read_buf ← deref (tmp_disk !! TemporaryFile.path rows_sources_file);
  new_data_part ← deref (GlobalCtx.new_data_part global_ctx);
  (* the write buffers of the maps; opening a file creates it *)
  let files :=
    store_map_file (Decouple.inverted_row_ids_map_file_path d) []
      (NewPart.files new_data_part) in
  let files :=
    foldl (fun files row_ids_map_file => store_map_file row_ids_map_file [] files)
          files (Decouple.row_ids_map_files d) in
  let bufs := (fun _ => []) <$> Decouple.row_ids_map_files d in
  '(inverted, bufs, updates) ←
    build_row_ids_maps
      (MergingParams.mode (MergeTaskArgs.merging_params args))
      parts
      (StorageMetadata.vector_indices (MergeTaskArgs.in_memory_metadata args))
      rows_sources_read_buf bufs (GlobalCtx.bitmap_updates global_ctx);
  let '(tmp_disk, ctx) :=
    if decide (GlobalCtx.chosen_merge_algorithm global_ctx = MergeAlgorithm.Horizontal)
    then (destroy_temporary_file (HorizontalCtx.rows_sources_file ctx) tmp_disk,
          HorizontalCtx.with_rows_sources_write_buf None
            (HorizontalCtx.with_rows_sources_file None ctx))
    else (tmp_disk, ctx) in
  files ← fold_outcome (flush_row_ids_map (Decouple.row_ids_map_files d) bufs)
            (seq 0 (length parts)) files;
  let files := store_map_file (Decouple.inverted_row_ids_map_file_path d) inverted files in
  let d := Decouple.with_row_ids_map_bufs bufs
             (Decouple.with_inverted_row_ids_map_buf (Some inverted) d) in
  let global_ctx := GlobalCtx.with_decouple d global_ctx in
  let global_ctx := GlobalCtx.with_tmp_disk tmp_disk global_ctx in
  let global_ctx := GlobalCtx.with_bitmap_updates updates global_ctx in
  let global_ctx :=
    GlobalCtx.with_new_data_part (Some (NewPart.with_files files new_data_part))
      global_ctx in
  Return (false, global_ctx, ctx).
End Execute.

(** ** The vertical stage *)

Section Vertical.
Context `{Engine}.

(** [ExecuteAndFinalizeHorizontalPart::getContextForNextStage] *)
Definition horizontal_getContextForNextStage (ctx : HorizontalCtx.t) : VerticalCtx.t :=
  {| VerticalCtx.rows_sources_file := HorizontalCtx.rows_sources_file ctx;
     VerticalCtx.rows_sources_write_buf := HorizontalCtx.rows_sources_write_buf ctx;
     VerticalCtx.rows_sources_read_buf := None;
     VerticalCtx.column_num_for_vertical_merge := 0;
     VerticalCtx.it_name_and_type := 0;
     VerticalCtx.vertical_merge_one_column_state := OneColumnState.NEED_PREPARE;
     VerticalCtx.column_elems_written := 0%N;
     VerticalCtx.executor := None;
     VerticalCtx.column_to := None;
     VerticalCtx.max_delayed_streams := 0;
     VerticalCtx.delayed_streams := [] |}.

Definition rows_sources_mismatch_message
    (sum_input_rows_exact input_rows_filtered rows_sources_count : N) : string :=
  "Number of rows in source parts (" +:+ pretty sum_input_rows_exact
    +:+ ") excluding filtered rows (" +:+ pretty input_rows_filtered
    +:+ ") differs from number of bytes written to rows_sources file ("
    +:+ pretty rows_sources_count +:+ "). It is a bug.".

Definition prepareVerticalMergeForAllColumns
    (global_ctx : GlobalCtx.t) (ctx : VerticalCtx.t) : subtask_result VerticalCtx.t :=
  (* No need to execute this part if it is horizontal merge. *)
  if negb (bool_decide (GlobalCtx.chosen_merge_algorithm global_ctx
                        = MergeAlgorithm.Vertical))
  then Return (false, global_ctx, ctx)
  else
  let merge_list_element := GlobalCtx.merge_list_element global_ctx in
  let sum_input_rows_exact := MergeListElement.rows_read merge_list_element in
  let input_rows_filtered := GlobalCtx.input_rows_filtered global_ctx in
  let global_ctx :=
    GlobalCtx.with_merge_list_element
      (MergeListElement.with_columns_written
         (length (ColumnSets.merging_column_names (GlobalCtx.column_sets global_ctx)))
         merge_list_element) global_ctx in
  rows_sources ← deref (VerticalCtx.rows_sources_write_buf ctx);
  rows_sources_file ← deref (VerticalCtx.rows_sources_file ctx);
  (* Ensure data has written to disk. *)
  let tmp_disk :=
    <[ TemporaryFile.path rows_sources_file := rows_sources ]>
      (GlobalCtx.tmp_disk global_ctx) in
  let global_ctx := GlobalCtx.with_tmp_disk tmp_disk global_ctx in
  let rows_sources_count := N.of_nat (length rows_sources) in
  (* In special case, when there is only one source part, and no rows were
     skipped, we may have skipped writing rows_sources file.  Otherwise
     rows_sources_count must be equal to the total number of input rows. *)
  if ((0 <? rows_sources_count)%N
      || (1 <? length (FuturePart.parts
                         (MergeTaskArgs.future_part (GlobalCtx.args global_ctx))))%nat)
     && negb (sum_input_rows_exact
              =? UInt64.add rows_sources_count input_rows_filtered)%N
  then Throw LOGICAL_ERROR
         (rows_sources_mismatch_message
            sum_input_rows_exact input_rows_filtered rows_sources_count)
  else
  rows_sources_read_buf ← deref (tmp_disk !! TemporaryFile.path rows_sources_file);
  let ctx := VerticalCtx.with_rows_sources_read_buf (Some rows_sources_read_buf) ctx in
  (* For external cycle *)
  let global_ctx :=
    GlobalCtx.with_gathering_column_names_size
      (length (ColumnSets.gathering_column_names (GlobalCtx.column_sets global_ctx)))
      global_ctx in
  let ctx := VerticalCtx.with_column_num_for_vertical_merge 0 ctx in
  let ctx := VerticalCtx.with_it_name_and_type 0 ctx in
  let max_delayed_streams :=
    if supportParallelWrite
    then match Settings.max_insert_delayed_streams_for_parallel_write
                 (MergeTaskArgs.settings (GlobalCtx.args global_ctx)) with
         | Some changed => changed
         | None => DEFAULT_DELAYED_STREAMS_FOR_PARALLEL_WRITE
         end
    else 0 in
  let ctx := VerticalCtx.with_max_delayed_streams max_delayed_streams ctx in
  Return (false, global_ctx, ctx).

Definition prepareVerticalMergeForOneColumn
    (global_ctx : GlobalCtx.t) (ctx : VerticalCtx.t)
    : outcome (GlobalCtx.t * VerticalCtx.t) :=
  column ← at_index (ColumnSets.gathering_columns (GlobalCtx.column_sets global_ctx))
                    (VerticalCtx.it_name_and_type ctx);
  let column_name := NameAndTypePair.name column in
  (* ctx->rows_sources_read_buf->seek(0, 0) *)
  _ ← deref (VerticalCtx.rows_sources_read_buf ctx);
  let ctx :=
    VerticalCtx.with_executor
      (Some (World.column_pipeline (GlobalCtx.world global_ctx) column_name)) ctx in
  let ctx := VerticalCtx.with_column_to (Some column_name) ctx in
  let ctx := VerticalCtx.with_column_elems_written 0%N ctx in
  Return (global_ctx, ctx).

Definition executeVerticalMergeForOneColumn
    (env : Env.t) (global_ctx : GlobalCtx.t) (ctx : VerticalCtx.t)
    : outcome (bool * GlobalCtx.t * VerticalCtx.t) :=
  if negb (Env.merges_blocker env) && negb (Env.is_cancelled env)
  then
    executor ← deref (VerticalCtx.executor ctx);
    match executor with
    | block_rows :: rest =>
        let ctx := VerticalCtx.with_executor (Some rest) ctx in
        let ctx :=
          VerticalCtx.with_column_elems_written
            (UInt64.add (VerticalCtx.column_elems_written ctx) block_rows) ctx in
        (* Need execute again *)
        Return (true, global_ctx, ctx)
    | [] => Return (false, global_ctx, ctx)
    end
  else Return (false, global_ctx, ctx).

Definition column_count_mismatch_message
    (column_elems_written : N) (column_name : string) (rows_written : N) : string :=
  "Written " +:+ pretty column_elems_written +:+ " elements of column "
    +:+ column_name +:+ ", but " +:+ pretty rows_written +:+ " rows of PK columns".

Definition finalizeVerticalMergeForOneColumn
    (env : Env.t) (global_ctx : GlobalCtx.t) (ctx : VerticalCtx.t)
    : outcome (GlobalCtx.t * VerticalCtx.t) :=
  column ← at_index (ColumnSets.gathering_columns (GlobalCtx.column_sets global_ctx))
                    (VerticalCtx.it_name_and_type ctx);
  let column_name := NameAndTypePair.name column in
  if Env.merges_blocker env || Env.is_cancelled env
  then Throw ABORTED "Cancelled merging parts"
  else
  let ctx := VerticalCtx.with_executor None ctx in
  column_to ← deref (VerticalCtx.column_to ctx);
  let delayed_streams := VerticalCtx.delayed_streams ctx ++ [column_to] in
  let ctx := VerticalCtx.with_column_to None ctx in
  (* while (delayed_streams.size() > max_delayed_streams) pop_front() *)
  let delayed_streams :=
    drop (length delayed_streams - VerticalCtx.max_delayed_streams ctx) delayed_streams in
  let ctx := VerticalCtx.with_delayed_streams delayed_streams ctx in
  if negb (GlobalCtx.rows_written global_ctx =? VerticalCtx.column_elems_written ctx)%N
  then Throw LOGICAL_ERROR
         (column_count_mismatch_message
            (VerticalCtx.column_elems_written ctx) column_name
            (GlobalCtx.rows_written global_ctx))
  else
  let merge_list_element := GlobalCtx.merge_list_element global_ctx in
  let global_ctx :=
    GlobalCtx.with_merge_list_element
      (MergeListElement.with_columns_written
         (MergeListElement.columns_written merge_list_element + 1)
         merge_list_element) global_ctx in
  (* This is the external cycle increment. *)
  let ctx :=
    VerticalCtx.with_column_num_for_vertical_merge
      (VerticalCtx.column_num_for_vertical_merge ctx + 1) ctx in
  let ctx := VerticalCtx.with_it_name_and_type (VerticalCtx.it_name_and_type ctx + 1) ctx in
  Return (global_ctx, ctx).

Definition executeVerticalMergeForAllColumns
    (env : Env.t) (global_ctx : GlobalCtx.t) (ctx : VerticalCtx.t)
    : subtask_result VerticalCtx.t :=
  (* No need to execute this part if it is horizontal merge. *)
  if negb (bool_decide (GlobalCtx.chosen_merge_algorithm global_ctx
                        = MergeAlgorithm.Vertical))
  then Return (false, global_ctx, ctx)
  (* This is the external cycle condition *)
  else if (GlobalCtx.gathering_column_names_size global_ctx
           <=? VerticalCtx.column_num_for_vertical_merge ctx)%nat
  then Return (false, global_ctx, ctx)
  else
    match VerticalCtx.vertical_merge_one_column_state ctx with
    | OneColumnState.NEED_PREPARE =>
        '(global_ctx, ctx) ← prepareVerticalMergeForOneColumn global_ctx ctx;
        Return (true, global_ctx,
                VerticalCtx.with_vertical_merge_one_column_state
                  OneColumnState.NEED_EXECUTE ctx)
    | OneColumnState.NEED_EXECUTE =>
        '(again, global_ctx, ctx) ← executeVerticalMergeForOneColumn env global_ctx ctx;
        if again : bool then Return (true, global_ctx, ctx)
        else Return (true, global_ctx,
                     VerticalCtx.with_vertical_merge_one_column_state
                       OneColumnState.NEED_FINISH ctx)
    | OneColumnState.NEED_FINISH =>
        '(global_ctx, ctx) ← finalizeVerticalMergeForOneColumn env global_ctx ctx;
        Return (true, global_ctx,
                VerticalCtx.with_vertical_merge_one_column_state
                  OneColumnState.NEED_PREPARE ctx)
    end.

(** The delayed streams are finished; nothing of the model changes. *)
Definition finalizeVerticalMergeForAllColumns
    (global_ctx : GlobalCtx.t) (ctx : VerticalCtx.t) : subtask_result VerticalCtx.t :=
  Return (false, global_ctx, ctx).
End Vertical.

(** ** The projections stage and the driver *)

(** [MergeProjectionsRuntimeContext]; [Child] is the type of the nested
    merge tasks. *)
Module ProjectionsCtx.
Record t (Child : Type) := {
  tasks_for_projections : list Child;
  (** the iterator, as an index into [tasks_for_projections] *)
  projections_iterator : nat
}.
Arguments tasks_for_projections {Child} _.
Arguments projections_iterator {Child} _.
End ProjectionsCtx.

(** The stage the task is in, with the runtime context of that stage and
    the position of [subtasks_iterator]; [Finished] is
    [stages_iterator == stages.end()]. *)
Inductive Stage (Child : Type) :=
| ExecuteAndFinalizeHorizontalPart (subtasks_iterator : nat) (ctx : HorizontalCtx.t)
| VerticalMergeStage (subtasks_iterator : nat) (ctx : VerticalCtx.t)
| MergeProjectionsStage (subtasks_iterator : nat) (ctx : ProjectionsCtx.t Child)
| Finished.
Arguments ExecuteAndFinalizeHorizontalPart {Child} _ _.
Arguments VerticalMergeStage {Child} _ _.
Arguments MergeProjectionsStage {Child} _ _.
Arguments Finished {Child}.

Module MergeTask.
Record t (Child : Type) := {
  global_ctx : GlobalCtx.t;
  stage : Stage Child
}.
Arguments global_ctx {Child} _.
Arguments stage {Child} _.
End MergeTask.

Section Driver.
Context `{Engine}.
Context {Child : Type}.
(** [std::make_shared<MergeTask>(...)] for a projection *)
Variable child_create : MergeTaskArgs.t -> Child.
(** [task->execute()] of a nested task *)
Variable child_execute : Env.t -> Child -> outcome (bool * Child).
(** [task->getFuture().get()] of a nested task *)
Variable child_future : Child -> outcome NewPart.t.

(** *** mergeMinMaxIndexAndPrepareProjections *)

(** The arguments lines 1072-1091 give to the nested task. *)
Definition projection_task_args (global_ctx : GlobalCtx.t) (new_data_part : NewPart.t)
    (projection : ProjectionDescription.t) (projection_parts : list DataPart.t)
    : MergeTaskArgs.t :=
  let args := GlobalCtx.args global_ctx in
  {| MergeTaskArgs.future_part :=
       {| FuturePart.name := ProjectionDescription.name projection;
          FuturePart.parts := projection_parts;
          FuturePart.merge_type := MergeType.Regular;
          FuturePart.part_format := assign_part_format projection_parts |};
     MergeTaskArgs.metadata_snapshot := StorageMetadata.of_projection projection;
     MergeTaskArgs.time_of_merge := MergeTaskArgs.time_of_merge args;
     MergeTaskArgs.deduplicate := MergeTaskArgs.deduplicate args;
     MergeTaskArgs.deduplicate_by_columns := MergeTaskArgs.deduplicate_by_columns args;
     MergeTaskArgs.cleanup := MergeTaskArgs.cleanup args;
     MergeTaskArgs.merging_params :=
       {| MergingParams.mode :=
            if decide (ProjectionDescription.type projection
                       = ProjectionDescription.Aggregate)
            then MergingParams.Aggregating
            else MergingParams.Ordinary;
          MergingParams.sign_column := "";
          MergingParams.version_column := "";
          MergingParams.is_deleted_column := "";
          MergingParams.columns_to_sum := [] |};
     MergeTaskArgs.need_prefix := MergeTaskArgs.need_prefix args;
     MergeTaskArgs.parent_part :=
       Some {| ParentPart.name := NewPart.name new_data_part;
               ParentPart.full_path := NewPart.full_path new_data_part |};
     MergeTaskArgs.suffix := ".proj";
     MergeTaskArgs.settings := MergeTaskArgs.settings args;
     MergeTaskArgs.in_memory_metadata := MergeTaskArgs.in_memory_metadata args |}.

(** The projection parts named [projection.name] of the sources that have
    one, in the order of the sources. *)
Definition collect_projection_parts (projection : ProjectionDescription.t)
    (parts : list DataPart.t) : list DataPart.t :=
  omap (fun part => DataPart.projection_parts part
                      !! ProjectionDescription.name projection) parts.

(** One turn of the loop over the projections. *)
Definition prepare_projection (global_ctx : GlobalCtx.t) (new_data_part : NewPart.t)
    (tasks : list MergeTaskArgs.t) (projection : ProjectionDescription.t)
    : list MergeTaskArgs.t :=
  let parts := FuturePart.parts (MergeTaskArgs.future_part (GlobalCtx.args global_ctx)) in
  let projection_parts := collect_projection_parts projection parts in
  if (length projection_parts <? length parts)%nat
  then tasks (* not merged because some parts don't have it *)
  else tasks ++ [projection_task_args global_ctx new_data_part projection projection_parts].

(** The arguments of the nested tasks this merge creates, in order. *)
Definition projection_tasks_args (global_ctx : GlobalCtx.t) (new_data_part : NewPart.t)
    : list MergeTaskArgs.t :=
  foldl (prepare_projection global_ctx new_data_part) []
    (StorageMetadata.projections
       (MergeTaskArgs.metadata_snapshot (GlobalCtx.args global_ctx))).

Definition mergeMinMaxIndexAndPrepareProjections
    (global_ctx : GlobalCtx.t) (ctx : ProjectionsCtx.t Child)
    : subtask_result (ProjectionsCtx.t Child) :=
  new_data_part ← deref (GlobalCtx.new_data_part global_ctx);
  let tasks :=
    ProjectionsCtx.tasks_for_projections ctx
    ++ (child_create <$> projection_tasks_args global_ctx new_data_part) in
  (* We will iterate through projections and execute them *)
  Return (false, global_ctx,
          {| ProjectionsCtx.tasks_for_projections := tasks;
             ProjectionsCtx.projections_iterator := 0 |}).

(** *** executeProjections *)

Definition executeProjections
    (env : Env.t) (global_ctx : GlobalCtx.t) (ctx : ProjectionsCtx.t Child)
    : subtask_result (ProjectionsCtx.t Child) :=
  match ProjectionsCtx.tasks_for_projections ctx
        !! ProjectionsCtx.projections_iterator ctx with
  | None => Return (false, global_ctx, ctx)
  | Some task =>
      '(again, task) ← child_execute env task;
      let tasks :=
        <[ ProjectionsCtx.projections_iterator ctx := task ]>
          (ProjectionsCtx.tasks_for_projections ctx) in
      if again : bool
      then Return (true, global_ctx,
                   {| ProjectionsCtx.tasks_for_projections := tasks;
                      ProjectionsCtx.projections_iterator :=
                        ProjectionsCtx.projections_iterator ctx |})
      else Return (true, global_ctx,
                   {| ProjectionsCtx.tasks_for_projections := tasks;
                      ProjectionsCtx.projections_iterator :=
                        ProjectionsCtx.projections_iterator ctx + 1 |})
  end.

(** *** finalizeProjectionsAndWholeMerge *)

(** [MergeTreeDataPartChecksums::add]: the files of [rhs] are assigned. *)
Definition checksums_add (checksums rhs : gmap string Checksum.t)
    : gmap string Checksum.t := rhs ∪ checksums.

(** [MergeTreeDataPartChecksums::addFile] *)
Definition checksums_addFile (file_name : string) (file_size file_hash : N)
    (checksums : gmap string Checksum.t) : gmap string Checksum.t :=
  <[ file_name := {| Checksum.file_size := file_size;
                     Checksum.file_hash := file_hash |} ]> checksums.

(** The moved files are in the directory of the new part afterwards. *)
Definition place_moved_files (full_path : string) (moved : gmap string Checksum.t)
    (files : gmap string FileContent) : gmap string FileContent :=
  map_fold (fun file_name checksum files =>
              <[ full_path +:+ file_name := IndexFile checksum ]> files)
           files moved.

(** The loop over the source parts that moves the files of one index
    (lines 1144-1160). *)
Definition move_index_of_part (vec_index_name : string)
    (st : gmap string (gmap string Checksum.t) * NewPart.t)
    (entry : nat * DataPart.t)
    : gmap string (gmap string Checksum.t) * NewPart.t :=
  let '(vector_index_checksums_map_tmp, new_data_part) := st in
  let '(i, old_part) := entry in
  if (DataPart.rows_count old_part =? 0)%N then st (* continue *)
  else
    let merged_index_checksums :=
      moveVectorIndexFiles true (pretty i) (DataPart.name old_part)
                           vec_index_name old_part in
    (<[ vec_index_name :=
          checksums_add
            (default ∅ (vector_index_checksums_map_tmp !! vec_index_name))
            merged_index_checksums ]> vector_index_checksums_map_tmp,
     NewPart.with_files
       (place_moved_files (NewPart.full_path new_data_part) merged_index_checksums
                          (NewPart.files new_data_part)) new_data_part).

Definition move_index (all_parts_have_vector_index : gmap string bool)
    (parts : list DataPart.t)
    (st : gmap string (gmap string Checksum.t) * NewPart.t)
    (vec_index : VectorIndexDescription.t)
    : gmap string (gmap string Checksum.t) * NewPart.t :=
  match all_parts_have_vector_index !! VectorIndexDescription.name vec_index with
  | Some true =>
      foldl (move_index_of_part (VectorIndexDescription.name vec_index))
            st (imap pair parts)
  | _ => st
  end.

(** The names of the map files that go into the checksums
    (lines 1186-1199). *)
Definition index_map_filenames (parts : list DataPart.t) : gset string :=
  foldl (fun (names : gset string) (entry : nat * DataPart.t) =>
           let '(i, part) := entry in
           if (DataPart.rows_count part =? 0)%N then names (* continue *)
           else names ∪ {[ row_ids_map_filename i part ]})
        ({[ inverted_row_sources_map_filename ]} ∪ {[ inverted_row_ids_map_filename ]})
        (imap pair parts).

(** Lines 1201-1208: every map file is read back and hashed. *)
Definition hash_map_file (new_data_part : NewPart.t)
    (checksums_results : list (string * N * N)) (map_filename : string)
    : outcome (list (string * N * N)) :=
  match NewPart.files new_data_part !! (NewPart.full_path new_data_part +:+ map_filename) with
  | Some content =>
      Return (checksums_results
                ++ [(map_filename, hashing_count content, hashing_getHash content)])
  | None => Throw FILE_DOESNT_EXIST map_filename
  end.

(** Lines 1212-1220: the map files are added to the checksums of every
    index that had files moved. *)
Definition add_map_files (checksums_results : list (string * N * N))
    (vector_index_checksums : gmap string Checksum.t) : gmap string Checksum.t :=
  foldl (fun checksums (result : string * N * N) =>
           let '(filename_, file_size_, hash_) := result in
           checksums_addFile filename_ file_size_ hash_ checksums)
        vector_index_checksums checksums_results.

(** The decouple branch of the finalizer (lines 1136-1238). *)
Definition finalize_decouple (global_ctx : GlobalCtx.t) (new_data_part : NewPart.t)
    : outcome (GlobalCtx.t * NewPart.t) :=
  let args := GlobalCtx.args global_ctx in
  let parts := FuturePart.parts (MergeTaskArgs.future_part args) in
  let d := GlobalCtx.decouple global_ctx in
  let '(vector_index_checksums_map_tmp, new_data_part) :=
    foldl (move_index (Decouple.all_parts_have_vector_index d) parts)
          (∅, new_data_part)
          (StorageMetadata.vector_indices (MergeTaskArgs.metadata_snapshot args)) in
  (* finalize row sources map info to new data part dir *)
  rows_sources ←
    match GlobalCtx.tmp_disk global_ctx
          !! Decouple.inverted_row_sources_map_file_path d with
    | Some records => Return records
    | None => Throw FILE_DOESNT_EXIST (Decouple.inverted_row_sources_map_file_path d)
    end;
  let new_data_part :=
    NewPart.with_files
      (<[ NewPart.full_path new_data_part +:+ inverted_row_sources_map_filename
          := RowSources rows_sources ]> (NewPart.files new_data_part))
      new_data_part in
  (* Previously we marked this tmp file to be kept *)
  let global_ctx :=
    GlobalCtx.with_tmp_disk
      (delete (Decouple.inverted_row_sources_map_file_path d)
              (GlobalCtx.tmp_disk global_ctx)) global_ctx in
  checksums_results ←
    fold_outcome (hash_map_file new_data_part)
                 (elements (index_map_filenames parts)) [];
  (* write index checksum file to disk *)
  let new_data_part :=
    NewPart.with_vector_index_checksums
      ((add_map_files checksums_results <$> vector_index_checksums_map_tmp)
       ∪ NewPart.vector_index_checksums new_data_part)
      new_data_part in
  Return (global_ctx, new_data_part).

(** The single-VPart branch (lines 1239-1266). *)
Definition finalize_single_vpart (global_ctx : GlobalCtx.t) (new_data_part : NewPart.t)
    : outcome NewPart.t :=
  let args := GlobalCtx.args global_ctx in
  let d := GlobalCtx.decouple global_ctx in
  old_part ← at_index (FuturePart.parts (MergeTaskArgs.future_part args))
                      (Decouple.first_part_with_data d);
  Return
    (foldl
       (fun new_data_part vec_index =>
          match Decouple.all_parts_have_vector_index d
                !! VectorIndexDescription.name vec_index with
          | Some true =>
              let index_checksums :=
                moveVectorIndexFiles false (pretty 0) (DataPart.name old_part)
                  (VectorIndexDescription.name vec_index) old_part in
              NewPart.with_vector_index_checksums
                (<[ VectorIndexDescription.name vec_index := index_checksums ]>
                   (NewPart.vector_index_checksums new_data_part))
                (NewPart.with_files
                   (place_moved_files (NewPart.full_path new_data_part)
                      index_checksums (NewPart.files new_data_part))
                   new_data_part)
          | _ => new_data_part
          end)
       new_data_part
       (StorageMetadata.vector_indices (MergeTaskArgs.metadata_snapshot args))).

(** Lines 1127-1131. *)
Definition reset_decouple_of_empty_part (rows_count : N) (d : Decouple.t) : Decouple.t :=
  if (rows_count =? 0)%N
  then Decouple.with_only_one_vpart_merged false
         (Decouple.with_can_be_decouple false d)
  else d.

Definition finalizeProjectionsAndWholeMerge
    (global_ctx : GlobalCtx.t) (ctx : ProjectionsCtx.t Child)
    : subtask_result (ProjectionsCtx.t Child) :=
  new_data_part ← deref (GlobalCtx.new_data_part global_ctx);
  new_data_part ←
    fold_outcome
      (fun new_data_part task =>
         part ← child_future task;
         Return (NewPart.with_projection_parts
                   (NewPart.projection_parts new_data_part ++ [(NewPart.name part, part)])
                   new_data_part))
      (ProjectionsCtx.tasks_for_projections ctx) new_data_part;
  (* finalizePart: the writer reports the rows it has written *)
  let new_data_part :=
    NewPart.with_rows_count (GlobalCtx.rows_written global_ctx) new_data_part in
  let global_ctx :=
    GlobalCtx.with_decouple
      (reset_decouple_of_empty_part (NewPart.rows_count new_data_part)
                                    (GlobalCtx.decouple global_ctx)) global_ctx in
  '(global_ctx, new_data_part) ←
    (if Decouple.can_be_decouple (GlobalCtx.decouple global_ctx)
     then finalize_decouple global_ctx new_data_part
     else if Decouple.only_one_vpart_merged (GlobalCtx.decouple global_ctx)
     then new_data_part ← finalize_single_vpart global_ctx new_data_part;
          Return (global_ctx, new_data_part)
     else Return (global_ctx, new_data_part));
  let new_data_part := NewPart.with_transaction_precommitted true new_data_part in
  let global_ctx := GlobalCtx.with_new_data_part (Some new_data_part) global_ctx in
  let global_ctx := GlobalCtx.with_promise (Some new_data_part) global_ctx in
  Return (false, global_ctx, ctx).

(** *** The stages and [MergeTask::execute] *)

(** [VerticalMergeStage::getContextForNextStage]: the vertical context is
    destroyed, and with it the rows-sources file unless it is kept. *)
Definition vertical_getContextForNextStage
    (global_ctx : GlobalCtx.t) (ctx : VerticalCtx.t)
    : GlobalCtx.t * ProjectionsCtx.t Child :=
  (GlobalCtx.with_tmp_disk
     (destroy_temporary_file (VerticalCtx.rows_sources_file ctx)
                             (GlobalCtx.tmp_disk global_ctx)) global_ctx,
   {| ProjectionsCtx.tasks_for_projections := [];
      ProjectionsCtx.projections_iterator := 0 |}).

(** The end of every [IStage::execute]: move to the next subtask of the
    [subtasks_count] subtasks of the stage. *)
Definition next_subtask (subtasks_count subtasks_iterator : nat) (again : bool)
    : nat * bool :=
  if again then (subtasks_iterator, true)
  else (subtasks_iterator + 1, (subtasks_iterator + 1 <? subtasks_count)%nat).

(** Modelled from the spec: the arrays of subtasks are declared in
    [MergeTask.h], which is not among the sources.  The horizontal stage
    prepares, merges block by block and then writes the row-ids maps; the
    vertical stage prepares, gathers column by column and finalizes; the
    projections stage prepares the nested tasks, runs them and finalizes
    the whole merge. *)
Definition horizontal_execute (env : Env.t) (global_ctx : GlobalCtx.t)
    (subtasks_iterator : nat) (ctx : HorizontalCtx.t)
    : outcome (bool * GlobalCtx.t * nat * HorizontalCtx.t) :=
  '(again, global_ctx, ctx) ←
    match subtasks_iterator with
    | 0 => prepare env global_ctx ctx
    | 1 => executeImpl env global_ctx ctx
    | 2 => generateRowIdsMap global_ctx ctx
    | _ => Undefined
    end;
  let '(subtasks_iterator, more) := next_subtask 3 subtasks_iterator again in
  Return (more, global_ctx, subtasks_iterator, ctx).

Definition vertical_execute (env : Env.t) (global_ctx : GlobalCtx.t)
    (subtasks_iterator : nat) (ctx : VerticalCtx.t)
    : outcome (bool * GlobalCtx.t * nat * VerticalCtx.t) :=
  '(again, global_ctx, ctx) ←
    match subtasks_iterator with
    | 0 => prepareVerticalMergeForAllColumns global_ctx ctx
    | 1 => executeVerticalMergeForAllColumns env global_ctx ctx
    | 2 => finalizeVerticalMergeForAllColumns global_ctx ctx
    | _ => Undefined
    end;
  let '(subtasks_iterator, more) := next_subtask 3 subtasks_iterator again in
  Return (more, global_ctx, subtasks_iterator, ctx).

Definition projections_execute (env : Env.t) (global_ctx : GlobalCtx.t)
    (subtasks_iterator : nat) (ctx : ProjectionsCtx.t Child)
    : outcome (bool * GlobalCtx.t * nat * ProjectionsCtx.t Child) :=
  '(again, global_ctx, ctx) ←
    match subtasks_iterator with
    | 0 => mergeMinMaxIndexAndPrepareProjections global_ctx ctx
    | 1 => executeProjections env global_ctx ctx
    | 2 => finalizeProjectionsAndWholeMerge global_ctx ctx
    | _ => Undefined
    end;
  let '(subtasks_iterator, more) := next_subtask 3 subtasks_iterator again in
  Return (more, global_ctx, subtasks_iterator, ctx).

(** [MergeTask::execute]: one step of the task under the flags [env]. *)
Definition execute (env : Env.t) (task : MergeTask.t Child)
    : outcome (bool * MergeTask.t Child) :=
  let global_ctx := MergeTask.global_ctx task in
  match MergeTask.stage task with
  | ExecuteAndFinalizeHorizontalPart subtasks_iterator ctx =>
      '(more, global_ctx, subtasks_iterator, ctx) ←
        horizontal_execute env global_ctx subtasks_iterator ctx;
      if more : bool
      then Return (true, {| MergeTask.global_ctx := global_ctx;
                            MergeTask.stage :=
                              ExecuteAndFinalizeHorizontalPart subtasks_iterator ctx |})
      else Return (true, {| MergeTask.global_ctx := global_ctx;
                            MergeTask.stage :=
                              VerticalMergeStage 0
                                (horizontal_getContextForNextStage ctx) |})
  | VerticalMergeStage subtasks_iterator ctx =>
      '(more, global_ctx, subtasks_iterator, ctx) ←
        vertical_execute env global_ctx subtasks_iterator ctx;
      if more : bool
      then Return (true, {| MergeTask.global_ctx := global_ctx;
                            MergeTask.stage := VerticalMergeStage subtasks_iterator ctx |})
      else
        let '(global_ctx, next_ctx) := vertical_getContextForNextStage global_ctx ctx in
        Return (true, {| MergeTask.global_ctx := global_ctx;
                         MergeTask.stage := MergeProjectionsStage 0 next_ctx |})
  | MergeProjectionsStage subtasks_iterator ctx =>
      '(more, global_ctx, subtasks_iterator, ctx) ←
        projections_execute env global_ctx subtasks_iterator ctx;
      if more : bool
      then Return (true, {| MergeTask.global_ctx := global_ctx;
                            MergeTask.stage := MergeProjectionsStage subtasks_iterator ctx |})
      else Return (false, {| MergeTask.global_ctx := global_ctx;
                             MergeTask.stage := Finished |})
  | Finished => Undefined
  end.

(** The task is stepped until it reports that no work remains, at most
    [fuel] times; step [n] runs under the flags [env n]. *)
Fixpoint run (fuel : nat) (step : nat) (env : nat -> Env.t) (task : MergeTask.t Child)
    : outcome (option (MergeTask.t Child)) :=
  match fuel with
  | 0 => Return None
  | S fuel =>
      '(more, task) ← execute (env step) task;
      if more : bool then run fuel (S step) env task else Return (Some task)
  end.
End Driver.

Definition HorizontalCtx_initial : HorizontalCtx.t :=
  {| HorizontalCtx.need_remove_expired_values := false;
     HorizontalCtx.force_ttl := false;
     HorizontalCtx.rows_sources_file := None;
     HorizontalCtx.rows_sources_write_buf := None;
     HorizontalCtx.sum_input_rows_upper_bound := 0%N;
     HorizontalCtx.blocks_are_granules_size := false;
     HorizontalCtx.is_cancelled_need_remove := false |}.

(** Modelled from the spec: the constructor of [MergeTask] is declared in
    [MergeTask.h]; a new task is at the first subtask of the horizontal
    stage, nothing is chosen, written or promised yet. *)
Definition MergeTask_create {Child : Type} (world : World.t) (args : MergeTaskArgs.t)
    : MergeTask.t Child :=
  {| MergeTask.global_ctx :=
       {| GlobalCtx.args := args;
          GlobalCtx.world := world;
          GlobalCtx.merge_list_element :=
            MergeListElement_make (MergeTaskArgs.future_part args);
          GlobalCtx.new_data_part := None;
          GlobalCtx.all_column_names := [];
          GlobalCtx.storage_columns := [];
          GlobalCtx.column_sets := ColumnSets.empty;
          GlobalCtx.chosen_merge_algorithm := MergeAlgorithm.Undecided;
          GlobalCtx.decouple := Decouple_initial;
          GlobalCtx.rows_written := 0%N;
          GlobalCtx.input_rows_filtered := 0%N;
          GlobalCtx.merging_executor := None;
          GlobalCtx.gathering_column_names_size := 0;
          GlobalCtx.tmp_disk := ∅;
          GlobalCtx.bitmap_updates := [];
          GlobalCtx.promise := None |};
     MergeTask.stage := ExecuteAndFinalizeHorizontalPart 0 HorizontalCtx_initial |}.

(** ** A merge with its projections

    The metadata of a projection has no projections, so a nested task never
    creates a task of its own: its child type is [unit], never stepped. *)

Definition ProjectionTask : Type := MergeTask.t unit.

(** The flags a nested task reads: it is given the two blockers of the
    merge (lines 1090-1091) and a [MergeListElement] of its own (line 1076),
    which is in no list of merges, so that its cancel flag is never set. *)
Definition projection_env (env : Env.t) : Env.t :=
  {| Env.merges_blocker := Env.merges_blocker env;
     Env.ttl_merges_blocker := Env.ttl_merges_blocker env;
     Env.is_cancelled := false |}.

Definition projection_execute `{Engine} (env : Env.t) (task : ProjectionTask)
    : outcome (bool * ProjectionTask) :=
  execute (fun _ => tt) (fun _ _ => Undefined) (fun _ => Undefined)
          (projection_env env) task.

(** [getFuture().get()]: the part the promise holds; without one the call
    does not return. *)
Definition task_future {Child : Type} (task : MergeTask.t Child) : outcome NewPart.t :=
  deref (GlobalCtx.promise (MergeTask.global_ctx task)).

Definition PartMergeTask : Type := MergeTask.t ProjectionTask.

(** [worlds] gives, by the name of a projection, what the readers of its
    nested merge deliver. *)
Definition merge_execute `{Engine} (worlds : string -> World.t)
    (env : Env.t) (task : PartMergeTask) : outcome (bool * PartMergeTask) :=
  execute
    (fun args => MergeTask_create (worlds (FuturePart.name (MergeTaskArgs.future_part args))) args)
    projection_execute task_future env task.

(** The task after one step under each of the flags [envs], in order;
    a step that reports the end of the merge is the last one. *)
Fixpoint merge_steps `{Engine} (worlds : string -> World.t)
    (envs : list Env.t) (task : PartMergeTask) : outcome PartMergeTask :=
  match envs with
  | [] => Return task
  | env :: envs =>
      '(more, task) ← merge_execute worlds env task;
      if more : bool then merge_steps worlds envs task else Return task
  end.

Definition merge_run `{Engine} (worlds : string -> World.t)
    (fuel : nat) (env : nat -> Env.t) (task : PartMergeTask)
    : outcome (option PartMergeTask) :=
  run
    (fun args => MergeTask_create (worlds (FuturePart.name (MergeTaskArgs.future_part args))) args)
    projection_execute task_future fuel 0 env task.

(** ** Concrete data for the examples *)

Module Examples.
(** An engine whose collaborators do the least: TTL information is merged
    by taking the earlier non-zero minimum, a file hashes to its entry
    count, and one index file is moved per source part. *)
Definition engine : Engine :=
  {| VECTOR_INDEX_FILE_SUFFIX := ".vidx3";
     DEFAULT_DELAYED_STREAMS_FOR_PARALLEL_WRITE := 1000;
     supportParallelWrite := false;
     ttl_infos_update := fun infos other =>
       {| TTLInfos.part_min_ttl :=
            if (TTLInfos.part_min_ttl other =? 0)%N then TTLInfos.part_min_ttl infos
            else if (TTLInfos.part_min_ttl infos =? 0)%N then TTLInfos.part_min_ttl other
            else N.min (TTLInfos.part_min_ttl infos) (TTLInfos.part_min_ttl other);
          TTLInfos.columns_ttl :=
            TTLInfos.columns_ttl infos ++ TTLInfos.columns_ttl other |};
     hashing_count := fun content =>
       match content with
       | IntText entries => N.of_nat (length entries)
       | RowSources records => N.of_nat (length records)
       | IndexFile checksum => Checksum.file_size checksum
       end;
     hashing_getHash := fun _ => 0%N;
     moveVectorIndexFiles := fun _ part_id part_name index_name _ =>
       {[ "merged-" +:+ part_id +:+ "-" +:+ part_name +:+ "-" +:+ index_name
            +:+ ".vidx3"
          := {| Checksum.file_size := 1%N; Checksum.file_hash := 2%N |} ]};
     assign_part_format := fun _ =>
       {| PartFormat.part_type := MergeTreeDataPartType.Wide;
          PartFormat.storage_type := MergeTreeDataPartStorageType.Full |};
     rows_sources_file_path := "tmp/rows_sources";
     data_path := "store/" |}.

(** A wide part with [rows] rows in one granule. *)
Definition part (name : string) (rows : N)
    (vector_index : gmap string VectorIndexState.t) : DataPart.t :=
  {| DataPart.name := name;
     DataPart.rows_count := rows;
     DataPart.part_type := MergeTreeDataPartType.Wide;
     DataPart.marks_count := if (rows =? 0)%N then 0%N else 1%N;
     DataPart.part_offsets := N.of_nat <$> seq 0 (N.to_nat rows);
     DataPart.vector_index := vector_index;
     DataPart.has_lightweight_delete := false;
     DataPart.ttl_infos := TTLInfos.empty;
     DataPart.all_ttl_calculated := true;
     DataPart.projection_parts := ∅;
     DataPart.storage_on_disk := true |}.

Definition with_part_min_ttl (ttl : N) (p : DataPart.t) : DataPart.t :=
  {| DataPart.name := DataPart.name p;
     DataPart.rows_count := DataPart.rows_count p;
     DataPart.part_type := DataPart.part_type p;
     DataPart.marks_count := DataPart.marks_count p;
     DataPart.part_offsets := DataPart.part_offsets p;
     DataPart.vector_index := DataPart.vector_index p;
     DataPart.has_lightweight_delete := DataPart.has_lightweight_delete p;
     DataPart.ttl_infos :=
       {| TTLInfos.part_min_ttl := ttl; TTLInfos.columns_ttl := [] |};
     DataPart.all_ttl_calculated := DataPart.all_ttl_calculated p;
     DataPart.projection_parts := DataPart.projection_parts p;
     DataPart.storage_on_disk := DataPart.storage_on_disk p |}.

Definition with_projection_parts (projections : gmap string DataPart.t)
    (p : DataPart.t) : DataPart.t :=
  {| DataPart.name := DataPart.name p;
     DataPart.rows_count := DataPart.rows_count p;
     DataPart.part_type := DataPart.part_type p;
     DataPart.marks_count := DataPart.marks_count p;
     DataPart.part_offsets := DataPart.part_offsets p;
     DataPart.vector_index := DataPart.vector_index p;
     DataPart.has_lightweight_delete := DataPart.has_lightweight_delete p;
     DataPart.ttl_infos := DataPart.ttl_infos p;
     DataPart.all_ttl_calculated := DataPart.all_ttl_calculated p;
     DataPart.projection_parts := projections;
     DataPart.storage_on_disk := DataPart.storage_on_disk p |}.

Definition built : gmap string VectorIndexState.t :=
  {[ "v_idx" := VectorIndexState.BUILT ]}.
Definition pending : gmap string VectorIndexState.t :=
  {[ "v_idx" := VectorIndexState.PENDING ]}.

Definition column (name : string) : NameAndTypePair.t :=
  {| NameAndTypePair.name := name; NameAndTypePair.type := "UInt64" |}.

Definition params (mode : MergingParams.Mode) : MergingParams.t :=
  {| MergingParams.mode := mode;
     MergingParams.sign_column := "";
     MergingParams.version_column := "";
     MergingParams.is_deleted_column := "";
     MergingParams.columns_to_sum := [] |}.

Definition wide_full : PartFormat.t :=
  {| PartFormat.part_type := MergeTreeDataPartType.Wide;
     PartFormat.storage_type := MergeTreeDataPartStorageType.Full |}.

(** Settings under which a vertical merge needs [min_columns] gathering
    columns. *)
Definition settings (min_columns : N) (decouple : bool) : Settings.t :=
  {| Settings.enable_vertical_merge_algorithm := 1%N;
     Settings.vertical_merge_algorithm_min_rows_to_activate := 1%N;
     Settings.vertical_merge_algorithm_min_columns_to_activate := min_columns;
     Settings.allow_vertical_merges_from_compact_to_wide_parts := false;
     Settings.enable_decouple_vector_index := decouple;
     Settings.max_insert_delayed_streams_for_parallel_write := None |}.

(** A table with the columns [k] (the sorting key) and [x], and one vector
    index on [x] when [indexed]. *)
Definition metadata (indexed : bool) (projections : list ProjectionDescription.t)
    : StorageMetadata.t :=
  {| StorageMetadata.columns := [column "k"; column "x"];
     StorageMetadata.sorting_key_required_columns := ["k"];
     StorageMetadata.secondary_indices := [];
     StorageMetadata.vector_indices :=
       if indexed
       then [ {| VectorIndexDescription.name := "v_idx";
                 VectorIndexDescription.column := "x" |} ]
       else [];
     StorageMetadata.projections := projections;
     StorageMetadata.hasAnyTTL := false |}.

Definition merge_args (mode : MergingParams.Mode) (parts : list DataPart.t)
    (metadata_snapshot : StorageMetadata.t) (data_settings : Settings.t)
    : MergeTaskArgs.t :=
  {| MergeTaskArgs.future_part :=
       {| FuturePart.name := "all_1_2_1";
          FuturePart.parts := parts;
          FuturePart.merge_type := MergeType.Regular;
          FuturePart.part_format := wide_full |};
     MergeTaskArgs.metadata_snapshot := metadata_snapshot;
     MergeTaskArgs.time_of_merge := 100%N;
     MergeTaskArgs.deduplicate := false;
     MergeTaskArgs.deduplicate_by_columns := [];
     MergeTaskArgs.cleanup := false;
     MergeTaskArgs.merging_params := params mode;
     MergeTaskArgs.need_prefix := true;
     MergeTaskArgs.parent_part := None;
     MergeTaskArgs.suffix := "";
     MergeTaskArgs.settings := data_settings;
     MergeTaskArgs.in_memory_metadata := metadata_snapshot |}.

(** One pull that delivers [rows] rows and logs [row_sources]. *)
Definition pulled (rows : N) (row_sources : list RowSourcePart.t) : Pulled.t :=
  {| Pulled.rows := rows;
     Pulled.row_sources := row_sources;
     Pulled.rows_read := N.of_nat (length row_sources);
     Pulled.rows_filtered := 0%N |}.

Definition world (merged_pipeline : list Pulled.t) (column_blocks : list N) : World.t :=
  {| World.directory_exists := false;
     World.merged_pipeline := merged_pipeline;
     World.column_pipeline := fun _ => column_blocks |}.

Definition emitted (source_num : N) : RowSourcePart.t := RowSourcePart.make source_num false.
Definition skipped (source_num : N) : RowSourcePart.t := RowSourcePart.make source_num true.

Definition blocker_set : Env.t :=
  {| Env.merges_blocker := true; Env.ttl_merges_blocker := false;
     Env.is_cancelled := false |}.

(** The row count of the part a run has promised, if it has. *)
Definition promised_rows {Child : Type} (result : outcome (option (MergeTask.t Child)))
    : option N :=
  match result with
  | Return (Some task) =>
      NewPart.rows_count <$> GlobalCtx.promise (MergeTask.global_ctx task)
  | _ => None
  end.

(** The files in the directory of the part a run has promised. *)
Definition promised_files {Child : Type} (result : outcome (option (MergeTask.t Child)))
    : list string :=
  match result with
  | Return (Some task) =>
      match GlobalCtx.promise (MergeTask.global_ctx task) with
      | Some new_data_part => (map_to_list (NewPart.files new_data_part)).*1
      | None => []
      end
  | _ => []
  end.

(** The forward maps and the inverted map a run has left in its context. *)
Definition row_ids_maps {Child : Type} (result : outcome (option (MergeTask.t Child)))
    : list (list N) * option (list N) :=
  match result with
  | Return (Some task) =>
      let d := GlobalCtx.decouple (MergeTask.global_ctx task) in
      (Decouple.row_ids_map_bufs d, Decouple.inverted_row_ids_map_buf d)
  | _ => ([], None)
  end.

(** The flags [can_be_decouple] and [only_one_vpart_merged] that a
    subtask has left. *)
Definition decouple_flags {C : Type} (result : subtask_result C) : option (bool * bool) :=
  match result with
  | Return (_, global_ctx, _) =>
      Some (Decouple.can_be_decouple (GlobalCtx.decouple global_ctx),
            Decouple.only_one_vpart_merged (GlobalCtx.decouple global_ctx))
  | _ => None
  end.

(** The contexts of a task that is in the horizontal stage. *)
Definition horizontal_state {Child : Type} (result : outcome (MergeTask.t Child))
    : option (GlobalCtx.t * HorizontalCtx.t) :=
  match result with
  | Return task =>
      match MergeTask.stage task with
      | ExecuteAndFinalizeHorizontalPart _ ctx => Some (MergeTask.global_ctx task, ctx)
      | _ => None
      end
  | _ => None
  end.

(** The contexts of a task that is in the vertical stage. *)
Definition vertical_state {Child : Type} (result : outcome (MergeTask.t Child))
    : option (GlobalCtx.t * VerticalCtx.t) :=
  match result with
  | Return task =>
      match MergeTask.stage task with
      | VerticalMergeStage _ ctx => Some (MergeTask.global_ctx task, ctx)
      | _ => None
      end
  | _ => None
  end.

(** The global context of a task that is in the projections stage. *)
Definition projections_state {Child : Type} (result : outcome (MergeTask.t Child))
    : option GlobalCtx.t :=
  match result with
  | Return task =>
      match MergeTask.stage task with
      | MergeProjectionsStage _ _ => Some (MergeTask.global_ctx task)
      | _ => None
      end
  | _ => None
  end.

(** Two sources of two rows each, merged into the rows A, B, A, B. *)
Definition two_by_two (first second : DataPart.t) (mode : MergingParams.Mode)
    (metadata_snapshot : StorageMetadata.t) (data_settings : Settings.t)
    : PartMergeTask :=
  MergeTask_create
    (world [pulled 4 [emitted 0; emitted 1; emitted 0; emitted 1]] [4%N])
    (merge_args mode [first; second] metadata_snapshot data_settings).
End Examples.

(** ** Two helpers of the horizontal stage *)

(** [createMergedStream], lines 1366-1385: the sizes of the source parts
    are added up until they reach [min_merge_bytes_to_use_direct_io]; the
    parts are then read with direct I/O.  [bytes_on_disk] holds
    [part->getBytesOnDisk()] of the source parts, in order. *)
Fixpoint reaches_direct_io (min_merge_bytes_to_use_direct_io total_size : N)
    (bytes_on_disk : list N) : bool :=
  match bytes_on_disk with
  | [] => false
  | bytes :: rest =>
      let total_size := UInt64.add total_size bytes in
      if (min_merge_bytes_to_use_direct_io <=? total_size)%N then true (* break *)
      else reaches_direct_io min_merge_bytes_to_use_direct_io total_size rest
  end.

Definition read_with_direct_io (min_merge_bytes_to_use_direct_io : N)
    (bytes_on_disk : list N) : bool :=
  if (min_merge_bytes_to_use_direct_io =? 0)%N then false
  else reaches_direct_io min_merge_bytes_to_use_direct_io 0 bytes_on_disk.

(** A column of [ColumnsDescription], as far as
    [addMissedColumnsToSerializationInfos] looks at it. *)
Module ColumnDescription.
Record t := {
  name : string;
  type : string;
  (** [default_desc.kind == ColumnDefaultKind::Default] *)
  default_kind_is_default : bool;
  (** [default_desc.expression] is not null *)
  has_default_expression : bool
}.
End ColumnDescription.

Section SerializationInfos.
(** [SerializationInfo], and the info that [createSerializationInfo]
    makes for a type once [addDefaults(num_rows)] is called on it. *)
Context {Info : Type}.
Variable info_with_defaults : string -> N -> Info.

(** [std::map::emplace]: an existing entry stays. *)
Definition emplace_info (name : string) (info : Info) (infos : gmap string Info)
    : gmap string Info :=
  match infos !! name with
  | Some _ => infos
  | None => <[ name := info ]> infos
  end.

Definition addMissedColumnsToSerializationInfos
    (num_rows_in_parts : N) (part_columns : list string)
    (storage_columns : list ColumnDescription.t)
    (new_infos : gmap string Info) : gmap string Info :=
  let part_columns_set : gset string := list_to_set part_columns in
  foldl (fun new_infos column =>
           if bool_decide (ColumnDescription.name column ∈ part_columns_set)
           then new_infos (* continue *)
           else if negb (ColumnDescription.default_kind_is_default column)
           then new_infos
           else if ColumnDescription.has_default_expression column
           then new_infos
           else emplace_info (ColumnDescription.name column)
                  (info_with_defaults (ColumnDescription.type column) num_rows_in_parts)
                  new_infos)
        new_infos storage_columns.
End SerializationInfos.

(** * Properties *)

(** ** Generalities *)

Lemma at_index_Some {A : Type} (v : list A) (i : nat) (a : A) :
  v !! i = Some a -> at_index v i = Return a.
Proof. intros Hi. unfold at_index. by rewrite Hi. Qed.

Lemma at_index_Return {A : Type} (v : list A) (i : nat) (a : A) :
  at_index v i = Return a -> v !! i = Some a.
Proof. unfold at_index. destruct (v !! i); [|done]. by intros [= ->]. Qed.

(** A bind that returns: its first computation returned. *)
Lemma bind_Return {A B : Type} (m : outcome A) (k : A -> outcome B) (b : B) :
  m ≫= k = Return b -> exists a, m = Return a /\ k a = Return b.
Proof. destruct m as [a| |]; simpl; [|done|done]. intros Hk. by exists a. Qed.

Ltac bind_inv H a Ha :=
  apply bind_Return in H as (a & Ha & H).

(** The merges blocker or the cancel flag of the merge is set. *)
Definition cancelled (env : Env.t) : Prop :=
  Env.merges_blocker env = true \/ Env.is_cancelled env = true.

Lemma cancelled_orb env :
  Env.merges_blocker env || Env.is_cancelled env = true <-> cancelled env.
Proof. unfold cancelled. by rewrite orb_true_iff. Qed.

(** ** extractMergingAndGatheringColumns *)

Lemma emplace_columns_merging key_columns storage_columns out :
  ColumnSets.merging_columns (foldl (emplace_column key_columns) out storage_columns)
  = ColumnSets.merging_columns out
    ++ filter (fun column => NameAndTypePair.name column ∈ key_columns) storage_columns.
Proof.
  revert out. induction storage_columns as [|column rest IH]; intros out; simpl.
  - by rewrite app_nil_r.
  - rewrite IH. unfold emplace_column. rewrite filter_cons.
    destruct (decide (NameAndTypePair.name column ∈ key_columns)) as [Hin|Hin].
    + rewrite bool_decide_true by done. simpl. by rewrite <- app_assoc.
    + rewrite bool_decide_false by done. done.
Qed.

(** The guard does what its comment says when the key set is empty: the
    first storage column is merged. *)
Lemma extract_empty_key_forces_front front rest sort_key indexes merging_params :
  required_key_columns sort_key indexes merging_params = ∅ ->
  exists sets,
    extractMergingAndGatheringColumns (front :: rest) sort_key indexes merging_params
      ColumnSets.empty = Return sets
    /\ front ∈ ColumnSets.merging_columns sets.
Proof.
  intros Hempty. unfold extractMergingAndGatheringColumns. rewrite Hempty.
  rewrite decide_True by done. simpl mbind. eexists. split; [reflexivity|].
  rewrite emplace_columns_merging. unfold emplace_column.
  rewrite bool_decide_true by set_solver. simpl. set_solver.
Qed.

(** C10, at the failing input: a table with the single column [a], an empty
    sorting key, no secondary index, Replacing mode without a version and
    without an is-deleted column.  The two empty column names make the key
    set non-empty, the guard does not fire, and no column is merged. *)
Theorem extract_unversioned_replacing_merges_no_column :
  extractMergingAndGatheringColumns
    [Examples.column "a"] [] [] (Examples.params MergingParams.Replacing)
    ColumnSets.empty
  = Return {| ColumnSets.gathering_columns := [Examples.column "a"];
              ColumnSets.gathering_column_names := ["a"];
              ColumnSets.merging_columns := [];
              ColumnSets.merging_column_names := [] |}.
Proof. vm_compute. reflexivity. Qed.

(** ** chooseMergeAlgorithm *)

Section ChooseMergeAlgorithm.
Context `{Engine}.

(** The conditions under which the specification asks for a horizontal
    merge, in its words. *)
Definition horizontal_by_spec (global_ctx : GlobalCtx.t) (ctx : HorizontalCtx.t) : Prop :=
  let args := GlobalCtx.args global_ctx in
  let future_part := MergeTaskArgs.future_part args in
  let data_settings := MergeTaskArgs.settings args in
  let mode := MergingParams.mode (MergeTaskArgs.merging_params args) in
  (* deduplication is requested *)
  MergeTaskArgs.deduplicate args = true
  (* the vertical-merge setting is disabled *)
  \/ Settings.enable_vertical_merge_algorithm data_settings = 0%N
  (* TTL eviction is active *)
  \/ HorizontalCtx.need_remove_expired_values ctx = true
  (* the future part's physical type is not Wide *)
  \/ PartFormat.part_type (FuturePart.part_format future_part)
     <> MergeTreeDataPartType.Wide
  (* its storage type is not Full *)
  \/ PartFormat.storage_type (FuturePart.part_format future_part)
     <> MergeTreeDataPartStorageType.Full
  (* some source part is not wide while the setting forbids it *)
  \/ (Settings.allow_vertical_merges_from_compact_to_wide_parts data_settings = false
      /\ exists part, part ∈ FuturePart.parts future_part
                      /\ DataPart.part_type part <> MergeTreeDataPartType.Wide)
  (* the merging mode is not one of the four *)
  \/ (mode <> MergingParams.Ordinary /\ mode <> MergingParams.Collapsing
      /\ mode <> MergingParams.Replacing /\ mode <> MergingParams.VersionedCollapsing)
  (* the gathering column count is below the threshold *)
  \/ (N.of_nat (length (ColumnSets.gathering_columns (GlobalCtx.column_sets global_ctx)))
      < Settings.vertical_merge_algorithm_min_columns_to_activate data_settings)%N
  (* the total row count is below the threshold *)
  \/ (MergeListElement.total_rows_count (GlobalCtx.merge_list_element global_ctx)
      < Settings.vertical_merge_algorithm_min_rows_to_activate data_settings)%N
  (* the source-part count exceeds MAX_PARTS *)
  \/ (RowSourcePart.MAX_PARTS < N.of_nat (length (FuturePart.parts future_part)))%N.

Lemma existsb_not_wide parts :
  existsb (fun part => negb (isWidePart part)) parts = true
  <-> exists part, part ∈ parts /\ DataPart.part_type part <> MergeTreeDataPartType.Wide.
Proof.
  rewrite existsb_exists. split; intros (part & Hin & Hw); exists part.
  - split; [by apply list_elem_of_In|].
    unfold isWidePart in Hw. by case_bool_decide.
  - split; [by apply list_elem_of_In|].
    unfold isWidePart. by rewrite bool_decide_false.
Qed.

Lemma is_supported_storage_false mode :
  is_supported_storage mode = false
  <-> mode <> MergingParams.Ordinary /\ mode <> MergingParams.Collapsing
      /\ mode <> MergingParams.Replacing /\ mode <> MergingParams.VersionedCollapsing.
Proof. destruct mode; vm_compute; intuition congruence. Qed.

Lemma chooseMergeAlgorithm_decided global_ctx ctx :
  chooseMergeAlgorithm global_ctx ctx <> MergeAlgorithm.Undecided.
Proof.
  unfold chooseMergeAlgorithm.
  repeat match goal with
         | |- context [if ?b then _ else _] => destruct b
         end; discriminate.
Qed.

(** The last test of the function, once the early returns are passed. *)
Lemma choose_by_thresholds (supported : bool) (min_rows rows min_cols cols parts : N) :
  (if supported && (min_rows <=? rows)%N && (min_cols <=? cols)%N
      && (parts <=? RowSourcePart.MAX_PARTS)%N
   then MergeAlgorithm.Vertical else MergeAlgorithm.Horizontal)
  = MergeAlgorithm.Horizontal
  <-> supported = false \/ (cols < min_cols)%N \/ (rows < min_rows)%N
      \/ (RowSourcePart.MAX_PARTS < parts)%N.
Proof.
  destruct supported; simpl; [|tauto].
  destruct (N.leb_spec min_rows rows); simpl; [|intuition lia].
  destruct (N.leb_spec min_cols cols); simpl; [|intuition lia].
  destruct (N.leb_spec parts RowSourcePart.MAX_PARTS); simpl; [|intuition lia].
  split; [discriminate|]. intros [?|[?|[?|?]]]; try discriminate; lia.
Qed.

(** C3: [chooseMergeAlgorithm] answers Horizontal exactly under the
    conditions listed by the specification, and Vertical otherwise. *)
Theorem chooseMergeAlgorithm_horizontal_iff global_ctx ctx :
  (chooseMergeAlgorithm global_ctx ctx = MergeAlgorithm.Horizontal
   <-> horizontal_by_spec global_ctx ctx)
  /\ (chooseMergeAlgorithm global_ctx ctx = MergeAlgorithm.Vertical
      <-> ~ horizontal_by_spec global_ctx ctx).
Proof.
  assert (Hmain : chooseMergeAlgorithm global_ctx ctx = MergeAlgorithm.Horizontal
                  <-> horizontal_by_spec global_ctx ctx).
  { unfold chooseMergeAlgorithm, horizontal_by_spec.
    destruct (MergeTaskArgs.deduplicate _) eqn:Hdedup; [tauto|].
    destruct (N.eqb_spec
                (Settings.enable_vertical_merge_algorithm
                   (MergeTaskArgs.settings (GlobalCtx.args global_ctx))) 0)
      as [Hen|Hen]; [tauto|].
    destruct (HorizontalCtx.need_remove_expired_values ctx) eqn:Hneed; [tauto|].
    case_bool_decide as Hwide; simpl; [|tauto].
    case_bool_decide as Hfull; simpl; [|tauto].
    pose proof (existsb_not_wide
                  (FuturePart.parts
                     (MergeTaskArgs.future_part (GlobalCtx.args global_ctx)))) as Hex.
    pose proof (is_supported_storage_false
                  (MergingParams.mode
                     (MergeTaskArgs.merging_params (GlobalCtx.args global_ctx)))) as Hsup.
    destruct (Settings.allow_vertical_merges_from_compact_to_wide_parts _) eqn:Hallow;
      simpl.
    - rewrite choose_by_thresholds. rewrite Hsup. split.
      + intros [Hmode|[Hcols|[Hrows|Hparts]]];
        [do 6 right; by left|do 7 right; by left|do 8 right; by left|by do 9 right].
      + intros [?|[?|[?|[?|[?|[[? ?]|[?|[?|[?|?]]]]]]]]]; try done; tauto.
    - destruct (existsb _ _) eqn:Hexb.
      + split; [intros _|done]. do 5 right. left. split; [done|]. by apply Hex.
      + rewrite choose_by_thresholds. rewrite Hsup. split.
        * intros [Hmode|[Hcols|[Hrows|Hparts]]];
          [do 6 right; by left|do 7 right; by left|do 8 right; by left|by do 9 right].
        * intros [?|[?|[?|[?|[?|[[? Hsome]|[?|[?|[?|?]]]]]]]]]; try done; try tauto.
          apply Hex in Hsome. congruence. }
  split; [exact Hmain|].
  rewrite <- Hmain.
  pose proof (chooseMergeAlgorithm_decided global_ctx ctx).
  destruct (chooseMergeAlgorithm global_ctx ctx); split; congruence.
Qed.
End ChooseMergeAlgorithm.
(** ** prepare *)

Section Prepare.
Context `{Engine}.

Lemma prepare_columns_and_ttl_fields env global_ctx new_data_part ctx
      global_ctx' new_data_part' ctx' :
  NewPart.ttl_infos new_data_part = TTLInfos.empty ->
  prepare_columns_and_ttl env global_ctx new_data_part ctx
  = Return (global_ctx', new_data_part', ctx') ->
  GlobalCtx.decouple global_ctx' = GlobalCtx.decouple global_ctx
  /\ GlobalCtx.promise global_ctx' = GlobalCtx.promise global_ctx
  /\ GlobalCtx.args global_ctx' = GlobalCtx.args global_ctx
  /\ HorizontalCtx.need_remove_expired_values ctx'
     = ttl_eviction_required (GlobalCtx.args global_ctx)
       && negb (Env.ttl_merges_blocker env).
Proof.
  intros Hinfos. unfold prepare_columns_and_ttl, ttl_eviction_required.
  intros Hprepare. bind_inv Hprepare column_sets Hextract.
  rewrite Hinfos in Hprepare. simpl in Hprepare.
  destruct (foldl _ _ _) as [[infos need_remove] force_ttl].
  injection Hprepare as <- <- <-. simpl.
  split; [done|]. split; [done|]. split; [done|].
  destruct (negb _ && _), need_remove, (Env.ttl_merges_blocker env); done.
Qed.

Lemma prepare_algorithm_fields global_ctx ctx global_ctx' ctx' :
  prepare_algorithm global_ctx ctx = Return (global_ctx', ctx') ->
  GlobalCtx.decouple global_ctx' = GlobalCtx.decouple global_ctx
  /\ GlobalCtx.promise global_ctx' = GlobalCtx.promise global_ctx
  /\ GlobalCtx.args global_ctx' = GlobalCtx.args global_ctx
  /\ HorizontalCtx.need_remove_expired_values ctx'
     = HorizontalCtx.need_remove_expired_values ctx.
Proof.
  unfold prepare_algorithm. simpl.
  destruct (chooseMergeAlgorithm _ _); [done| |]; by intros [= <- <-].
Qed.

Lemma prepare_row_ids_maps_fields new_data_part global_ctx ctx global_ctx' ctx' :
  prepare_row_ids_maps new_data_part global_ctx ctx = Return (global_ctx', ctx') ->
  Decouple.can_be_decouple (GlobalCtx.decouple global_ctx')
  = Decouple.can_be_decouple (GlobalCtx.decouple global_ctx)
  /\ Decouple.only_one_vpart_merged (GlobalCtx.decouple global_ctx')
     = Decouple.only_one_vpart_merged (GlobalCtx.decouple global_ctx)
  /\ GlobalCtx.promise global_ctx' = GlobalCtx.promise global_ctx
  /\ GlobalCtx.args global_ctx' = GlobalCtx.args global_ctx
  /\ HorizontalCtx.need_remove_expired_values ctx'
     = HorizontalCtx.need_remove_expired_values ctx.
Proof.
  unfold prepare_row_ids_maps.
  destruct (Decouple.can_be_decouple _) eqn:Hcan; [|by intros [= <- <-]].
  destruct (HorizontalCtx.rows_sources_write_buf ctx) eqn:Hbuf; simpl.
  - destruct (HorizontalCtx.rows_sources_file ctx); simpl; [|done].
    intros [= <- <-]. simpl. by rewrite Hcan.
  - intros [= <- <-]. simpl. by rewrite Hcan.
Qed.

Lemma prepare_stream_fields global_ctx new_data_part ctx global_ctx' ctx' :
  prepare_stream global_ctx new_data_part ctx = Return (global_ctx', ctx') ->
  GlobalCtx.decouple global_ctx' = GlobalCtx.decouple global_ctx
  /\ GlobalCtx.promise global_ctx' = GlobalCtx.promise global_ctx
  /\ GlobalCtx.args global_ctx' = GlobalCtx.args global_ctx
  /\ HorizontalCtx.need_remove_expired_values ctx'
     = HorizontalCtx.need_remove_expired_values ctx
  /\ HorizontalCtx.is_cancelled_need_remove ctx'
     = HorizontalCtx.need_remove_expired_values ctx.
Proof.
  unfold prepare_stream, createMergedStream.
  destruct (FuturePart.parts _); [done|]. simpl.
  destruct (if negb _ then _ else _) as [new_data_part' column_sets].
  by intros [= <- <-].
Qed.

(** What a [prepare] that returns has done, as far as the properties below
    need it. *)
Lemma prepare_returns env global_ctx ctx again global_ctx' ctx' :
  prepare env global_ctx ctx = Return (again, global_ctx', ctx') ->
  let args := GlobalCtx.args global_ctx in
  again = false
  /\ ~ cancelled env
  /\ isTTLMergeType (FuturePart.merge_type (MergeTaskArgs.future_part args))
     && Env.ttl_merges_blocker env = false
  /\ GlobalCtx.args global_ctx' = args
  /\ GlobalCtx.promise global_ctx' = GlobalCtx.promise global_ctx
  /\ HorizontalCtx.need_remove_expired_values ctx'
     = ttl_eviction_required args && negb (Env.ttl_merges_blocker env)
  /\ HorizontalCtx.is_cancelled_need_remove ctx'
     = HorizontalCtx.need_remove_expired_values ctx'
  /\ exists d,
       checkDecouple (MergeTaskArgs.settings args)
         (StorageMetadata.vector_indices (MergeTaskArgs.metadata_snapshot args))
         (FuturePart.parts (MergeTaskArgs.future_part args))
         (GlobalCtx.decouple global_ctx) = Return d
       /\ Decouple.can_be_decouple (GlobalCtx.decouple global_ctx')
          = Decouple.can_be_decouple d
       /\ Decouple.only_one_vpart_merged (GlobalCtx.decouple global_ctx')
          = Decouple.only_one_vpart_merged d.
Proof.
  unfold prepare. intros Hprepare. cbv zeta.
  destruct (Env.merges_blocker env || Env.is_cancelled env) eqn:Hcancel; [done|].
  destruct (isTTLMergeType _ && Env.ttl_merges_blocker env) eqn:Httl; [done|].
  destruct (World.directory_exists _); [done|].
  bind_inv Hprepare r1 Hphase1. destruct r1 as [[g1 part1] c1].
  bind_inv Hprepare r2 Hphase2. destruct r2 as [g2 c2].
  bind_inv Hprepare d Hdecouple.
  bind_inv Hprepare r3 Hphase3. destruct r3 as [g3 c3].
  bind_inv Hprepare r4 Hphase4. destruct r4 as [g4 c4].
  injection Hprepare as <- <- <-.
  apply prepare_columns_and_ttl_fields in Hphase1 as (Hd1 & Hp1 & Ha1 & Hn1); [|done].
  apply prepare_algorithm_fields in Hphase2 as (Hd2 & Hp2 & Ha2 & Hn2).
  apply prepare_row_ids_maps_fields in Hphase3 as (Hc3 & Ho3 & Hp3 & Ha3 & Hn3).
  apply prepare_stream_fields in Hphase4 as (Hd4 & Hp4 & Ha4 & Hn4 & Hi4).
  simpl in *.
  split; [done|]. split; [by rewrite <- cancelled_orb, Hcancel|].
  split; [done|]. split; [congruence|]. split; [congruence|].
  split; [congruence|]. split; [congruence|].
  exists d. rewrite Hd2, Hd1 in Hdecouple. split; [done|].
  rewrite Hd4. split; congruence.
Qed.
End Prepare.
(** ** The vertical stage *)

Section VerticalStage.
Context `{Engine}.

(** C9, amended: finalizing a gathered column first looks at the
    cancellation flags and raises Aborted when one is set; otherwise a
    column whose element count differs from [rows_written] raises
    LogicalError, and a column is finalized only with equal counts. *)
Theorem finalize_one_column_checks_counts env global_ctx ctx column column_to :
  ColumnSets.gathering_columns (GlobalCtx.column_sets global_ctx)
    !! VerticalCtx.it_name_and_type ctx = Some column ->
  VerticalCtx.column_to ctx = Some column_to ->
  (cancelled env ->
   finalizeVerticalMergeForOneColumn env global_ctx ctx
   = Throw ABORTED "Cancelled merging parts")
  /\ (~ cancelled env ->
      GlobalCtx.rows_written global_ctx <> VerticalCtx.column_elems_written ctx ->
      finalizeVerticalMergeForOneColumn env global_ctx ctx
      = Throw LOGICAL_ERROR
          (column_count_mismatch_message
             (VerticalCtx.column_elems_written ctx) (NameAndTypePair.name column)
             (GlobalCtx.rows_written global_ctx)))
  /\ (~ cancelled env ->
      GlobalCtx.rows_written global_ctx = VerticalCtx.column_elems_written ctx ->
      exists global_ctx' ctx',
        finalizeVerticalMergeForOneColumn env global_ctx ctx = Return (global_ctx', ctx')
        /\ VerticalCtx.column_num_for_vertical_merge ctx'
           = VerticalCtx.column_num_for_vertical_merge ctx + 1)
  /\ (forall global_ctx' ctx',
        finalizeVerticalMergeForOneColumn env global_ctx ctx = Return (global_ctx', ctx') ->
        GlobalCtx.rows_written global_ctx = VerticalCtx.column_elems_written ctx).
Proof.
  intros Hcolumn Hto. unfold finalizeVerticalMergeForOneColumn.
  rewrite (at_index_Some _ _ _ Hcolumn). simpl mbind.
  destruct (Env.merges_blocker env || Env.is_cancelled env) eqn:Hc.
  - apply cancelled_orb in Hc.
    split; [done|]. split; [done|]. split; [done|]. discriminate.
  - assert (Hnc : ~ cancelled env).
    { rewrite <- cancelled_orb. congruence. }
    rewrite Hto. simpl.
    destruct (N.eqb_spec (GlobalCtx.rows_written global_ctx)
                         (VerticalCtx.column_elems_written ctx)) as [Heq|Hne]; simpl.
    + split; [done|]. split; [done|]. split; [|done].
      intros _ _. eexists _, _. split; reflexivity.
    + split; [done|]. split; [done|]. split; [done|]. discriminate.
Qed.

(** The guard of the rows-sources check: the stream is not empty or there
    is more than one source part. *)
Definition rows_sources_checked (global_ctx : GlobalCtx.t)
    (rows_sources : list RowSourcePart.t) : Prop :=
  0 < length rows_sources
  \/ 1 < length (FuturePart.parts (MergeTaskArgs.future_part (GlobalCtx.args global_ctx))).

(** C4, amended.  The rows-sources count is checked in one place only,
    [prepareVerticalMergeForAllColumns], and only in a vertical merge:
    before any column is gathered, the number of entries of the
    rows-sources stream plus [input_rows_filtered] is compared with the
    number of rows read from the source parts, as the merge list element
    has counted them.  When the stream is not empty or there is more than
    one source part, a difference raises LogicalError, and the stage goes
    on only with the equality; with an empty stream and at most one
    source part the stage goes on whatever the counts are.  In a merge
    that is not vertical the step returns at once, and nothing is
    compared. *)
Theorem rows_sources_count_is_enforced global_ctx ctx :
  let sum_input_rows_exact :=
    MergeListElement.rows_read (GlobalCtx.merge_list_element global_ctx) in
  let input_rows_filtered := GlobalCtx.input_rows_filtered global_ctx in
  (forall rows_sources rows_sources_file,
     GlobalCtx.chosen_merge_algorithm global_ctx = MergeAlgorithm.Vertical ->
     VerticalCtx.rows_sources_write_buf ctx = Some rows_sources ->
     VerticalCtx.rows_sources_file ctx = Some rows_sources_file ->
     (N.of_nat (length rows_sources) + input_rows_filtered < UInt64.modulus)%N ->
     let rows_sources_count := N.of_nat (length rows_sources) in
     (rows_sources_checked global_ctx rows_sources ->
      (sum_input_rows_exact <> (rows_sources_count + input_rows_filtered)%N ->
       prepareVerticalMergeForAllColumns global_ctx ctx
       = Throw LOGICAL_ERROR
           (rows_sources_mismatch_message
              sum_input_rows_exact input_rows_filtered rows_sources_count))
      /\ (sum_input_rows_exact = (rows_sources_count + input_rows_filtered)%N ->
          exists global_ctx' ctx',
            prepareVerticalMergeForAllColumns global_ctx ctx
            = Return (false, global_ctx', ctx')
            /\ VerticalCtx.rows_sources_read_buf ctx' = Some rows_sources
            /\ VerticalCtx.column_num_for_vertical_merge ctx' = 0)
      /\ (forall again global_ctx' ctx',
            prepareVerticalMergeForAllColumns global_ctx ctx
            = Return (again, global_ctx', ctx') ->
            (rows_sources_count + input_rows_filtered)%N = sum_input_rows_exact))
     /\ (~ rows_sources_checked global_ctx rows_sources ->
         exists global_ctx' ctx',
           prepareVerticalMergeForAllColumns global_ctx ctx
           = Return (false, global_ctx', ctx')
           /\ VerticalCtx.rows_sources_read_buf ctx' = Some rows_sources
           /\ VerticalCtx.column_num_for_vertical_merge ctx' = 0))
  /\ (GlobalCtx.chosen_merge_algorithm global_ctx <> MergeAlgorithm.Vertical ->
      prepareVerticalMergeForAllColumns global_ctx ctx = Return (false, global_ctx, ctx)).
Proof.
  cbv zeta. split.
  2: { intros Hhorizontal. unfold prepareVerticalMergeForAllColumns.
       by rewrite bool_decide_false by done. }
  intros rows_sources rows_sources_file Hvertical Hbuf Hfile Hrange.
  unfold prepareVerticalMergeForAllColumns.
  rewrite Hvertical, bool_decide_true by done. simpl negb. cbv iota.
  rewrite Hbuf, Hfile. simpl mbind. simpl GlobalCtx.args.
  simpl GlobalCtx.input_rows_filtered. simpl MergeListElement.rows_read.
  assert (Hadd : UInt64.add (N.of_nat (length rows_sources))
                            (GlobalCtx.input_rows_filtered global_ctx)
                 = (N.of_nat (length rows_sources)
                    + GlobalCtx.input_rows_filtered global_ctx)%N).
  { unfold UInt64.add, UInt64.wrap. by apply N.mod_small. }
  rewrite Hadd.
  assert (Hguard :
            (0 <? N.of_nat (length rows_sources))%N
            || (1 <? length (FuturePart.parts
                               (MergeTaskArgs.future_part (GlobalCtx.args global_ctx))))%nat
            = true
            <-> rows_sources_checked global_ctx rows_sources).
  { rewrite orb_true_iff, N.ltb_lt, Nat.ltb_lt. unfold rows_sources_checked.
    split; (intros [Hpos|Hmany]; [left; lia|by right]). }
  split.
  - intros Hchecked. apply Hguard in Hchecked. rewrite Hchecked. simpl andb.
    destruct (N.eqb_spec
                (MergeListElement.rows_read (GlobalCtx.merge_list_element global_ctx))
                (N.of_nat (length rows_sources)
                 + GlobalCtx.input_rows_filtered global_ctx)) as [Heq|Hne]; simpl negb;
      cbv iota.
    + split; [done|]. split; [|done].
      intros _. rewrite lookup_insert_eq. simpl. eexists _, _.
      split; [reflexivity|]. split; reflexivity.
    + split; [done|]. split; [done|]. discriminate.
  - intros Hunchecked.
    assert (Hguarded :
              (0 <? N.of_nat (length rows_sources))%N
              || (1 <? length (FuturePart.parts
                                 (MergeTaskArgs.future_part (GlobalCtx.args global_ctx))))%nat
              = false).
    { apply not_true_is_false. intros Hset. by apply Hguard in Hset. }
    rewrite Hguarded. simpl andb. cbv iota. rewrite lookup_insert_eq. simpl. eexists _, _.
    split; [reflexivity|]. split; reflexivity.
Qed.
End VerticalStage.
(** ** The projections stage *)



Section Projections.
Context `{Engine}.
Context {Child : Type}.
Variable child_create : MergeTaskArgs.t -> Child.



End Projections.

(** ** TTL eviction and the TTL-merges blocker *)

Section TTLBlocker.
Context `{Engine}.

End TTLBlocker.
(** ** The eligibility for decoupling *)

(** The number of elements of [l] that satisfy [f]. *)
Definition count_where {A : Type} (f : A -> bool) (l : list A) : nat :=
  length (List.filter f l).

Lemma count_where_cons {A : Type} (f : A -> bool) (a : A) (l : list A) :
  count_where f (a :: l) = (if f a then 1 else 0) + count_where f l.
Proof. unfold count_where. simpl. by destruct (f a). Qed.

Lemma count_where_le {A : Type} (f : A -> bool) (l : list A) :
  count_where f l <= length l.
Proof.
  induction l as [|a l IH]; [done|]. rewrite count_where_cons. simpl.
  destruct (f a); lia.
Qed.

Lemma count_where_all {A : Type} (f : A -> bool) (l : list A) :
  count_where f l = length l <-> forall a, a ∈ l -> f a = true.
Proof.
  induction l as [|a l IH].
  - split; [|done]. intros _ a Ha. by apply elem_of_nil in Ha.
  - rewrite count_where_cons. simpl. pose proof (count_where_le f l).
    destruct (f a) eqn:Hfa.
    + split.
      * intros Hlen x Hx. apply elem_of_cons in Hx as [->|Hx]; [done|].
        apply IH; [lia|done].
      * intros Hall. f_equal. apply IH. intros x Hx. apply Hall. by right.
    + split; [lia|]. intros Hall. specialize (Hall a). rewrite Hfa in Hall.
      discriminate Hall. by left.
Qed.

Lemma count_where_ext {A : Type} (f g : A -> bool) (l : list A) :
  (forall a, a ∈ l -> f a = g a) -> count_where f l = count_where g l.
Proof.
  induction l as [|a l IH]; intros Hfg; [done|].
  rewrite !count_where_cons, IH.
  - rewrite (Hfg a); [done|by left].
  - intros x Hx. apply Hfg. by right.
Qed.

Lemma count_where_pos {A : Type} (f : A -> bool) (l : list A) :
  0 < count_where f l <-> exists a, a ∈ l /\ f a = true.
Proof.
  induction l as [|a l IH].
  - split; [by inversion 1|]. intros (a & Ha & _). by apply elem_of_nil in Ha.
  - rewrite count_where_cons. destruct (f a) eqn:Hfa.
    + split; [|simpl; lia]. intros _. exists a. split; [by left|done].
    + simpl. rewrite IH. split.
      * intros (x & Hx & Hfx). exists x. split; [by right|done].
      * intros (x & Hx & Hfx). apply elem_of_cons in Hx as [->|Hx]; [congruence|].
        by exists x.
Qed.

Lemma count_where_mono {A : Type} (f g : A -> bool) (l : list A) :
  (forall a, a ∈ l -> f a = true -> g a = true) -> count_where f l <= count_where g l.
Proof.
  induction l as [|a l IH]; intros Hfg; [done|].
  rewrite !count_where_cons.
  assert (count_where f l <= count_where g l).
  { apply IH. intros x Hx. apply Hfg. by right. }
  destruct (f a) eqn:Hfa.
  - rewrite (Hfg a); [lia|by left|done].
  - destruct (g a); lia.
Qed.

(** A list with exactly one element that satisfies [f]. *)
Lemma count_where_one {A : Type} (f : A -> bool) (l : list A) :
  count_where f l = 1 <-> exists a, List.filter f l = [a].
Proof.
  unfold count_where. destruct (List.filter f l) as [|a [|b rest]]; simpl.
  - split; [done|]. by intros [a Ha].
  - split; [by exists a|done].
  - split; [done|]. by intros [c Hc].
Qed.

Section Eligibility.
Context `{Engine}.
Context {Child : Type}.
Variable child_future : Child -> outcome NewPart.t.

Definition has_built_index (index_name : string) (part : DataPart.t) : bool :=
  bool_decide (DataPart.vector_index part !! index_name = Some VectorIndexState.BUILT).

(** The part is counted by [empty_parts_count]: it is empty and has an
    index entry of that name. *)
Definition counted_as_empty (index_name : string) (part : DataPart.t) : bool :=
  bool_decide (is_Some (DataPart.vector_index part !! index_name))
  && (DataPart.rows_count part =? 0)%N.

Definition non_empty (part : DataPart.t) : bool :=
  negb (DataPart.rows_count part =? 0)%N.

Lemma scan_part_counts vec_index i part st :
  num_parts_with_vector_index (scan_part vec_index i part st)
  = (if has_built_index (VectorIndexDescription.name vec_index) part then 1 else 0)
    + num_parts_with_vector_index st
  /\ empty_parts_count (scan_part vec_index i part st)
     = (if counted_as_empty (VectorIndexDescription.name vec_index) part then 1 else 0)
       + empty_parts_count st.
Proof.
  unfold scan_part, has_built_index, counted_as_empty.
  destruct (DataPart.vector_index part !! VectorIndexDescription.name vec_index)
    as [state|]; simpl.
  - destruct (decide (state = VectorIndexState.BUILT)) as [->|Hstate];
      destruct (DataPart.rows_count part =? 0)%N; simpl;
      repeat case_bool_decide; simpl; try (split; lia); try congruence;
      exfalso; eauto.
  - repeat case_bool_decide; simpl; try (split; lia); try congruence.
Qed.

Lemma scan_parts_counts vec_index i parts st :
  num_parts_with_vector_index (scan_parts vec_index i parts st)
  = num_parts_with_vector_index st
    + count_where (has_built_index (VectorIndexDescription.name vec_index)) parts
  /\ empty_parts_count (scan_parts vec_index i parts st)
     = empty_parts_count st
       + count_where (counted_as_empty (VectorIndexDescription.name vec_index)) parts.
Proof.
  revert i st. induction parts as [|part rest IH]; intros i st; simpl.
  - unfold count_where. simpl. split; lia.
  - destruct (IH (S i) (scan_part vec_index i part st)) as [-> ->].
    destruct (scan_part_counts vec_index i part st) as [-> ->].
    rewrite !count_where_cons. split; lia.
Qed.

(** Every non-empty source part has a built index of that name. *)
Definition reusable_index (parts : list DataPart.t) (index_name : string) : Prop :=
  forall part, part ∈ parts -> DataPart.rows_count part <> 0%N ->
               DataPart.vector_index part !! index_name = Some VectorIndexState.BUILT.

(** Every empty source part has an index entry of that name, not built. *)
Definition empty_sources_unbuilt (parts : list DataPart.t) (index_name : string) : Prop :=
  forall part, part ∈ parts -> DataPart.rows_count part = 0%N ->
               exists state, DataPart.vector_index part !! index_name = Some state
                             /\ state <> VectorIndexState.BUILT.

Lemma built_iff_non_empty parts index_name part :
  empty_sources_unbuilt parts index_name ->
  part ∈ parts ->
  has_built_index index_name part = true -> non_empty part = true.
Proof.
  intros Hempty Hin Hbuilt. unfold non_empty.
  destruct (N.eqb_spec (DataPart.rows_count part) 0) as [Hrows|Hrows]; [|done].
  destruct (Hempty part Hin Hrows) as (state & Hstate & Hnot).
  unfold has_built_index in Hbuilt. apply bool_decide_eq_true in Hbuilt. congruence.
Qed.

(** Under [empty_sources_unbuilt] the test of line 358 says what the
    specification says. *)
Lemma counts_reach_num_parts parts index_name :
  empty_sources_unbuilt parts index_name ->
  count_where (has_built_index index_name) parts
  + count_where (counted_as_empty index_name) parts = length parts
  <-> reusable_index parts index_name.
Proof.
  intros Hempty.
  assert (Hsum : forall l, (forall part, part ∈ l -> part ∈ parts) ->
            count_where (has_built_index index_name) l
            + count_where (counted_as_empty index_name) l
            = count_where (fun part => has_built_index index_name part
                                       || counted_as_empty index_name part) l).
  { induction l as [|part rest IH]; intros Hsub; [done|].
    rewrite !count_where_cons, <- IH by (intros p Hp; apply Hsub; by right).
    assert (Hpart : part ∈ parts) by (apply Hsub; by left).
    destruct (has_built_index index_name part) eqn:Hbuilt; simpl; [|lia].
    apply (built_iff_non_empty parts) in Hbuilt; [|done..].
    unfold counted_as_empty. unfold non_empty in Hbuilt.
    apply negb_true_iff in Hbuilt. rewrite Hbuilt, andb_false_r. lia. }
  rewrite Hsum by done. rewrite count_where_all. unfold reusable_index.
  split.
  - intros Hall part Hin Hrows. specialize (Hall part Hin).
    apply orb_true_iff in Hall as [Hbuilt|Hcounted].
    + by apply bool_decide_eq_true in Hbuilt.
    + unfold counted_as_empty in Hcounted.
      apply andb_true_iff in Hcounted as [_ Hzero]. apply N.eqb_eq in Hzero. done.
  - intros Hall part Hin. apply orb_true_iff.
    destruct (N.eqb_spec (DataPart.rows_count part) 0) as [Hrows|Hrows].
    + right. destruct (Hempty part Hin Hrows) as (state & Hstate & _).
      unfold counted_as_empty. rewrite Hstate.
      rewrite bool_decide_true by by eexists. simpl. by apply N.eqb_eq.
    + left. apply bool_decide_eq_true. by apply Hall.
Qed.

(** The local [first_part_with_data] is [-1] or the index of a non-empty
    source part. *)
Definition first_part_ok (parts : list DataPart.t) (first : Z) : Prop :=
  first = (-1)%Z
  \/ ((0 <= first)%Z
      /\ exists part, parts !! Z.to_nat first = Some part
                      /\ DataPart.rows_count part <> 0%N).

Lemma scan_part_first_ok parts vec_index i part st :
  parts !! i = Some part ->
  first_part_ok parts (scan_first_part_with_data st) ->
  first_part_ok parts (scan_first_part_with_data (scan_part vec_index i part st)).
Proof.
  intros Hi Hok. unfold scan_part.
  destruct (DataPart.vector_index part !! VectorIndexDescription.name vec_index)
    as [state|]; simpl; [|done].
  destruct (Z.eqb_spec (scan_first_part_with_data st) (-1)) as [Hfirst|Hfirst];
    destruct (N.eqb_spec (DataPart.rows_count part) 0) as [Hrows|Hrows]; simpl;
    try done.
  right. split; [lia|]. exists part. by rewrite Nat2Z.id.
Qed.

Lemma scan_part_first_set vec_index i part st :
  (scan_first_part_with_data st <> (-1)%Z ->
   scan_first_part_with_data (scan_part vec_index i part st) <> (-1)%Z)
  /\ (is_Some (DataPart.vector_index part !! VectorIndexDescription.name vec_index) ->
      DataPart.rows_count part <> 0%N ->
      scan_first_part_with_data (scan_part vec_index i part st) <> (-1)%Z).
Proof.
  unfold scan_part.
  destruct (DataPart.vector_index part !! VectorIndexDescription.name vec_index)
    as [state|]; simpl.
  - destruct (Z.eqb_spec (scan_first_part_with_data st) (-1)) as [Hfirst|Hfirst];
      destruct (N.eqb_spec (DataPart.rows_count part) 0) as [Hrows|Hrows]; simpl;
      split; intros; try done; lia.
  - split; [done|]. by intros [? ?].
Qed.

Lemma scan_parts_first_ok parts vec_index before rest st :
  parts = before ++ rest ->
  first_part_ok parts (scan_first_part_with_data st) ->
  first_part_ok parts
    (scan_first_part_with_data (scan_parts vec_index (length before) rest st)).
Proof.
  revert before st. induction rest as [|part rest IH]; intros before st Hparts Hok; simpl.
  - done.
  - assert (Hi : parts !! length before = Some part).
    { rewrite Hparts. by rewrite list_lookup_middle. }
    specialize (IH (before ++ [part]) (scan_part vec_index (length before) part st)).
    rewrite length_app in IH. simpl in IH. rewrite Nat.add_1_r in IH.
    apply IH; [by rewrite <- app_assoc|]. by apply scan_part_first_ok.
Qed.

Lemma scan_parts_first_set vec_index i rest st :
  (scan_first_part_with_data st <> (-1)%Z ->
   scan_first_part_with_data (scan_parts vec_index i rest st) <> (-1)%Z)
  /\ ((exists part, part ∈ rest
                    /\ is_Some (DataPart.vector_index part
                                  !! VectorIndexDescription.name vec_index)
                    /\ DataPart.rows_count part <> 0%N) ->
      scan_first_part_with_data (scan_parts vec_index i rest st) <> (-1)%Z).
Proof.
  revert i st. induction rest as [|part rest IH]; intros i st; simpl.
  - split; [done|]. intros (part & Hin & _). by apply elem_of_nil in Hin.
  - destruct (scan_part_first_set vec_index i part st) as [Hkeep Hset].
    destruct (IH (S i) (scan_part vec_index i part st)) as [IHkeep IHset].
    split; [by auto|].
    intros (other & Hin & Hentry & Hrows).
    apply elem_of_cons in Hin as [->|Hin]; [by auto|].
    apply IHset. by exists other.
Qed.

(** The test of line 358 for one vector index. *)
Definition all_parts_counted (parts : list DataPart.t) (index_name : string) : bool :=
  (0 <? length parts)%nat
  && (count_where (has_built_index index_name) parts
      + count_where (counted_as_empty index_name) parts =? length parts)%nat.

Lemma scan_index_fields parts st vec_index :
  let index_name := VectorIndexDescription.name vec_index in
  let st' := scan_index parts st vec_index in
  Decouple.can_be_decouple (scan_decouple st')
  = Decouple.can_be_decouple (scan_decouple st) || all_parts_counted parts index_name
  /\ Decouple.only_one_vpart_merged (scan_decouple st')
     = Decouple.only_one_vpart_merged (scan_decouple st)
  /\ max_part_with_index st'
     = Nat.max (max_part_with_index st)
               (count_where (has_built_index index_name) parts)
  /\ (first_part_ok parts (first_part_with_data st) ->
      first_part_ok parts (first_part_with_data st'))
  /\ (first_part_with_data st <> (-1)%Z -> first_part_with_data st' <> (-1)%Z)
  /\ ((exists part, part ∈ parts
                    /\ is_Some (DataPart.vector_index part !! index_name)
                    /\ DataPart.rows_count part <> 0%N) ->
      first_part_with_data st' <> (-1)%Z).
Proof.
  cbv zeta. unfold scan_index, all_parts_counted.
  set (start := {| num_parts_with_vector_index := 0;
                   empty_parts_count := 0;
                   scan_first_part_with_data := first_part_with_data st;
                   scan_ctx_first_part_with_data :=
                     Decouple.first_part_with_data (scan_decouple st) |}).
  destruct (scan_parts_counts vec_index 0 parts start) as [Hnum Hempty].
  simpl in Hnum, Hempty. rewrite Hnum, Hempty. simpl.
  pose proof (scan_parts_first_ok parts vec_index [] parts start eq_refl) as Hok.
  destruct (scan_parts_first_set vec_index 0 parts start) as [Hkeep Hset].
  simpl in Hok, Hkeep, Hset.
  split.
  { destruct ((0 <? length parts)%nat && _); simpl; [by rewrite orb_true_r|].
    by rewrite orb_false_r. }
  split.
  { by destruct ((0 <? length parts)%nat && _). }
  split.
  { destruct (Nat.ltb_spec (max_part_with_index st)
                (count_where (has_built_index (VectorIndexDescription.name vec_index))
                   parts)); lia. }
  done.
Qed.

Lemma scan_indices_fields parts vector_indices st :
  let st' := foldl (scan_index parts) st vector_indices in
  Decouple.can_be_decouple (scan_decouple st')
  = Decouple.can_be_decouple (scan_decouple st)
    || existsb (fun vec_index =>
                  all_parts_counted parts (VectorIndexDescription.name vec_index))
               vector_indices
  /\ Decouple.only_one_vpart_merged (scan_decouple st')
     = Decouple.only_one_vpart_merged (scan_decouple st)
  /\ max_part_with_index st <= max_part_with_index st'
  /\ (forall vec_index, vec_index ∈ vector_indices ->
        count_where (has_built_index (VectorIndexDescription.name vec_index)) parts
        <= max_part_with_index st')
  /\ (max_part_with_index st' = max_part_with_index st
      \/ exists vec_index,
           vec_index ∈ vector_indices
           /\ max_part_with_index st'
              = count_where (has_built_index (VectorIndexDescription.name vec_index))
                            parts)
  /\ (first_part_ok parts (first_part_with_data st) ->
      first_part_ok parts (first_part_with_data st'))
  /\ (first_part_with_data st <> (-1)%Z -> first_part_with_data st' <> (-1)%Z)
  /\ ((exists vec_index part,
         vec_index ∈ vector_indices /\ part ∈ parts
         /\ is_Some (DataPart.vector_index part
                       !! VectorIndexDescription.name vec_index)
         /\ DataPart.rows_count part <> 0%N) ->
      first_part_with_data st' <> (-1)%Z).
Proof.
  cbv zeta. revert st.
  induction vector_indices as [|vec_index rest IH]; intros st; simpl.
  - rewrite orb_false_r. split; [done|]. split; [done|]. split; [done|].
    split; [intros v Hv; by apply elem_of_nil in Hv|].
    split; [by left|]. split; [done|]. split; [done|].
    intros (v & part & Hv & _). by apply elem_of_nil in Hv.
  - destruct (scan_index_fields parts st vec_index)
      as (Hcan & Honly & Hmax & Hok & Hkeep & Hset).
    destruct (IH (scan_index parts st vec_index))
      as (IHcan & IHonly & IHmax & IHall & IHsome & IHok & IHkeep & IHset).
    split; [by rewrite IHcan, Hcan, orb_assoc|].
    split; [congruence|].
    split; [lia|].
    split.
    { intros v Hv. apply elem_of_cons in Hv as [->|Hv]; [lia|by apply IHall]. }
    split.
    { destruct IHsome as [Hsame|(v & Hv & Hcount)].
      - rewrite Hsame, Hmax.
        destruct (Nat.max_spec (max_part_with_index st)
                    (count_where (has_built_index (VectorIndexDescription.name vec_index))
                       parts)) as [[_ ->]|[_ ->]].
        + right. exists vec_index. split; [by left|done].
        + by left.
      - right. exists v. split; [by right|done]. }
    split; [by auto|]. split; [by auto|].
    intros (v & part & Hv & Hpart & Hentry & Hrows).
    apply elem_of_cons in Hv as [->|Hv].
    + apply IHkeep, Hset. by exists part.
    + apply IHset. by exists v, part.
Qed.

(** For some vector index of the table, every non-empty source part has a
    built index. *)
Definition some_index_reusable (vector_indices : list VectorIndexDescription.t)
    (parts : list DataPart.t) : Prop :=
  exists vec_index,
    vec_index ∈ vector_indices
    /\ reusable_index parts (VectorIndexDescription.name vec_index).

(** Exactly one source part is not empty, and it has no lightweight
    delete. *)
Definition single_source_without_lwd (parts : list DataPart.t) : Prop :=
  exists part,
    List.filter non_empty parts = [part]
    /\ DataPart.has_lightweight_delete part = false.

Lemma existsb_all_parts_counted vector_indices parts :
  parts <> [] ->
  (forall vec_index, vec_index ∈ vector_indices ->
     empty_sources_unbuilt parts (VectorIndexDescription.name vec_index)) ->
  existsb (fun vec_index =>
             all_parts_counted parts (VectorIndexDescription.name vec_index))
          vector_indices = true
  <-> some_index_reusable vector_indices parts.
Proof.
  intros Hparts Hempty. rewrite existsb_exists. unfold some_index_reusable.
  assert (Hlen : (0 <? length parts)%nat = true).
  { apply Nat.ltb_lt. destruct parts; [done|simpl; lia]. }
  split; intros (vec_index & Hin & Hcounted); exists vec_index.
  - apply list_elem_of_In in Hin. split; [done|].
    unfold all_parts_counted in Hcounted. rewrite Hlen in Hcounted. simpl in Hcounted.
    apply Nat.eqb_eq in Hcounted. apply counts_reach_num_parts in Hcounted; auto.
  - split; [by apply list_elem_of_In|].
    unfold all_parts_counted. rewrite Hlen. simpl. apply Nat.eqb_eq.
    apply counts_reach_num_parts; auto.
Qed.

Lemma in_filter_non_empty parts part :
  part ∈ parts -> DataPart.rows_count part <> 0%N ->
  In part (List.filter non_empty parts).
Proof.
  intros Hin Hrows. apply filter_In. split; [by apply list_elem_of_In|].
  unfold non_empty. apply negb_true_iff. by apply N.eqb_neq.
Qed.

Lemma reset_decouple_of_empty_part_flags d :
  Decouple.can_be_decouple (reset_decouple_of_empty_part 0 d) = false
  /\ Decouple.only_one_vpart_merged (reset_decouple_of_empty_part 0 d) = false.
Proof. done. Qed.

(** The finalizer of a merge that wrote no row. *)
Lemma finalizer_resets_decouple global_ctx (ctx : ProjectionsCtx.t Child)
      again global_ctx' ctx' :
  GlobalCtx.rows_written global_ctx = 0%N ->
  finalizeProjectionsAndWholeMerge child_future global_ctx ctx
  = Return (again, global_ctx', ctx') ->
  Decouple.can_be_decouple (GlobalCtx.decouple global_ctx') = false
  /\ Decouple.only_one_vpart_merged (GlobalCtx.decouple global_ctx') = false
  /\ (NewPart.rows_count <$> GlobalCtx.promise global_ctx') = Some 0%N.
Proof.
  intros Hrows. unfold finalizeProjectionsAndWholeMerge. intros Hfinal.
  bind_inv Hfinal new_data_part Hpart.
  bind_inv Hfinal with_projections Hprojections.
  simpl in Hfinal. rewrite Hrows in Hfinal. simpl in Hfinal.
  injection Hfinal as <- <- <-. done.
Qed.

(** The test of line 358 over the vector indices of the table: there is
    a source part and, for some vector index, the source parts whose index
    of that name is built and the empty source parts that carry an index
    of that name add up to the number of source parts. *)
Definition counted_eligible (vector_indices : list VectorIndexDescription.t)
    (parts : list DataPart.t) : Prop :=
  parts <> []
  /\ exists vec_index,
       vec_index ∈ vector_indices
       /\ count_where (has_built_index (VectorIndexDescription.name vec_index)) parts
          + count_where (counted_as_empty (VectorIndexDescription.name vec_index)) parts
          = length parts.

Lemma existsb_counted_eligible vector_indices parts :
  existsb (fun vec_index =>
             all_parts_counted parts (VectorIndexDescription.name vec_index))
          vector_indices = true
  <-> counted_eligible vector_indices parts.
Proof.
  rewrite existsb_exists. unfold counted_eligible, all_parts_counted. split.
  - intros (vec_index & Hin & Hcounted).
    apply andb_true_iff in Hcounted as [Hlen Hsum].
    apply Nat.ltb_lt in Hlen. apply Nat.eqb_eq in Hsum.
    split; [by destruct parts; [simpl in Hlen; lia|]|].
    exists vec_index. split; [by apply list_elem_of_In|done].
  - intros (Hparts & vec_index & Hin & Hsum). exists vec_index.
    split; [by apply list_elem_of_In|]. apply andb_true_iff. split.
    + apply Nat.ltb_lt. destruct parts; [done|simpl; lia].
    + by apply Nat.eqb_eq.
Qed.

(** Whatever the source parts are, the eligibility test sets one of the
    two flags, and never both, exactly when the counts add up. *)
Lemma checkDecouple_counts settings vector_indices parts d d' :
  Decouple.can_be_decouple d = false ->
  Decouple.only_one_vpart_merged d = false ->
  Settings.enable_decouple_vector_index settings = true ->
  checkDecouple settings vector_indices parts d = Return d' ->
  (Decouple.can_be_decouple d' = true \/ Decouple.only_one_vpart_merged d' = true
   <-> counted_eligible vector_indices parts)
  /\ ~ (Decouple.can_be_decouple d' = true
        /\ Decouple.only_one_vpart_merged d' = true).
Proof.
  intros Hcan0 Honly0 Hon. unfold checkDecouple, scan_indices. rewrite Hon.
  set (start := {| first_part_with_data := (-1)%Z;
                   max_part_with_index := 0;
                   scan_decouple := d |}).
  destruct (scan_indices_fields parts vector_indices start) as (Hcan & Honly & _).
  simpl in Hcan, Honly. rewrite Hcan0 in Hcan. simpl in Hcan. rewrite Honly0 in Honly.
  rewrite <- existsb_counted_eligible, <- Hcan.
  set (st := foldl (scan_index parts) start vector_indices) in *.
  destruct (Decouple.can_be_decouple (scan_decouple st)) eqn:Hcan_st; simpl.
  - destruct (max_part_with_index st =? 1)%nat.
    + intros Hcheck. bind_inv Hcheck part Hpart.
      destruct (DataPart.has_lightweight_delete part); simpl in Hcheck;
        injection Hcheck as <-; simpl; rewrite ?Hcan_st, ?Honly.
      * split; [split; [done|by left]|]. by intros [_ Honly'].
      * split; [split; [done|by right]|]. by intros [Hcan' _].
    + intros [= <-]. rewrite Hcan_st, Honly.
      split; [split; [done|by left]|]. by intros [_ Honly'].
  - intros [= <-]. rewrite Hcan_st, Honly.
    split; [|by intros [Hcan' _]]. split; [by intros [Hcan'|Honly']|done].
Qed.

(** When every empty source part carries an index that is not built, the
    eligibility test returns and decides by the non-empty source parts. *)
Lemma checkDecouple_reusable settings vector_indices parts d :
  parts <> [] ->
  (forall vec_index, vec_index ∈ vector_indices ->
     empty_sources_unbuilt parts (VectorIndexDescription.name vec_index)) ->
  Decouple.can_be_decouple d = false ->
  Decouple.only_one_vpart_merged d = false ->
  Settings.enable_decouple_vector_index settings = true ->
  exists d',
    checkDecouple settings vector_indices parts d = Return d'
    /\ (Decouple.can_be_decouple d' = true
        <-> some_index_reusable vector_indices parts
            /\ ~ single_source_without_lwd parts)
    /\ (Decouple.only_one_vpart_merged d' = true
        <-> some_index_reusable vector_indices parts
            /\ single_source_without_lwd parts).
Proof.
  intros Hparts Hempty Hcan0 Honly0 Hon.
  unfold checkDecouple, scan_indices. rewrite Hon.
  set (start := {| first_part_with_data := (-1)%Z;
                   max_part_with_index := 0;
                   scan_decouple := d |}).
  destruct (scan_indices_fields parts vector_indices start)
    as (Hcan & Honly & _ & Hall & Hsome & Hok & _ & Hset).
  simpl in Hcan, Honly, Hsome, Hok.
  rewrite Hcan0 in Hcan. simpl in Hcan. rewrite Honly0 in Honly.
  pose proof (existsb_all_parts_counted vector_indices parts Hparts Hempty) as Hreusable.
  rewrite <- Hcan in Hreusable.
  set (st := foldl (scan_index parts) start vector_indices) in *.
  (* a built index is the index of a non-empty part *)
  assert (Hbuilt_le : forall vec_index, vec_index ∈ vector_indices ->
            count_where (has_built_index (VectorIndexDescription.name vec_index)) parts
            <= count_where non_empty parts).
  { intros v Hv. apply count_where_mono. intros part Hin.
    by apply (built_iff_non_empty parts); [apply Hempty|]. }
  (* for a reusable index the two counts agree *)
  assert (Hbuilt_eq : forall vec_index, vec_index ∈ vector_indices ->
            reusable_index parts (VectorIndexDescription.name vec_index) ->
            count_where (has_built_index (VectorIndexDescription.name vec_index)) parts
            = count_where non_empty parts).
  { intros v Hv Hreuse. apply count_where_ext. intros part Hin.
    destruct (has_built_index (VectorIndexDescription.name v) part) eqn:Hbuilt.
    - symmetry. by apply (built_iff_non_empty parts _ part (Hempty v Hv)).
    - unfold non_empty. destruct (N.eqb_spec (DataPart.rows_count part) 0); [done|].
      unfold has_built_index in Hbuilt. apply bool_decide_eq_false in Hbuilt.
      exfalso. apply Hbuilt. by apply Hreuse. }
  destruct (Decouple.can_be_decouple (scan_decouple st)) eqn:Hcan_st; simpl.
  - assert (Heligible : some_index_reusable vector_indices parts) by by apply Hreusable.
    destruct Heligible as (v & Hv & Hreuse).
    destruct (Nat.eqb_spec (max_part_with_index st) 1) as [Hmax|Hmax].
    + (* one part carries a built index *)
      destruct Hsome as [Hzero|(v' & Hv' & Hcount)]; [lia|].
      assert (Hone : count_where non_empty parts = 1).
      { pose proof (Hall v Hv). pose proof (Hbuilt_eq v Hv Hreuse).
        pose proof (Hbuilt_le v' Hv'). lia. }
      apply count_where_one in Hone as [only Honly_part].
      assert (Hfirst : first_part_with_data st <> (-1)%Z).
      { apply Hset.
        assert (Hpos : 0 < count_where
                             (has_built_index (VectorIndexDescription.name v')) parts)
          by lia.
        apply count_where_pos in Hpos as (part & Hin & Hbuilt).
        exists v', part. split; [done|]. split; [done|].
        pose proof (built_iff_non_empty parts _ part (Hempty v' Hv') Hin Hbuilt) as Hne.
        unfold has_built_index in Hbuilt. apply bool_decide_eq_true in Hbuilt.
        split; [by rewrite Hbuilt|].
        unfold non_empty in Hne. apply negb_true_iff, N.eqb_neq in Hne. done. }
      destruct Hok as [Hminus|(Hnonneg & part & Hlookup & Hrows)]; [by left|done|].
      unfold at_index_Z. rewrite (proj2 (Z.ltb_ge _ _) Hnonneg).
      rewrite (at_index_Some _ _ _ Hlookup). simpl.
      assert (Hpart : part = only).
      { pose proof (in_filter_non_empty parts part
                      (list_elem_of_lookup_2 _ _ _ Hlookup) Hrows) as Hin.
        rewrite Honly_part in Hin. destruct Hin as [->|[]]. done. }
      subst part.
      destruct (DataPart.has_lightweight_delete only) eqn:Hlwd; simpl.
      * eexists. split; [reflexivity|]. rewrite Hcan_st, Honly. split.
        -- split; [intros _|done]. split; [by exists v|].
           intros (other & Hother & Hno).
           rewrite Honly_part in Hother. injection Hother as <-. congruence.
        -- split; [done|]. intros [_ (other & Hother & Hno)].
           rewrite Honly_part in Hother. injection Hother as <-. congruence.
      * eexists. split; [reflexivity|]. simpl. split.
        -- split; [done|]. intros [_ Hnot]. exfalso. apply Hnot. by exists only.
        -- split; [intros _|done]. split; [by exists v|by exists only].
    + eexists. split; [reflexivity|]. rewrite Hcan_st, Honly.
      assert (Hnot : ~ single_source_without_lwd parts).
      { intros (only & Honly_part & _). apply Hmax.
        assert (Hone : count_where non_empty parts = 1).
        { apply count_where_one. by exists only. }
        pose proof (Hall v Hv). pose proof (Hbuilt_eq v Hv Hreuse).
        destruct Hsome as [Hzero|(v' & Hv' & Hcount)]; [simpl in Hzero; lia|].
        pose proof (Hbuilt_le v' Hv'). lia. }
      split; split; try done.
      * intros _. split; [by exists v|done].
      * tauto.
  - eexists. split; [reflexivity|]. rewrite Hcan_st, Honly.
    assert (Hnone : ~ some_index_reusable vector_indices parts).
    { rewrite <- Hreusable. done. }
    split; split; try done; tauto.
Qed.

(** C2, amended.  With [enable_decouple_vector_index] off the flags stay
    as they are.  With the setting on, the eligibility test of [prepare]
    sets one of [can_be_decouple] and [only_one_vpart_merged], never both,
    exactly when there is a source part and, for some vector index, the
    source parts whose index of that name is built and the empty source
    parts that carry an index of that name add up to the number of source
    parts.  When moreover there is a source part and every empty source
    part carries, for every vector index, an index that is not built, the
    counts add up exactly when some vector index is built in every
    non-empty source part; the test then returns and leaves
    [can_be_decouple] set in that case, unless exactly one source part is
    non-empty and has no lightweight delete, in which case
    [only_one_vpart_merged] is set instead.  And whatever [prepare]
    decided, the finalizer of a merge that wrote no row leaves both flags
    cleared. *)
Theorem can_be_decouple_iff_reusable settings vector_indices parts d :
  Decouple.can_be_decouple d = false ->
  Decouple.only_one_vpart_merged d = false ->
  (Settings.enable_decouple_vector_index settings = false ->
   checkDecouple settings vector_indices parts d = Return d)
  /\ (Settings.enable_decouple_vector_index settings = true ->
      forall d',
        checkDecouple settings vector_indices parts d = Return d' ->
        (Decouple.can_be_decouple d' = true \/ Decouple.only_one_vpart_merged d' = true
         <-> counted_eligible vector_indices parts)
        /\ ~ (Decouple.can_be_decouple d' = true
              /\ Decouple.only_one_vpart_merged d' = true))
  /\ (Settings.enable_decouple_vector_index settings = true ->
      parts <> [] ->
      (forall vec_index, vec_index ∈ vector_indices ->
         empty_sources_unbuilt parts (VectorIndexDescription.name vec_index)) ->
      (counted_eligible vector_indices parts
       <-> some_index_reusable vector_indices parts)
      /\ exists d',
           checkDecouple settings vector_indices parts d = Return d'
           /\ (Decouple.can_be_decouple d' = true
               <-> some_index_reusable vector_indices parts
                   /\ ~ single_source_without_lwd parts)
           /\ (Decouple.only_one_vpart_merged d' = true
               <-> some_index_reusable vector_indices parts
                   /\ single_source_without_lwd parts))
  /\ (forall global_ctx (ctx : ProjectionsCtx.t Child) again global_ctx' ctx',
        GlobalCtx.rows_written global_ctx = 0%N ->
        finalizeProjectionsAndWholeMerge child_future global_ctx ctx
        = Return (again, global_ctx', ctx') ->
        Decouple.can_be_decouple (GlobalCtx.decouple global_ctx') = false
        /\ Decouple.only_one_vpart_merged (GlobalCtx.decouple global_ctx') = false).
Proof.
  intros Hcan0 Honly0. split; [|split; [|split] ].
  - intros Hoff. unfold checkDecouple. by rewrite Hoff.
  - intros Hon d' Hcheck. by apply (checkDecouple_counts settings vector_indices parts d).
  - intros Hon Hparts Hempty. split.
    + rewrite <- existsb_counted_eligible. by apply existsb_all_parts_counted.
    + by apply checkDecouple_reusable.
  - intros global_ctx ctx again global_ctx' ctx' Hrows Hfinal.
    by destruct (finalizer_resets_decouple _ _ _ _ _ Hrows Hfinal) as (? & ? & _).
Qed.
End Eligibility.
(** ** generateRowIdsMap *)

(** The row ids [start], [start + 1], ... of [count] old rows. *)
Fixpoint rows_from (start : N) (count : nat) : list N :=
  match count with
  | 0 => []
  | S count => start :: rows_from (N.succ start) count
  end.

Lemma length_rows_from start count : length (rows_from start count) = count.
Proof. revert start. induction count as [|count IH]; intros start; simpl; [done|]. by rewrite IH. Qed.


Lemma of_Z_minus_one : UInt64.of_Z (-1) = UInt64.MAX.
Proof. vm_compute. reflexivity. Qed.

(** The entry of the forward map for old row [old_row_id] where every row
    gets an entry. *)
Definition forward_entry (ids : gmap N N) (old_row_id : N) : N :=
  match ids !! old_row_id with
  | Some new_row_id => new_row_id
  | None => UInt64.MAX
  end.

Section RowIdsMaps.
Context `{Engine}.

Lemma write_row_ids_plain_spec ids count start written :
  write_row_ids_plain ids count start written
  = written ++ (forward_entry ids <$> rows_from start count).
Proof.
  revert start written. induction count as [|count IH]; intros start written; simpl.
  - by rewrite app_nil_r.
  - rewrite IH, <- app_assoc. simpl. unfold forward_entry at 2.
    by rewrite of_Z_minus_one.
Qed.

Lemma write_row_ids_collapsing_spec ids count start written deleted :
  write_row_ids_collapsing ids count start written deleted
  = (written ++ omap (fun old_row_id => ids !! old_row_id) (rows_from start count),
     deleted ++ List.filter (fun old_row_id => bool_decide (ids !! old_row_id = None))
                            (rows_from start count)).
Proof.
  revert start written deleted.
  induction count as [|count IH]; intros start written deleted; simpl.
  - by rewrite !app_nil_r.
  - destruct (ids !! start) as [new_row_id|] eqn:Hid; rewrite IH; csimpl;
      rewrite <- ?app_assoc; done.
Qed.

Lemma append_to_buf_spec bufs i entries bufs' :
  append_to_buf bufs i entries = Return bufs' ->
  length bufs' = length bufs
  /\ (forall j, j <> i -> bufs' !! j = bufs !! j)
  /\ (forall buf, bufs !! i = Some buf -> bufs' !! i = Some (buf ++ entries)).
Proof.
  unfold append_to_buf. destruct entries as [|entry entries].
  - intros [= <-]. split; [done|]. split; [done|].
    intros buf Hbuf. by rewrite app_nil_r.
  - intros Happend. bind_inv Happend buf Hbuf. injection Happend as <-.
    apply at_index_Return in Hbuf. split; [by rewrite length_insert|]. split.
    + intros j Hj. by rewrite list_lookup_insert_ne.
    + intros buf' Hbuf'. rewrite list_lookup_insert_eq.
      * congruence.
      * by eapply lookup_lt_Some.
Qed.

(** A loop over distinct source numbers whose body appends to the buffer
    of its source only. *)
Lemma fold_appends {S : Type} (bufs_of : S -> list (list N))
      (appended : nat -> list N -> Prop) (body : S -> nat -> outcome S) :
  (forall s i s',
     body s i = Return s' ->
     exists entries,
       appended i entries
       /\ length (bufs_of s') = length (bufs_of s)
       /\ (forall j, j <> i -> bufs_of s' !! j = bufs_of s !! j)
       /\ (forall buf, bufs_of s !! i = Some buf ->
                       bufs_of s' !! i = Some (buf ++ entries))) ->
  forall l s s',
    NoDup l ->
    fold_outcome body l s = Return s' ->
    length (bufs_of s') = length (bufs_of s)
    /\ (forall j, j ∉ l -> bufs_of s' !! j = bufs_of s !! j)
    /\ (forall i, i ∈ l ->
          exists entries,
            appended i entries
            /\ (forall buf, bufs_of s !! i = Some buf ->
                            bufs_of s' !! i = Some (buf ++ entries))).
Proof.
  intros Hbody l. induction l as [|a l IH]; intros s s' Hnodup Hfold; simpl in Hfold.
  - injection Hfold as <-. split; [done|]. split; [done|].
    intros i Hi. by apply elem_of_nil in Hi.
  - bind_inv Hfold s1 Hstep. apply NoDup_cons in Hnodup as [Hfresh Hnodup].
    destruct (Hbody _ _ _ Hstep) as (entries & Happended & Hlen & Hother & Hthis).
    destruct (IH _ _ Hnodup Hfold) as (IHlen & IHother & IHthis).
    split; [congruence|]. split.
    + intros j Hj. apply not_elem_of_cons in Hj as [Hja Hjl].
      rewrite IHother by done. by apply Hother.
    + intros i Hi. apply elem_of_cons in Hi as [->|Hi].
      * exists entries. split; [done|]. intros buf Hbuf.
        rewrite IHother by done. by apply Hthis.
      * destruct (IHthis i Hi) as (entries' & Happended' & Hthis').
        exists entries'. split; [done|]. intros buf Hbuf. apply Hthis'.
        rewrite Hother; [done|]. intros ->. done.
Qed.

(** The replay of the rows-sources stream, by mode. *)
Definition replayed (mode : MergingParams.Mode) (parts : list DataPart.t)
    (rows_sources : list RowSourcePart.t) : outcome Replay :=
  fold_outcome
    (if is_collapsing_mode mode
     then replay_record_collapsing (read_part_offsets <$> parts)
     else replay_record_plain (read_part_offsets <$> parts))
    rows_sources (replay_start (length parts)).

(** The forward map of a source part of [rows_count] rows whose surviving
    rows have the new row ids [ids], by mode. *)
Definition forward_map (mode : MergingParams.Mode) (ids : gmap N N) (rows_count : N)
    : list N :=
  if is_collapsing_mode mode
  then omap (fun old_row_id => ids !! old_row_id) (rows_from 0 (N.to_nat rows_count))
  else forward_entry ids <$> rows_from 0 (N.to_nat rows_count).

Lemma build_row_ids_maps_spec mode parts vector_indices rows_sources
      bufs updates inverted bufs' updates' :
  build_row_ids_maps mode parts vector_indices rows_sources bufs updates
  = Return (inverted, bufs', updates') ->
  exists st,
    replayed mode parts rows_sources = Return st
    /\ inverted = inverted_row_ids_map_buf st
    /\ length bufs' = length bufs
    /\ forall i part,
         parts !! i = Some part ->
         exists ids,
           parts_new_row_ids st !! i = Some ids
           /\ forall buf, bufs !! i = Some buf ->
                bufs' !! i
                = Some (buf ++ forward_map mode ids (DataPart.rows_count part)).
Proof.
  unfold build_row_ids_maps, replayed, forward_map.
  destruct (is_collapsing_mode mode); intros Hbuild.
  - bind_inv Hbuild st Hreplay. bind_inv Hbuild written Hwrite.
    destruct written as [bufs1 updates1]. injection Hbuild as <- <- <-.
    exists st. split; [done|]. split; [done|].
    eapply (fold_appends fst
              (fun i entries =>
                 exists part ids,
                   parts !! i = Some part /\ parts_new_row_ids st !! i = Some ids
                   /\ entries = omap (fun old_row_id => ids !! old_row_id)
                                  (rows_from 0 (N.to_nat (DataPart.rows_count part)))))
      in Hwrite as (Hlen & _ & Hwritten); [| |apply NoDup_seq].
    + split; [done|]. intros i part Hpart.
      destruct (Hwritten i) as (entries & (part' & ids & Hpart' & Hids & ->) & Hbuf).
      { apply elem_of_seq. apply lookup_lt_Some in Hpart. lia. }
      exists ids. split; [done|]. intros buf Hsome. simpl in Hbuf.
      rewrite (Hbuf buf Hsome). congruence.
    + intros [bufs0 updates0] i [bufs2 updates2] Hbody. simpl.
      unfold write_row_ids_map_collapsing in Hbody.
      bind_inv Hbody part Hpart. bind_inv Hbody ids Hids.
      rewrite write_row_ids_collapsing_spec in Hbody. simpl in Hbody.
      bind_inv Hbody bufs3 Happend.
      apply at_index_Return in Hpart, Hids.
      apply append_to_buf_spec in Happend as (Hlen & Hother & Hthis).
      assert (bufs2 = bufs3) as ->.
      { destruct (0 <? _)%nat.
        - bind_inv Hbody updates3 Hupdates. by injection Hbody as <- <-.
        - by injection Hbody as <- <-. }
      eexists. split; [by exists part, ids|]. done.
  - bind_inv Hbuild st Hreplay. bind_inv Hbuild bufs1 Hwrite.
    injection Hbuild as <- <- <-.
    exists st. split; [done|]. split; [done|].
    eapply (fold_appends id
              (fun i entries =>
                 exists part ids,
                   parts !! i = Some part /\ parts_new_row_ids st !! i = Some ids
                   /\ entries = forward_entry ids
                                  <$> rows_from 0 (N.to_nat (DataPart.rows_count part))))
      in Hwrite as (Hlen & _ & Hwritten); [| |apply NoDup_seq].
    + split; [done|]. intros i part Hpart.
      destruct (Hwritten i) as (entries & (part' & ids & Hpart' & Hids & ->) & Hbuf).
      { apply elem_of_seq. apply lookup_lt_Some in Hpart. lia. }
      exists ids. split; [done|]. intros buf Hsome. simpl in Hbuf.
      rewrite (Hbuf buf Hsome). congruence.
    + intros bufs0 i bufs2 Hbody. simpl.
      unfold write_row_ids_map_plain in Hbody.
      bind_inv Hbody part Hpart. bind_inv Hbody ids Hids.
      rewrite write_row_ids_plain_spec in Hbody. simpl in Hbody.
      apply at_index_Return in Hpart, Hids.
      apply append_to_buf_spec in Hbody as (Hlen & Hother & Hthis).
      eexists. split; [by exists part, ids|]. done.
Qed.

(** *** The replay gives row ids that the inverted map sends back *)

(** The new row id is the number of entries of the inverted map, and an
    old row with new row id [j] is the [j]-th entry of the inverted map. *)
Definition replay_consistent (st : Replay) : Prop :=
  new_part_row_id st = N.of_nat (length (inverted_row_ids_map_buf st))
  /\ forall source_num ids old_row_id new_row_id,
       parts_new_row_ids st !! source_num = Some ids ->
       ids !! old_row_id = Some new_row_id ->
       inverted_row_ids_map_buf st !! N.to_nat new_row_id = Some old_row_id.

Lemma record_new_row_id_consistent part_offsets st source_num st' :
  (N.of_nat (length (inverted_row_ids_map_buf st)) + 1 < UInt64.modulus)%N ->
  replay_consistent st ->
  record_new_row_id part_offsets st source_num = Return st' ->
  replay_consistent st'
  /\ length (inverted_row_ids_map_buf st') = S (length (inverted_row_ids_map_buf st)).
Proof.
  intros Hrange [Hnext Hentries] Hrecord. unfold record_new_row_id in Hrecord.
  bind_inv Hrecord offsets Hoffsets. bind_inv Hrecord cursor Hcursor.
  bind_inv Hrecord old_part_offset Hoffset. bind_inv Hrecord ids0 Hids0.
  injection Hrecord as <-. apply at_index_Return in Hids0.
  split; [|simpl; rewrite length_app; simpl; lia].
  split; simpl.
  - rewrite length_app. simpl. unfold UInt64.incr, UInt64.add, UInt64.wrap.
    rewrite Hnext, N.mod_small by lia. lia.
  - intros source ids old_row_id new_row_id Hids Hid.
    destruct (decide (source = source_num)) as [->|Hsource].
    + rewrite list_lookup_insert_eq in Hids by by eapply lookup_lt_Some.
      injection Hids as <-.
      destruct (decide (old_row_id = old_part_offset)) as [->|Hrow].
      * rewrite lookup_insert_eq in Hid. injection Hid as <-.
        rewrite Hnext, Nat2N.id. by rewrite list_lookup_middle.
      * rewrite lookup_insert_ne in Hid by done.
        pose proof (Hentries _ _ _ _ Hids0 Hid) as Hold.
        rewrite lookup_app_l; [done|]. by eapply lookup_lt_Some.
    + rewrite list_lookup_insert_ne in Hids by done.
      pose proof (Hentries _ _ _ _ Hids Hid) as Hold.
      rewrite lookup_app_l; [done|]. by eapply lookup_lt_Some.
Qed.

Lemma advance_source_consistent st source_num st' :
  replay_consistent st ->
  advance_source st source_num = Return st' ->
  replay_consistent st'
  /\ inverted_row_ids_map_buf st' = inverted_row_ids_map_buf st.
Proof.
  intros Hst Hadvance. unfold advance_source in Hadvance.
  bind_inv Hadvance cursor Hcursor. by injection Hadvance as <-.
Qed.

Lemma replay_record_consistent (collapsing : bool) part_offsets st row_source st' :
  (N.of_nat (length (inverted_row_ids_map_buf st)) + 1 < UInt64.modulus)%N ->
  replay_consistent st ->
  (if collapsing then replay_record_collapsing part_offsets else replay_record_plain part_offsets)
    st row_source = Return st' ->
  replay_consistent st'
  /\ length (inverted_row_ids_map_buf st') <= S (length (inverted_row_ids_map_buf st)).
Proof.
  intros Hrange Hst Hstep.
  destruct collapsing; unfold replay_record_collapsing, replay_record_plain in Hstep.
  - bind_inv Hstep st1 Hrecord.
    destruct (negb (RowSourcePart.getSkipFlag row_source)).
    + apply record_new_row_id_consistent in Hrecord as [Hst1 Hlen]; [|done..].
      apply advance_source_consistent in Hstep as [Hst' Hsame]; [|done].
      split; [done|]. rewrite Hsame. lia.
    + injection Hrecord as <-.
      apply advance_source_consistent in Hstep as [Hst' Hsame]; [|done].
      split; [done|]. rewrite Hsame. lia.
  - bind_inv Hstep st1 Hrecord.
    apply record_new_row_id_consistent in Hrecord as [Hst1 Hlen]; [|done..].
    apply advance_source_consistent in Hstep as [Hst' Hsame]; [|done].
    split; [done|]. rewrite Hsame. lia.
Qed.

Lemma replay_consistent_fold (collapsing : bool) part_offsets rows_sources st st' :
  (N.of_nat (length (inverted_row_ids_map_buf st) + length rows_sources)
   < UInt64.modulus)%N ->
  replay_consistent st ->
  fold_outcome
    (if collapsing then replay_record_collapsing part_offsets
     else replay_record_plain part_offsets) rows_sources st = Return st' ->
  replay_consistent st'.
Proof.
  revert st. induction rows_sources as [|row_source rest IH]; intros st Hrange Hst Hfold;
    simpl in Hfold.
  - by injection Hfold as <-.
  - bind_inv Hfold st1 Hstep. simpl in Hrange.
    apply (replay_record_consistent collapsing) in Hstep as [Hst1 Hlen]; [|lia|done].
    apply (IH st1); [lia|done|done].
Qed.

Lemma replayed_consistent mode parts rows_sources st :
  (N.of_nat (length rows_sources) < UInt64.modulus)%N ->
  replayed mode parts rows_sources = Return st ->
  replay_consistent st.
Proof.
  intros Hrange Hreplay. unfold replayed in Hreplay.
  apply (replay_consistent_fold (is_collapsing_mode mode)
           (read_part_offsets <$> parts) rows_sources (replay_start (length parts))).
  - simpl. exact Hrange.
  - split; [done|]. intros source ids old_row_id new_row_id Hids Hid.
    simpl in Hids. apply lookup_replicate in Hids as [-> _]. done.
  - by destruct (is_collapsing_mode mode).
Qed.



End RowIdsMaps.
(** ** Cancellation *)

Section Cancellation.
Context `{Engine}.
Context {Child : Type}.
Variable child_create : MergeTaskArgs.t -> Child.
Variable child_execute : Env.t -> Child -> outcome (bool * Child).
Variable child_future : Child -> outcome NewPart.t.

Lemma executeImpl_promise env global_ctx ctx again global_ctx' ctx' :
  executeImpl env global_ctx ctx = Return (again, global_ctx', ctx') ->
  GlobalCtx.promise global_ctx' = GlobalCtx.promise global_ctx.
Proof.
  unfold executeImpl. intros Hexecute. bind_inv Hexecute pulled Hpulled.
  destruct pulled as [[block executor]|].
  - bind_inv Hexecute ctx1 Hctx. by injection Hexecute as <- <- <-.
  - destruct (Env.merges_blocker env || Env.is_cancelled env); [done|].
    destruct (HorizontalCtx.need_remove_expired_values ctx && _); [done|].
    by injection Hexecute as <- <- <-.
Qed.

Lemma generateRowIdsMap_promise global_ctx ctx again global_ctx' ctx' :
  generateRowIdsMap global_ctx ctx = Return (again, global_ctx', ctx') ->
  GlobalCtx.promise global_ctx' = GlobalCtx.promise global_ctx.
Proof.
  unfold generateRowIdsMap. destruct (decide _); [by intros [= <- <- <-]|].
  intros Hgenerate. bind_inv Hgenerate rows_sources Hbuf.
  bind_inv Hgenerate rows_sources_file Hfile.
  bind_inv Hgenerate read_buf Hread. bind_inv Hgenerate new_data_part Hpart.
  bind_inv Hgenerate built Hbuild. destruct built as [[inverted bufs] updates].
  simpl in Hgenerate.
  destruct (if decide (GlobalCtx.chosen_merge_algorithm global_ctx
                       = MergeAlgorithm.Horizontal) then _ else _)
    as [tmp_disk ctx1].
  bind_inv Hgenerate files Hflush. by injection Hgenerate as <- <- <-.
Qed.

Lemma prepareVerticalMergeForAllColumns_promise global_ctx ctx again global_ctx' ctx' :
  prepareVerticalMergeForAllColumns global_ctx ctx = Return (again, global_ctx', ctx') ->
  GlobalCtx.promise global_ctx' = GlobalCtx.promise global_ctx.
Proof.
  unfold prepareVerticalMergeForAllColumns.
  destruct (negb _); [by intros [= <- <- <-]|].
  intros Hprepare. bind_inv Hprepare rows_sources Hbuf.
  bind_inv Hprepare rows_sources_file Hfile. simpl in Hprepare.
  destruct (_ && _); [done|].
  bind_inv Hprepare read_buf Hread. by injection Hprepare as <- <- <-.
Qed.

Lemma executeVerticalMergeForAllColumns_promise env global_ctx ctx again global_ctx' ctx' :
  executeVerticalMergeForAllColumns env global_ctx ctx
  = Return (again, global_ctx', ctx') ->
  GlobalCtx.promise global_ctx' = GlobalCtx.promise global_ctx.
Proof.
  unfold executeVerticalMergeForAllColumns.
  destruct (negb _); [by intros [= <- <- <-]|].
  destruct (_ <=? _)%nat; [by intros [= <- <- <-]|].
  destruct (VerticalCtx.vertical_merge_one_column_state ctx); intros Hexecute.
  - bind_inv Hexecute prepared Hprepare. destruct prepared as [g c].
    injection Hexecute as <- <- <-.
    unfold prepareVerticalMergeForOneColumn in Hprepare.
    bind_inv Hprepare column Hcolumn. bind_inv Hprepare read_buf Hread.
    by injection Hprepare as <- <-.
  - bind_inv Hexecute executed Hone. destruct executed as [[more g] c].
    assert (GlobalCtx.promise g = GlobalCtx.promise global_ctx) as Hsame.
    { unfold executeVerticalMergeForOneColumn in Hone.
      destruct (negb _ && negb _); [|by injection Hone as <- <- <-].
      bind_inv Hone executor Hexecutor.
      destruct executor; by injection Hone as <- <- <-. }
    destruct more; by injection Hexecute as <- <- <-.
  - bind_inv Hexecute finalized Hfinal. destruct finalized as [g c].
    injection Hexecute as <- <- <-.
    unfold finalizeVerticalMergeForOneColumn in Hfinal.
    bind_inv Hfinal column Hcolumn.
    destruct (Env.merges_blocker env || Env.is_cancelled env); [done|].
    bind_inv Hfinal column_to Hto. simpl in Hfinal.
    destruct (negb _); [done|]. by injection Hfinal as <- <-.
Qed.

Lemma executeProjections_promise env global_ctx (ctx : ProjectionsCtx.t Child)
      again global_ctx' ctx' :
  executeProjections child_execute env global_ctx ctx
  = Return (again, global_ctx', ctx') ->
  GlobalCtx.promise global_ctx' = GlobalCtx.promise global_ctx.
Proof.
  unfold executeProjections.
  destruct (_ !! _); [|by intros [= <- <- <-]].
  intros Hexecute. bind_inv Hexecute stepped Hchild. destruct stepped as [more task].
  destruct more; by injection Hexecute as <- <- <-.
Qed.

(** A step that leaves work to do leaves the promise as it was: only the
    last step of a merge resolves it. *)
Lemma execute_promise env (task : MergeTask.t Child) task' :
  execute child_create child_execute child_future env task = Return (true, task') ->
  GlobalCtx.promise (MergeTask.global_ctx task')
  = GlobalCtx.promise (MergeTask.global_ctx task).
Proof.
  unfold execute. destruct (MergeTask.stage task) as [it ctx|it ctx|it ctx|];
    intros Hexecute; [| | |done].
  - bind_inv Hexecute stepped Hstage. destruct stepped as [[[more g] it'] ctx'].
    assert (GlobalCtx.promise g = GlobalCtx.promise (MergeTask.global_ctx task)) as <-.
    { unfold horizontal_execute in Hstage. bind_inv Hstage sub Hsubtask.
      destruct sub as [[again g1] c1].
      destruct (next_subtask 3 it again). injection Hstage as <- <- <- <-.
      destruct it as [|[|[|it]]]; [| | |done].
      - by apply prepare_returns in Hsubtask as (_ & _ & _ & _ & Hpromise & _).
      - by eapply executeImpl_promise.
      - by eapply generateRowIdsMap_promise. }
    destruct more; by injection Hexecute as <-.
  - bind_inv Hexecute stepped Hstage. destruct stepped as [[[more g] it'] ctx'].
    assert (GlobalCtx.promise g = GlobalCtx.promise (MergeTask.global_ctx task)) as <-.
    { unfold vertical_execute in Hstage. bind_inv Hstage sub Hsubtask.
      destruct sub as [[again g1] c1].
      destruct (next_subtask 3 it again). injection Hstage as <- <- <- <-.
      destruct it as [|[|[|it]]]; [| | |done].
      - by eapply prepareVerticalMergeForAllColumns_promise.
      - by eapply executeVerticalMergeForAllColumns_promise.
      - by injection Hsubtask as <- <- <-. }
    destruct more; [by injection Hexecute as <-|].
    destruct (vertical_getContextForNextStage g ctx') as [g2 next_ctx] eqn:Hnext.
    injection Hexecute as <-. unfold vertical_getContextForNextStage in Hnext.
    by injection Hnext as <- <-.
  - bind_inv Hexecute stepped Hstage. destruct stepped as [[[more g] it'] ctx'].
    destruct more; [|done]. injection Hexecute as <-. simpl.
    unfold projections_execute in Hstage. bind_inv Hstage sub Hsubtask.
    destruct sub as [[again g1] c1].
    destruct (next_subtask 3 it again) as [it2 more2] eqn:Hnext.
    injection Hstage as -> <- <- <-.
    destruct it as [|[|[|it]]]; [| | |done].
    + unfold mergeMinMaxIndexAndPrepareProjections in Hsubtask.
      bind_inv Hsubtask new_data_part Hpart. by injection Hsubtask as <- <- <-.
    + by eapply executeProjections_promise.
    + (* the finalizer ends the stage *)
      unfold finalizeProjectionsAndWholeMerge in Hsubtask.
      bind_inv Hsubtask new_data_part Hpart. bind_inv Hsubtask projected Hprojected.
      bind_inv Hsubtask finalized Hfinalized. destruct finalized as [g2 part2].
      injection Hsubtask as <- <- <-. by vm_compute in Hnext.
Qed.

(** What a set flag does at the steps that look at it: at [prepare] and
    [executeImpl] it raises Aborted and no block is pulled; in the
    vertical stage the pull is skipped, the next step finalizes the column
    and raises Aborted.  And a step that leaves work to do never resolves
    the promise. *)
Lemma cancelled_steps env global_ctx :
  cancelled env ->
  (forall ctx, prepare env global_ctx ctx = Throw ABORTED "Cancelled merging parts")
  /\ (forall ctx, executeImpl env global_ctx ctx = Throw ABORTED "Cancelled merging parts")
  /\ (forall ctx,
        executeVerticalMergeForOneColumn env global_ctx ctx
        = Return (false, global_ctx, ctx))
  /\ (forall ctx,
        is_Some (ColumnSets.gathering_columns (GlobalCtx.column_sets global_ctx)
                   !! VerticalCtx.it_name_and_type ctx) ->
        finalizeVerticalMergeForOneColumn env global_ctx ctx
        = Throw ABORTED "Cancelled merging parts")
  /\ (forall ctx env',
        cancelled env' ->
        GlobalCtx.chosen_merge_algorithm global_ctx = MergeAlgorithm.Vertical ->
        VerticalCtx.column_num_for_vertical_merge ctx
        < GlobalCtx.gathering_column_names_size global_ctx ->
        VerticalCtx.vertical_merge_one_column_state ctx = OneColumnState.NEED_EXECUTE ->
        is_Some (ColumnSets.gathering_columns (GlobalCtx.column_sets global_ctx)
                   !! VerticalCtx.it_name_and_type ctx) ->
        exists task',
          execute child_create child_execute child_future env
            {| MergeTask.global_ctx := global_ctx;
               MergeTask.stage := VerticalMergeStage 1 ctx |}
          = Return (true, task')
          /\ GlobalCtx.rows_written (MergeTask.global_ctx task')
             = GlobalCtx.rows_written global_ctx
          /\ execute child_create child_execute child_future env' task'
             = Throw ABORTED "Cancelled merging parts")
  /\ (forall (task task' : MergeTask.t Child) env0,
        execute child_create child_execute child_future env0 task = Return (true, task') ->
        GlobalCtx.promise (MergeTask.global_ctx task')
        = GlobalCtx.promise (MergeTask.global_ctx task)).
Proof.
  intros Hcancelled. pose proof Hcancelled as Hflags. apply cancelled_orb in Hflags.
  split; [|split; [|split; [|split; [|split]]]].
  - intros ctx. unfold prepare. by rewrite Hflags.
  - intros ctx. unfold executeImpl, is_cancelled.
    assert (Hany : Env.merges_blocker env
                   || HorizontalCtx.is_cancelled_need_remove ctx
                      && Env.ttl_merges_blocker env
                   || Env.is_cancelled env = true).
    { destruct Hcancelled as [-> | ->]; [done|]. by rewrite orb_true_r. }
    rewrite Hany. simpl. by rewrite Hflags.
  - intros ctx. unfold executeVerticalMergeForOneColumn.
    destruct Hcancelled as [-> | ->]; [done|]. by rewrite andb_false_r.
  - intros ctx [column Hcolumn]. unfold finalizeVerticalMergeForOneColumn.
    rewrite (at_index_Some _ _ _ Hcolumn). simpl. by rewrite Hflags.
  - intros ctx env' Hcancelled' Hvertical Hcolumns Hstate [column Hcolumn].
    eexists. unfold execute at 1. simpl. unfold vertical_execute at 1.
    unfold executeVerticalMergeForAllColumns.
    rewrite Hvertical, bool_decide_true by done. simpl negb. cbv iota.
    rewrite (proj2 (Nat.leb_gt _ _) Hcolumns). rewrite Hstate.
    unfold executeVerticalMergeForOneColumn.
    assert (Hskip : negb (Env.merges_blocker env) && negb (Env.is_cancelled env) = false).
    { destruct Hcancelled as [-> | ->]; [done|]. by rewrite andb_false_r. }
    rewrite Hskip. simpl. split; [reflexivity|]. split; [reflexivity|].
    unfold execute. simpl. unfold vertical_execute.
    unfold executeVerticalMergeForAllColumns.
    rewrite Hvertical, bool_decide_true by done. simpl negb. cbv iota.
    simpl. rewrite (proj2 (Nat.leb_gt _ _) Hcolumns).
    unfold finalizeVerticalMergeForOneColumn. simpl.
    rewrite (at_index_Some _ _ _ Hcolumn). simpl.
    apply cancelled_orb in Hcancelled'. by rewrite Hcancelled'.
  - intros task task' env0. apply execute_promise.
Qed.
End Cancellation.
(** ** The names of the row-ids map files *)

(** A decimal digit. *)
Definition is_digit (c : ascii) : Prop := exists x : N, c = pretty_N_char x.

Fixpoint all_digits (s : string) : Prop :=
  match s with
  | EmptyString => True
  | String c s => is_digit c /\ all_digits s
  end.

Lemma is_digit_not_dash c : is_digit c -> c <> "-"%char.
Proof. intros [x ->]. unfold pretty_N_char. by repeat case_match. Qed.

Lemma is_digit_not_i c : is_digit c -> c <> "i"%char.
Proof. intros [x ->]. unfold pretty_N_char. by repeat case_match. Qed.

Lemma append_String c s1 s2 : String c s1 +:+ s2 = String c (s1 +:+ s2).
Proof. reflexivity. Qed.

Lemma append_empty s : "" +:+ s = s.
Proof. reflexivity. Qed.

Lemma append_empty_r s : s +:+ "" = s.
Proof. induction s as [|c s IH]; [done|]. by rewrite append_String, IH. Qed.

Lemma append_assoc s1 s2 s3 : (s1 +:+ s2) +:+ s3 = s1 +:+ (s2 +:+ s3).
Proof. induction s1 as [|c s1 IH]; [done|]. by rewrite !append_String, IH. Qed.

Lemma all_digits_app s1 s2 : all_digits s1 -> all_digits s2 -> all_digits (s1 +:+ s2).
Proof.
  induction s1 as [|c s1 IH]; [done|]. rewrite append_String. simpl.
  intros [Hc Hs1] Hs2. auto.
Qed.

Lemma pretty_N_go_digits x s :
  exists digits, all_digits digits /\ pretty_N_go x s = digits +:+ s.
Proof.
  revert s. induction (N.lt_wf_0 x) as [x _ IH]; intros s.
  assert (x = 0 \/ 0 < x)%N as [->|Hpos] by lia.
  - exists "". split; [done|]. by rewrite pretty_N_go_0.
  - rewrite pretty_N_go_step by done.
    destruct (IH (x `div` 10)%N (N.div_lt x 10 Hpos eq_refl)
                 (String (pretty_N_char (x `mod` 10)) s))
      as (digits & Hdigits & Hgo).
    exists (digits +:+ String (pretty_N_char (x `mod` 10)) "").
    split.
    + apply all_digits_app; [done|]. split; [by eexists|done].
    + rewrite Hgo. by rewrite append_assoc.
Qed.

Lemma pretty_nat_digits (i : nat) : all_digits (pretty i).
Proof.
  unfold pretty, pretty_nat, pretty, pretty_N.
  destruct (decide (N.of_nat i = 0%N)).
  - split; [by exists 0%N|done].
  - destruct (pretty_N_go_digits (N.of_nat i) "") as (digits & Hdigits & Hgo).
    by rewrite Hgo, append_empty_r.
Qed.

(** Digits that are followed by a dash are read back in one way only. *)
Lemma digits_before_dash s1 s2 rest1 rest2 :
  all_digits s1 -> all_digits s2 ->
  s1 +:+ String "-" rest1 = s2 +:+ String "-" rest2 -> s1 = s2.
Proof.
  revert s2. induction s1 as [|c1 s1 IH]; intros [|c2 s2];
    rewrite ?append_String, ?append_empty; simpl; try done.
  - intros _ [Hc2 _] [= <- _]. by apply is_digit_not_dash in Hc2.
  - intros [Hc1 _] _ [= -> _]. by apply is_digit_not_dash in Hc1.
  - intros [_ Hs1] [_ Hs2] [= -> Hrest]. f_equal. by apply IH.
Qed.

Lemma string_app_inj (s s1 s2 : string) : s +:+ s1 = s +:+ s2 -> s1 = s2.
Proof. apply (inj (String.append s)). Qed.

Section MapFileNames.
Context `{Engine}.

Lemma row_ids_map_filename_inj i1 part1 i2 part2 :
  row_ids_map_filename i1 part1 = row_ids_map_filename i2 part2 -> i1 = i2.
Proof.
  unfold row_ids_map_filename. intros Hname.
  apply (string_app_inj "merged-") in Hname.
  apply digits_before_dash in Hname; [|apply pretty_nat_digits..].
  by apply (inj pretty) in Hname.
Qed.

Lemma row_ids_map_filename_not_inverted i part :
  row_ids_map_filename i part <> inverted_row_ids_map_filename.
Proof.
  unfold row_ids_map_filename, inverted_row_ids_map_filename. intros Hname.
  change ("merged-inverted_row_ids_map" +:+ VECTOR_INDEX_FILE_SUFFIX)
    with ("merged-" +:+ String "i" ("nverted_row_ids_map" +:+ VECTOR_INDEX_FILE_SUFFIX))
    in Hname.
  apply (string_app_inj "merged-") in Hname.
  pose proof (pretty_nat_digits i) as Hdigits.
  destruct (pretty i) as [|c digits]; rewrite ?append_String, ?append_empty in Hname;
    [done|].
  destruct Hdigits as [Hc _]. injection Hname as -> _.
  by apply is_digit_not_i in Hc.
Qed.

(** The paths [prepare] registers for the maps of a merge are pairwise
    distinct. *)
Lemma row_ids_map_paths_distinct (full_path : string) (parts : list DataPart.t) :
  NoDup ((full_path +:+ inverted_row_ids_map_filename)
           :: imap (fun i part => full_path +:+ row_ids_map_filename i part) parts).
Proof.
  apply NoDup_cons. split.
  - intros Hin. apply list_elem_of_lookup in Hin as [i Hi].
    rewrite list_lookup_imap in Hi.
    destruct (parts !! i) as [part|]; simpl in Hi; [|done].
    injection Hi as Hi. apply string_app_inj in Hi.
    by apply row_ids_map_filename_not_inverted in Hi.
  - apply NoDup_alt. intros i j path Hi Hj.
    rewrite list_lookup_imap in Hi, Hj.
    destruct (parts !! i) as [part1|]; simpl in Hi; [|done].
    destruct (parts !! j) as [part2|]; simpl in Hj; [|done].
    injection Hi as <-. injection Hj as Hj. apply string_app_inj in Hj.
    symmetry. by apply row_ids_map_filename_inj in Hj.
Qed.
End MapFileNames.
(** ** The checksums of a decoupled part *)

Section Checksums.
Context `{Engine}.

(** [file_name] is among the index files moved from a non-empty source
    part for the index [index_name]. *)
Definition moved_file (entries : list (nat * DataPart.t)) (index_name file_name : string)
    : Prop :=
  exists i part,
    (i, part) ∈ entries
    /\ DataPart.rows_count part <> 0%N
    /\ is_Some (moveVectorIndexFiles true (pretty i) (DataPart.name part)
                  index_name part !! file_name).

Definition listed (checksums : option (gmap string Checksum.t)) (file_name : string)
    : Prop :=
  exists files, checksums = Some files /\ is_Some (files !! file_name).

Lemma move_index_of_part_spec index_name entries tmp new_data_part :
  let result := foldl (move_index_of_part index_name) (tmp, new_data_part) entries in
  (forall other, other <> index_name -> result.1 !! other = tmp !! other)
  /\ (forall file_name,
        listed (result.1 !! index_name) file_name
        <-> listed (tmp !! index_name) file_name
            \/ moved_file entries index_name file_name)
  /\ NewPart.full_path result.2 = NewPart.full_path new_data_part.
Proof.
  cbv zeta. revert tmp new_data_part.
  induction entries as [|[i part] rest IH]; intros tmp new_data_part; simpl.
  - split; [done|]. split; [|done]. intros file_name. split; [by left|].
    intros [Hold|(i & part & Hin & _)]; [done|]. by apply elem_of_nil in Hin.
  - destruct (move_index_of_part index_name (tmp, new_data_part) (i, part))
      as [tmp1 part1] eqn:Hstep.
    destruct (IH tmp1 part1) as (IHother & IHlisted & IHpath).
    unfold move_index_of_part in Hstep.
    destruct (N.eqb_spec (DataPart.rows_count part) 0) as [Hrows|Hrows].
    + injection Hstep as <- <-.
      split; [done|]. split; [|done]. intros file_name. rewrite IHlisted.
      split; (intros [Hold|(j & other & Hin & Hne & Hfile)]; [by left|right]).
      * exists j, other. split; [by right|done].
      * apply elem_of_cons in Hin as [[= -> ->]|Hin]; [done|]. by exists j, other.
    + injection Hstep as <- <-.
      split; [|split].
      * intros other Hother. rewrite IHother by done. by rewrite lookup_insert_ne.
      * intros file_name. rewrite IHlisted. rewrite lookup_insert_eq.
        unfold listed, checksums_add. split.
        -- intros [(files & [= <-] & Hfile)|(j & other & Hin & Hne & Hfile)].
           ++ apply lookup_union_is_Some in Hfile as [Hnew|Hold].
              ** right. exists i, part. split; [by left|done].
              ** left. destruct (tmp !! index_name) as [old|]; simpl in Hold.
                 --- by exists old.
                 --- rewrite lookup_empty in Hold. by destruct Hold.
           ++ right. exists j, other. split; [by right|done].
        -- intros [(files & Hfiles & Hfile)|(j & other & Hin & Hne & Hfile)].
           ++ left. eexists. split; [done|]. apply lookup_union_is_Some. right.
              by rewrite Hfiles.
           ++ apply elem_of_cons in Hin as [[= -> ->]|Hin].
              ** left. eexists. split; [done|]. apply lookup_union_is_Some. by left.
              ** right. by exists j, other.
      * by rewrite IHpath.
Qed.

(** The checksums collected per index hold the moved files of that index
    and nothing else. *)
Definition only_moved_files (parts : list DataPart.t)
    (tmp : gmap string (gmap string Checksum.t)) : Prop :=
  forall index_name file_name,
    listed (tmp !! index_name) file_name
    <-> is_Some (tmp !! index_name)
        /\ moved_file (imap pair parts) index_name file_name.

Lemma move_index_spec all_parts_have_vector_index parts vector_indices tmp new_data_part :
  only_moved_files parts tmp ->
  let result :=
    foldl (move_index all_parts_have_vector_index parts) (tmp, new_data_part)
          vector_indices in
  only_moved_files parts result.1
  /\ NewPart.full_path result.2 = NewPart.full_path new_data_part.
Proof.
  cbv zeta. revert tmp new_data_part.
  induction vector_indices as [|vec_index rest IH]; intros tmp new_data_part Honly; simpl.
  - done.
  - destruct (move_index all_parts_have_vector_index parts (tmp, new_data_part) vec_index)
      as [tmp1 part1] eqn:Hstep.
    unfold move_index in Hstep.
    assert (Hstep_ok : only_moved_files parts tmp1
                       /\ NewPart.full_path part1 = NewPart.full_path new_data_part).
    { destruct (all_parts_have_vector_index !! VectorIndexDescription.name vec_index)
        as [[|]|]; [|by injection Hstep as <- <-..].
      destruct (move_index_of_part_spec (VectorIndexDescription.name vec_index)
                  (imap pair parts) tmp new_data_part) as (Hother & Hlisted & Hpath).
      rewrite Hstep in Hother, Hlisted, Hpath. simpl in Hother, Hlisted, Hpath.
      split; [|done].
      intros index_name file_name.
      destruct (decide (index_name = VectorIndexDescription.name vec_index)) as [->|Hne].
      - unfold only_moved_files in Honly. rewrite Hlisted, Honly. split.
        + intros Hcases. split; [|tauto].
          assert (Hl : listed (tmp1 !! VectorIndexDescription.name vec_index) file_name).
          { apply Hlisted. destruct Hcases as [Hold|Hnew]; [left|by right].
            by apply Honly. }
          destruct Hl as (files & -> & _). by eexists.
        + intros [_ Hmoved]. by right.
      - rewrite Hother by done. apply Honly. }
    destruct Hstep_ok as [Honly1 Hpath1].
    destruct (IH tmp1 part1 Honly1) as [IHonly IHpath].
    split; [done|]. by rewrite IHpath.
Qed.

(** The names of the map files that are hashed. *)
Lemma index_map_filenames_spec parts file_name :
  file_name ∈ index_map_filenames parts
  <-> file_name = inverted_row_sources_map_filename
      \/ file_name = inverted_row_ids_map_filename
      \/ exists i part,
           parts !! i = Some part
           /\ DataPart.rows_count part <> 0%N
           /\ file_name = row_ids_map_filename i part.
Proof.
  unfold index_map_filenames.
  assert (Hfold : forall entries (names : gset string),
            file_name ∈ foldl (fun (names : gset string) (entry : nat * DataPart.t) =>
                                 let '(i, part) := entry in
                                 if (DataPart.rows_count part =? 0)%N then names
                                 else names ∪ {[ row_ids_map_filename i part ]})
                              names entries
            <-> file_name ∈ names
                \/ exists i part,
                     (i, part) ∈ entries
                     /\ DataPart.rows_count part <> 0%N
                     /\ file_name = row_ids_map_filename i part).
  { induction entries as [|[i part] rest IH]; intros names; simpl.
    - split; [by left|]. intros [Hin|(i & part & Hin & _)]; [done|].
      by apply elem_of_nil in Hin.
    - rewrite IH. destruct (N.eqb_spec (DataPart.rows_count part) 0) as [Hrows|Hrows].
      + split; (intros [Hin|(j & other & Hin & Hne & Hfile)]; [by left|right]).
        * exists j, other. split; [by right|done].
        * apply elem_of_cons in Hin as [[= -> ->]|Hin]; [done|]. by exists j, other.
      + rewrite elem_of_union, elem_of_singleton. split.
        * intros [[Hin|Hthis]|(j & other & Hin & Hne & Hfile)].
          -- by left.
          -- right. exists i, part. split; [by left|done].
          -- right. exists j, other. split; [by right|done].
        * intros [Hin|(j & other & Hin & Hne & Hfile)]; [by left; left|].
          apply elem_of_cons in Hin as [[= -> ->]|Hin]; [by left; right|].
          right. by exists j, other. }
  rewrite Hfold, elem_of_union, !elem_of_singleton.
  split.
  - intros [[Hsources|Hids]|(i & part & Hin & Hne & Hfile)]; [by left|by right; left|].
    right. right. exists i, part. split; [|done].
    apply list_elem_of_lookup in Hin as [k Hk]. rewrite list_lookup_imap in Hk.
    destruct (parts !! k) eqn:Hpart; simpl in Hk; [|done]. by injection Hk as <- <-.
  - intros [Hsources|[Hids|(i & part & Hin & Hne & Hfile)]];
      [by left; left|by left; right|].
    right. exists i, part. split; [|done].
    apply list_elem_of_lookup. exists i. by rewrite list_lookup_imap, Hin.
Qed.

Lemma move_index_of_part_checksums index_name entries tmp new_data_part :
  NewPart.vector_index_checksums
    (foldl (move_index_of_part index_name) (tmp, new_data_part) entries).2
  = NewPart.vector_index_checksums new_data_part.
Proof.
  revert tmp new_data_part.
  induction entries as [|[i part] rest IH]; intros tmp new_data_part; simpl; [done|].
  destruct (DataPart.rows_count part =? 0)%N; by rewrite IH.
Qed.

Lemma move_index_checksums all_parts_have_vector_index parts vector_indices tmp
    new_data_part :
  NewPart.vector_index_checksums
    (foldl (move_index all_parts_have_vector_index parts) (tmp, new_data_part)
           vector_indices).2
  = NewPart.vector_index_checksums new_data_part.
Proof.
  revert tmp new_data_part.
  induction vector_indices as [|vec_index rest IH]; intros tmp new_data_part; simpl;
    [done|].
  unfold move_index at 2.
  destruct (all_parts_have_vector_index !! VectorIndexDescription.name vec_index)
    as [[|]|]; [|by rewrite IH..].
  destruct (foldl (move_index_of_part _) _ _) as [tmp1 part1] eqn:Hstep.
  rewrite IH. pose proof (move_index_of_part_checksums
                            (VectorIndexDescription.name vec_index)
                            (imap pair parts) tmp new_data_part) as Hkeep.
  by rewrite Hstep in Hkeep.
Qed.

Lemma hash_map_files_names new_data_part names results results' :
  fold_outcome (hash_map_file new_data_part) names results = Return results' ->
  (fun result : string * N * N => result.1.1) <$> results'
  = ((fun result : string * N * N => result.1.1) <$> results) ++ names.
Proof.
  revert results. induction names as [|name rest IH]; intros results Hfold;
    simpl in Hfold.
  - injection Hfold as <-. by rewrite app_nil_r.
  - bind_inv Hfold results1 Hhash. rewrite (IH _ Hfold).
    unfold hash_map_file in Hhash. destruct (_ !! _); [|done].
    injection Hhash as <-. rewrite fmap_app, <- app_assoc. done.
Qed.

Lemma add_map_files_listed results checksums file_name :
  is_Some (add_map_files results checksums !! file_name)
  <-> is_Some (checksums !! file_name)
      \/ file_name ∈ (fun result : string * N * N => result.1.1) <$> results.
Proof.
  unfold add_map_files. revert checksums.
  induction results as [|[[name size] hash] rest IH]; intros checksums; simpl.
  - split; [by left|]. intros [Hin|Hin]; [done|]. by apply elem_of_nil in Hin.
  - rewrite IH. unfold checksums_addFile. rewrite elem_of_cons.
    destruct (decide (file_name = name)) as [->|Hne].
    + rewrite lookup_insert_eq. split; [|intros _; by left].
      intros _. right. by left.
    + rewrite lookup_insert_ne by done. tauto.
Qed.

Lemma moved_file_lookup parts index_name file_name :
  moved_file (imap pair parts) index_name file_name
  <-> exists i part,
        parts !! i = Some part
        /\ DataPart.rows_count part <> 0%N
        /\ is_Some (moveVectorIndexFiles true (pretty i) (DataPart.name part)
                      index_name part !! file_name).
Proof.
  unfold moved_file.
  split; intros (i & part & Hin & Hrest); exists i, part; (split; [|done]).
  - apply list_elem_of_lookup in Hin as [k Hk]. rewrite list_lookup_imap in Hk.
    destruct (parts !! k) eqn:Hpart; simpl in Hk; [|done]. by injection Hk as <- <-.
  - apply list_elem_of_lookup. exists i. by rewrite list_lookup_imap, Hin.
Qed.

(** The files of the new part's directory that hold a row-ids map. *)
Definition is_map_file (files : gmap string FileContent) (path : string) : Prop :=
  exists entries, files !! path = Some (IntText entries).

Lemma store_map_file_keeps path entries files other :
  is_map_file files other -> is_map_file (store_map_file path entries files) other.
Proof.
  intros [old Hold]. unfold is_map_file, store_map_file.
  destruct (decide (path = other)) as [->|Hne].
  - exists entries. by rewrite lookup_insert_eq.
  - exists old. by rewrite lookup_insert_ne.
Qed.

Lemma open_map_files paths files path :
  path ∈ paths \/ is_map_file files path ->
  is_map_file
    (foldl (fun files row_ids_map_file => store_map_file row_ids_map_file [] files)
           files paths) path.
Proof.
  revert files. induction paths as [|first rest IH]; intros files Hpath; simpl.
  - destruct Hpath as [Hin|Hfile]; [by apply elem_of_nil in Hin|done].
  - apply IH. destruct Hpath as [Hin|Hfile].
    + apply elem_of_cons in Hin as [->|Hin]; [right|by left].
      exists []. unfold store_map_file. by rewrite lookup_insert_eq.
    + right. by apply store_map_file_keeps.
Qed.

Lemma flush_map_files row_ids_map_files bufs l files files' path :
  fold_outcome (flush_row_ids_map row_ids_map_files bufs) l files = Return files' ->
  is_map_file files path -> is_map_file files' path.
Proof.
  revert files. induction l as [|i l IH]; intros files Hfold Hfile; simpl in Hfold.
  - by injection Hfold as <-.
  - bind_inv Hfold files1 Hflush. apply (IH files1); [done|].
    unfold flush_row_ids_map in Hflush. bind_inv Hflush buf Hbuf.
    bind_inv Hflush target Htarget. injection Hflush as <-.
    by apply store_map_file_keeps.
Qed.

(** *** Which indexes get a checksums file *)

Lemma move_index_of_part_dom index_name entries tmp new_data_part :
  is_Some ((foldl (move_index_of_part index_name) (tmp, new_data_part) entries).1
             !! index_name)
  <-> is_Some (tmp !! index_name)
      \/ exists i part, (i, part) ∈ entries /\ DataPart.rows_count part <> 0%N.
Proof.
  revert tmp new_data_part.
  induction entries as [|[i part] rest IH]; intros tmp new_data_part; simpl.
  - split; [by left|]. intros [Hold|(i & part & Hin & _)]; [done|].
    by apply elem_of_nil in Hin.
  - destruct (N.eqb_spec (DataPart.rows_count part) 0) as [Hrows|Hrows]; rewrite IH.
    + split; (intros [Hold|(j & other & Hin & Hne)]; [by left|right]).
      * exists j, other. split; [by right|done].
      * apply elem_of_cons in Hin as [[= -> ->]|Hin]; [done|]. by exists j, other.
    + rewrite lookup_insert_eq. split.
      * intros _. right. exists i, part. split; [by left|done].
      * intros _. left. by eexists.
Qed.

(** The index is moved: it is an index of the table, it is marked as
    present in all the source parts, and some source part has rows. *)
Definition index_is_moved (global_ctx : GlobalCtx.t) (index_name : string) : Prop :=
  let args := GlobalCtx.args global_ctx in
  (exists vec_index,
     vec_index ∈ StorageMetadata.vector_indices (MergeTaskArgs.metadata_snapshot args)
     /\ VectorIndexDescription.name vec_index = index_name)
  /\ Decouple.all_parts_have_vector_index (GlobalCtx.decouple global_ctx) !! index_name
     = Some true
  /\ exists i part,
       FuturePart.parts (MergeTaskArgs.future_part args) !! i = Some part
       /\ DataPart.rows_count part <> 0%N.

Lemma move_index_dom all_parts_have_vector_index parts vector_indices tmp
      new_data_part index_name :
  is_Some ((foldl (move_index all_parts_have_vector_index parts) (tmp, new_data_part)
                  vector_indices).1 !! index_name)
  <-> is_Some (tmp !! index_name)
      \/ ((exists vec_index,
             vec_index ∈ vector_indices
             /\ VectorIndexDescription.name vec_index = index_name)
          /\ all_parts_have_vector_index !! index_name = Some true
          /\ exists i part, parts !! i = Some part /\ DataPart.rows_count part <> 0%N).
Proof.
  revert tmp new_data_part.
  induction vector_indices as [|vec_index rest IH]; intros tmp new_data_part; simpl.
  - split; [by left|]. intros [Hold|[(v & Hin & _) _] ]; [done|].
    by apply elem_of_nil in Hin.
  - destruct (move_index all_parts_have_vector_index parts (tmp, new_data_part) vec_index)
      as [tmp1 part1] eqn:Hstep.
    rewrite IH. unfold move_index in Hstep.
    assert (Hstep_dom :
              is_Some (tmp1 !! index_name)
              <-> is_Some (tmp !! index_name)
                  \/ (VectorIndexDescription.name vec_index = index_name
                      /\ all_parts_have_vector_index !! index_name = Some true
                      /\ exists i part,
                           parts !! i = Some part /\ DataPart.rows_count part <> 0%N)).
    { destruct (all_parts_have_vector_index !! VectorIndexDescription.name vec_index)
        as [ [|]|] eqn:Hflag.
      - destruct (decide (VectorIndexDescription.name vec_index = index_name))
          as [<-|Hne].
        + pose proof (move_index_of_part_dom (VectorIndexDescription.name vec_index)
                        (imap pair parts) tmp new_data_part) as Hdom.
          rewrite Hstep in Hdom. simpl in Hdom. rewrite Hdom.
          split; (intros [Hold|Hnew]; [by left|right]).
          * destruct Hnew as (i & part & Hin & Hrows). split; [done|]. split; [done|].
            exists i, part. split; [|done].
            apply list_elem_of_lookup in Hin as [k Hk]. rewrite list_lookup_imap in Hk.
            destruct (parts !! k) eqn:Hpart; simpl in Hk; [|done].
            by injection Hk as <- <-.
          * destruct Hnew as (_ & _ & i & part & Hpart & Hrows).
            exists i, part. split; [|done].
            apply list_elem_of_lookup. exists i. by rewrite list_lookup_imap, Hpart.
        + destruct (move_index_of_part_spec (VectorIndexDescription.name vec_index)
                      (imap pair parts) tmp new_data_part) as (Hother & _).
          rewrite Hstep in Hother. simpl in Hother. rewrite Hother by done.
          split; [by left|]. by intros [Hold|[Hname _] ].
      - injection Hstep as <- <-. split; [by left|].
        intros [Hold|(Hname & Hset & _)]; [done|]. congruence.
      - injection Hstep as <- <-. split; [by left|].
        intros [Hold|(Hname & Hset & _)]; [done|]. congruence. }
    rewrite Hstep_dom. split.
    + intros [ [Hold|(Hname & Hflag & Hpart)]|[(v & Hin & Hname) Hrest] ].
      * by left.
      * right. split; [|done]. exists vec_index. split; [by left|done].
      * right. split; [|done]. exists v. split; [by right|done].
    + intros [Hold|[(v & Hin & Hname) Hrest] ]; [by left; left|].
      apply elem_of_cons in Hin as [->|Hin].
      * left. right. by split.
      * right. split; [|done]. by exists v.
Qed.

(** *** The finalizer finds its files *)

Lemma place_moved_files_keeps full_path moved files path :
  is_Some (files !! path) -> is_Some (place_moved_files full_path moved files !! path).
Proof.
  intros Hfile. unfold place_moved_files.
  apply (map_fold_weak_ind (fun result _ => is_Some (result !! path))); [done|].
  intros file_name checksum m result _ Hkept.
  destruct (decide (full_path +:+ file_name = path)) as [->|Hne].
  - rewrite lookup_insert_eq. by eexists.
  - by rewrite lookup_insert_ne.
Qed.

Lemma move_index_of_part_keeps_files index_name entries tmp new_data_part path :
  is_Some (NewPart.files new_data_part !! path) ->
  is_Some (NewPart.files
             (foldl (move_index_of_part index_name) (tmp, new_data_part) entries).2
             !! path).
Proof.
  revert tmp new_data_part.
  induction entries as [|[i part] rest IH]; intros tmp new_data_part Hfile; simpl;
    [done|].
  destruct (DataPart.rows_count part =? 0)%N; apply IH; [done|]. simpl.
  by apply place_moved_files_keeps.
Qed.

Lemma move_index_keeps_files all_parts_have_vector_index parts vector_indices tmp
      new_data_part path :
  is_Some (NewPart.files new_data_part !! path) ->
  is_Some (NewPart.files
             (foldl (move_index all_parts_have_vector_index parts) (tmp, new_data_part)
                    vector_indices).2 !! path).
Proof.
  revert tmp new_data_part.
  induction vector_indices as [|vec_index rest IH]; intros tmp new_data_part Hfile; simpl;
    [done|].
  unfold move_index at 2.
  destruct (all_parts_have_vector_index !! VectorIndexDescription.name vec_index)
    as [ [|]|]; [|by apply IH..].
  destruct (foldl (move_index_of_part _) _ _) as [tmp1 part1] eqn:Hstep.
  apply IH.
  pose proof (move_index_of_part_keeps_files (VectorIndexDescription.name vec_index)
                (imap pair parts) tmp new_data_part path Hfile) as Hkept.
  by rewrite Hstep in Hkept.
Qed.

Lemma hash_map_files_return new_data_part names results :
  (forall name, name ∈ names ->
     is_Some (NewPart.files new_data_part !! (NewPart.full_path new_data_part +:+ name))) ->
  exists results',
    fold_outcome (hash_map_file new_data_part) names results = Return results'.
Proof.
  revert results. induction names as [|name rest IH]; intros results Hfiles; simpl.
  - by eexists.
  - destruct (Hfiles name) as [content Hcontent]; [by left|].
    assert (Hstep : hash_map_file new_data_part results name
                    = Return (results ++ [(name, hashing_count content,
                                           hashing_getHash content)])).
    { unfold hash_map_file. by rewrite Hcontent. }
    rewrite Hstep. simpl. apply IH. intros other Hother. apply Hfiles. by right.
Qed.

(** *** The files of the forward maps *)

Lemma flush_other row_ids_map_files bufs l files files' path :
  fold_outcome (flush_row_ids_map row_ids_map_files bufs) l files = Return files' ->
  (forall j, j ∈ l -> row_ids_map_files !! j <> Some path) ->
  files' !! path = files !! path.
Proof.
  revert files. induction l as [|a l IH]; intros files Hfold Hother; simpl in Hfold.
  - by injection Hfold as <-.
  - bind_inv Hfold files1 Hflush. rewrite (IH files1 Hfold).
    + unfold flush_row_ids_map in Hflush. bind_inv Hflush buf Hbuf.
      bind_inv Hflush target Htarget. injection Hflush as <-.
      apply at_index_Return in Htarget. unfold store_map_file.
      rewrite lookup_insert_ne; [done|]. intros ->.
      by apply (Hother a); [left|].
    + intros j Hj. apply Hother. by right.
Qed.

Lemma flush_written row_ids_map_files bufs l files files' i path :
  fold_outcome (flush_row_ids_map row_ids_map_files bufs) l files = Return files' ->
  NoDup row_ids_map_files ->
  i ∈ l ->
  row_ids_map_files !! i = Some path ->
  exists buf, bufs !! i = Some buf /\ files' !! path = Some (IntText buf).
Proof.
  intros Hfold Hdistinct. revert files Hfold.
  induction l as [|a l IH]; intros files Hfold Hin Hpath; simpl in Hfold.
  - by apply elem_of_nil in Hin.
  - bind_inv Hfold files1 Hflush.
    destruct (decide (i ∈ l)) as [Hlater|Hlast]; [by apply (IH files1)|].
    apply elem_of_cons in Hin as [->|Hin]; [|done].
    unfold flush_row_ids_map in Hflush. bind_inv Hflush buf Hbuf.
    bind_inv Hflush target Htarget. injection Hflush as <-.
    apply at_index_Return in Hbuf, Htarget.
    assert (target = path) as -> by congruence.
    exists buf. split; [done|].
    rewrite (flush_other _ _ _ _ _ _ Hfold).
    + unfold store_map_file. by rewrite lookup_insert_eq.
    + intros j Hj Hsame.
      pose proof (NoDup_lookup _ _ _ _ Hdistinct Hpath Hsame) as <-. done.
Qed.

(** C6, amended.  In the decouple branch of the finalizer, a checksums
    file is written for every vector index of the table that is marked as
    present in all the source parts, provided some source part has rows,
    and for no other index; it lists exactly the index files moved from
    the non-empty source parts, the forward row-ids maps of the non-empty
    source parts, the inverted row-ids map and the inverted row-sources
    map; the branch returns when the rows-sources file is on the
    temporary disk and the map files are in the directory of the new
    part.  The forward row-ids map files themselves are registered by
    [prepare] for every source part, the empty ones included, under names
    that are pairwise distinct, and [generateRowIdsMap] writes every
    registered file: the file of a source part holds its forward map, and
    the one of an empty source part exists, holds no entry, and is left
    out of the checksums only. *)
Theorem decouple_checksums_and_map_files global_ctx :
  let parts := FuturePart.parts (MergeTaskArgs.future_part (GlobalCtx.args global_ctx)) in
  let d := GlobalCtx.decouple global_ctx in
  (forall new_data_part global_ctx' new_data_part' index_name,
     finalize_decouple global_ctx new_data_part = Return (global_ctx', new_data_part') ->
     (index_is_moved global_ctx index_name ->
      exists checksums,
        NewPart.vector_index_checksums new_data_part' !! index_name = Some checksums
        /\ forall file_name,
             is_Some (checksums !! file_name)
             <-> (exists i part,
                    parts !! i = Some part
                    /\ DataPart.rows_count part <> 0%N
                    /\ is_Some (moveVectorIndexFiles true (pretty i) (DataPart.name part)
                                  index_name part !! file_name))
                 \/ (exists i part,
                       parts !! i = Some part
                       /\ DataPart.rows_count part <> 0%N
                       /\ file_name = row_ids_map_filename i part)
                 \/ file_name = inverted_row_ids_map_filename
                 \/ file_name = inverted_row_sources_map_filename)
     /\ (~ index_is_moved global_ctx index_name ->
         NewPart.vector_index_checksums new_data_part' !! index_name
         = NewPart.vector_index_checksums new_data_part !! index_name))
  /\ (forall new_data_part,
        is_Some (GlobalCtx.tmp_disk global_ctx
                   !! Decouple.inverted_row_sources_map_file_path d) ->
        (forall name,
           name ∈ index_map_filenames parts ->
           name <> inverted_row_sources_map_filename ->
           is_Some (NewPart.files new_data_part
                      !! (NewPart.full_path new_data_part +:+ name))) ->
        exists global_ctx' new_data_part',
          finalize_decouple global_ctx new_data_part
          = Return (global_ctx', new_data_part'))
  /\ (forall new_data_part ctx global_ctx' ctx',
        Decouple.can_be_decouple d = true ->
        Decouple.row_ids_map_files d = [] ->
        prepare_row_ids_maps new_data_part global_ctx ctx = Return (global_ctx', ctx') ->
        let d' := GlobalCtx.decouple global_ctx' in
        Decouple.row_ids_map_files d'
        = imap (fun i part =>
                  NewPart.full_path new_data_part +:+ row_ids_map_filename i part)
               parts
        /\ Decouple.inverted_row_ids_map_file_path d'
           = NewPart.full_path new_data_part +:+ inverted_row_ids_map_filename
        /\ NoDup (Decouple.inverted_row_ids_map_file_path d'
                    :: Decouple.row_ids_map_files d'))
  /\ (forall ctx again global_ctx' ctx' i part path,
        Decouple.inverted_row_ids_map_file_path d <> "" ->
        NoDup (Decouple.inverted_row_ids_map_file_path d :: Decouple.row_ids_map_files d) ->
        generateRowIdsMap global_ctx ctx = Return (again, global_ctx', ctx') ->
        parts !! i = Some part ->
        Decouple.row_ids_map_files d !! i = Some path ->
        exists new_data_part' forward,
          GlobalCtx.new_data_part global_ctx' = Some new_data_part'
          /\ Decouple.row_ids_map_bufs (GlobalCtx.decouple global_ctx') !! i = Some forward
          /\ NewPart.files new_data_part' !! path = Some (IntText forward)
          /\ (DataPart.rows_count part = 0%N -> forward = [])).
Proof.
  cbv zeta. split; [|split; [|split] ].
  - intros new_data_part global_ctx' new_data_part' index_name Hfinal.
    unfold finalize_decouple in Hfinal.
    pose proof (move_index_spec
                  (Decouple.all_parts_have_vector_index (GlobalCtx.decouple global_ctx))
                  (FuturePart.parts (MergeTaskArgs.future_part (GlobalCtx.args global_ctx)))
                  (StorageMetadata.vector_indices
                     (MergeTaskArgs.metadata_snapshot (GlobalCtx.args global_ctx)))
                  ∅ new_data_part) as Hmoved.
    pose proof (move_index_checksums
                  (Decouple.all_parts_have_vector_index (GlobalCtx.decouple global_ctx))
                  (FuturePart.parts (MergeTaskArgs.future_part (GlobalCtx.args global_ctx)))
                  (StorageMetadata.vector_indices
                     (MergeTaskArgs.metadata_snapshot (GlobalCtx.args global_ctx)))
                  ∅ new_data_part) as Hkept.
    pose proof (move_index_dom
                  (Decouple.all_parts_have_vector_index (GlobalCtx.decouple global_ctx))
                  (FuturePart.parts (MergeTaskArgs.future_part (GlobalCtx.args global_ctx)))
                  (StorageMetadata.vector_indices
                     (MergeTaskArgs.metadata_snapshot (GlobalCtx.args global_ctx)))
                  ∅ new_data_part index_name) as Hdom.
    destruct (foldl _ (∅, new_data_part) _) as [tmp moved_part].
    simpl in Hkept, Hdom.
    assert (Hdom' : is_Some (tmp !! index_name) <-> index_is_moved global_ctx index_name).
    { rewrite Hdom. unfold index_is_moved. split; [|by right].
      intros [Hold|Hnew]; [|done]. rewrite lookup_empty in Hold. by destruct Hold. }
    destruct Hmoved as [Honly _].
    { intros name file. split.
      - intros (files & Hfiles & _). by rewrite lookup_empty in Hfiles.
      - intros [ [files Hfiles] _]. by rewrite lookup_empty in Hfiles. }
    simpl in Honly.
    bind_inv Hfinal rows_sources Hsources. bind_inv Hfinal results Hhash.
    injection Hfinal as <- <-. simpl. rewrite Hkept. split.
    + intros Hindex. apply Hdom' in Hindex as [collected Hcollected].
      exists (add_map_files results collected). split.
      { apply lookup_union_Some_l. by rewrite lookup_fmap, Hcollected. }
      intros file_name.
      rewrite add_map_files_listed.
      rewrite (hash_map_files_names _ _ _ _ Hhash). simpl.
      rewrite elem_of_elements, index_map_filenames_spec.
      pose proof (Honly index_name file_name) as Hlisted.
      rewrite Hcollected in Hlisted. rewrite moved_file_lookup in Hlisted.
      assert (Hcollected_iff :
                is_Some (collected !! file_name)
                <-> listed (Some collected) file_name).
      { split; [intros Hfile; by exists collected|].
        by intros (files & [= <-] & Hfile). }
      rewrite Hcollected_iff, Hlisted. split.
      * intros [ [_ Hfile]|[Hsources_file|[Hids|Hforward] ] ]; tauto.
      * intros [Hfile|[Hforward|[Hids|Hsources_file] ] ]; [left|tauto..].
        split; [by eexists|done].
    + intros Hindex.
      assert (Hnone : tmp !! index_name = None).
      { destruct (tmp !! index_name) eqn:Hsome; [|done].
        exfalso. apply Hindex, Hdom'. by eexists. }
      apply lookup_union_r. by rewrite lookup_fmap, Hnone.
  - intros new_data_part [rows_sources Hdisk] Hfiles.
    unfold finalize_decouple.
    pose proof (move_index_spec
                  (Decouple.all_parts_have_vector_index (GlobalCtx.decouple global_ctx))
                  (FuturePart.parts (MergeTaskArgs.future_part (GlobalCtx.args global_ctx)))
                  (StorageMetadata.vector_indices
                     (MergeTaskArgs.metadata_snapshot (GlobalCtx.args global_ctx)))
                  ∅ new_data_part) as Hmoved.
    assert (Hkeeps : forall path,
              is_Some (NewPart.files new_data_part !! path) ->
              is_Some (NewPart.files
                         (foldl (move_index
                                   (Decouple.all_parts_have_vector_index
                                      (GlobalCtx.decouple global_ctx))
                                   (FuturePart.parts
                                      (MergeTaskArgs.future_part
                                         (GlobalCtx.args global_ctx))))
                                (∅, new_data_part)
                                (StorageMetadata.vector_indices
                                   (MergeTaskArgs.metadata_snapshot
                                      (GlobalCtx.args global_ctx)))).2 !! path)).
    { intros path. apply move_index_keeps_files. }
    destruct (foldl _ (∅, new_data_part) _) as [tmp moved_part].
    destruct Hmoved as [_ Hpath].
    { intros name file. split.
      - intros (files & Hfiles' & _). by rewrite lookup_empty in Hfiles'.
      - intros [ [files Hfiles'] _]. by rewrite lookup_empty in Hfiles'. }
    simpl in Hpath, Hkeeps. rewrite Hdisk. simpl.
    edestruct (hash_map_files_return
                 (NewPart.with_files
                    (<[ NewPart.full_path moved_part +:+ inverted_row_sources_map_filename
                        := RowSources rows_sources ]> (NewPart.files moved_part))
                    moved_part)
                 (elements (index_map_filenames
                              (FuturePart.parts
                                 (MergeTaskArgs.future_part (GlobalCtx.args global_ctx)))))
                 []) as [results Hhash].
    { intros name Hname. apply elem_of_elements in Hname. simpl.
      destruct (decide (name = inverted_row_sources_map_filename)) as [->|Hne].
      - rewrite lookup_insert_eq. by eexists.
      - rewrite lookup_insert_ne.
        + rewrite Hpath. apply Hkeeps. by apply Hfiles.
        + intros Hsame. apply Hne. symmetry. by apply (inj (String.append _)) in Hsame. }
    rewrite Hhash. simpl. by eexists _, _.
  - intros new_data_part ctx global_ctx' ctx' Hcan Hnone Hprepare.
    unfold prepare_row_ids_maps in Hprepare. rewrite Hcan in Hprepare.
    assert (Hnames :
              Decouple.row_ids_map_files (GlobalCtx.decouple global_ctx')
              = imap (fun i part =>
                        NewPart.full_path new_data_part +:+ row_ids_map_filename i part)
                     (FuturePart.parts
                        (MergeTaskArgs.future_part (GlobalCtx.args global_ctx)))
              /\ Decouple.inverted_row_ids_map_file_path (GlobalCtx.decouple global_ctx')
                 = NewPart.full_path new_data_part +:+ inverted_row_ids_map_filename).
    { destruct (HorizontalCtx.rows_sources_write_buf ctx); simpl in Hprepare.
      - bind_inv Hprepare rows_sources_file Hfile. injection Hprepare as <- <-.
        simpl. by rewrite Hnone.
      - injection Hprepare as <- <-. simpl. by rewrite Hnone. }
    destruct Hnames as [Hfiles Hinverted]. split; [done|]. split; [done|].
    rewrite Hfiles, Hinverted. apply row_ids_map_paths_distinct.
  - intros ctx again global_ctx' ctx' i part path Hpath Hdistinct Hgenerate Hi Hfile_i.
    apply NoDup_cons in Hdistinct as [Hinverted Hdistinct].
    unfold generateRowIdsMap in Hgenerate. rewrite decide_False in Hgenerate by done.
    bind_inv Hgenerate rows_sources Hbuf.
    bind_inv Hgenerate rows_sources_file Hfile.
    bind_inv Hgenerate read_buf Hread. bind_inv Hgenerate new_data_part Hpart.
    bind_inv Hgenerate built Hbuild. destruct built as [ [inverted bufs] updates].
    simpl in Hgenerate.
    destruct (if decide (GlobalCtx.chosen_merge_algorithm global_ctx
                         = MergeAlgorithm.Horizontal) then _ else _)
      as [tmp_disk ctx1].
    bind_inv Hgenerate files Hflush. injection Hgenerate as <- <- <-. simpl.
    destruct (flush_written _ _ _ _ _ i path Hflush Hdistinct) as (forward & Hforward & Hwritten);
      [apply elem_of_seq; apply lookup_lt_Some in Hi; lia|done|].
    eexists _, forward. split; [reflexivity|]. simpl. split; [done|]. split.
    + unfold store_map_file. rewrite lookup_insert_ne; [done|].
      intros Hsame. apply Hinverted. rewrite Hsame.
      by eapply list_elem_of_lookup_2.
    + intros Hrows.
      apply build_row_ids_maps_spec in Hbuild as (st & _ & _ & _ & Hmaps).
      destruct (Hmaps i part Hi) as (ids & _ & Hbufs).
      assert (Hempty : ((fun _ : string => @nil N)
                          <$> Decouple.row_ids_map_files (GlobalCtx.decouple global_ctx))
                       !! i = Some []).
      { by rewrite list_lookup_fmap, Hfile_i. }
      rewrite (Hbufs [] Hempty) in Hforward. injection Hforward as <-.
      unfold forward_map. rewrite Hrows. by destruct (is_collapsing_mode _).
Qed.
End Checksums.
(** * Further properties *)

(** ** The split of the storage columns *)

(** The key columns after the "at least one column" guard. *)
Definition effective_key_columns (storage_columns : list NameAndTypePair.t)
    (required : gset string) : gset string :=
  if decide (required = ∅)
  then match storage_columns with
       | [] => ∅
       | front :: _ => {[ NameAndTypePair.name front ]}
       end
  else required.

Lemma emplace_columns_gathering key_columns storage_columns out :
  ColumnSets.gathering_columns (foldl (emplace_column key_columns) out storage_columns)
  = ColumnSets.gathering_columns out
    ++ filter (fun column => NameAndTypePair.name column ∉ key_columns) storage_columns.
Proof.
  revert out. induction storage_columns as [|column rest IH]; intros out; simpl.
  - by rewrite app_nil_r.
  - rewrite IH. unfold emplace_column. rewrite filter_cons.
    destruct (decide (NameAndTypePair.name column ∈ key_columns)) as [Hin|Hin].
    + rewrite bool_decide_true by done. simpl.
      by rewrite decide_False by (intros Hout; by apply Hout).
    + rewrite bool_decide_false by done. simpl.
      rewrite decide_True by done. by rewrite <- app_assoc.
Qed.

(** The name lists are filled in step with the column lists. *)
Definition names_in_step (sets : ColumnSets.t) : Prop :=
  ColumnSets.merging_column_names sets
  = NameAndTypePair.name <$> ColumnSets.merging_columns sets
  /\ ColumnSets.gathering_column_names sets
     = NameAndTypePair.name <$> ColumnSets.gathering_columns sets.

Lemma emplace_columns_names key_columns storage_columns out :
  names_in_step out ->
  names_in_step (foldl (emplace_column key_columns) out storage_columns).
Proof.
  revert out. induction storage_columns as [|column rest IH]; intros out Hout; simpl;
    [done|].
  apply IH. destruct Hout as [Hmerging Hgathering]. unfold emplace_column, names_in_step.
  destruct (bool_decide _); simpl; rewrite ?fmap_app; simpl; split; congruence.
Qed.

(** What [extractMergingAndGatheringColumns] returns for a merge that starts
    with empty lists. *)
Lemma extract_from_empty storage_columns sort_key indexes merging_params sets :
  extractMergingAndGatheringColumns storage_columns sort_key indexes merging_params
    ColumnSets.empty = Return sets ->
  let key_columns :=
    effective_key_columns storage_columns
      (required_key_columns sort_key indexes merging_params) in
  ColumnSets.merging_columns sets
  = filter (fun column => NameAndTypePair.name column ∈ key_columns) storage_columns
  /\ ColumnSets.gathering_columns sets
     = filter (fun column => NameAndTypePair.name column ∉ key_columns) storage_columns
  /\ names_in_step sets.
Proof.
  unfold extractMergingAndGatheringColumns, effective_key_columns. intros Hextract.
  bind_inv Hextract key_columns Hkeys. injection Hextract as <-. cbv zeta.
  rewrite emplace_columns_merging, emplace_columns_gathering. simpl.
  assert (Hsame : key_columns
                  = (if decide (required_key_columns sort_key indexes merging_params = ∅)
                     then match storage_columns with
                          | [] => ∅
                          | front :: _ => {[ NameAndTypePair.name front ]}
                          end
                     else required_key_columns sort_key indexes merging_params)).
  { destruct (decide (_ = ∅)) as [Hnone|Hsome]; [|by injection Hkeys as <-].
    destruct storage_columns as [|front rest]; [done|].
    injection Hkeys as <-. by rewrite Hnone, (left_id_L ∅ (∪)). }
  rewrite <- Hsame. split; [done|]. split; [done|]. by apply emplace_columns_names.
Qed.

(** X1.  [extractMergingAndGatheringColumns] splits the storage columns by
    the key set: the columns named in it are merged, the others gathered,
    each list in the order of the storage columns, the four output lists in
    step.  The key set is the required one or, when nothing is required,
    the name of the first storage column; with nothing required and no
    storage column, [front()] is taken of an empty list. *)
Theorem extract_splits_storage_columns storage_columns sort_key indexes merging_params :
  let required := required_key_columns sort_key indexes merging_params in
  let key_columns := effective_key_columns storage_columns required in
  (required <> ∅ \/ storage_columns <> [] ->
   exists sets,
     extractMergingAndGatheringColumns storage_columns sort_key indexes merging_params
       ColumnSets.empty = Return sets
     /\ ColumnSets.merging_columns sets
        = filter (fun column => NameAndTypePair.name column ∈ key_columns) storage_columns
     /\ ColumnSets.gathering_columns sets
        = filter (fun column => NameAndTypePair.name column ∉ key_columns) storage_columns
     /\ names_in_step sets
     /\ ColumnSets.merging_columns sets ++ ColumnSets.gathering_columns sets
        ≡ₚ storage_columns)
  /\ (required = ∅ -> storage_columns = [] ->
      extractMergingAndGatheringColumns storage_columns sort_key indexes merging_params
        ColumnSets.empty = Undefined).
Proof.
  cbv zeta. split.
  - intros Hinput.
    destruct (extractMergingAndGatheringColumns storage_columns sort_key indexes
                merging_params ColumnSets.empty) as [sets| |] eqn:Hextract.
    + exists sets. split; [done|].
      apply extract_from_empty in Hextract as (Hmerging & Hgathering & Hstep).
      split; [done|]. split; [done|]. split; [done|].
      rewrite Hmerging, Hgathering.
      apply (filter_app_complement
               (fun column =>
                  NameAndTypePair.name column
                  ∈ effective_key_columns storage_columns
                      (required_key_columns sort_key indexes merging_params))).
    + unfold extractMergingAndGatheringColumns in Hextract.
      destruct (decide (_ = ∅)); [|done]. by destruct storage_columns.
    + unfold extractMergingAndGatheringColumns in Hextract.
      destruct (decide (_ = ∅)) as [Hnone|Hsome]; [|done].
      destruct storage_columns; [|done]. by destruct Hinput.
  - intros Hnone ->. unfold extractMergingAndGatheringColumns.
    by rewrite Hnone, decide_True.
Qed.
(** ** The columns after [prepare] *)

(** The columns whose TTL is finished, in the order of the TTL entries. *)
Definition finished_columns (columns_ttl : list (string * bool)) : list string :=
  omap (fun entry : string * bool => if entry.2 then Some entry.1 else None) columns_ttl.

Lemma filter_ext_in {A : Type} (P Q : A -> Prop)
      `{forall a, Decision (P a)} `{forall a, Decision (Q a)} (l : list A) :
  (forall a, a ∈ l -> P a <-> Q a) -> filter P l = filter Q l.
Proof.
  induction l as [|a l IH]; intros Hext; [done|].
  rewrite !filter_cons.
  rewrite IH by (intros b Hb; apply Hext; by right).
  destruct (decide (P a)) as [Ha|Ha].
  - rewrite decide_True; [done|]. apply Hext; [by left|done].
  - rewrite decide_False; [done|]. intros Hq. apply Ha, Hext; [by left|done].
Qed.

Lemma filter_all {A : Type} (P : A -> Prop) `{forall a, Decision (P a)} (l : list A) :
  (forall a, a ∈ l -> P a) -> filter P l = l.
Proof.
  induction l as [|a l IH]; intros Hall; [done|].
  rewrite filter_cons_True by (apply Hall; by left).
  rewrite IH; [done|]. intros b Hb. apply Hall. by right.
Qed.

Lemma fmap_filter_names (P : string -> Prop) `{forall n, Decision (P n)}
      (columns : list NameAndTypePair.t) :
  filter P (NameAndTypePair.name <$> columns)
  = NameAndTypePair.name <$> filter (fun column => P (NameAndTypePair.name column)) columns.
Proof.
  induction columns as [|column rest IH]; [done|].
  csimpl. rewrite !filter_cons. destruct (decide (P (NameAndTypePair.name column)));
    csimpl; by rewrite IH.
Qed.

Lemma skip_expired_column_scan entries st :
  let st' := foldl skip_expired_column st entries in
  scan_expired_columns st'
  = scan_expired_columns st ∪ list_to_set (finished_columns entries)
  /\ scan_gathering_column_names st'
     = filter (fun n => n ∉ finished_columns entries) (scan_gathering_column_names st)
  /\ scan_merging_column_names st'
     = filter (fun n => n ∉ finished_columns entries) (scan_merging_column_names st)
  /\ expired_columns_count st'
     = expired_columns_count st + length (finished_columns entries).
Proof.
  cbv zeta. revert st. induction entries as [|[column_name finished] rest IH]; intros st.
  - simpl. split; [by rewrite (right_id_L ∅ (∪))|]. split; [|split; [|lia]].
    + symmetry. apply filter_all. intros n _. apply not_elem_of_nil.
    + symmetry. apply filter_all. intros n _. apply not_elem_of_nil.
  - cbn [foldl]. destruct (IH (skip_expired_column st (column_name, finished)))
      as (IHexpired & IHgathering & IHmerging & IHcount).
    rewrite IHexpired, IHgathering, IHmerging, IHcount.
    unfold skip_expired_column, finished_columns. destruct finished; csimpl.
    + split; [set_solver|]. split; [|split; [|lia]].
      * rewrite list_filter_filter. apply list_filter_iff. intros n. set_solver.
      * rewrite list_filter_filter. apply list_filter_iff. intros n. set_solver.
    + done.
Qed.

Lemma skip_expired_columns_spec new_data_part sets :
  names_in_step sets ->
  let finished := finished_columns (TTLInfos.columns_ttl (NewPart.ttl_infos new_data_part)) in
  let result := skip_expired_columns new_data_part sets in
  names_in_step result.2
  /\ ColumnSets.merging_columns result.2
     = filter (fun column => NameAndTypePair.name column ∉ finished)
              (ColumnSets.merging_columns sets)
  /\ ColumnSets.gathering_columns result.2
     = filter (fun column => NameAndTypePair.name column ∉ finished)
              (ColumnSets.gathering_columns sets)
  /\ NewPart.expired_columns result.1
     = NewPart.expired_columns new_data_part ∪ list_to_set finished
  /\ NewPart.ttl_infos result.1 = NewPart.ttl_infos new_data_part.
Proof.
  intros [Hmerging Hgathering]. cbv zeta. unfold skip_expired_columns.
  set (entries := TTLInfos.columns_ttl (NewPart.ttl_infos new_data_part)).
  match goal with
  | |- context [foldl skip_expired_column ?s entries] =>
      destruct (skip_expired_column_scan entries s) as (Hexp & Hgat & Hmer & Hcount)
  end.
  simpl in Hexp, Hgat, Hmer, Hcount. simpl.
  rewrite Hexp, Hgat, Hmer, Hcount, Hmerging, Hgathering.
  assert (Hnames : forall columns : list NameAndTypePair.t,
            filter (fun n => n ∉ finished_columns entries) (NameAndTypePair.name <$> columns)
            = NameAndTypePair.name
                <$> filter (fun column => NameAndTypePair.name column ∉ finished_columns entries)
                           columns).
  { intros columns. apply fmap_filter_names. }
  assert (Hcolumns : forall columns : list NameAndTypePair.t,
            filter_columns columns
              (filter (fun n => n ∉ finished_columns entries)
                      (NameAndTypePair.name <$> columns))
            = filter (fun column => NameAndTypePair.name column ∉ finished_columns entries)
                     columns).
  { intros columns. unfold filter_columns. apply filter_ext_in.
    intros column Hin. rewrite list_elem_of_filter. split; [tauto|].
    intros Hout. split; [done|]. by apply list_elem_of_fmap_2. }
  destruct (finished_columns entries) as [|first others] eqn:Hfinished.
  - simpl. rewrite !filter_all by (intros ? _; apply not_elem_of_nil).
    split; [done|]. split; [done|]. split; [done|]. split; done.
  - simpl. rewrite !Hcolumns, !Hnames. split; [done|]. split; [done|]. split; done.
Qed.
Section PrepareColumns.
Context `{Engine}.

(** The phases of a [prepare] that returns. *)
Lemma prepare_phases env global_ctx ctx again global_ctx' ctx' :
  prepare env global_ctx ctx = Return (again, global_ctx', ctx') ->
  let args := GlobalCtx.args global_ctx in
  let future_part := MergeTaskArgs.future_part args in
  again = false
  /\ Env.merges_blocker env || Env.is_cancelled env = false
  /\ World.directory_exists (GlobalCtx.world global_ctx) = false
  /\ exists g1 part1 c1 g2 c2 d g3 c3,
       prepare_columns_and_ttl env global_ctx (build_new_data_part args) ctx
       = Return (g1, part1, c1)
       /\ prepare_algorithm g1 c1 = Return (g2, c2)
       /\ checkDecouple (MergeTaskArgs.settings args)
            (StorageMetadata.vector_indices (MergeTaskArgs.metadata_snapshot args))
            (FuturePart.parts future_part) (GlobalCtx.decouple g2) = Return d
       /\ prepare_row_ids_maps
            (NewPart.with_merged_source_parts
               (merge_source_parts (FuturePart.parts future_part)) part1)
            (GlobalCtx.with_decouple d g2) c2 = Return (g3, c3)
       /\ prepare_stream g3
            (NewPart.with_merged_source_parts
               (merge_source_parts (FuturePart.parts future_part)) part1) c3
          = Return (global_ctx', ctx').
Proof.
  unfold prepare. intros Hprepare. cbv zeta.
  destruct (Env.merges_blocker env || Env.is_cancelled env) eqn:Hcancel; [done|].
  destruct (isTTLMergeType _ && Env.ttl_merges_blocker env) eqn:Httl; [done|].
  destruct (World.directory_exists _); [done|].
  bind_inv Hprepare r1 Hphase1. destruct r1 as [[g1 part1] c1].
  bind_inv Hprepare r2 Hphase2. destruct r2 as [g2 c2].
  bind_inv Hprepare d Hdecouple.
  bind_inv Hprepare r3 Hphase3. destruct r3 as [g3 c3].
  bind_inv Hprepare r4 Hphase4. destruct r4 as [g4 c4].
  injection Hprepare as <- <- <-.
  split; [done|]. split; [done|]. split; [done|].
  by exists g1, part1, c1, g2, c2, d, g3, c3.
Qed.

Lemma prepare_columns_and_ttl_columns env global_ctx new_data_part ctx
      global_ctx' new_data_part' ctx' :
  names_in_step (GlobalCtx.column_sets global_ctx) ->
  prepare_columns_and_ttl env global_ctx new_data_part ctx
  = Return (global_ctx', new_data_part', ctx') ->
  names_in_step (GlobalCtx.column_sets global_ctx')
  /\ GlobalCtx.storage_columns global_ctx'
     = StorageMetadata.columns
         (MergeTaskArgs.metadata_snapshot (GlobalCtx.args global_ctx))
  /\ GlobalCtx.all_column_names global_ctx'
     = NameAndTypePair.name <$> GlobalCtx.storage_columns global_ctx'
  /\ GlobalCtx.tmp_disk global_ctx' = GlobalCtx.tmp_disk global_ctx
  /\ GlobalCtx.world global_ctx' = GlobalCtx.world global_ctx
  /\ HorizontalCtx.rows_sources_write_buf ctx' = HorizontalCtx.rows_sources_write_buf ctx
  /\ HorizontalCtx.rows_sources_file ctx' = HorizontalCtx.rows_sources_file ctx
  /\ NewPart.expired_columns new_data_part' = NewPart.expired_columns new_data_part
  /\ NewPart.full_path new_data_part' = NewPart.full_path new_data_part.
Proof.
  intros Hstep. unfold prepare_columns_and_ttl, extractMergingAndGatheringColumns.
  intros Hprepare. bind_inv Hprepare column_sets Hextract.
  bind_inv Hextract key_columns Hkeys. injection Hextract as <-.
  destruct (foldl _ _ _) as [[infos need_remove] force_ttl].
  injection Hprepare as <- <- <-. simpl.
  split; [by apply emplace_columns_names|]. done.
Qed.

(** The algorithm chosen for a merge that deduplicates or removes expired
    values is never the vertical one. *)
Lemma chooseMergeAlgorithm_vertical global_ctx ctx :
  chooseMergeAlgorithm global_ctx ctx = MergeAlgorithm.Vertical ->
  MergeTaskArgs.deduplicate (GlobalCtx.args global_ctx) = false
  /\ HorizontalCtx.need_remove_expired_values ctx = false.
Proof.
  unfold chooseMergeAlgorithm.
  destruct (MergeTaskArgs.deduplicate _); [done|].
  destruct (_ =? _)%N; [done|].
  by destruct (HorizontalCtx.need_remove_expired_values ctx).
Qed.

Lemma prepare_algorithm_columns global_ctx ctx global_ctx' ctx' :
  names_in_step (GlobalCtx.column_sets global_ctx) ->
  GlobalCtx.all_column_names global_ctx
  = NameAndTypePair.name <$> GlobalCtx.storage_columns global_ctx ->
  prepare_algorithm global_ctx ctx = Return (global_ctx', ctx') ->
  names_in_step (GlobalCtx.column_sets global_ctx')
  /\ GlobalCtx.storage_columns global_ctx' = GlobalCtx.storage_columns global_ctx
  /\ GlobalCtx.world global_ctx' = GlobalCtx.world global_ctx
  /\ (GlobalCtx.chosen_merge_algorithm global_ctx' = MergeAlgorithm.Horizontal
      /\ ColumnSets.merging_columns (GlobalCtx.column_sets global_ctx')
         = GlobalCtx.storage_columns global_ctx
      /\ ColumnSets.gathering_columns (GlobalCtx.column_sets global_ctx') = []
      /\ GlobalCtx.tmp_disk global_ctx' = GlobalCtx.tmp_disk global_ctx
      /\ HorizontalCtx.rows_sources_write_buf ctx'
         = HorizontalCtx.rows_sources_write_buf ctx
      /\ HorizontalCtx.rows_sources_file ctx' = HorizontalCtx.rows_sources_file ctx
      \/ GlobalCtx.chosen_merge_algorithm global_ctx' = MergeAlgorithm.Vertical
         /\ GlobalCtx.column_sets global_ctx' = GlobalCtx.column_sets global_ctx
         /\ MergeTaskArgs.deduplicate (GlobalCtx.args global_ctx) = false
         /\ HorizontalCtx.need_remove_expired_values ctx = false
         /\ GlobalCtx.tmp_disk global_ctx'
            = <[ rows_sources_file_path := [] ]> (GlobalCtx.tmp_disk global_ctx)
         /\ HorizontalCtx.rows_sources_write_buf ctx' = Some []
         /\ HorizontalCtx.rows_sources_file ctx'
            = Some {| TemporaryFile.path := rows_sources_file_path;
                      TemporaryFile.kept := false |}).
Proof.
  intros Hstep Hnames. unfold prepare_algorithm. simpl.
  destruct (chooseMergeAlgorithm _ _) eqn:Hchosen; [done| |]; intros [= <- <-]; simpl.
  - split; [by split|]. split; [done|]. split; [done|]. by left.
  - apply chooseMergeAlgorithm_vertical in Hchosen as [Hdedup Hneed].
    split; [done|]. split; [done|]. split; [done|]. by right.
Qed.

Lemma prepare_row_ids_maps_buffers new_data_part global_ctx ctx global_ctx' ctx' :
  HorizontalCtx.rows_sources_write_buf ctx = None
  \/ HorizontalCtx.rows_sources_write_buf ctx = Some []
     /\ HorizontalCtx.rows_sources_file ctx
        = Some {| TemporaryFile.path := rows_sources_file_path;
                  TemporaryFile.kept := false |}
     /\ GlobalCtx.tmp_disk global_ctx !! rows_sources_file_path = Some [] ->
  prepare_row_ids_maps new_data_part global_ctx ctx = Return (global_ctx', ctx') ->
  GlobalCtx.column_sets global_ctx' = GlobalCtx.column_sets global_ctx
  /\ GlobalCtx.chosen_merge_algorithm global_ctx'
     = GlobalCtx.chosen_merge_algorithm global_ctx
  /\ GlobalCtx.world global_ctx' = GlobalCtx.world global_ctx
  /\ GlobalCtx.storage_columns global_ctx' = GlobalCtx.storage_columns global_ctx
  /\ (if Decouple.can_be_decouple (GlobalCtx.decouple global_ctx)
      then HorizontalCtx.rows_sources_write_buf ctx' = Some []
           /\ HorizontalCtx.rows_sources_file ctx'
              = Some {| TemporaryFile.path := rows_sources_file_path;
                        TemporaryFile.kept := true |}
           /\ GlobalCtx.tmp_disk global_ctx' !! rows_sources_file_path = Some []
           /\ Decouple.inverted_row_sources_map_file_path (GlobalCtx.decouple global_ctx')
              = rows_sources_file_path
      else global_ctx' = global_ctx /\ ctx' = ctx).
Proof.
  intros Hbuf. unfold prepare_row_ids_maps.
  destruct (Decouple.can_be_decouple _); [|by intros [= <- <-]].
  destruct Hbuf as [Hbuf|(Hbuf & Hfile & Hdisk)]; rewrite Hbuf; simpl.
  - intros [= <- <-]. simpl. by rewrite lookup_insert_eq.
  - rewrite Hfile. simpl. intros [= <- <-]. simpl. done.
Qed.

Lemma prepare_stream_columns global_ctx new_data_part ctx global_ctx' ctx' :
  prepare_stream global_ctx new_data_part ctx = Return (global_ctx', ctx') ->
  GlobalCtx.chosen_merge_algorithm global_ctx'
  = GlobalCtx.chosen_merge_algorithm global_ctx
  /\ GlobalCtx.tmp_disk global_ctx' = GlobalCtx.tmp_disk global_ctx
  /\ GlobalCtx.storage_columns global_ctx' = GlobalCtx.storage_columns global_ctx
  /\ GlobalCtx.rows_written global_ctx' = 0%N
  /\ HorizontalCtx.rows_sources_write_buf ctx' = HorizontalCtx.rows_sources_write_buf ctx
  /\ HorizontalCtx.rows_sources_file ctx' = HorizontalCtx.rows_sources_file ctx
  /\ FuturePart.parts (MergeTaskArgs.future_part (GlobalCtx.args global_ctx)) <> []
  /\ GlobalCtx.merging_executor global_ctx'
     = Some {| MergingExecutor.remaining :=
                 World.merged_pipeline (GlobalCtx.world global_ctx);
               MergingExecutor.rows_sources_out :=
                 takes_rows_sources_buf
                   (MergingParams.mode
                      (MergeTaskArgs.merging_params (GlobalCtx.args global_ctx)))
                 && bool_decide (is_Some (HorizontalCtx.rows_sources_write_buf ctx)) |}
  /\ exists new_data_part',
       GlobalCtx.new_data_part global_ctx' = Some new_data_part'
       /\ (new_data_part', GlobalCtx.column_sets global_ctx')
          = (if HorizontalCtx.need_remove_expired_values ctx
             then (new_data_part, GlobalCtx.column_sets global_ctx)
             else skip_expired_columns new_data_part (GlobalCtx.column_sets global_ctx)).
Proof.
  unfold prepare_stream, createMergedStream.
  destruct (FuturePart.parts _) eqn:Hparts; [done|]. simpl.
  destruct (HorizontalCtx.need_remove_expired_values ctx); simpl.
  - intros [= <- <-]. simpl. repeat (split; [done|]). by eexists.
  - destruct (skip_expired_columns _ _) as [new_data_part' column_sets] eqn:Hskip.
    intros [= <- <-]. simpl. repeat (split; [done|]). by eexists.
Qed.
End PrepareColumns.
Section PrepareResults.
Context `{Engine}.

(** What [prepare] leaves of the columns, the new part and the
    rows-sources buffer. *)
Lemma prepare_columns_spec env global_ctx ctx again global_ctx' ctx' :
  names_in_step (GlobalCtx.column_sets global_ctx) ->
  prepare env global_ctx ctx = Return (again, global_ctx', ctx') ->
  let args := GlobalCtx.args global_ctx in
  let metadata_snapshot := MergeTaskArgs.metadata_snapshot args in
  let columns := StorageMetadata.columns metadata_snapshot in
  exists extracted new_data_part',
    extractMergingAndGatheringColumns columns
      (StorageMetadata.sorting_key_required_columns metadata_snapshot)
      (StorageMetadata.secondary_indices metadata_snapshot)
      (MergeTaskArgs.merging_params args) (GlobalCtx.column_sets global_ctx)
    = Return extracted
    /\ GlobalCtx.new_data_part global_ctx' = Some new_data_part'
    /\ let skipped :=
         if HorizontalCtx.need_remove_expired_values ctx' then []
         else finished_columns (TTLInfos.columns_ttl (NewPart.ttl_infos new_data_part')) in
       let kept := fun column : NameAndTypePair.t =>
                     NameAndTypePair.name column ∉ skipped in
       names_in_step (GlobalCtx.column_sets global_ctx')
       /\ NewPart.expired_columns new_data_part' = list_to_set skipped
       /\ (GlobalCtx.chosen_merge_algorithm global_ctx' = MergeAlgorithm.Horizontal
           /\ ColumnSets.merging_columns (GlobalCtx.column_sets global_ctx')
              = filter kept columns
           /\ ColumnSets.gathering_columns (GlobalCtx.column_sets global_ctx') = []
           \/ GlobalCtx.chosen_merge_algorithm global_ctx' = MergeAlgorithm.Vertical
              /\ ColumnSets.merging_columns (GlobalCtx.column_sets global_ctx')
                 = filter kept (ColumnSets.merging_columns extracted)
              /\ ColumnSets.gathering_columns (GlobalCtx.column_sets global_ctx')
                 = filter kept (ColumnSets.gathering_columns extracted)).
Proof.
  intros Hstep Hprepare. cbv zeta.
  pose proof Hprepare as Hphases.
  apply prepare_phases in Hphases
    as (_ & _ & _ & g1 & part1 & c1 & g2 & c2 & d & g3 & c3
        & Hphase1 & Hphase2 & Hdecouple & Hphase3 & Hphase4).
  assert (Hextracted :
            extractMergingAndGatheringColumns
              (StorageMetadata.columns
                 (MergeTaskArgs.metadata_snapshot (GlobalCtx.args global_ctx)))
              (StorageMetadata.sorting_key_required_columns
                 (MergeTaskArgs.metadata_snapshot (GlobalCtx.args global_ctx)))
              (StorageMetadata.secondary_indices
                 (MergeTaskArgs.metadata_snapshot (GlobalCtx.args global_ctx)))
              (MergeTaskArgs.merging_params (GlobalCtx.args global_ctx))
              (GlobalCtx.column_sets global_ctx)
            = Return (GlobalCtx.column_sets g1)
            /\ NewPart.expired_columns part1 = ∅).
  { unfold prepare_columns_and_ttl in Hphase1.
    bind_inv Hphase1 column_sets Hextract. simpl in Hextract. rewrite Hextract.
    destruct (foldl _ _ _) as [[infos need_remove] force_ttl].
    by injection Hphase1 as <- <- <-. }
  destruct Hextracted as [Hextracted Hnone].
  apply prepare_columns_and_ttl_columns in Hphase1
    as (Hstep1 & Hcolumns1 & Hnames1 & _); [|done].
  apply prepare_algorithm_columns in Hphase2
    as (Hstep2 & Hcolumns2 & _ & Halgorithm); [|done..].
  assert (Hsets3 : GlobalCtx.column_sets g3 = GlobalCtx.column_sets g2
                   /\ GlobalCtx.chosen_merge_algorithm g3
                      = GlobalCtx.chosen_merge_algorithm g2).
  { unfold prepare_row_ids_maps in Hphase3.
    destruct (Decouple.can_be_decouple _); [|by injection Hphase3 as <- <-].
    destruct (HorizontalCtx.rows_sources_write_buf c2); simpl in Hphase3.
    - bind_inv Hphase3 file Hfile. by injection Hphase3 as <- <-.
    - by injection Hphase3 as <- <-. }
  destruct Hsets3 as [Hsets3 Hchosen3].
  pose proof (prepare_stream_fields _ _ _ _ _ Hphase4) as (_ & _ & _ & Hneed4 & _).
  apply prepare_stream_columns in Hphase4
    as (Hchosen4 & _ & _ & _ & _ & _ & _ & _ & new_data_part' & Hpart & Hskip).
  exists (GlobalCtx.column_sets g1), new_data_part'.
  split; [done|]. split; [done|]. rewrite Hneed4, Hchosen4, Hchosen3.
  destruct (HorizontalCtx.need_remove_expired_values c3).
  - injection Hskip as -> ->. simpl. rewrite Hsets3.
    split; [done|]. split; [done|].
    rewrite !filter_all by (intros ? _; apply not_elem_of_nil).
    destruct Halgorithm as [(Hchosen & Hmerging & Hgathering & _)
                           |(Hchosen & Hsets & _)].
    + left. by rewrite Hmerging, Hcolumns1.
    + right. by rewrite Hsets.
  - rewrite Hsets3 in Hskip.
    pose proof (skip_expired_columns_spec
                  (NewPart.with_merged_source_parts
                     (merge_source_parts
                        (FuturePart.parts
                           (MergeTaskArgs.future_part (GlobalCtx.args global_ctx))))
                     part1)
                  (GlobalCtx.column_sets g2) Hstep2) as Hspec.
    rewrite <- Hskip in Hspec. cbv zeta in Hspec. simpl in Hspec.
    destruct Hspec as (Hstep' & Hmerging' & Hgathering' & Hexpired' & Hinfos').
    rewrite Hinfos'. split; [done|].
    split; [by rewrite Hexpired', Hnone, (left_id_L ∅ (∪))|].
    destruct Halgorithm as [(Hchosen & Hmerging & Hgathering & _)
                           |(Hchosen & Hsets & _)].
    + left. rewrite Hmerging', Hgathering', Hmerging, Hgathering, Hcolumns1. done.
    + right. rewrite Hmerging', Hgathering', Hsets. done.
Qed.

(** X2.  After [prepare] of a new task, every storage column is either
    merged or gathered, unless it is skipped as fully expired (which
    happens only when no expired values are to be removed): a horizontal
    merge merges all of them and gathers none, a vertical merge merges
    the key columns and gathers the others, in the order of the storage
    columns; the name lists stay in step with the column lists (the
    assertion of lines 314-315, also after the expired columns are
    erased). *)
Theorem prepare_splits_columns env global_ctx ctx again global_ctx' ctx' :
  GlobalCtx.column_sets global_ctx = ColumnSets.empty ->
  prepare env global_ctx ctx = Return (again, global_ctx', ctx') ->
  let args := GlobalCtx.args global_ctx in
  let metadata_snapshot := MergeTaskArgs.metadata_snapshot args in
  let columns := StorageMetadata.columns metadata_snapshot in
  let key_columns :=
    effective_key_columns columns
      (required_key_columns
         (StorageMetadata.sorting_key_required_columns metadata_snapshot)
         (StorageMetadata.secondary_indices metadata_snapshot)
         (MergeTaskArgs.merging_params args)) in
  let sets := GlobalCtx.column_sets global_ctx' in
  exists new_data_part',
    GlobalCtx.new_data_part global_ctx' = Some new_data_part'
    /\ let skipped :=
         if HorizontalCtx.need_remove_expired_values ctx' then []
         else finished_columns (TTLInfos.columns_ttl (NewPart.ttl_infos new_data_part')) in
       let kept := fun column : NameAndTypePair.t =>
                     NameAndTypePair.name column ∉ skipped in
       names_in_step sets
       /\ (GlobalCtx.chosen_merge_algorithm global_ctx' = MergeAlgorithm.Horizontal
           /\ ColumnSets.merging_columns sets = filter kept columns
           /\ ColumnSets.gathering_columns sets = []
           \/ GlobalCtx.chosen_merge_algorithm global_ctx' = MergeAlgorithm.Vertical
              /\ ColumnSets.merging_columns sets
                 = filter kept
                     (filter (fun column => NameAndTypePair.name column ∈ key_columns)
                             columns)
              /\ ColumnSets.gathering_columns sets
                 = filter kept
                     (filter (fun column => NameAndTypePair.name column ∉ key_columns)
                             columns)).
Proof.
  intros Hfresh Hprepare. cbv zeta.
  apply prepare_columns_spec in Hprepare
    as (extracted & new_data_part' & Hextract & Hpart & Hstep & _ & Halgorithm);
    [|by rewrite Hfresh].
  rewrite Hfresh in Hextract.
  apply extract_from_empty in Hextract as (Hmerging & Hgathering & _).
  exists new_data_part'. split; [done|]. split; [done|].
  destruct Halgorithm as [Hhorizontal|(Hchosen & Hmerged & Hgathered)]; [by left|].
  right. by rewrite Hmerged, Hgathered, Hmerging, Hgathering.
Qed.

(** X3.  When no expired values are to be removed, [prepare] records the
    columns whose TTL has finished as the expired columns of the new
    part, and none of them is left among the names of the columns to
    merge or to gather; when expired values are to be removed, no
    expired column is recorded. *)
Theorem prepare_records_expired_columns env global_ctx ctx again global_ctx' ctx'
        new_data_part' :
  names_in_step (GlobalCtx.column_sets global_ctx) ->
  prepare env global_ctx ctx = Return (again, global_ctx', ctx') ->
  GlobalCtx.new_data_part global_ctx' = Some new_data_part' ->
  let finished :=
    finished_columns (TTLInfos.columns_ttl (NewPart.ttl_infos new_data_part')) in
  let sets := GlobalCtx.column_sets global_ctx' in
  (HorizontalCtx.need_remove_expired_values ctx' = true ->
   NewPart.expired_columns new_data_part' = ∅)
  /\ (HorizontalCtx.need_remove_expired_values ctx' = false ->
      NewPart.expired_columns new_data_part' = list_to_set finished
      /\ forall column_name,
           column_name ∈ finished ->
           (column_name ∉ ColumnSets.merging_column_names sets)
           /\ (column_name ∉ ColumnSets.gathering_column_names sets)).
Proof.
  intros Hstep Hprepare Hpart. cbv zeta.
  apply prepare_columns_spec in Hprepare
    as (extracted & new_data_part0 & _ & Hpart0 & [Hmerging Hgathering] & Hexpired
        & Halgorithm); [|done].
  rewrite Hpart in Hpart0. injection Hpart0 as <-.
  split; intros Hneed; rewrite Hneed in Hexpired, Halgorithm; [done|].
  split; [done|].
  intros column_name Hfinished. rewrite Hmerging, Hgathering.
  assert (Hkept : forall columns : list NameAndTypePair.t,
            column_name
            ∉ NameAndTypePair.name
                <$> filter (fun column : NameAndTypePair.t =>
                              NameAndTypePair.name column
                              ∉ finished_columns
                                  (TTLInfos.columns_ttl (NewPart.ttl_infos new_data_part')))
                           columns).
  { intros columns Hin. apply list_elem_of_fmap in Hin as (column & -> & Hin).
    apply list_elem_of_filter in Hin as [Hout _]. by apply Hout. }
  destruct Halgorithm as [(_ & -> & ->)|(_ & -> & ->)].
  - split; [apply Hkept|apply not_elem_of_nil].
  - split; apply Hkept.
Qed.

(** X4.  [prepare] of a new task opens the rows-sources temporary file,
    empty, exactly when the merge is vertical or the merged part can be
    decoupled; the file is marked to be kept exactly in the decouple case;
    the merging transform is handed the buffer only in the modes
    Ordinary, Collapsing, Replacing and VersionedCollapsing; and a vertical
    merge neither deduplicates nor removes expired values. *)
Theorem prepare_opens_rows_sources env global_ctx ctx again global_ctx' ctx' :
  names_in_step (GlobalCtx.column_sets global_ctx) ->
  HorizontalCtx.rows_sources_write_buf ctx = None ->
  HorizontalCtx.rows_sources_file ctx = None ->
  prepare env global_ctx ctx = Return (again, global_ctx', ctx') ->
  let args := GlobalCtx.args global_ctx in
  let can_be_decouple := Decouple.can_be_decouple (GlobalCtx.decouple global_ctx') in
  let opened :=
    bool_decide (GlobalCtx.chosen_merge_algorithm global_ctx' = MergeAlgorithm.Vertical)
    || can_be_decouple in
  (if opened
   then HorizontalCtx.rows_sources_write_buf ctx' = Some []
        /\ HorizontalCtx.rows_sources_file ctx'
           = Some {| TemporaryFile.path := rows_sources_file_path;
                     TemporaryFile.kept := can_be_decouple |}
        /\ GlobalCtx.tmp_disk global_ctx' !! rows_sources_file_path = Some []
   else HorizontalCtx.rows_sources_write_buf ctx' = None
        /\ HorizontalCtx.rows_sources_file ctx' = None
        /\ GlobalCtx.tmp_disk global_ctx' = GlobalCtx.tmp_disk global_ctx)
  /\ GlobalCtx.merging_executor global_ctx'
     = Some {| MergingExecutor.remaining :=
                 World.merged_pipeline (GlobalCtx.world global_ctx);
               MergingExecutor.rows_sources_out :=
                 takes_rows_sources_buf
                   (MergingParams.mode (MergeTaskArgs.merging_params args))
                 && opened |}
  /\ (GlobalCtx.chosen_merge_algorithm global_ctx' = MergeAlgorithm.Vertical ->
      MergeTaskArgs.deduplicate args = false
      /\ HorizontalCtx.need_remove_expired_values ctx' = false).
Proof.
  intros Hstep Hbuf Hfile Hprepare. cbv zeta.
  apply prepare_phases in Hprepare
    as (_ & _ & _ & g1 & part1 & c1 & g2 & c2 & d & g3 & c3
        & Hphase1 & Hphase2 & Hdecouple & Hphase3 & Hphase4).
  assert (Hargs1 : GlobalCtx.args g1 = GlobalCtx.args global_ctx).
  { by apply prepare_columns_and_ttl_fields in Hphase1 as (_ & _ & Hargs1 & _). }
  apply prepare_columns_and_ttl_columns in Hphase1
    as (Hstep1 & _ & Hnames1 & Hdisk1 & Hworld1 & Hbuf1 & Hfile1 & _); [|done].
  pose proof (prepare_algorithm_fields _ _ _ _ Hphase2) as (_ & _ & Hargs2 & Hneed2).
  apply prepare_algorithm_columns in Hphase2
    as (_ & _ & Hworld2 & Halgorithm); [|done..].
  pose proof (prepare_row_ids_maps_fields _ _ _ _ _ Hphase3)
    as (Hcan3 & _ & _ & Hargs3 & Hneed3).
  pose proof (prepare_stream_fields _ _ _ _ _ Hphase4)
    as (Hdecouple4 & _ & _ & Hneed4 & _).
  apply prepare_stream_columns in Hphase4
    as (Hchosen4 & Hdisk4 & _ & _ & Hbuf4 & Hfile4 & _ & Hexecutor & _).
  rewrite Hdecouple4, Hcan3, Hchosen4, Hexecutor, Hbuf4, Hfile4, Hdisk4, Hneed4, Hneed3.
  simpl in Hargs3. simpl.
  assert (Hmode : GlobalCtx.args g3 = GlobalCtx.args global_ctx) by congruence.
  assert (Hworld : GlobalCtx.world g3 = GlobalCtx.world global_ctx).
  { apply prepare_row_ids_maps_buffers in Hphase3 as (_ & _ & Hworld3 & _).
    - simpl in Hworld3. congruence.
    - destruct Halgorithm as [(_ & _ & _ & _ & -> & _)|(_ & _ & _ & _ & Hdisk & -> & ->)].
      + left. congruence.
      + right. split; [done|]. split; [done|]. simpl.
        by rewrite Hdisk, lookup_insert_eq. }
  rewrite Hmode, Hworld.
  destruct Halgorithm
    as [(Hchosen & _ & _ & Hdisk2 & Hbuf2 & Hfile2)
       |(Hchosen & _ & Hdedup & Hneed & Hdisk2 & Hbuf2 & Hfile2)].
  - apply prepare_row_ids_maps_buffers in Hphase3
      as (_ & Hchosen3 & _ & _ & Hbuffers); [|left; congruence].
    simpl in Hchosen3, Hbuffers. rewrite Hchosen3, Hchosen. simpl.
    destruct (Decouple.can_be_decouple d).
    + destruct Hbuffers as (-> & -> & -> & _). simpl.
      split; [done|]. split; [done|]. done.
    + destruct Hbuffers as [-> ->]. simpl. rewrite Hbuf2, Hfile2, Hbuf1, Hfile1, Hbuf, Hfile.
      simpl. split; [|done]. split; [done|]. split; [done|]. congruence.
  - apply prepare_row_ids_maps_buffers in Hphase3
      as (_ & Hchosen3 & _ & _ & Hbuffers).
    2: { right. split; [done|]. split; [done|]. simpl.
         by rewrite Hdisk2, lookup_insert_eq. }
    simpl in Hchosen3, Hbuffers. rewrite Hchosen3, Hchosen. simpl.
    rewrite Hargs1 in Hdedup.
    destruct (Decouple.can_be_decouple d).
    + destruct Hbuffers as (-> & -> & -> & _). simpl.
      split; [done|]. split; [done|]. intros _. split; [done|]. congruence.
    + destruct Hbuffers as [-> ->]. simpl. rewrite Hbuf2, Hfile2, Hdisk2. simpl.
      rewrite lookup_insert_eq.
      split; [done|]. split; [done|]. intros _. split; [done|]. congruence.
Qed.
End PrepareResults.
(** ** The block loop of the horizontal stage *)

Section ExecuteImplLoop.
Context `{Engine}.

(** [executeImpl] called again as long as it asks for it, as the
    horizontal stage does, at most [fuel] times. *)
Fixpoint executeImpl_loop (env : Env.t) (fuel : nat)
    (global_ctx : GlobalCtx.t) (ctx : HorizontalCtx.t)
    : outcome (option (GlobalCtx.t * HorizontalCtx.t)) :=
  match fuel with
  | 0 => Return None
  | S fuel =>
      '(again, global_ctx, ctx) ← executeImpl env global_ctx ctx;
      if again : bool then executeImpl_loop env fuel global_ctx ctx
      else Return (Some (global_ctx, ctx))
  end.

(** A 64-bit counter after the blocks are added to it one by one. *)
Definition counted (field : Pulled.t -> N) (start : N) (blocks : list Pulled.t) : N :=
  foldl (fun acc block => UInt64.add acc (field block)) start blocks.

Definition total (field : Pulled.t -> N) (blocks : list Pulled.t) : N :=
  foldr (fun block acc => (field block + acc)%N) 0%N blocks.

Lemma counted_exact field start blocks :
  (start + total field blocks < UInt64.modulus)%N ->
  counted field start blocks = (start + total field blocks)%N.
Proof.
  revert start. induction blocks as [|block rest IH]; intros start Hrange; simpl in *.
  - by rewrite N.add_0_r.
  - unfold counted in *. simpl. unfold UInt64.add at 2, UInt64.wrap.
    rewrite N.mod_small by lia. rewrite IH by lia. lia.
Qed.

(** X5.  With no cancellation flag set, the block loop of the horizontal
    stage pulls every block of the merged pipeline, one per call of
    [executeImpl], and ends with the call after the last block: the rows
    of the blocks are added to [rows_written] (modulo 2^64), the
    rows-sources records of the blocks are appended to the rows-sources
    buffer in the order of the blocks when the merging transform has the
    buffer, and the executor is released. *)
Theorem executeImpl_drains_pipeline env global_ctx ctx executor fuel :
  GlobalCtx.merging_executor global_ctx = Some executor ->
  Env.merges_blocker env = false ->
  Env.ttl_merges_blocker env = false ->
  Env.is_cancelled env = false ->
  (MergingExecutor.rows_sources_out executor = true ->
   is_Some (HorizontalCtx.rows_sources_write_buf ctx)) ->
  length (MergingExecutor.remaining executor) < fuel ->
  let blocks := MergingExecutor.remaining executor in
  exists global_ctx' ctx',
    executeImpl_loop env fuel global_ctx ctx = Return (Some (global_ctx', ctx'))
    /\ GlobalCtx.rows_written global_ctx'
       = counted Pulled.rows (GlobalCtx.rows_written global_ctx) blocks
    /\ ((GlobalCtx.rows_written global_ctx + total Pulled.rows blocks
         < UInt64.modulus)%N ->
        GlobalCtx.rows_written global_ctx'
        = (GlobalCtx.rows_written global_ctx + total Pulled.rows blocks)%N)
    /\ MergeListElement.rows_read (GlobalCtx.merge_list_element global_ctx')
       = counted Pulled.rows_read
           (MergeListElement.rows_read (GlobalCtx.merge_list_element global_ctx)) blocks
    /\ GlobalCtx.input_rows_filtered global_ctx'
       = counted Pulled.rows_filtered (GlobalCtx.input_rows_filtered global_ctx) blocks
    /\ HorizontalCtx.rows_sources_write_buf ctx'
       = (if MergingExecutor.rows_sources_out executor
          then (fun buf => buf ++ concat (Pulled.row_sources <$> blocks))
                 <$> HorizontalCtx.rows_sources_write_buf ctx
          else HorizontalCtx.rows_sources_write_buf ctx)
    /\ GlobalCtx.merging_executor global_ctx' = None.
Proof.
  intros Hexecutor Hblocker Httl Hcancel Hbuf Hfuel. cbv zeta.
  assert (Hquiet : forall c, is_cancelled env c = false).
  { intros c. unfold is_cancelled. by rewrite Hblocker, Httl, Hcancel, andb_false_r. }
  cut (exists global_ctx' ctx',
         executeImpl_loop env fuel global_ctx ctx = Return (Some (global_ctx', ctx'))
         /\ GlobalCtx.rows_written global_ctx'
            = counted Pulled.rows (GlobalCtx.rows_written global_ctx)
                (MergingExecutor.remaining executor)
         /\ MergeListElement.rows_read (GlobalCtx.merge_list_element global_ctx')
            = counted Pulled.rows_read
                (MergeListElement.rows_read (GlobalCtx.merge_list_element global_ctx))
                (MergingExecutor.remaining executor)
         /\ GlobalCtx.input_rows_filtered global_ctx'
            = counted Pulled.rows_filtered (GlobalCtx.input_rows_filtered global_ctx)
                (MergingExecutor.remaining executor)
         /\ HorizontalCtx.rows_sources_write_buf ctx'
            = (if MergingExecutor.rows_sources_out executor
               then (fun buf =>
                       buf ++ concat (Pulled.row_sources
                                        <$> MergingExecutor.remaining executor))
                      <$> HorizontalCtx.rows_sources_write_buf ctx
               else HorizontalCtx.rows_sources_write_buf ctx)
         /\ GlobalCtx.merging_executor global_ctx' = None).
  { intros (g & c & Hloop & Hrows & Hrest). exists g, c.
    split; [done|]. split; [done|]. split; [|done].
    intros Hrange. rewrite Hrows. by apply counted_exact. }
  destruct executor as [blocks out]. simpl in *.
  revert fuel global_ctx ctx Hexecutor Hbuf Hfuel.
  induction blocks as [|block rest IH]; intros fuel global_ctx ctx Hexecutor Hbuf Hfuel;
    (destruct fuel as [|fuel]; [simpl in Hfuel; lia|]).
  - simpl. unfold executeImpl. rewrite Hquiet, Hexecutor. simpl.
    rewrite Hblocker, Hcancel, Httl, andb_false_r. simpl.
    eexists _, _. split; [done|]. simpl. repeat (split; [done|]).
    split; [|done]. destruct out; [|done].
    destruct (HorizontalCtx.rows_sources_write_buf ctx); simpl; [|done].
    by rewrite app_nil_r.
  - simpl executeImpl_loop. unfold executeImpl at 1. rewrite Hquiet, Hexecutor. simpl.
    destruct out.
    + destruct (Hbuf eq_refl) as [buf Hsome]. rewrite Hsome. simpl.
      match goal with
      | |- context [executeImpl_loop env fuel ?g ?c] =>
          destruct (IH fuel g c)
            as (g' & c' & Hloop & Hrows & Hread & Hfiltered & Hsources & Hnone);
          [reflexivity|intros _; simpl; by eexists|simpl in Hfuel; lia|]
      end.
      rewrite Hloop. exists g', c'. split; [done|]. simpl in *.
      split; [done|]. split; [done|]. split; [done|]. split; [|done].
      by rewrite Hsources, <- app_assoc.
    + simpl.
      match goal with
      | |- context [executeImpl_loop env fuel ?g ?c] =>
          destruct (IH fuel g c)
            as (g' & c' & Hloop & Hrows & Hread & Hfiltered & Hsources & Hnone);
          [reflexivity|done|simpl in Hfuel; lia|]
      end.
      rewrite Hloop. exists g', c'. split; [done|]. simpl in *. done.
Qed.
End ExecuteImplLoop.
(** ** The column cycle of the vertical stage *)

Section VerticalCycle.
Context `{Engine}.

Lemma prepareVerticalMergeForOneColumn_spec global_ctx ctx global_ctx' ctx' :
  prepareVerticalMergeForOneColumn global_ctx ctx = Return (global_ctx', ctx') ->
  exists column,
    ColumnSets.gathering_columns (GlobalCtx.column_sets global_ctx)
      !! VerticalCtx.it_name_and_type ctx = Some column
    /\ global_ctx' = global_ctx
    /\ ctx' = VerticalCtx.with_column_elems_written 0%N
               (VerticalCtx.with_column_to (Some (NameAndTypePair.name column))
                  (VerticalCtx.with_executor
                     (Some (World.column_pipeline (GlobalCtx.world global_ctx)
                              (NameAndTypePair.name column))) ctx)).
Proof.
  unfold prepareVerticalMergeForOneColumn. intros Hprepare.
  bind_inv Hprepare column Hcolumn. apply at_index_Return in Hcolumn.
  bind_inv Hprepare read_buf Hread. injection Hprepare as <- <-. by exists column.
Qed.

Lemma executeVerticalMergeForOneColumn_spec env global_ctx ctx again global_ctx' ctx' :
  executeVerticalMergeForOneColumn env global_ctx ctx
  = Return (again, global_ctx', ctx') ->
  global_ctx' = global_ctx
  /\ VerticalCtx.column_num_for_vertical_merge ctx'
     = VerticalCtx.column_num_for_vertical_merge ctx
  /\ VerticalCtx.it_name_and_type ctx' = VerticalCtx.it_name_and_type ctx
  /\ VerticalCtx.vertical_merge_one_column_state ctx'
     = VerticalCtx.vertical_merge_one_column_state ctx
  /\ VerticalCtx.delayed_streams ctx' = VerticalCtx.delayed_streams ctx.
Proof.
  unfold executeVerticalMergeForOneColumn.
  destruct (negb _ && negb _); [|by intros [= <- <- <-]].
  intros Hexecute. bind_inv Hexecute executor Hexecutor.
  destruct executor; by injection Hexecute as <- <- <-.
Qed.

Lemma finalizeVerticalMergeForOneColumn_spec env global_ctx ctx global_ctx' ctx' :
  finalizeVerticalMergeForOneColumn env global_ctx ctx = Return (global_ctx', ctx') ->
  exists column_to,
    VerticalCtx.column_to ctx = Some column_to
    /\ Env.merges_blocker env || Env.is_cancelled env = false
    /\ GlobalCtx.rows_written global_ctx = VerticalCtx.column_elems_written ctx
    /\ global_ctx'
       = GlobalCtx.with_merge_list_element
           (MergeListElement.with_columns_written
              (MergeListElement.columns_written
                 (GlobalCtx.merge_list_element global_ctx) + 1)
              (GlobalCtx.merge_list_element global_ctx)) global_ctx
    /\ VerticalCtx.column_num_for_vertical_merge ctx'
       = VerticalCtx.column_num_for_vertical_merge ctx + 1
    /\ VerticalCtx.it_name_and_type ctx' = VerticalCtx.it_name_and_type ctx + 1
    /\ VerticalCtx.vertical_merge_one_column_state ctx'
       = VerticalCtx.vertical_merge_one_column_state ctx
    /\ VerticalCtx.delayed_streams ctx'
       = drop (length (VerticalCtx.delayed_streams ctx ++ [column_to])
               - VerticalCtx.max_delayed_streams ctx)
              (VerticalCtx.delayed_streams ctx ++ [column_to])
    /\ VerticalCtx.max_delayed_streams ctx' = VerticalCtx.max_delayed_streams ctx
    /\ VerticalCtx.column_to ctx' = None
    /\ VerticalCtx.executor ctx' = None.
Proof.
  unfold finalizeVerticalMergeForOneColumn. intros Hfinal.
  bind_inv Hfinal column Hcolumn.
  destruct (Env.merges_blocker env || Env.is_cancelled env); [done|].
  bind_inv Hfinal column_to Hto. simpl in Hfinal.
  unfold deref in Hto. simpl in Hto.
  destruct (VerticalCtx.column_to ctx) as [name|] eqn:Hname; [|done].
  injection Hto as ->.
  destruct (N.eqb_spec (GlobalCtx.rows_written global_ctx)
                       (VerticalCtx.column_elems_written ctx)) as [Heq|Hne];
    simpl in Hfinal; [|done].
  injection Hfinal as <- <-. by exists column_to.
Qed.

(** X6.  The external cycle of the vertical stage: a call of
    [executeVerticalMergeForAllColumns] that returns asks to be called
    again unless the merge is not vertical or every gathering column is
    done, and then it has changed nothing; a call moves the cycle by at
    most one column, and only out of the state [NEED_FINISH], for a
    column with as many elements as rows were written, back to
    [NEED_PREPARE]; the column iterator and the column counter move
    together. *)
Theorem vertical_cycle_goes_column_by_column env global_ctx ctx again global_ctx' ctx' :
  executeVerticalMergeForAllColumns env global_ctx ctx
  = Return (again, global_ctx', ctx') ->
  let column_num := VerticalCtx.column_num_for_vertical_merge in
  (again = false
   <-> GlobalCtx.chosen_merge_algorithm global_ctx <> MergeAlgorithm.Vertical
       \/ GlobalCtx.gathering_column_names_size global_ctx <= column_num ctx)
  /\ (again = false -> global_ctx' = global_ctx /\ ctx' = ctx)
  /\ (column_num ctx' = column_num ctx
      /\ VerticalCtx.it_name_and_type ctx' = VerticalCtx.it_name_and_type ctx
      \/ column_num ctx' = column_num ctx + 1
         /\ VerticalCtx.it_name_and_type ctx' = VerticalCtx.it_name_and_type ctx + 1
         /\ VerticalCtx.vertical_merge_one_column_state ctx = OneColumnState.NEED_FINISH
         /\ VerticalCtx.vertical_merge_one_column_state ctx' = OneColumnState.NEED_PREPARE
         /\ VerticalCtx.column_elems_written ctx = GlobalCtx.rows_written global_ctx)
  /\ GlobalCtx.gathering_column_names_size global_ctx'
     = GlobalCtx.gathering_column_names_size global_ctx
  /\ GlobalCtx.chosen_merge_algorithm global_ctx'
     = GlobalCtx.chosen_merge_algorithm global_ctx
  /\ GlobalCtx.rows_written global_ctx' = GlobalCtx.rows_written global_ctx.
Proof.
  unfold executeVerticalMergeForAllColumns. cbv zeta.
  case_bool_decide as Hvertical; simpl.
  2: { intros [= <- <- <-]. split; [split; [by left|done]|].
       split; [done|]. split; [by left|]. done. }
  destruct (Nat.leb_spec (GlobalCtx.gathering_column_names_size global_ctx)
                         (VerticalCtx.column_num_for_vertical_merge ctx)) as [Hdone|Hmore].
  { intros [= <- <- <-]. split; [split; [by right|done]|].
    split; [done|]. split; [by left|]. done. }
  assert (Hagain : true = false
                   <-> GlobalCtx.chosen_merge_algorithm global_ctx
                       <> MergeAlgorithm.Vertical
                       \/ GlobalCtx.gathering_column_names_size global_ctx
                          <= VerticalCtx.column_num_for_vertical_merge ctx).
  { split; [done|]. intros [Hother|Hdone]; [done|lia]. }
  destruct (VerticalCtx.vertical_merge_one_column_state ctx) eqn:Hstate;
    intros Hexecute.
  - bind_inv Hexecute prepared Hprepare. destruct prepared as [g c].
    injection Hexecute as <- <- <-.
    apply prepareVerticalMergeForOneColumn_spec in Hprepare as (column & _ & -> & ->).
    split; [done|]. split; [done|]. split; [by left|]. done.
  - bind_inv Hexecute executed Hone. destruct executed as [[more g] c].
    apply executeVerticalMergeForOneColumn_spec in Hone as (-> & Hnum & Hit & _).
    destruct more; injection Hexecute as <- <- <-; simpl.
    + split; [done|]. split; [done|]. split; [by left|]. done.
    + split; [done|]. split; [done|]. split; [by left|]. done.
  - bind_inv Hexecute finalized Hfinal. destruct finalized as [g c].
    injection Hexecute as <- <- <-.
    apply finalizeVerticalMergeForOneColumn_spec in Hfinal
      as (column_to & _ & _ & Hrows & -> & Hnum & Hit & _).
    split; [done|]. split; [done|]. split; [right|done]. simpl. done.
Qed.

(** [executeVerticalMergeForAllColumns] called [n] times, as long as it
    asks to be called again. *)
Fixpoint gather_steps (env : Env.t) (n : nat)
    (global_ctx : GlobalCtx.t) (ctx : VerticalCtx.t)
    : outcome (bool * GlobalCtx.t * VerticalCtx.t) :=
  match n with
  | 0 => Return (true, global_ctx, ctx)
  | S n =>
      '(again, global_ctx, ctx) ← executeVerticalMergeForAllColumns env global_ctx ctx;
      if again : bool then gather_steps env n global_ctx ctx
      else Return (false, global_ctx, ctx)
  end.

(** The elements written for a column whose pipeline delivers blocks of
    these sizes. *)
Definition elements_written (start : N) (blocks : list N) : N :=
  foldl UInt64.add start blocks.

(** The pulls of one column: one call for each block, and the call that
    finds the pipeline empty. *)
Lemma gather_steps_pull env n global_ctx ctx blocks :
  GlobalCtx.chosen_merge_algorithm global_ctx = MergeAlgorithm.Vertical ->
  VerticalCtx.column_num_for_vertical_merge ctx
  < GlobalCtx.gathering_column_names_size global_ctx ->
  Env.merges_blocker env = false ->
  Env.is_cancelled env = false ->
  VerticalCtx.vertical_merge_one_column_state ctx = OneColumnState.NEED_EXECUTE ->
  VerticalCtx.executor ctx = Some blocks ->
  gather_steps env (length blocks + 1 + n) global_ctx ctx
  = gather_steps env n global_ctx
      (VerticalCtx.with_vertical_merge_one_column_state OneColumnState.NEED_FINISH
         (VerticalCtx.with_column_elems_written
            (elements_written (VerticalCtx.column_elems_written ctx) blocks)
            (VerticalCtx.with_executor (Some []) ctx))).
Proof.
  intros Hvertical Hmore Hblocker Hcancel.
  revert ctx Hmore. induction blocks as [|block rest IH]; intros ctx Hmore Hstate Hexecutor.
  - simpl. unfold executeVerticalMergeForAllColumns.
    rewrite Hvertical, bool_decide_true by done. simpl.
    destruct (Nat.leb_spec (GlobalCtx.gathering_column_names_size global_ctx)
                           (VerticalCtx.column_num_for_vertical_merge ctx)); [lia|].
    rewrite Hstate. unfold executeVerticalMergeForOneColumn.
    rewrite Hblocker, Hcancel, Hexecutor. simpl.
    f_equal. destruct ctx. simpl in *. by subst.
  - simpl. unfold executeVerticalMergeForAllColumns at 1.
    rewrite Hvertical, bool_decide_true by done. simpl.
    destruct (Nat.leb_spec (GlobalCtx.gathering_column_names_size global_ctx)
                           (VerticalCtx.column_num_for_vertical_merge ctx)); [lia|].
    rewrite Hstate. unfold executeVerticalMergeForOneColumn.
    rewrite Hblocker, Hcancel, Hexecutor. simpl.
    rewrite IH by done. f_equal.
Qed.

(** X7.  Gathering one column, with no cancellation: the cycle prepares
    the column, pulls every block of its pipeline and finalizes it, in
    as many calls as there are blocks plus three, each asking to be
    called again.  When the elements of the blocks add up to
    [rows_written], the cycle is back in [NEED_PREPARE] at the next
    column, with one more column written; otherwise the finalization
    raises LogicalError with the two counts. *)
Theorem gathering_a_column env global_ctx ctx column :
  GlobalCtx.chosen_merge_algorithm global_ctx = MergeAlgorithm.Vertical ->
  VerticalCtx.column_num_for_vertical_merge ctx
  < GlobalCtx.gathering_column_names_size global_ctx ->
  Env.merges_blocker env = false ->
  Env.is_cancelled env = false ->
  VerticalCtx.vertical_merge_one_column_state ctx = OneColumnState.NEED_PREPARE ->
  ColumnSets.gathering_columns (GlobalCtx.column_sets global_ctx)
    !! VerticalCtx.it_name_and_type ctx = Some column ->
  is_Some (VerticalCtx.rows_sources_read_buf ctx) ->
  let column_name := NameAndTypePair.name column in
  let blocks := World.column_pipeline (GlobalCtx.world global_ctx) column_name in
  let elements := elements_written 0 blocks in
  (elements = GlobalCtx.rows_written global_ctx ->
   exists global_ctx' ctx',
     gather_steps env (length blocks + 3) global_ctx ctx
     = Return (true, global_ctx', ctx')
     /\ VerticalCtx.vertical_merge_one_column_state ctx' = OneColumnState.NEED_PREPARE
     /\ VerticalCtx.column_num_for_vertical_merge ctx'
        = VerticalCtx.column_num_for_vertical_merge ctx + 1
     /\ VerticalCtx.it_name_and_type ctx' = VerticalCtx.it_name_and_type ctx + 1
     /\ VerticalCtx.column_elems_written ctx' = GlobalCtx.rows_written global_ctx
     /\ MergeListElement.columns_written (GlobalCtx.merge_list_element global_ctx')
        = MergeListElement.columns_written (GlobalCtx.merge_list_element global_ctx) + 1
     /\ GlobalCtx.rows_written global_ctx' = GlobalCtx.rows_written global_ctx)
  /\ (elements <> GlobalCtx.rows_written global_ctx ->
      gather_steps env (length blocks + 3) global_ctx ctx
      = Throw LOGICAL_ERROR
          (column_count_mismatch_message elements column_name
             (GlobalCtx.rows_written global_ctx))).
Proof.
  intros Hvertical Hmore Hblocker Hcancel Hstate Hcolumn [read_buf Hread]. cbv zeta.
  set (blocks := World.column_pipeline (GlobalCtx.world global_ctx)
                   (NameAndTypePair.name column)).
  assert (Hsteps :
            gather_steps env (length blocks + 3) global_ctx ctx
            = gather_steps env 1 global_ctx
                (VerticalCtx.with_vertical_merge_one_column_state
                   OneColumnState.NEED_FINISH
                   (VerticalCtx.with_column_elems_written
                      (elements_written 0 blocks)
                      (VerticalCtx.with_executor (Some [])
                         (VerticalCtx.with_vertical_merge_one_column_state
                            OneColumnState.NEED_EXECUTE
                            (VerticalCtx.with_column_elems_written 0%N
                               (VerticalCtx.with_column_to
                                  (Some (NameAndTypePair.name column))
                                  (VerticalCtx.with_executor (Some blocks) ctx)))))))).
  { replace (length blocks + 3) with (S (length blocks + 1 + 1)) by lia.
    cbn [gather_steps]. unfold executeVerticalMergeForAllColumns at 1.
    rewrite Hvertical, bool_decide_true by done. simpl negb. cbv iota.
    destruct (Nat.leb_spec (GlobalCtx.gathering_column_names_size global_ctx)
                           (VerticalCtx.column_num_for_vertical_merge ctx)); [lia|].
    rewrite Hstate. unfold prepareVerticalMergeForOneColumn.
    rewrite (at_index_Some _ _ _ Hcolumn), Hread. simpl mbind. cbv iota beta.
    fold blocks. by rewrite (gather_steps_pull env 1 global_ctx _ blocks). }
  rewrite Hsteps. cbn [gather_steps]. unfold executeVerticalMergeForAllColumns.
  rewrite Hvertical, bool_decide_true by done. simpl negb. cbv iota.
  simpl VerticalCtx.column_num_for_vertical_merge.
  destruct (Nat.leb_spec (GlobalCtx.gathering_column_names_size global_ctx)
                         (VerticalCtx.column_num_for_vertical_merge ctx)); [lia|].
  simpl VerticalCtx.vertical_merge_one_column_state. cbv iota.
  unfold finalizeVerticalMergeForOneColumn.
  simpl VerticalCtx.it_name_and_type.
  rewrite (at_index_Some _ _ _ Hcolumn). simpl mbind. cbv beta.
  rewrite Hblocker, Hcancel. simpl orb. cbv iota. simpl.
  destruct (N.eqb_spec (GlobalCtx.rows_written global_ctx)
                       (elements_written 0 blocks)) as [Heq|Hne]; simpl.
  - split; [|by intros Hne]. intros _. eexists _, _. split; [reflexivity|]. simpl.
    done.
  - split; [by intros Heq|]. done.
Qed.

(** X8.  Finalizing a column hands its output stream to the delayed
    streams and finishes the oldest ones until at most
    [max_delayed_streams] are left: the streams kept are the most recent
    ones, in order, and none is kept when the limit is zero. *)
Theorem delayed_streams_are_bounded env global_ctx ctx global_ctx' ctx' :
  finalizeVerticalMergeForOneColumn env global_ctx ctx = Return (global_ctx', ctx') ->
  exists column_to,
    VerticalCtx.column_to ctx = Some column_to
    /\ let streams := VerticalCtx.delayed_streams ctx ++ [column_to] in
       VerticalCtx.delayed_streams ctx' `suffix_of` streams
       /\ length (VerticalCtx.delayed_streams ctx')
          = length streams `min` VerticalCtx.max_delayed_streams ctx
       /\ (length (VerticalCtx.delayed_streams ctx) < VerticalCtx.max_delayed_streams ctx ->
           VerticalCtx.delayed_streams ctx' = streams)
       /\ (VerticalCtx.max_delayed_streams ctx = 0 ->
           VerticalCtx.delayed_streams ctx' = []).
Proof.
  intros Hfinal.
  apply finalizeVerticalMergeForOneColumn_spec in Hfinal
    as (column_to & Hto & _ & _ & _ & _ & _ & _ & Hstreams & _).
  exists column_to. split; [done|]. cbv zeta. rewrite Hstreams.
  set (streams := VerticalCtx.delayed_streams ctx ++ [column_to]).
  split; [apply suffix_drop|]. split; [rewrite length_drop; lia|]. split.
  - intros Hroom. replace (length streams - _) with 0; [done|].
    unfold streams. rewrite length_app. simpl. lia.
  - intros ->. rewrite Nat.sub_0_r. apply drop_all.
Qed.
End VerticalCycle.
(** ** The inverted map and the rows-sources stream *)

(** The records of the stream that give a row of the new part. *)
Definition kept_records (collapsing : bool) (rows_sources : list RowSourcePart.t)
    : list RowSourcePart.t :=
  if collapsing
  then filter (fun row_source => RowSourcePart.getSkipFlag row_source = false) rows_sources
  else rows_sources.

(** The number of records that name the source part [source_num]. *)
Definition records_from (source_num : nat) (rows_sources : list RowSourcePart.t) : nat :=
  length (filter (fun row_source => RowSourcePart.getSourceNum row_source = source_num)
                 rows_sources).

Lemma kept_records_app collapsing l1 l2 :
  kept_records collapsing (l1 ++ l2)
  = kept_records collapsing l1 ++ kept_records collapsing l2.
Proof. unfold kept_records. destruct collapsing; [apply filter_app|done]. Qed.

Lemma records_from_snoc source_num l row_source :
  records_from source_num (l ++ [row_source])
  = records_from source_num l
    + (if decide (RowSourcePart.getSourceNum row_source = source_num) then 1 else 0).
Proof.
  unfold records_from. rewrite filter_app, length_app, filter_cons, filter_nil.
  by destruct (decide _).
Qed.

Lemma records_from_le source_num l : records_from source_num l <= length l.
Proof. apply length_filter. Qed.

Section InvertedMap.
Context `{Engine}.

(** What the replay has done once the records [processed] are read. *)
Definition replay_follows (collapsing : bool) (part_offsets : list (list N))
    (processed : list RowSourcePart.t) (st : Replay) : Prop :=
  length (source_row_ids st) = length part_offsets
  /\ length (parts_new_row_ids st) = length part_offsets
  /\ (forall source_num,
        source_num < length part_offsets ->
        source_row_ids st !! source_num
        = Some (N.of_nat (records_from source_num processed)))
  /\ length (inverted_row_ids_map_buf st) = length (kept_records collapsing processed)
  /\ forall p row_source,
       processed !! p = Some row_source ->
       (collapsing = true -> RowSourcePart.getSkipFlag row_source = false) ->
       exists offsets offset,
         part_offsets !! RowSourcePart.getSourceNum row_source = Some offsets
         /\ inverted_row_ids_map_buf st
              !! length (kept_records collapsing (take p processed)) = Some offset
         /\ offsets !! records_from (RowSourcePart.getSourceNum row_source)
                                    (take p processed) = Some offset.

Lemma advance_source_follows st source_num st' :
  advance_source st source_num = Return st' ->
  exists cursor,
    source_row_ids st !! source_num = Some cursor
    /\ source_row_ids st' = <[ source_num := UInt64.incr cursor ]> (source_row_ids st)
    /\ parts_new_row_ids st' = parts_new_row_ids st
    /\ inverted_row_ids_map_buf st' = inverted_row_ids_map_buf st.
Proof.
  unfold advance_source. intros Hadvance. bind_inv Hadvance cursor Hcursor.
  apply at_index_Return in Hcursor. injection Hadvance as <-. by exists cursor.
Qed.

Lemma record_new_row_id_follows part_offsets st source_num st' :
  record_new_row_id part_offsets st source_num = Return st' ->
  exists offsets cursor offset,
    part_offsets !! source_num = Some offsets
    /\ source_row_ids st !! source_num = Some cursor
    /\ offsets !! N.to_nat cursor = Some offset
    /\ source_row_ids st' = source_row_ids st
    /\ length (parts_new_row_ids st') = length (parts_new_row_ids st)
    /\ inverted_row_ids_map_buf st' = inverted_row_ids_map_buf st ++ [offset].
Proof.
  unfold record_new_row_id. intros Hrecord.
  bind_inv Hrecord offsets Hoffsets. bind_inv Hrecord cursor Hcursor.
  bind_inv Hrecord offset Hoffset. bind_inv Hrecord ids Hids.
  apply at_index_Return in Hoffsets, Hcursor, Hoffset.
  injection Hrecord as <-. exists offsets, cursor, offset. simpl.
  by rewrite length_insert.
Qed.

Lemma replay_record_follows (collapsing : bool) part_offsets processed st row_source st' :
  (N.of_nat (length processed) + 1 < UInt64.modulus)%N ->
  replay_follows collapsing part_offsets processed st ->
  (if collapsing then replay_record_collapsing part_offsets
   else replay_record_plain part_offsets) st row_source = Return st' ->
  replay_follows collapsing part_offsets (processed ++ [row_source]) st'.
Proof.
  intros Hrange (Hcursors & Hids & Hcount & Hlen & Hentries) Hstep.
  set (source_num := RowSourcePart.getSourceNum row_source).
  (* the record is written to the inverted map, or skipped *)
  assert (Hwritten :
            exists st1,
              advance_source st1 source_num = Return st'
              /\ source_row_ids st1 = source_row_ids st
              /\ length (parts_new_row_ids st1) = length (parts_new_row_ids st)
              /\ (collapsing = true /\ RowSourcePart.getSkipFlag row_source = true
                  /\ inverted_row_ids_map_buf st1 = inverted_row_ids_map_buf st
                  \/ (collapsing = true -> RowSourcePart.getSkipFlag row_source = false)
                     /\ exists offsets offset,
                          part_offsets !! source_num = Some offsets
                          /\ offsets !! records_from source_num processed = Some offset
                          /\ inverted_row_ids_map_buf st1
                             = inverted_row_ids_map_buf st ++ [offset])).
  { assert (Hrecorded :
              forall st1,
                record_new_row_id part_offsets st source_num = Return st1 ->
                source_row_ids st1 = source_row_ids st
                /\ length (parts_new_row_ids st1) = length (parts_new_row_ids st)
                /\ exists offsets offset,
                     part_offsets !! source_num = Some offsets
                     /\ offsets !! records_from source_num processed = Some offset
                     /\ inverted_row_ids_map_buf st1
                        = inverted_row_ids_map_buf st ++ [offset]).
    { intros st1 Hrecord.
      apply record_new_row_id_follows in Hrecord
        as (offsets & cursor & offset & Hoffsets & Hcursor & Hoffset & Hsame & Hidlen
            & Hinverted).
      split; [done|]. split; [done|]. exists offsets, offset.
      split; [done|]. split; [|done].
      rewrite Hcount in Hcursor by by eapply lookup_lt_Some.
      injection Hcursor as <-. by rewrite Nat2N.id in Hoffset. }
    destruct collapsing; unfold replay_record_collapsing, replay_record_plain in Hstep;
      bind_inv Hstep st1 Hrecord; fold source_num in Hrecord, Hstep.
    - destruct (RowSourcePart.getSkipFlag row_source) eqn:Hskip; simpl in Hrecord.
      + injection Hrecord as <-. exists st. split; [done|]. split; [done|].
        split; [done|]. by left.
      + exists st1. split; [done|].
        destruct (Hrecorded st1 Hrecord) as (Hsame & Hidlen & Hoffset).
        split; [done|]. split; [done|]. by right.
    - exists st1. split; [done|].
      destruct (Hrecorded st1 Hrecord) as (Hsame & Hidlen & Hoffset).
      split; [done|]. split; [done|]. right. split; [done|]. done. }
  destruct Hwritten as (st1 & Hadvance & Hsame & Hidlen & Hinverted).
  apply advance_source_follows in Hadvance
    as (cursor & Hcursor & Hcursors' & Hids' & Hinverted').
  rewrite Hsame in Hcursor, Hcursors'.
  assert (Hsource : source_num < length part_offsets).
  { rewrite <- Hcursors. by eapply lookup_lt_Some. }
  rewrite Hcount in Hcursor by done. injection Hcursor as <-.
  pose proof (records_from_le source_num processed) as Hle.
  unfold replay_follows. rewrite Hcursors', Hids', Hinverted', length_insert.
  split; [done|]. split; [congruence|]. split.
  { intros s Hs. rewrite records_from_snoc. fold source_num.
    destruct (decide (source_num = s)) as [<-|Hother].
    - rewrite list_lookup_insert_eq by lia. f_equal.
      unfold UInt64.incr, UInt64.add, UInt64.wrap. rewrite N.mod_small by lia. lia.
    - rewrite list_lookup_insert_ne by done. rewrite Hcount by done.
      f_equal. lia. }
  rewrite kept_records_app.
  assert (Hold :
            forall inverted1,
              (exists added, inverted1 = inverted_row_ids_map_buf st ++ added) ->
              forall p row_source0,
                processed !! p = Some row_source0 ->
                (collapsing = true -> RowSourcePart.getSkipFlag row_source0 = false) ->
                exists offsets offset,
                  part_offsets !! RowSourcePart.getSourceNum row_source0 = Some offsets
                  /\ inverted1
                       !! length (kept_records collapsing
                                    (take p (processed ++ [row_source]))) = Some offset
                  /\ offsets
                       !! records_from (RowSourcePart.getSourceNum row_source0)
                                       (take p (processed ++ [row_source]))
                     = Some offset).
  { intros inverted1 [added ->] p row_source0 Hp Hkept.
    destruct (Hentries p row_source0 Hp Hkept) as (offsets & offset & Ho & Hi & Hc).
    exists offsets, offset. rewrite take_app_le by (apply lookup_lt_Some in Hp; lia).
    split; [done|]. split; [|done]. rewrite lookup_app_l; [done|].
    by eapply lookup_lt_Some. }
  assert (Hposition :
            forall p row_source0,
              (processed ++ [row_source]) !! p = Some row_source0 ->
              processed !! p = Some row_source0
              \/ p = length processed /\ row_source0 = row_source).
  { intros p row_source0 Hp. apply lookup_app_Some in Hp as [Hp|[Hge Hp]]; [by left|].
    right. apply list_lookup_singleton_Some in Hp as [Hzero ->]. split; [lia|done]. }
  destruct Hinverted as [(-> & Hskip & ->)|(Hkept & offsets & offset & Ho & Hc & ->)].
  - split.
    { unfold kept_records in *. rewrite filter_cons_False by (rewrite Hskip; done).
      rewrite filter_nil, length_app. simpl. lia. }
    intros p row_source0 Hp Hkept0.
    destruct (Hposition p row_source0 Hp) as [Hin|[-> ->]].
    + apply (Hold _ (ex_intro _ [] (eq_sym (app_nil_r _))) p row_source0 Hin Hkept0).
    + specialize (Hkept0 eq_refl). congruence.
  - split.
    { rewrite !length_app. f_equal; [done|].
      unfold kept_records. destruct collapsing; [|done].
      by rewrite filter_cons_True by (by apply Hkept). }
    intros p row_source0 Hp Hkept0.
    destruct (Hposition p row_source0 Hp) as [Hin|[-> ->]].
    + apply (Hold _ (ex_intro _ [offset] eq_refl) p row_source0 Hin Hkept0).
    + exists offsets, offset. rewrite take_app_length.
      split; [done|]. split; [|done].
      rewrite <- Hlen. by rewrite list_lookup_middle.
Qed.

Lemma replay_follows_fold (collapsing : bool) part_offsets rows_sources processed st st' :
  (N.of_nat (length processed + length rows_sources) < UInt64.modulus)%N ->
  replay_follows collapsing part_offsets processed st ->
  fold_outcome
    (if collapsing then replay_record_collapsing part_offsets
     else replay_record_plain part_offsets) rows_sources st = Return st' ->
  replay_follows collapsing part_offsets (processed ++ rows_sources) st'.
Proof.
  revert processed st.
  induction rows_sources as [|row_source rest IH]; intros processed st Hrange Hst Hfold;
    simpl in Hfold.
  - injection Hfold as <-. by rewrite app_nil_r.
  - bind_inv Hfold st1 Hstep. simpl in Hrange.
    apply (replay_record_follows collapsing _ processed) in Hstep; [|lia|done].
    replace (processed ++ row_source :: rest)
      with ((processed ++ [row_source]) ++ rest) by by rewrite <- app_assoc.
    apply (IH _ st1); [|done|done]. rewrite length_app. simpl. lia.
Qed.

Lemma replayed_follows mode parts rows_sources st :
  (N.of_nat (length rows_sources) < UInt64.modulus)%N ->
  replayed mode parts rows_sources = Return st ->
  replay_follows (is_collapsing_mode mode) (read_part_offsets <$> parts) rows_sources st.
Proof.
  intros Hrange Hreplay. unfold replayed in Hreplay.
  apply (replay_follows_fold (is_collapsing_mode mode) (read_part_offsets <$> parts)
           rows_sources [] (replay_start (length parts))).
  - done.
  - unfold replay_follows, replay_start. simpl.
    rewrite !length_replicate, length_fmap.
    split; [done|]. split; [done|]. split.
    + intros source_num Hsource. by rewrite lookup_replicate_2.
    + split; [by destruct (is_collapsing_mode mode)|]. intros p row_source Hp.
      by rewrite lookup_nil in Hp.
  - by destruct (is_collapsing_mode mode).
Qed.

(** X9.  When [generateRowIdsMap] returns, the inverted row-ids map, in
    the context and in its file, has one entry for every record of the
    rows-sources stream (in Collapsing, Replacing and VersionedCollapsing
    mode: for every record without the skip flag), in the order of the
    stream; the entry of a record that names source part [s] is the part
    offset that [s] has at the position given by the number of earlier
    records naming [s]. *)
Theorem inverted_map_follows_rows_sources global_ctx ctx rows_sources
        again global_ctx' ctx' :
  let args := GlobalCtx.args global_ctx in
  let parts := FuturePart.parts (MergeTaskArgs.future_part args) in
  let collapsing :=
    is_collapsing_mode (MergingParams.mode (MergeTaskArgs.merging_params args)) in
  let inverted_path :=
    Decouple.inverted_row_ids_map_file_path (GlobalCtx.decouple global_ctx) in
  inverted_path <> "" ->
  HorizontalCtx.rows_sources_write_buf ctx = Some rows_sources ->
  (N.of_nat (length rows_sources) < UInt64.modulus)%N ->
  generateRowIdsMap global_ctx ctx = Return (again, global_ctx', ctx') ->
  exists inverted new_data_part',
    Decouple.inverted_row_ids_map_buf (GlobalCtx.decouple global_ctx') = Some inverted
    /\ GlobalCtx.new_data_part global_ctx' = Some new_data_part'
    /\ NewPart.files new_data_part' !! inverted_path = Some (IntText inverted)
    /\ length inverted = length (kept_records collapsing rows_sources)
    /\ forall p row_source,
         rows_sources !! p = Some row_source ->
         (collapsing = true -> RowSourcePart.getSkipFlag row_source = false) ->
         exists part offset,
           parts !! RowSourcePart.getSourceNum row_source = Some part
           /\ inverted !! length (kept_records collapsing (take p rows_sources))
              = Some offset
           /\ read_part_offsets part
                !! records_from (RowSourcePart.getSourceNum row_source)
                                (take p rows_sources) = Some offset.
Proof.
  cbv zeta. intros Hpath Hbuf Hrange. unfold generateRowIdsMap.
  rewrite decide_False by done. rewrite Hbuf. simpl. intros Hgenerate.
  bind_inv Hgenerate rows_sources_file Hfile.
  rewrite lookup_insert_eq in Hgenerate. simpl in Hgenerate.
  bind_inv Hgenerate new_data_part Hpart.
  bind_inv Hgenerate built Hbuild. destruct built as [[inverted bufs] updates].
  simpl in Hgenerate.
  destruct (if decide (GlobalCtx.chosen_merge_algorithm global_ctx
                       = MergeAlgorithm.Horizontal) then _ else _)
    as [tmp_disk ctx1].
  bind_inv Hgenerate files Hflush. injection Hgenerate as <- <- <-. simpl.
  apply build_row_ids_maps_spec in Hbuild as (st & Hreplay & -> & _).
  apply replayed_follows in Hreplay as (_ & _ & _ & Hlen & Hentries); [|done].
  eexists _, _. split; [reflexivity|]. split; [reflexivity|]. simpl.
  split; [unfold store_map_file; by rewrite lookup_insert_eq|]. split; [done|].
  intros p row_source Hp Hkept.
  destruct (Hentries p row_source Hp Hkept) as (offsets & offset & Ho & Hi & Hc).
  rewrite list_lookup_fmap in Ho.
  destruct (FuturePart.parts _ !! RowSourcePart.getSourceNum row_source)
    as [part|] eqn:Hsource; [|done].
  injection Ho as <-. by exists part, offset.
Qed.
End InvertedMap.
(** ** The deleted rows of the collapsing modes *)

(** The old rows of a source part that have no row in the new part. *)
Definition missing_rows (ids : gmap N N) (rows_count : N) : list N :=
  List.filter (fun old_row_id => bool_decide (ids !! old_row_id = None))
              (rows_from 0 (N.to_nat rows_count)).

(** [deleteRowIds]: a vector of [rows_count] zeros whose first entries are
    overwritten with the missing rows. *)
Definition deleted_row_ids (ids : gmap N N) (rows_count : N) : list N :=
  missing_rows ids rows_count
  ++ replicate (N.to_nat rows_count - length (missing_rows ids rows_count)) 0%N.

(** The bitmap updates for one source part: none when no row is missing,
    else one for every vector index. *)
Definition bitmap_updates_of (vector_indices : list VectorIndexDescription.t)
    (part : DataPart.t) (ids : gmap N N) : list BitmapUpdate.t :=
  match missing_rows ids (DataPart.rows_count part) with
  | [] => []
  | _ :: _ =>
      (fun vec_index_desc =>
         {| BitmapUpdate.part_name := DataPart.name part;
            BitmapUpdate.index_name := VectorIndexDescription.name vec_index_desc;
            BitmapUpdate.row_ids := deleted_row_ids ids (DataPart.rows_count part) |})
        <$> vector_indices
  end.

Lemma length_missing_rows ids rows_count :
  length (missing_rows ids rows_count) <= N.to_nat rows_count.
Proof.
  unfold missing_rows.
  rewrite <- (length_rows_from 0 (N.to_nat rows_count)) at 2. apply List.filter_length_le.
Qed.

Lemma length_deleted_row_ids ids rows_count :
  length (deleted_row_ids ids rows_count) = N.to_nat rows_count.
Proof.
  unfold deleted_row_ids. rewrite length_app, length_replicate.
  pose proof (length_missing_rows ids rows_count). lia.
Qed.

Section DeletedRows.
Context `{Engine}.

Lemma update_bitmaps_spec part deleteRowIds vector_indices updates updates' :
  update_bitmaps part deleteRowIds vector_indices updates = Return updates' ->
  updates'
  = updates
    ++ ((fun vec_index_desc =>
           {| BitmapUpdate.part_name := DataPart.name part;
              BitmapUpdate.index_name := VectorIndexDescription.name vec_index_desc;
              BitmapUpdate.row_ids := deleteRowIds |}) <$> vector_indices)
  /\ (vector_indices <> [] -> DataPart.storage_on_disk part = true).
Proof.
  unfold update_bitmaps. revert updates.
  induction vector_indices as [|vec_index_desc rest IH]; intros updates Hupdate;
    simpl in Hupdate.
  - injection Hupdate as <-. by rewrite app_nil_r.
  - bind_inv Hupdate updates1 Hfirst.
    destruct (DataPart.storage_on_disk part) eqn:Hdisk; [|done].
    injection Hfirst as <-. apply IH in Hupdate as [-> _].
    split; [|done]. by rewrite <- app_assoc.
Qed.

Lemma write_row_ids_map_collapsing_updates parts vector_indices ids_of
      bufs updates source_num bufs' updates' :
  write_row_ids_map_collapsing parts vector_indices ids_of (bufs, updates) source_num
  = Return (bufs', updates') ->
  exists part ids,
    parts !! source_num = Some part
    /\ ids_of !! source_num = Some ids
    /\ updates' = updates ++ bitmap_updates_of vector_indices part ids
    /\ (missing_rows ids (DataPart.rows_count part) <> [] ->
        vector_indices <> [] -> DataPart.storage_on_disk part = true).
Proof.
  unfold write_row_ids_map_collapsing. intros Hwrite.
  bind_inv Hwrite part Hpart. bind_inv Hwrite ids Hids.
  apply at_index_Return in Hpart, Hids.
  rewrite write_row_ids_collapsing_spec in Hwrite. simpl in Hwrite.
  bind_inv Hwrite bufs1 Happend.
  exists part, ids. split; [done|]. split; [done|].
  unfold bitmap_updates_of, deleted_row_ids. fold (missing_rows ids (DataPart.rows_count part)) in *.
  destruct (missing_rows ids (DataPart.rows_count part)) as [|first others] eqn:Hmissing;
    simpl in Hwrite.
  - injection Hwrite as <- <-. by rewrite app_nil_r.
  - bind_inv Hwrite updates1 Hupdate. injection Hwrite as <- <-.
    apply update_bitmaps_spec in Hupdate as [-> Hdisk]. split; [done|]. by intros _.
Qed.

Lemma write_row_ids_maps_collapsing_updates parts vector_indices ids_of l
      bufs updates bufs' updates' :
  fold_outcome (write_row_ids_map_collapsing parts vector_indices ids_of)
               l (bufs, updates) = Return (bufs', updates') ->
  exists sources,
    Forall2 (fun source_num (source : DataPart.t * gmap N N) =>
               parts !! source_num = Some source.1
               /\ ids_of !! source_num = Some source.2
               /\ (missing_rows source.2 (DataPart.rows_count source.1) <> [] ->
                   vector_indices <> [] -> DataPart.storage_on_disk source.1 = true))
            l sources
    /\ updates'
       = updates
         ++ concat ((fun source : DataPart.t * gmap N N =>
                       bitmap_updates_of vector_indices source.1 source.2) <$> sources).
Proof.
  revert bufs updates. induction l as [|source_num rest IH]; intros bufs updates Hfold;
    simpl in Hfold.
  - injection Hfold as <- <-. exists []. split; [constructor|]. by rewrite app_nil_r.
  - bind_inv Hfold written Hwrite. destruct written as [bufs1 updates1].
    apply write_row_ids_map_collapsing_updates in Hwrite
      as (part & ids & Hpart & Hids & -> & Hdisk).
    apply IH in Hfold as (sources & Hsources & ->).
    exists ((part, ids) :: sources). split; [by constructor|].
    csimpl. by rewrite <- app_assoc.
Qed.

Lemma sources_in_order (parts : list DataPart.t) (ids_of : list (gmap N N))
      (vector_indices : list VectorIndexDescription.t)
      (sources : list (DataPart.t * gmap N N)) :
  length ids_of = length parts ->
  Forall2 (fun source_num (source : DataPart.t * gmap N N) =>
             parts !! source_num = Some source.1
             /\ ids_of !! source_num = Some source.2
             /\ (missing_rows source.2 (DataPart.rows_count source.1) <> [] ->
                 vector_indices <> [] -> DataPart.storage_on_disk source.1 = true))
          (seq 0 (length parts)) sources ->
  sources = zip parts ids_of.
Proof.
  intros Hlen Hsources. apply list_eq. intros i.
  pose proof (Forall2_length _ _ _ Hsources) as Hcount. rewrite length_seq in Hcount.
  destruct (decide (i < length parts)) as [Hin|Hout].
  - destruct (lookup_lt_is_Some_2 sources i) as [[part ids] Hsource]; [lia|].
    rewrite Hsource. symmetry.
    assert (Hi : seq 0 (length parts) !! i = Some i) by by apply lookup_seq.
    destruct (Forall2_lookup_lr _ _ _ _ _ _ Hsources Hi Hsource) as (Hpart & Hids & _).
    simpl in Hpart, Hids. by apply lookup_zip_Some.
  - rewrite !lookup_ge_None_2; [done| |lia].
    rewrite length_zip_with. lia.
Qed.
End DeletedRows.
(** ** The end of a merge *)

Section Finalizer.
Context `{Engine}.
Context {Child : Type}.
Variable child_create : MergeTaskArgs.t -> Child.
Variable child_execute : Env.t -> Child -> outcome (bool * Child).
Variable child_future : Child -> outcome NewPart.t.

(** Moving index files changes the files of the new part only. *)
Lemma move_index_keeps {A : Type} (field : NewPart.t -> A)
      all_parts_have_vector_index parts vector_indices tmp new_data_part :
  (forall files part, field (NewPart.with_files files part) = field part) ->
  field (foldl (move_index all_parts_have_vector_index parts) (tmp, new_data_part)
               vector_indices).2
  = field new_data_part.
Proof.
  intros Hfiles.
  assert (Hparts : forall index_name entries tmp0 part0,
            field (foldl (move_index_of_part index_name) (tmp0, part0) entries).2
            = field part0).
  { intros index_name entries.
    induction entries as [|[i part] rest IH]; intros tmp0 part0; simpl; [done|].
    destruct (DataPart.rows_count part =? 0)%N; rewrite IH; [done|apply Hfiles]. }
  revert tmp new_data_part.
  induction vector_indices as [|vec_index rest IH]; intros tmp new_data_part; simpl;
    [done|].
  destruct (move_index all_parts_have_vector_index parts (tmp, new_data_part) vec_index)
    as [tmp1 part1] eqn:Hstep.
  rewrite IH. unfold move_index in Hstep.
  destruct (all_parts_have_vector_index !! VectorIndexDescription.name vec_index)
    as [[|]|]; [|by injection Hstep as <- <-..].
  pose proof (Hparts (VectorIndexDescription.name vec_index) (imap pair parts)
                tmp new_data_part) as Hkept.
  by rewrite Hstep in Hkept.
Qed.

Lemma finalize_decouple_keeps {A : Type} (field : NewPart.t -> A)
      global_ctx new_data_part global_ctx' new_data_part' :
  (forall files part, field (NewPart.with_files files part) = field part) ->
  (forall checksums part,
     field (NewPart.with_vector_index_checksums checksums part) = field part) ->
  finalize_decouple global_ctx new_data_part = Return (global_ctx', new_data_part') ->
  field new_data_part' = field new_data_part
  /\ GlobalCtx.decouple global_ctx' = GlobalCtx.decouple global_ctx
  /\ GlobalCtx.promise global_ctx' = GlobalCtx.promise global_ctx.
Proof.
  intros Hfiles Hchecksums. unfold finalize_decouple. intros Hfinal.
  pose proof (move_index_keeps field
                (Decouple.all_parts_have_vector_index (GlobalCtx.decouple global_ctx))
                (FuturePart.parts (MergeTaskArgs.future_part (GlobalCtx.args global_ctx)))
                (StorageMetadata.vector_indices
                   (MergeTaskArgs.metadata_snapshot (GlobalCtx.args global_ctx)))
                ∅ new_data_part Hfiles) as Hkept.
  destruct (foldl _ (∅, new_data_part) _) as [tmp moved_part]. simpl in Hkept.
  bind_inv Hfinal rows_sources Hsources. bind_inv Hfinal results Hhash.
  injection Hfinal as <- <-. simpl. by rewrite Hchecksums, Hfiles.
Qed.

Lemma finalize_single_vpart_keeps {A : Type} (field : NewPart.t -> A)
      global_ctx new_data_part new_data_part' :
  (forall files part, field (NewPart.with_files files part) = field part) ->
  (forall checksums part,
     field (NewPart.with_vector_index_checksums checksums part) = field part) ->
  finalize_single_vpart global_ctx new_data_part = Return new_data_part' ->
  field new_data_part' = field new_data_part.
Proof.
  intros Hfiles Hchecksums. unfold finalize_single_vpart. intros Hfinal.
  bind_inv Hfinal old_part Hpart. injection Hfinal as <-.
  generalize (StorageMetadata.vector_indices
                (MergeTaskArgs.metadata_snapshot (GlobalCtx.args global_ctx))).
  intros vector_indices. revert new_data_part.
  induction vector_indices as [|vec_index rest IH]; intros new_data_part; simpl; [done|].
  rewrite IH. destruct (_ !! _) as [[|]|]; [|done..]. by rewrite Hchecksums, Hfiles.
Qed.

(** X11.  The step of [MergeTask::execute] that reports the end of the
    merge is the finalizer of the projections stage, and it has resolved
    the promise: with the new part of the task, precommitted, holding as
    many rows as the merge has written; a part without rows is not
    decoupled.  No other step reports the end. *)
Theorem execute_ends_with_the_promise env (task task' : MergeTask.t Child) :
  execute child_create child_execute child_future env task = Return (false, task') ->
  exists ctx new_data_part,
    MergeTask.stage task = MergeProjectionsStage 2 ctx
    /\ MergeTask.stage task' = Finished
    /\ GlobalCtx.promise (MergeTask.global_ctx task') = Some new_data_part
    /\ GlobalCtx.new_data_part (MergeTask.global_ctx task') = Some new_data_part
    /\ NewPart.transaction_precommitted new_data_part = true
    /\ NewPart.rows_count new_data_part
       = GlobalCtx.rows_written (MergeTask.global_ctx task)
    /\ (NewPart.rows_count new_data_part = 0%N ->
        Decouple.can_be_decouple (GlobalCtx.decouple (MergeTask.global_ctx task'))
        = false
        /\ Decouple.only_one_vpart_merged
             (GlobalCtx.decouple (MergeTask.global_ctx task')) = false).
Proof.
  unfold execute. destruct (MergeTask.stage task) as [it ctx|it ctx|it ctx|];
    intros Hexecute; [| | |done].
  - bind_inv Hexecute stepped Hstage. destruct stepped as [[[more g] it'] ctx'].
    by destruct more.
  - bind_inv Hexecute stepped Hstage. destruct stepped as [[[more g] it'] ctx'].
    destruct more; [done|]. by destruct (vertical_getContextForNextStage g ctx').
  - bind_inv Hexecute stepped Hstage. destruct stepped as [[[more g] it'] ctx'].
    destruct more; [done|]. injection Hexecute as <-. simpl.
    unfold projections_execute in Hstage. bind_inv Hstage sub Hsubtask.
    destruct sub as [[again g1] c1].
    destruct (next_subtask 3 it again) as [it2 more2] eqn:Hnext.
    injection Hstage as -> <- <- <-.
    unfold next_subtask in Hnext. destruct again; [done|].
    injection Hnext as <- Hlast.
    destruct it as [|[|[|it]]]; [done|done| |done].
    exists ctx. unfold finalizeProjectionsAndWholeMerge in Hsubtask.
    bind_inv Hsubtask new_data_part Hpart. bind_inv Hsubtask projected Hprojected.
    assert (Hrows : NewPart.rows_count
                      (NewPart.with_rows_count
                         (GlobalCtx.rows_written (MergeTask.global_ctx task)) projected)
                    = GlobalCtx.rows_written (MergeTask.global_ctx task)) by done.
    set (counted := NewPart.with_rows_count
                      (GlobalCtx.rows_written (MergeTask.global_ctx task)) projected) in *.
    bind_inv Hsubtask finalized Hfinalized. destruct finalized as [g2 part2].
    injection Hsubtask as <- <-. simpl.
    assert (Hkept : NewPart.rows_count part2 = NewPart.rows_count counted
                    /\ GlobalCtx.decouple g2
                       = reset_decouple_of_empty_part (NewPart.rows_count counted)
                           (GlobalCtx.decouple (MergeTask.global_ctx task))).
    { destruct (Decouple.can_be_decouple _).
      - by apply (finalize_decouple_keeps NewPart.rows_count) in Hfinalized
          as (Hcount & Hdecouple & _).
      - destruct (Decouple.only_one_vpart_merged _).
        + bind_inv Hfinalized part3 Hsingle. injection Hfinalized as <- <-.
          by apply (finalize_single_vpart_keeps NewPart.rows_count) in Hsingle.
        + by injection Hfinalized as <- <-. }
    destruct Hkept as [Hcount Hdecouple].
    eexists. split; [done|]. split; [done|]. split; [done|]. split; [done|].
    split; [done|]. simpl. rewrite Hcount, Hrows. split; [done|].
    intros Hnone. rewrite Hdecouple, Hrows, Hnone. done.
Qed.

(** X12.  A merge that is not vertical passes the vertical stage in three
    steps that change nothing and look at no cancellation flag; leaving
    the stage destroys the rows-sources temporary file, unless it is
    marked to be kept. *)
Theorem horizontal_merge_passes_vertical_stage env1 env2 env3 global_ctx ctx :
  GlobalCtx.chosen_merge_algorithm global_ctx <> MergeAlgorithm.Vertical ->
  exists task1 task2,
    execute child_create child_execute child_future env1
      {| MergeTask.global_ctx := global_ctx;
         MergeTask.stage := VerticalMergeStage 0 ctx |} = Return (true, task1)
    /\ execute child_create child_execute child_future env2 task1
       = Return (true, task2)
    /\ execute child_create child_execute child_future env3 task2
       = Return
           (true,
            {| MergeTask.global_ctx :=
                 GlobalCtx.with_tmp_disk
                   (match VerticalCtx.rows_sources_file ctx with
                    | Some file =>
                        if TemporaryFile.kept file then GlobalCtx.tmp_disk global_ctx
                        else delete (TemporaryFile.path file)
                                    (GlobalCtx.tmp_disk global_ctx)
                    | None => GlobalCtx.tmp_disk global_ctx
                    end) global_ctx;
               MergeTask.stage :=
                 MergeProjectionsStage 0
                   {| ProjectionsCtx.tasks_for_projections := [];
                      ProjectionsCtx.projections_iterator := 0 |} |}).
Proof.
  intros Hother.
  assert (Hprepare : prepareVerticalMergeForAllColumns global_ctx ctx
                     = Return (false, global_ctx, ctx)).
  { unfold prepareVerticalMergeForAllColumns. by rewrite bool_decide_false. }
  assert (Hexecute : forall env, executeVerticalMergeForAllColumns env global_ctx ctx
                                 = Return (false, global_ctx, ctx)).
  { intros env. unfold executeVerticalMergeForAllColumns. by rewrite bool_decide_false. }
  eexists _, _. split; [|split].
  - unfold execute, vertical_execute. simpl. rewrite Hprepare. simpl. reflexivity.
  - unfold execute, vertical_execute. simpl. rewrite Hexecute. simpl. reflexivity.
  - unfold execute, vertical_execute. simpl. reflexivity.
Qed.

(** X13.  The decouple branch of the finalizer copies the kept
    rows-sources temporary file into the directory of the new part, as
    the inverted row-sources map, record for record, and then removes the
    temporary file. *)
Theorem finalize_decouple_moves_rows_sources global_ctx new_data_part
        global_ctx' new_data_part' :
  finalize_decouple global_ctx new_data_part = Return (global_ctx', new_data_part') ->
  let path :=
    Decouple.inverted_row_sources_map_file_path (GlobalCtx.decouple global_ctx) in
  exists records,
    GlobalCtx.tmp_disk global_ctx !! path = Some records
    /\ NewPart.files new_data_part'
         !! (NewPart.full_path new_data_part +:+ inverted_row_sources_map_filename)
       = Some (RowSources records)
    /\ GlobalCtx.tmp_disk global_ctx' = delete path (GlobalCtx.tmp_disk global_ctx)
    /\ GlobalCtx.tmp_disk global_ctx' !! path = None
    /\ NewPart.full_path new_data_part' = NewPart.full_path new_data_part.
Proof.
  unfold finalize_decouple. intros Hfinal. cbv zeta.
  pose proof (move_index_keeps NewPart.full_path
                (Decouple.all_parts_have_vector_index (GlobalCtx.decouple global_ctx))
                (FuturePart.parts (MergeTaskArgs.future_part (GlobalCtx.args global_ctx)))
                (StorageMetadata.vector_indices
                   (MergeTaskArgs.metadata_snapshot (GlobalCtx.args global_ctx)))
                ∅ new_data_part (fun _ _ => eq_refl)) as Hpath.
  destruct (foldl _ (∅, new_data_part) _) as [tmp moved_part]. simpl in Hpath.
  bind_inv Hfinal rows_sources Hsources. bind_inv Hfinal results Hhash.
  injection Hfinal as <- <-. simpl.
  destruct (GlobalCtx.tmp_disk global_ctx !! _) as [records|] eqn:Hrecords; [|done].
  injection Hsources as <-. exists records.
  split; [done|]. rewrite Hpath, lookup_insert_eq, lookup_delete_eq. done.
Qed.
End Finalizer.
(** ** Row-ids maps are written for decoupled parts only *)

Lemma append_not_empty (prefix suffix : string) : suffix <> "" -> prefix +:+ suffix <> "".
Proof. destruct prefix; [done|]. intros _. discriminate. Qed.

Section MapsAndDecouple.
Context `{Engine}.

Lemma scan_indices_path parts vector_indices st :
  Decouple.inverted_row_ids_map_file_path
    (scan_decouple (foldl (scan_index parts) st vector_indices))
  = Decouple.inverted_row_ids_map_file_path (scan_decouple st).
Proof.
  revert st. induction vector_indices as [|vec_index rest IH]; intros st; simpl; [done|].
  rewrite IH. unfold scan_index. simpl. by destruct (_ && _).
Qed.

Lemma checkDecouple_path settings vector_indices parts d d' :
  checkDecouple settings vector_indices parts d = Return d' ->
  Decouple.inverted_row_ids_map_file_path d' = Decouple.inverted_row_ids_map_file_path d.
Proof.
  unfold checkDecouple, scan_indices.
  destruct (Settings.enable_decouple_vector_index settings); [|by intros [= <-]].
  pose proof (scan_indices_path parts vector_indices
                {| first_part_with_data := (-1)%Z; max_part_with_index := 0;
                   scan_decouple := d |}) as Hpath.
  simpl in Hpath. destruct (_ && _).
  - intros Hcheck. bind_inv Hcheck part Hpart.
    destruct (negb _); by injection Hcheck as <-.
  - by intros [= <-].
Qed.

(** X14.  After [prepare] of a new task, the path of the inverted
    row-ids map is set exactly when the merged part can be decoupled; and
    when it cannot, [generateRowIdsMap] returns at once and changes
    nothing. *)
Theorem row_ids_maps_only_when_decoupled env global_ctx ctx again global_ctx' ctx' :
  Decouple.inverted_row_ids_map_file_path (GlobalCtx.decouple global_ctx) = "" ->
  prepare env global_ctx ctx = Return (again, global_ctx', ctx') ->
  (Decouple.inverted_row_ids_map_file_path (GlobalCtx.decouple global_ctx') <> ""
   <-> Decouple.can_be_decouple (GlobalCtx.decouple global_ctx') = true)
  /\ (Decouple.can_be_decouple (GlobalCtx.decouple global_ctx') = false ->
      generateRowIdsMap global_ctx' ctx' = Return (false, global_ctx', ctx')).
Proof.
  intros Hfresh Hprepare.
  apply prepare_phases in Hprepare
    as (_ & _ & _ & g1 & part1 & c1 & g2 & c2 & d & g3 & c3
        & Hphase1 & Hphase2 & Hdecouple & Hphase3 & Hphase4).
  apply prepare_columns_and_ttl_fields in Hphase1 as (Hd1 & _); [|done].
  apply prepare_algorithm_fields in Hphase2 as (Hd2 & _).
  apply prepare_stream_fields in Hphase4 as (Hd4 & _).
  pose proof (checkDecouple_path _ _ _ _ _ Hdecouple) as Hpath.
  rewrite Hd2, Hd1, Hfresh in Hpath.
  assert (Hmaps :
            (Decouple.can_be_decouple d = true ->
             Decouple.inverted_row_ids_map_file_path (GlobalCtx.decouple g3) <> "")
            /\ (Decouple.can_be_decouple d = false ->
                Decouple.inverted_row_ids_map_file_path (GlobalCtx.decouple g3) = "")
            /\ Decouple.can_be_decouple (GlobalCtx.decouple g3)
               = Decouple.can_be_decouple d).
  { unfold prepare_row_ids_maps in Hphase3. simpl in Hphase3.
    destruct (Decouple.can_be_decouple d) eqn:Hcan.
    - destruct (HorizontalCtx.rows_sources_write_buf c2); simpl in Hphase3.
      + bind_inv Hphase3 file Hfile. injection Hphase3 as <- <-. simpl.
        split; [|by rewrite Hcan]. intros _. by apply append_not_empty.
      + injection Hphase3 as <- <-. simpl.
        split; [|by rewrite Hcan]. intros _. by apply append_not_empty.
    - injection Hphase3 as <- <-. simpl. by rewrite Hcan. }
  destruct Hmaps as (Hset & Hunset & Hcan).
  rewrite Hd4, Hcan. split.
  - destruct (Decouple.can_be_decouple d); [by split; [|intros _; apply Hset]|].
    split; [|done]. intros Hpath'. by destruct Hpath', Hunset.
  - intros Hnone. unfold generateRowIdsMap. by rewrite Hd4, (Hunset Hnone), decide_True.
Qed.
End MapsAndDecouple.
(** ** Direct I/O and the serialization infos of missed columns *)

Definition total_bytes (bytes_on_disk : list N) : N :=
  foldr N.add 0%N bytes_on_disk.

Lemma reaches_direct_io_spec min total_size bytes_on_disk :
  (total_size < min)%N ->
  (total_size + total_bytes bytes_on_disk < UInt64.modulus)%N ->
  reaches_direct_io min total_size bytes_on_disk = true
  <-> (min <= total_size + total_bytes bytes_on_disk)%N.
Proof.
  revert total_size. induction bytes_on_disk as [|bytes rest IH];
    intros total_size Hbelow Hrange; simpl in *.
  - split; [done|lia].
  - unfold UInt64.add, UInt64.wrap. rewrite N.mod_small by lia.
    destruct (N.leb_spec min (total_size + bytes)) as [Hreached|Hnot].
    + split; [lia|done].
    + rewrite IH by lia. lia.
Qed.

(** X15.  The source parts are read with direct I/O exactly when
    [min_merge_bytes_to_use_direct_io] is not zero and the sizes of the
    parts add up to at least that many bytes (the sum staying below 2^64);
    with the setting at zero, or without source parts, they never are. *)
Theorem direct_io_when_sizes_reach_setting min_merge_bytes_to_use_direct_io bytes_on_disk :
  (min_merge_bytes_to_use_direct_io = 0%N ->
   read_with_direct_io min_merge_bytes_to_use_direct_io bytes_on_disk = false)
  /\ read_with_direct_io min_merge_bytes_to_use_direct_io [] = false
  /\ ((total_bytes bytes_on_disk < UInt64.modulus)%N ->
      read_with_direct_io min_merge_bytes_to_use_direct_io bytes_on_disk = true
      <-> min_merge_bytes_to_use_direct_io <> 0%N
          /\ (min_merge_bytes_to_use_direct_io <= total_bytes bytes_on_disk)%N).
Proof.
  unfold read_with_direct_io. split; [by intros ->|]. split.
  - by destruct (_ =? _)%N.
  - intros Hrange.
    destruct (N.eqb_spec min_merge_bytes_to_use_direct_io 0) as [->|Hset].
    + split; [done|]. by intros [Hne _].
    + rewrite reaches_direct_io_spec by lia. rewrite N.add_0_l. tauto.
Qed.

Section MissedColumns.
Context {Info : Type}.
Variable info_with_defaults : string -> N -> Info.

(** A storage column that gets a serialization info of its own: it is not
    among the columns of the part, and has no default of its own. *)
Definition missed (part_columns : list string) (column : ColumnDescription.t) : Prop :=
  (ColumnDescription.name column ∉ part_columns)
  /\ ColumnDescription.default_kind_is_default column = true
  /\ ColumnDescription.has_default_expression column = false.

Lemma emplace_info_lookup name info (infos : gmap string Info) other :
  emplace_info name info infos !! other
  = match infos !! other with
    | Some old => Some old
    | None => if decide (other = name) then Some info else None
    end.
Proof.
  unfold emplace_info. destruct (decide (other = name)) as [->|Hne].
  - destruct (infos !! name) as [old|] eqn:Hold; [by rewrite Hold|].
    by rewrite lookup_insert_eq.
  - destruct (infos !! name); [by destruct (infos !! other)|].
    rewrite lookup_insert_ne by done. by destruct (infos !! other).
Qed.

(** X16.  [addMissedColumnsToSerializationInfos] only adds: an info that
    is there stays as it is; a name gets an info exactly when it had one
    or is the name of a storage column that the part does not have and
    that has no default of its own; an added info is the one made for the
    type of such a column, with [num_rows_in_parts] defaults; and no
    column of the part is added. *)
Theorem missed_columns_are_added_once num_rows_in_parts part_columns storage_columns
        (new_infos : gmap string Info) :
  let result :=
    addMissedColumnsToSerializationInfos info_with_defaults num_rows_in_parts
      part_columns storage_columns new_infos in
  (forall name info, new_infos !! name = Some info -> result !! name = Some info)
  /\ (forall name,
        is_Some (result !! name)
        <-> is_Some (new_infos !! name)
            \/ exists column,
                 column ∈ storage_columns
                 /\ missed part_columns column
                 /\ ColumnDescription.name column = name)
  /\ (forall name info,
        new_infos !! name = None ->
        result !! name = Some info ->
        exists column,
          column ∈ storage_columns
          /\ missed part_columns column
          /\ ColumnDescription.name column = name
          /\ info = info_with_defaults (ColumnDescription.type column) num_rows_in_parts)
  /\ (forall name, name ∈ part_columns -> result !! name = new_infos !! name).
Proof.
  cbv zeta. unfold addMissedColumnsToSerializationInfos. revert new_infos.
  induction storage_columns as [|column rest IH]; intros new_infos; simpl.
  - split; [done|]. split.
    { intros name. split; [by left|]. intros [Hold|(column & Hin & _)]; [done|].
      by apply elem_of_nil in Hin. }
    split; [|done]. intros name info Hnone Hsome. congruence.
  - set (step :=
           if bool_decide (ColumnDescription.name column
                           ∈ (list_to_set part_columns : gset string))
           then new_infos
           else if negb (ColumnDescription.default_kind_is_default column)
           then new_infos
           else if ColumnDescription.has_default_expression column
           then new_infos
           else emplace_info (ColumnDescription.name column)
                  (info_with_defaults (ColumnDescription.type column) num_rows_in_parts)
                  new_infos).
    assert (Hstep :
              (~ missed part_columns column /\ step = new_infos)
              \/ (missed part_columns column
                  /\ step
                     = emplace_info (ColumnDescription.name column)
                         (info_with_defaults (ColumnDescription.type column)
                            num_rows_in_parts) new_infos)).
    { unfold step, missed. case_bool_decide as Hpart.
      - left. split; [|done]. intros [Hout _]. apply Hout. set_solver.
      - destruct (ColumnDescription.default_kind_is_default column); simpl.
        + destruct (ColumnDescription.has_default_expression column).
          * left. split; [|done]. by intros (_ & _ & ?).
          * right. split; [|done]. split; [set_solver|done].
        + left. split; [|done]. by intros (_ & ? & _). }
    destruct (IH step) as (IHkept & IHdom & IHnew & IHpart). clear IH.
    destruct Hstep as [[Hnot ->]|[Hmissed Hstep]].
    + split; [done|]. split.
      { intros name. rewrite IHdom. split.
        - intros [Hold|(c & Hin & Hc & Hname)]; [by left|].
          right. exists c. split; [by right|done].
        - intros [Hold|(c & Hin & Hc & Hname)]; [by left|].
          apply elem_of_cons in Hin as [->|Hin]; [done|].
          right. by exists c. }
      split; [|done]. intros name info Hnone Hsome.
      destruct (IHnew name info Hnone Hsome) as (c & Hin & Hc & Hname & Hinfo).
      exists c. split; [by right|done].
    + assert (Hlookup := emplace_info_lookup (ColumnDescription.name column)
                           (info_with_defaults (ColumnDescription.type column)
                              num_rows_in_parts) new_infos).
      rewrite <- Hstep in Hlookup.
      split.
      { intros name info Hold. apply IHkept. by rewrite Hlookup, Hold. }
      split.
      { intros name. rewrite IHdom. rewrite Hlookup. split.
        - intros [Hstepped|(c & Hin & Hc & Hname)].
          + destruct (new_infos !! name) eqn:Hold; [by left|].
            destruct (decide (name = ColumnDescription.name column)) as [->|Hne];
              [|by destruct Hstepped].
            right. exists column. split; [by left|done].
          + right. exists c. split; [by right|done].
        - intros [Hold|(c & Hin & Hc & Hname)].
          + left. destruct (new_infos !! name); [done|by destruct Hold].
          + apply elem_of_cons in Hin as [->|Hin].
            * left. rewrite <- Hname. destruct (new_infos !! _); [done|].
              by rewrite decide_True.
            * right. by exists c. }
      split.
      { intros name info Hnone Hsome.
        destruct (decide (name = ColumnDescription.name column)) as [->|Hne].
        - exists column. split; [by left|]. split; [done|]. split; [done|].
          assert (Hfirst : step !! ColumnDescription.name column
                           = Some (info_with_defaults (ColumnDescription.type column)
                                     num_rows_in_parts)).
          { by rewrite Hlookup, Hnone, decide_True. }
          apply IHkept in Hfirst. congruence.
        - assert (Hstill : step !! name = None).
          { by rewrite Hlookup, Hnone, decide_False. }
          destruct (IHnew name info Hstill Hsome) as (c & Hin & Hc & Hname & Hinfo).
          exists c. split; [by right|done]. }
      intros name Hpart. rewrite IHpart by done. rewrite Hlookup.
      destruct (new_infos !! name) eqn:Hold; [done|].
      rewrite decide_False; [done|]. intros ->. by destruct Hmissed as [Hout _].
Qed.
End MissedColumns.
(** ** The nested merges of the projections *)

Section NestedTasks.
Context `{Engine}.
Context {Child : Type}.
Variable child_execute : Env.t -> Child -> outcome (bool * Child).

(** X17.  [executeProjections] steps the nested tasks one at a time, in
    order: a call that returns asks to be called again unless the
    iterator is past the last task, and then it has changed nothing;
    otherwise it has stepped the task under the iterator, and only that
    one, and has moved the iterator to the next task exactly when the
    task reported its end. *)
Theorem executeProjections_steps_one_task env global_ctx (ctx : ProjectionsCtx.t Child)
        again global_ctx' ctx' :
  executeProjections child_execute env global_ctx ctx
  = Return (again, global_ctx', ctx') ->
  let tasks := ProjectionsCtx.tasks_for_projections ctx in
  let iterator := ProjectionsCtx.projections_iterator ctx in
  global_ctx' = global_ctx
  /\ (again = false <-> length tasks <= iterator)
  /\ (again = false -> ctx' = ctx)
  /\ (again = true ->
      exists task more task',
        tasks !! iterator = Some task
        /\ child_execute env task = Return (more, task')
        /\ ProjectionsCtx.tasks_for_projections ctx' = <[ iterator := task' ]> tasks
        /\ ProjectionsCtx.projections_iterator ctx'
           = (if more then iterator else iterator + 1)
        /\ forall other,
             other <> iterator ->
             ProjectionsCtx.tasks_for_projections ctx' !! other = tasks !! other).
Proof.
  unfold executeProjections. cbv zeta.
  destruct (_ !! _) as [task|] eqn:Htask.
  - intros Hexecute. bind_inv Hexecute stepped Hchild. destruct stepped as [more task'].
    assert (Hin : ProjectionsCtx.projections_iterator ctx
                  < length (ProjectionsCtx.tasks_for_projections ctx))
      by by eapply lookup_lt_Some.
    destruct more; injection Hexecute as <- <- <-; simpl.
    + split; [done|]. split; [split; [done|lia]|]. split; [done|]. intros _.
      exists task, true, task'. split; [done|]. split; [done|]. split; [done|].
      split; [done|]. intros other Hother. by rewrite list_lookup_insert_ne.
    + split; [done|]. split; [split; [done|lia]|]. split; [done|]. intros _.
      exists task, false, task'. split; [done|]. split; [done|]. split; [done|].
      split; [done|]. intros other Hother. by rewrite list_lookup_insert_ne.
  - intros [= <- <- <-]. apply lookup_ge_None in Htask.
    split; [done|]. split; [done|]. split; done.
Qed.
End NestedTasks.

(** ** The directory of the new part *)


Section NewPartDirectory.
Context `{Engine}.

(** X18.  [prepare] refuses to merge into a directory that exists: when
    the merge is not cancelled, it raises DirectoryAlreadyExists with the
    path of the directory before anything is prepared.  The directory of
    a projection merge is the name of the projection with the suffix,
    inside the parent part; that of other merges is the name of the future
    part, prefixed with [tmp_merge_] when a prefix is asked for. *)
Theorem prepare_refuses_existing_directory env global_ctx ctx :
  let args := GlobalCtx.args global_ctx in
  let future_part := MergeTaskArgs.future_part args in
  Env.merges_blocker env = false ->
  Env.is_cancelled env = false ->
  isTTLMergeType (FuturePart.merge_type future_part) && Env.ttl_merges_blocker env
  = false ->
  World.directory_exists (GlobalCtx.world global_ctx) = true ->
  prepare env global_ctx ctx
  = Throw DIRECTORY_ALREADY_EXISTS
      ("Directory " +:+ NewPart.full_path (build_new_data_part args)
                    +:+ " already exists")
  /\ NewPart.full_path (build_new_data_part args)
     = match MergeTaskArgs.parent_part args with
       | Some parent =>
           ParentPart.full_path parent
             +:+ (FuturePart.name future_part +:+ MergeTaskArgs.suffix args) +:+ "/"
       | None =>
           data_path
             +:+ (if MergeTaskArgs.need_prefix args
                  then "tmp_merge_" +:+ FuturePart.name future_part
                  else FuturePart.name future_part) +:+ "/"
       end.
Proof.
  cbv zeta. intros Hblocker Hcancel Httl Hexists. split.
  - unfold prepare. by rewrite Hblocker, Hcancel, Httl, Hexists.
  - unfold build_new_data_part, local_tmp_part_basename. cbn [NewPart.full_path].
    destruct (MergeTaskArgs.parent_part _) as [parent|].
    + by destruct (MergeTaskArgs.need_prefix _).
    + rewrite append_empty_r. by destruct (MergeTaskArgs.need_prefix _).
Qed.
End NewPartDirectory.

(** ** A whole merge, step by step *)

Section WholeRun.
Context `{Engine}.
Context {Child : Type}.
Variable child_create : MergeTaskArgs.t -> Child.
Variable child_execute : Env.t -> Child -> outcome (bool * Child).
Variable child_future : Child -> outcome NewPart.t.

(** [count] steps of [MergeTask::execute], each asking for more, lead
    from [task] to [task_end]; the first is step number [step]. *)
Fixpoint steps_lead (env : nat -> Env.t) (count step : nat)
    (task task_end : MergeTask.t Child) : Prop :=
  match count with
  | 0 => task = task_end
  | S count =>
      exists task',
        execute child_create child_execute child_future (env step) task
        = Return (true, task')
        /\ steps_lead env count (S step) task' task_end
  end.

Lemma steps_lead_app env count1 count2 step task task1 task2 :
  steps_lead env count1 step task task1 ->
  steps_lead env count2 (step + count1) task1 task2 ->
  steps_lead env (count1 + count2) step task task2.
Proof.
  revert step task. induction count1 as [|count1 IH]; intros step task; simpl.
  - intros ->. by rewrite Nat.add_0_r.
  - intros (task' & Hstep & Hrest) Hnext. exists task'. split; [done|].
    apply IH; [done|]. by replace (S step + count1) with (step + S count1) by lia.
Qed.

Lemma run_steps_lead env count step task task_end :
  steps_lead env count step task task_end ->
  (forall fuel, fuel <= count ->
     run child_create child_execute child_future fuel step env task = Return None)
  /\ (forall fuel,
        run child_create child_execute child_future (count + fuel) step env task
        = run child_create child_execute child_future fuel (step + count) env task_end).
Proof.
  revert step task. induction count as [|count IH]; intros step task; simpl.
  - intros ->. split.
    + intros fuel Hfuel. by replace fuel with 0 by lia.
    + intros fuel. by rewrite Nat.add_0_r.
  - intros (task' & Hstep & Hrest). destruct (IH _ _ Hrest) as [Hnone Hmore]. split.
    + intros [|fuel] Hfuel; [done|]. simpl. rewrite Hstep. simpl. apply Hnone. lia.
    + intros fuel. rewrite Hstep. simpl. rewrite Hmore. f_equal. lia.
Qed.

(** The flags that the block loop reads. *)
Definition no_flag_set (env : Env.t) : Prop :=
  Env.merges_blocker env = false
  /\ Env.ttl_merges_blocker env = false
  /\ Env.is_cancelled env = false.

(** The block loop, as steps of the task: one step for every block and
    one that finds the pipeline empty. *)
Lemma block_loop_steps env blocks :
  forall out step global_ctx ctx,
    GlobalCtx.merging_executor global_ctx
    = Some {| MergingExecutor.remaining := blocks;
              MergingExecutor.rows_sources_out := out |} ->
    (out = true -> is_Some (HorizontalCtx.rows_sources_write_buf ctx)) ->
    (forall n, n <= length blocks -> no_flag_set (env (step + n))) ->
    exists global_ctx' ctx',
      steps_lead env (length blocks + 1) step
        {| MergeTask.global_ctx := global_ctx;
           MergeTask.stage := ExecuteAndFinalizeHorizontalPart 1 ctx |}
        {| MergeTask.global_ctx := global_ctx';
           MergeTask.stage := ExecuteAndFinalizeHorizontalPart 2 ctx' |}
      /\ GlobalCtx.rows_written global_ctx'
         = counted Pulled.rows (GlobalCtx.rows_written global_ctx) blocks
      /\ GlobalCtx.args global_ctx' = GlobalCtx.args global_ctx
      /\ GlobalCtx.chosen_merge_algorithm global_ctx'
         = GlobalCtx.chosen_merge_algorithm global_ctx
      /\ GlobalCtx.decouple global_ctx' = GlobalCtx.decouple global_ctx
      /\ GlobalCtx.new_data_part global_ctx' = GlobalCtx.new_data_part global_ctx
      /\ GlobalCtx.tmp_disk global_ctx' = GlobalCtx.tmp_disk global_ctx
      /\ HorizontalCtx.rows_sources_file ctx' = HorizontalCtx.rows_sources_file ctx.
Proof.
  induction blocks as [|block rest IH]; intros out step global_ctx ctx Hexecutor Hbuf Hquiet.
  - destruct (Hquiet 0) as (Hblocker & Httl & Hcancel); [simpl; lia|].
    rewrite Nat.add_0_r in Hblocker, Httl, Hcancel.
    eexists _, _. split.
    + simpl. eexists. split; [|reflexivity].
      unfold execute, horizontal_execute, executeImpl, is_cancelled. simpl.
      rewrite Hblocker, Httl, Hcancel, !andb_false_r, Hexecutor. simpl. reflexivity.
    + simpl. done.
  - destruct (Hquiet 0) as (Hblocker & Httl & Hcancel); [simpl; lia|].
    rewrite Nat.add_0_r in Hblocker, Httl, Hcancel.
    assert (Hpull :
              exists global_ctx1 ctx1,
                executeImpl (env step) global_ctx ctx = Return (true, global_ctx1, ctx1)
                /\ GlobalCtx.merging_executor global_ctx1
                   = Some {| MergingExecutor.remaining := rest;
                             MergingExecutor.rows_sources_out := out |}
                /\ (out = true -> is_Some (HorizontalCtx.rows_sources_write_buf ctx1))
                /\ GlobalCtx.rows_written global_ctx1
                   = UInt64.add (GlobalCtx.rows_written global_ctx) (Pulled.rows block)
                /\ GlobalCtx.args global_ctx1 = GlobalCtx.args global_ctx
                /\ GlobalCtx.chosen_merge_algorithm global_ctx1
                   = GlobalCtx.chosen_merge_algorithm global_ctx
                /\ GlobalCtx.decouple global_ctx1 = GlobalCtx.decouple global_ctx
                /\ GlobalCtx.new_data_part global_ctx1 = GlobalCtx.new_data_part global_ctx
                /\ GlobalCtx.tmp_disk global_ctx1 = GlobalCtx.tmp_disk global_ctx
                /\ HorizontalCtx.rows_sources_file ctx1
                   = HorizontalCtx.rows_sources_file ctx).
    { unfold executeImpl, is_cancelled.
      rewrite Hblocker, Httl, Hcancel, !andb_false_r, Hexecutor. simpl.
      destruct out.
      - destruct (Hbuf eq_refl) as [buf Hsome]. rewrite Hsome. simpl.
        eexists _, _. split; [reflexivity|]. simpl.
        split; [done|]. split; [by eexists|]. done.
      - simpl. eexists _, _. split; [reflexivity|]. simpl. done. }
    destruct Hpull as (global_ctx1 & ctx1 & Hpull & Hexecutor1 & Hbuf1 & Hrows1 & Hargs1
                       & Halgorithm1 & Hdecouple1 & Hpart1 & Hdisk1 & Hfile1).
    destruct (IH out (S step) global_ctx1 ctx1 Hexecutor1 Hbuf1)
      as (global_ctx' & ctx' & Hsteps & Hrows & Hargs & Halgorithm & Hdecouple & Hpart
          & Hdisk & Hfile).
    { intros n Hn. replace (S step + n) with (step + S n) by lia.
      apply Hquiet. simpl. lia. }
    exists global_ctx', ctx'. split.
    + simpl. eexists. split; [|exact Hsteps].
      unfold execute, horizontal_execute. simpl. rewrite Hpull. simpl. reflexivity.
    + rewrite Hrows, Hargs, Halgorithm, Hdecouple, Hpart, Hdisk, Hfile.
      rewrite Hrows1, Hargs1, Halgorithm1, Hdecouple1, Hpart1, Hdisk1, Hfile1. done.
Qed.

(** The steps of a merge that is prepared, horizontal, not decoupled and
    without projections: the block loop, and seven steps that do not look
    at the flags. *)
Lemma plain_merge_steps env step global_ctx ctx executor new_data_part :
  let blocks := MergingExecutor.remaining executor in
  let d := GlobalCtx.decouple global_ctx in
  let task :=
    {| MergeTask.global_ctx := global_ctx;
       MergeTask.stage := ExecuteAndFinalizeHorizontalPart 1 ctx |} in
  let promised :=
    NewPart.with_transaction_precommitted true
      (NewPart.with_rows_count
         (counted Pulled.rows (GlobalCtx.rows_written global_ctx) blocks)
         new_data_part) in
  GlobalCtx.merging_executor global_ctx = Some executor ->
  (MergingExecutor.rows_sources_out executor = true ->
   is_Some (HorizontalCtx.rows_sources_write_buf ctx)) ->
  (forall n, n <= length blocks -> no_flag_set (env (step + n))) ->
  GlobalCtx.chosen_merge_algorithm global_ctx <> MergeAlgorithm.Vertical ->
  Decouple.inverted_row_ids_map_file_path d = "" ->
  Decouple.can_be_decouple d = false ->
  Decouple.only_one_vpart_merged d = false ->
  GlobalCtx.new_data_part global_ctx = Some new_data_part ->
  StorageMetadata.projections
    (MergeTaskArgs.metadata_snapshot (GlobalCtx.args global_ctx)) = [] ->
  (forall fuel,
     fuel < length blocks + 8 ->
     run child_create child_execute child_future fuel step env task = Return None)
  /\ exists task',
       (forall fuel,
          length blocks + 8 <= fuel ->
          run child_create child_execute child_future fuel step env task
          = Return (Some task'))
       /\ MergeTask.stage task' = Finished
       /\ GlobalCtx.promise (MergeTask.global_ctx task') = Some promised
       /\ GlobalCtx.new_data_part (MergeTask.global_ctx task') = Some promised
       /\ GlobalCtx.tmp_disk (MergeTask.global_ctx task')
          = destroy_temporary_file (HorizontalCtx.rows_sources_file ctx)
                                   (GlobalCtx.tmp_disk global_ctx).
Proof.
  cbv zeta. destruct executor as [blocks out]. simpl.
  intros Hexecutor Hbuf Hquiet Halgorithm Hpath Hdecouple Hone Hpart Hprojections.
  destruct (block_loop_steps env blocks out step global_ctx ctx Hexecutor Hbuf Hquiet)
    as (g & c & Hloop & Hrows & Hargs & Halgorithm' & Hdecouple' & Hpart' & Hdisk & Hfile).
  rewrite <- Halgorithm' in Halgorithm.
  rewrite <- Hdecouple' in Hpath, Hdecouple, Hone. rewrite <- Hpart' in Hpart.
  rewrite <- Hargs in Hprojections. rewrite <- Hrows, <- Hdisk, <- Hfile.
  clear Hexecutor Hbuf Hquiet Hrows Hargs Halgorithm' Hdecouple' Hpart' Hdisk Hfile.
  set (vertical_ctx := horizontal_getContextForNextStage c).
  set (g_last :=
         GlobalCtx.with_tmp_disk
           (destroy_temporary_file (VerticalCtx.rows_sources_file vertical_ctx)
                                   (GlobalCtx.tmp_disk g)) g).
  set (task_last :=
         {| MergeTask.global_ctx := g_last;
            MergeTask.stage :=
              MergeProjectionsStage 2
                {| ProjectionsCtx.tasks_for_projections := @nil Child;
                   ProjectionsCtx.projections_iterator := 0 |} |}).
  assert (Hrest : steps_lead env 6 (step + (length blocks + 1))
                    {| MergeTask.global_ctx := g;
                       MergeTask.stage := ExecuteAndFinalizeHorizontalPart 2 c |}
                    task_last).
  { assert (Hprepare : prepareVerticalMergeForAllColumns g vertical_ctx
                       = Return (false, g, vertical_ctx)).
    { unfold prepareVerticalMergeForAllColumns. by rewrite bool_decide_false. }
    assert (Hexecute : forall e, executeVerticalMergeForAllColumns e g vertical_ctx
                                 = Return (false, g, vertical_ctx)).
    { intros e. unfold executeVerticalMergeForAllColumns. by rewrite bool_decide_false. }
    simpl. eexists. split.
    { unfold execute, horizontal_execute, generateRowIdsMap. simpl.
      rewrite Hpath. simpl. reflexivity. }
    eexists. split.
    { unfold execute, vertical_execute. simpl. fold vertical_ctx.
      rewrite Hprepare. simpl. reflexivity. }
    eexists. split.
    { unfold execute, vertical_execute. simpl. rewrite Hexecute. simpl. reflexivity. }
    eexists. split.
    { unfold execute, vertical_execute. simpl. reflexivity. }
    eexists. split.
    { unfold execute, projections_execute, mergeMinMaxIndexAndPrepareProjections. simpl.
      rewrite Hpart. simpl. unfold projection_tasks_args. simpl.
      rewrite Hprojections. simpl. reflexivity. }
    eexists. split.
    { unfold execute, projections_execute, executeProjections. simpl. reflexivity. }
    reflexivity. }
  assert (Hlast :
            exists g_final,
              (forall e,
                 execute child_create child_execute child_future e task_last
                 = Return (false, {| MergeTask.global_ctx := g_final;
                                     MergeTask.stage := Finished |}))
              /\ GlobalCtx.promise g_final
                 = Some (NewPart.with_transaction_precommitted true
                           (NewPart.with_rows_count (GlobalCtx.rows_written g)
                                                    new_data_part))
              /\ GlobalCtx.new_data_part g_final
                 = Some (NewPart.with_transaction_precommitted true
                           (NewPart.with_rows_count (GlobalCtx.rows_written g)
                                                    new_data_part))
              /\ GlobalCtx.tmp_disk g_final = GlobalCtx.tmp_disk g_last).
  { unfold task_last, execute, projections_execute, finalizeProjectionsAndWholeMerge.
    simpl. rewrite Hpart. simpl. unfold reset_decouple_of_empty_part.
    destruct (GlobalCtx.rows_written g =? 0)%N; simpl.
    - eexists. split; [intros e; reflexivity|]. simpl. done.
    - rewrite Hdecouple, Hone. simpl.
      eexists. split; [intros e; reflexivity|]. simpl. done. }
  destruct Hlast as (g_final & Hlast & Hpromise & Hnew & Htmp).
  pose proof (steps_lead_app env _ _ _ _ _ _ Hloop Hrest) as Hsteps.
  apply run_steps_lead in Hsteps as [Hnone Hmore].
  split.
  - intros fuel Hfuel. apply Hnone. lia.
  - exists {| MergeTask.global_ctx := g_final; MergeTask.stage := Finished |}.
    split; [|done].
    intros fuel Hfuel.
    replace fuel with (length blocks + 1 + 6 + S (fuel - (length blocks + 8))) by lia.
    rewrite Hmore. simpl. rewrite Hlast. simpl. reflexivity.
Qed.

(** X19.  A merge that is prepared, horizontal, not decoupled and
    without projections runs to its end in as many steps of
    [MergeTask::execute] as the merged pipeline has blocks plus eight: one
    step per block, one that finds the pipeline empty, one for the row-ids
    maps, three in the vertical stage and three in the projections stage.
    No earlier step reports the end; the cancellation flags are read in
    the steps of the block loop only.  The promise is resolved with the
    prepared part, precommitted, its row count being [rows_written] after
    the blocks; the rows-sources temporary file is destroyed unless it is
    kept. *)
Theorem plain_merge_runs_to_the_promise env step global_ctx ctx executor new_data_part :
  let blocks := MergingExecutor.remaining executor in
  let d := GlobalCtx.decouple global_ctx in
  let task :=
    {| MergeTask.global_ctx := global_ctx;
       MergeTask.stage := ExecuteAndFinalizeHorizontalPart 1 ctx |} in
  let promised :=
    NewPart.with_transaction_precommitted true
      (NewPart.with_rows_count
         (counted Pulled.rows (GlobalCtx.rows_written global_ctx) blocks)
         new_data_part) in
  GlobalCtx.merging_executor global_ctx = Some executor ->
  (MergingExecutor.rows_sources_out executor = true ->
   is_Some (HorizontalCtx.rows_sources_write_buf ctx)) ->
  (forall n, n <= length blocks -> no_flag_set (env (step + n))) ->
  GlobalCtx.chosen_merge_algorithm global_ctx <> MergeAlgorithm.Vertical ->
  Decouple.inverted_row_ids_map_file_path d = "" ->
  Decouple.can_be_decouple d = false ->
  Decouple.only_one_vpart_merged d = false ->
  GlobalCtx.new_data_part global_ctx = Some new_data_part ->
  StorageMetadata.projections
    (MergeTaskArgs.metadata_snapshot (GlobalCtx.args global_ctx)) = [] ->
  (forall fuel,
     fuel < length blocks + 8 ->
     run child_create child_execute child_future fuel step env task = Return None)
  /\ exists task',
       (forall fuel,
          length blocks + 8 <= fuel ->
          run child_create child_execute child_future fuel step env task
          = Return (Some task'))
       /\ MergeTask.stage task' = Finished
       /\ GlobalCtx.promise (MergeTask.global_ctx task') = Some promised
       /\ GlobalCtx.new_data_part (MergeTask.global_ctx task') = Some promised
       /\ GlobalCtx.tmp_disk (MergeTask.global_ctx task')
          = destroy_temporary_file (HorizontalCtx.rows_sources_file ctx)
                                   (GlobalCtx.tmp_disk global_ctx).
Proof. apply plain_merge_steps. Qed.
End WholeRun.

(** ** The forward maps cover the rows that are kept *)

Lemma records_from_take_lt p processed row_source :
  processed !! p = Some row_source ->
  records_from (RowSourcePart.getSourceNum row_source) (take p processed)
  < records_from (RowSourcePart.getSourceNum row_source) processed.
Proof.
  intros Hp. rewrite <- (take_drop_middle processed p row_source Hp) at 2.
  unfold records_from. rewrite filter_app, length_app, filter_cons_True by done.
  simpl. lia.
Qed.

Lemma length_kept_records_le collapsing l : length (kept_records collapsing l) <= length l.
Proof. unfold kept_records. destruct collapsing; [apply length_filter|done]. Qed.

Section ForwardCover.
Context `{Engine}.








End ForwardCover.

(** ** The single VPart: from the eligibility test to the finalizer *)

Section SingleVPart.
Context `{Engine}.

(** The local [first_part_with_data] is unset, or the one of the context
    has the same value. *)
Definition first_in_step (local : Z) (ctx_first : nat) : Prop :=
  local = (-1)%Z \/ local = Z.of_nat ctx_first.

Lemma scan_part_in_step vec_index i part st :
  first_in_step (scan_first_part_with_data st) (scan_ctx_first_part_with_data st) ->
  first_in_step (scan_first_part_with_data (scan_part vec_index i part st))
                (scan_ctx_first_part_with_data (scan_part vec_index i part st)).
Proof.
  unfold scan_part.
  destruct (DataPart.vector_index part !! VectorIndexDescription.name vec_index);
    [|done].
  simpl. destruct (_ && _); [by right|done].
Qed.

Lemma scan_parts_in_step vec_index i parts st :
  first_in_step (scan_first_part_with_data st) (scan_ctx_first_part_with_data st) ->
  first_in_step (scan_first_part_with_data (scan_parts vec_index i parts st))
                (scan_ctx_first_part_with_data (scan_parts vec_index i parts st)).
Proof.
  revert i st. induction parts as [|part rest IH]; intros i st Hst; simpl; [done|].
  apply IH. by apply scan_part_in_step.
Qed.

Lemma scan_index_in_step parts st vec_index :
  first_in_step (first_part_with_data st)
                (Decouple.first_part_with_data (scan_decouple st)) ->
  first_in_step (first_part_with_data (scan_index parts st vec_index))
                (Decouple.first_part_with_data
                   (scan_decouple (scan_index parts st vec_index))).
Proof.
  intros Hst. unfold scan_index. simpl.
  destruct ((0 <? length parts)%nat && _); simpl; by apply scan_parts_in_step.
Qed.

Lemma scan_indices_in_step parts vector_indices st :
  first_in_step (first_part_with_data st)
                (Decouple.first_part_with_data (scan_decouple st)) ->
  first_in_step (first_part_with_data (foldl (scan_index parts) st vector_indices))
                (Decouple.first_part_with_data
                   (scan_decouple (foldl (scan_index parts) st vector_indices))).
Proof.
  revert st. induction vector_indices as [|vec_index rest IH]; intros st Hst; simpl;
    [done|].
  apply IH. by apply scan_index_in_step.
Qed.

(** The vector index of the table named [index_name] passes the test of
    line 358. *)
Definition flagged (parts : list DataPart.t) (index_name : string)
    (vec_index : VectorIndexDescription.t) : bool :=
  bool_decide (VectorIndexDescription.name vec_index = index_name)
  && all_parts_counted parts (VectorIndexDescription.name vec_index).

Lemma scan_index_flags parts st vec_index index_name :
  Decouple.all_parts_have_vector_index (scan_decouple (scan_index parts st vec_index))
    !! index_name
  = if flagged parts index_name vec_index then Some true
    else Decouple.all_parts_have_vector_index (scan_decouple st) !! index_name.
Proof.
  unfold scan_index, flagged, all_parts_counted.
  set (start := {| num_parts_with_vector_index := 0;
                   empty_parts_count := 0;
                   scan_first_part_with_data := first_part_with_data st;
                   scan_ctx_first_part_with_data :=
                     Decouple.first_part_with_data (scan_decouple st) |}).
  destruct (scan_parts_counts vec_index 0 parts start) as [Hnum Hempty].
  simpl in Hnum, Hempty. simpl. rewrite Hnum, Hempty.
  destruct ((0 <? length parts)%nat && _); simpl.
  - case_bool_decide as Hname; simpl.
    + by rewrite Hname, lookup_insert_eq.
    + by rewrite lookup_insert_ne.
  - by rewrite andb_false_r.
Qed.

Lemma scan_indices_flags parts vector_indices st index_name :
  Decouple.all_parts_have_vector_index
    (scan_decouple (foldl (scan_index parts) st vector_indices)) !! index_name
  = if existsb (flagged parts index_name) vector_indices then Some true
    else Decouple.all_parts_have_vector_index (scan_decouple st) !! index_name.
Proof.
  revert st. induction vector_indices as [|vec_index rest IH]; intros st; simpl; [done|].
  rewrite IH, scan_index_flags.
  destruct (flagged parts index_name vec_index); simpl; [|done].
  by destruct (existsb _ rest).
Qed.

(** The loop of the single-VPart branch of the finalizer. *)
Lemma single_vpart_checksums (all_parts_have_vector_index : gmap string bool)
      old_part vector_indices new_data_part index_name :
  NewPart.vector_index_checksums
    (foldl
       (fun new_data_part vec_index =>
          match all_parts_have_vector_index !! VectorIndexDescription.name vec_index with
          | Some true =>
              let index_checksums :=
                moveVectorIndexFiles false (pretty 0) (DataPart.name old_part)
                  (VectorIndexDescription.name vec_index) old_part in
              NewPart.with_vector_index_checksums
                (<[ VectorIndexDescription.name vec_index := index_checksums ]>
                   (NewPart.vector_index_checksums new_data_part))
                (NewPart.with_files
                   (place_moved_files (NewPart.full_path new_data_part)
                      index_checksums (NewPart.files new_data_part))
                   new_data_part)
          | _ => new_data_part
          end)
       new_data_part vector_indices) !! index_name
  = if existsb (fun vec_index =>
                  bool_decide (VectorIndexDescription.name vec_index = index_name)
                  && bool_decide (all_parts_have_vector_index !! index_name = Some true))
               vector_indices
    then Some (moveVectorIndexFiles false (pretty 0) (DataPart.name old_part)
                 index_name old_part)
    else NewPart.vector_index_checksums new_data_part !! index_name.
Proof.
  revert new_data_part.
  induction vector_indices as [|vec_index rest IH]; intros new_data_part; simpl; [done|].
  rewrite IH.
  destruct (decide (VectorIndexDescription.name vec_index = index_name)) as [Hname|Hname].
  - rewrite (bool_decide_true _ Hname), Hname. simpl.
    destruct (all_parts_have_vector_index !! index_name) as [[|]|] eqn:Hflag; simpl.
    + rewrite ?bool_decide_true by done. simpl.
      destruct (existsb _ rest); [done|]. by rewrite lookup_insert_eq.
    + by rewrite ?bool_decide_false by done.
    + by rewrite ?bool_decide_false by done.
  - rewrite (bool_decide_false _ Hname). simpl.
    destruct (existsb _ rest); [done|].
    destruct (all_parts_have_vector_index !! VectorIndexDescription.name vec_index)
      as [[|]|]; simpl; [|done..].
    by rewrite lookup_insert_ne.
Qed.

(** X21.  The single-VPart case, from [prepare] to the finalizer.  When
    the eligibility test of a new task sets [only_one_vpart_merged],
    exactly one source part is not empty, it has no lightweight delete,
    and [first_part_with_data] is its position; the vector indices that
    are flagged in [all_parts_have_vector_index] are those of the table
    that are built in this part.  The finalizer then takes, for every
    flagged index, the checksums of the index files it moves from this
    part, without the decouple prefix, as the checksums of the index in
    the new part, and leaves the other checksums alone. *)
Theorem single_vpart_keeps_its_indexes settings vector_indices parts d d' :
  parts <> [] ->
  (forall vec_index, vec_index ∈ vector_indices ->
     empty_sources_unbuilt parts (VectorIndexDescription.name vec_index)) ->
  Decouple.can_be_decouple d = false ->
  Decouple.only_one_vpart_merged d = false ->
  Decouple.all_parts_have_vector_index d = ∅ ->
  checkDecouple settings vector_indices parts d = Return d' ->
  Decouple.only_one_vpart_merged d' = true ->
  exists part,
    List.filter non_empty parts = [part]
    /\ parts !! Decouple.first_part_with_data d' = Some part
    /\ DataPart.has_lightweight_delete part = false
    /\ (forall index_name,
          Decouple.all_parts_have_vector_index d' !! index_name = Some true
          <-> (exists vec_index,
                 vec_index ∈ vector_indices
                 /\ VectorIndexDescription.name vec_index = index_name)
              /\ reusable_index parts index_name)
    /\ forall global_ctx new_data_part,
         GlobalCtx.decouple global_ctx = d' ->
         FuturePart.parts (MergeTaskArgs.future_part (GlobalCtx.args global_ctx))
         = parts ->
         StorageMetadata.vector_indices
           (MergeTaskArgs.metadata_snapshot (GlobalCtx.args global_ctx))
         = vector_indices ->
         exists new_data_part',
           finalize_single_vpart global_ctx new_data_part = Return new_data_part'
           /\ forall index_name,
                NewPart.vector_index_checksums new_data_part' !! index_name
                = match Decouple.all_parts_have_vector_index d' !! index_name with
                  | Some true =>
                      Some (moveVectorIndexFiles false (pretty 0) (DataPart.name part)
                              index_name part)
                  | _ => NewPart.vector_index_checksums new_data_part !! index_name
                  end.
Proof.
  intros Hparts Hempty Hcan0 Honly0 Hfresh Hcheck Hone.
  unfold checkDecouple, scan_indices in Hcheck.
  destruct (Settings.enable_decouple_vector_index settings);
    [|injection Hcheck as <-; congruence].
  set (start := {| first_part_with_data := (-1)%Z;
                   max_part_with_index := 0;
                   scan_decouple := d |}) in *.
  destruct (scan_indices_fields parts vector_indices start)
    as (Hcan & Honly & _ & Hall & Hsome & Hok & _ & _).
  simpl in Hcan, Honly, Hsome, Hok.
  rewrite Hcan0 in Hcan. simpl in Hcan. rewrite Honly0 in Honly.
  pose proof (scan_indices_in_step parts vector_indices start (or_introl eq_refl))
    as Hstep.
  pose proof (fun index_name =>
                scan_indices_flags parts vector_indices start index_name) as Hflags.
  simpl in Hflags.
  pose proof (existsb_all_parts_counted vector_indices parts Hparts Hempty) as Hreusable.
  rewrite <- Hcan in Hreusable.
  set (st := foldl (scan_index parts) start vector_indices) in *.
  destruct (Decouple.can_be_decouple (scan_decouple st)) eqn:Hcan_st; simpl in Hcheck;
    [|injection Hcheck as <-; congruence].
  destruct (Nat.eqb_spec (max_part_with_index st) 1) as [Hmax|Hmax];
    [|injection Hcheck as <-; congruence].
  bind_inv Hcheck part Hpart.
  destruct (DataPart.has_lightweight_delete part) eqn:Hlwd; simpl in Hcheck;
    [injection Hcheck as <-; congruence|].
  injection Hcheck as <-. simpl.
  (* the part under the local index *)
  unfold at_index_Z in Hpart.
  destruct (Z.ltb_spec (first_part_with_data st) 0) as [Hneg|Hnonneg]; [done|].
  apply at_index_Return in Hpart.
  destruct Hstep as [Hunset|Hsame]; [lia|].
  rewrite Hsame, Nat2Z.id in Hpart.
  assert (Hrows : DataPart.rows_count part <> 0%N).
  { destruct (Hok (or_introl eq_refl)) as [Hunset|(_ & part' & Hpart' & Hrows)]; [lia|].
    rewrite Hsame, Nat2Z.id in Hpart'. congruence. }
  (* exactly one source part is not empty *)
  assert (Heligible : some_index_reusable vector_indices parts) by by apply Hreusable.
  destruct Heligible as (v & Hv & Hreuse).
  assert (Hcount : count_where non_empty parts = 1).
  { destruct Hsome as [Hzero|(v' & Hv' & Hcount)]; [simpl in Hzero; lia|].
    assert (Hle : count_where (has_built_index (VectorIndexDescription.name v')) parts
                  <= count_where non_empty parts).
    { apply count_where_mono. intros other Hin.
      by apply (built_iff_non_empty parts); [apply Hempty|]. }
    assert (Heq : count_where (has_built_index (VectorIndexDescription.name v)) parts
                  = count_where non_empty parts).
    { apply count_where_ext. intros other Hin.
      destruct (has_built_index (VectorIndexDescription.name v) other) eqn:Hbuilt.
      - symmetry. by apply (built_iff_non_empty parts _ other (Hempty v Hv)).
      - unfold non_empty.
        destruct (N.eqb_spec (DataPart.rows_count other) 0); [done|].
        unfold has_built_index in Hbuilt. apply bool_decide_eq_false in Hbuilt.
        exfalso. apply Hbuilt. by apply Hreuse. }
    pose proof (Hall v Hv). lia. }
  apply count_where_one in Hcount as [only Hfilter].
  assert (part = only) as <-.
  { pose proof (in_filter_non_empty parts part
                  (list_elem_of_lookup_2 _ _ _ Hpart) Hrows) as Hin.
    rewrite Hfilter in Hin. by destruct Hin as [->|[]]. }
  (* the flags *)
  assert (Hflag : forall index_name,
            Decouple.all_parts_have_vector_index (scan_decouple st) !! index_name
            = Some true
            <-> (exists vec_index,
                   vec_index ∈ vector_indices
                   /\ VectorIndexDescription.name vec_index = index_name)
                /\ reusable_index parts index_name).
  { intros index_name. rewrite Hflags, Hfresh, lookup_empty.
    assert (Hlen : (0 <? length parts)%nat = true).
    { apply Nat.ltb_lt. destruct parts; [done|simpl; lia]. }
    destruct (existsb (flagged parts index_name) vector_indices) eqn:Hexists.
    - split; [intros _|done].
      apply existsb_exists in Hexists as (vec_index & Hin & Hflagged).
      apply list_elem_of_In in Hin. unfold flagged in Hflagged.
      apply andb_true_iff in Hflagged as [Hname Hcounted].
      apply bool_decide_eq_true in Hname. subst index_name.
      split; [by exists vec_index|].
      unfold all_parts_counted in Hcounted. rewrite Hlen in Hcounted.
      simpl in Hcounted. apply Nat.eqb_eq in Hcounted.
      apply counts_reach_num_parts in Hcounted; auto.
    - split; [done|]. intros [(vec_index & Hin & <-) Hreusable_index].
      assert (Hnot : existsb (flagged parts (VectorIndexDescription.name vec_index))
                             vector_indices = true); [|congruence].
      apply existsb_exists. exists vec_index. split; [by apply list_elem_of_In|].
      unfold flagged. rewrite bool_decide_true by done. simpl.
      unfold all_parts_counted. rewrite Hlen. simpl. apply Nat.eqb_eq.
      apply counts_reach_num_parts; auto. }
  exists part. split; [done|]. split; [done|]. split; [done|]. split; [done|].
  intros global_ctx new_data_part Hdecouple Hsources Hindices.
  unfold finalize_single_vpart. rewrite Hdecouple, Hsources, Hindices. simpl.
  rewrite (at_index_Some _ _ _ Hpart). simpl.
  eexists. split; [reflexivity|].
  intros index_name. rewrite single_vpart_checksums.
  destruct (Decouple.all_parts_have_vector_index (scan_decouple st) !! index_name)
    as [[|]|] eqn:Hlookup.
  - apply Hflag in Hlookup as [(vec_index & Hin & <-) _].
    assert (Hexists : existsb
              (fun vec_index0 =>
                 bool_decide (VectorIndexDescription.name vec_index0
                              = VectorIndexDescription.name vec_index)
                 && bool_decide (Some true = Some true)) vector_indices = true).
    { apply existsb_exists. exists vec_index. split; [by apply list_elem_of_In|].
      by rewrite !bool_decide_true. }
    by rewrite Hexists.
  - rewrite bool_decide_false by done.
    assert (Hnone : existsb
              (fun vec_index =>
                 bool_decide (VectorIndexDescription.name vec_index = index_name)
                 && false) vector_indices = false).
    { clear. induction vector_indices as [|v rest IH]; simpl; [done|].
      by rewrite andb_false_r. }
    by rewrite Hnone.
  - rewrite bool_decide_false by done.
    assert (Hnone : existsb
              (fun vec_index =>
                 bool_decide (VectorIndexDescription.name vec_index = index_name)
                 && false) vector_indices = false).
    { clear. induction vector_indices as [|v rest IH]; simpl; [done|].
      by rewrite andb_false_r. }
    by rewrite Hnone.
Qed.
End SingleVPart.

(** ** The nested projection merges, one after another *)

Section ProjectionsLoop.
Context `{Engine}.
Context {Child : Type}.
Variable child_execute : Env.t -> Child -> outcome (bool * Child).

(** [executeProjections] called again as long as it asks for it, as the
    projections stage does, at most [fuel] times. *)
Fixpoint executeProjections_loop (env : Env.t) (fuel : nat)
    (global_ctx : GlobalCtx.t) (ctx : ProjectionsCtx.t Child)
    : outcome (option (ProjectionsCtx.t Child)) :=
  match fuel with
  | 0 => Return None
  | S fuel =>
      '(again, global_ctx, ctx) ← executeProjections child_execute env global_ctx ctx;
      if again : bool then executeProjections_loop env fuel global_ctx ctx
      else Return (Some ctx)
  end.

(** The nested task asks [asks] times to be stepped again and then
    reports its end, as [task_end]. *)
Fixpoint child_runs (env : Env.t) (asks : nat) (task task_end : Child) : Prop :=
  match asks with
  | 0 => child_execute env task = Return (false, task_end)
  | S asks =>
      exists task',
        child_execute env task = Return (true, task')
        /\ child_runs env asks task' task_end
  end.

(** The steps that the nested tasks take, with the one that reports the
    end. *)
Definition steps_of (runs : list (nat * Child)) : nat := sum_list (S <$> runs.*1).

Lemma one_projection_runs env global_ctx asks :
  forall task task_end finished rest,
    child_runs env asks task task_end ->
    (forall fuel,
       fuel <= asks ->
       executeProjections_loop env fuel global_ctx
         {| ProjectionsCtx.tasks_for_projections := finished ++ task :: rest;
            ProjectionsCtx.projections_iterator := length finished |}
       = Return None)
    /\ forall fuel,
         executeProjections_loop env (S asks + fuel) global_ctx
           {| ProjectionsCtx.tasks_for_projections := finished ++ task :: rest;
              ProjectionsCtx.projections_iterator := length finished |}
         = executeProjections_loop env fuel global_ctx
             {| ProjectionsCtx.tasks_for_projections := finished ++ task_end :: rest;
                ProjectionsCtx.projections_iterator := length finished + 1 |}.
Proof.
  assert (Hput : forall (task task' : Child) finished rest,
            <[ length finished := task' ]> (finished ++ task :: rest)
            = finished ++ task' :: rest).
  { intros task task' finished rest.
    rewrite <- (Nat.add_0_r (length finished)). by rewrite insert_app_r. }
  induction asks as [|asks IH]; intros task task_end finished rest Hruns; simpl in Hruns.
  - split.
    + intros fuel Hfuel. by replace fuel with 0 by lia.
    + intros fuel. simpl. unfold executeProjections at 1. simpl.
      rewrite list_lookup_middle by done. rewrite Hruns. simpl. by rewrite Hput.
  - destruct Hruns as (task' & Hstep & Hruns).
    destruct (IH task' task_end finished rest Hruns) as [Hnone Hmore]. split.
    + intros [|fuel] Hfuel; [done|]. simpl. unfold executeProjections at 1. simpl.
      rewrite list_lookup_middle by done. rewrite Hstep. simpl. rewrite Hput.
      apply Hnone. lia.
    + intros fuel.
      change (S (S asks) + fuel) with (S (S asks + fuel)).
      cbn [executeProjections_loop]. unfold executeProjections at 1. simpl.
      rewrite list_lookup_middle by done. rewrite Hstep. simpl. rewrite Hput.
      apply Hmore.
Qed.

Lemma steps_of_cons asks (task_end : Child) runs :
  steps_of ((asks, task_end) :: runs) = S asks + steps_of runs.
Proof. reflexivity. Qed.

Lemma projections_run env global_ctx tasks runs :
  Forall2 (fun task run => child_runs env run.1 task run.2) tasks runs ->
  forall finished,
    (forall fuel,
       fuel <= steps_of runs ->
       executeProjections_loop env fuel global_ctx
         {| ProjectionsCtx.tasks_for_projections := finished ++ tasks;
            ProjectionsCtx.projections_iterator := length finished |}
       = Return None)
    /\ forall fuel,
         steps_of runs < fuel ->
         executeProjections_loop env fuel global_ctx
           {| ProjectionsCtx.tasks_for_projections := finished ++ tasks;
              ProjectionsCtx.projections_iterator := length finished |}
         = Return (Some {| ProjectionsCtx.tasks_for_projections := finished ++ runs.*2;
                           ProjectionsCtx.projections_iterator
                             := length finished + length tasks |}).
Proof.
  induction 1 as [|task [asks task_end] tasks runs Hruns Hrest IH]; intros finished.
  - split.
    + intros fuel Hfuel. replace fuel with 0; [done|]. unfold steps_of in Hfuel.
      simpl in Hfuel. lia.
    + intros [|fuel] Hfuel; [lia|]. simpl. unfold executeProjections. simpl.
      rewrite app_nil_r, Nat.add_0_r.
      by rewrite lookup_ge_None_2 by lia.
  - simpl in Hruns.
    destruct (one_projection_runs env global_ctx asks task task_end finished tasks Hruns)
      as [Hnone Hmore].
    destruct (IH (finished ++ [task_end])) as [IHnone IHmore].
    rewrite length_app in IHnone, IHmore. simpl in IHnone, IHmore.
    replace ((finished ++ [task_end]) ++ tasks) with (finished ++ task_end :: tasks)
      in IHnone, IHmore by by rewrite <- app_assoc.
    rewrite steps_of_cons. split.
    + intros fuel Hfuel. destruct (decide (fuel <= asks)) as [Hle|Hgt]; [by apply Hnone|].
      replace fuel with (S asks + (fuel - S asks)) by lia.
      rewrite Hmore. apply IHnone. lia.
    + intros fuel Hfuel. replace fuel with (S asks + (fuel - S asks)) by lia.
      rewrite Hmore, IHmore by lia. rewrite fmap_cons. simpl.
      f_equal. f_equal. f_equal; [by rewrite <- app_assoc|lia].
Qed.

(** X22.  The projections stage runs the nested tasks one after another,
    each to its end before the next is touched: when every nested task
    reports its end after a number of steps, the loop of
    [executeProjections] takes the sum of these steps, asking to be
    called again each time, and one more call, which finds the iterator
    past the last task and ends the loop; the tasks are then all at their
    end, in their order. *)
Theorem projections_run_one_after_another env global_ctx tasks runs :
  Forall2 (fun task run => child_runs env run.1 task run.2) tasks runs ->
  let ctx :=
    {| ProjectionsCtx.tasks_for_projections := tasks;
       ProjectionsCtx.projections_iterator := 0 |} in
  (forall fuel,
     fuel <= steps_of runs ->
     executeProjections_loop env fuel global_ctx ctx = Return None)
  /\ forall fuel,
       steps_of runs < fuel ->
       executeProjections_loop env fuel global_ctx ctx
       = Return (Some {| ProjectionsCtx.tasks_for_projections := runs.*2;
                         ProjectionsCtx.projections_iterator := length tasks |}).
Proof.
  intros Hruns. exact (projections_run env global_ctx tasks runs Hruns []).
Qed.
End ProjectionsLoop.

(** ** Whether expired values are removed *)

Section TTLEviction.
Context `{Engine}.

(** Some source part has TTL values that were not calculated, in a table
    that has a TTL. *)
Definition some_ttl_not_calculated (metadata_snapshot : StorageMetadata.t)
    (parts : list DataPart.t) : bool :=
  StorageMetadata.hasAnyTTL metadata_snapshot
  && existsb (fun part => negb (DataPart.all_ttl_calculated part)) parts.

Lemma prepare_ttl_of_parts metadata_snapshot parts infos need_remove force_ttl :
  foldl (prepare_ttl_of_part metadata_snapshot) (infos, need_remove, force_ttl) parts
  = (foldl ttl_infos_update infos (DataPart.ttl_infos <$> parts),
     need_remove || some_ttl_not_calculated metadata_snapshot parts,
     force_ttl || some_ttl_not_calculated metadata_snapshot parts).
Proof.
  unfold some_ttl_not_calculated.
  revert infos need_remove force_ttl.
  induction parts as [|part rest IH]; intros infos need_remove force_ttl; simpl.
  - by rewrite andb_false_r, !orb_false_r.
  - destruct (StorageMetadata.hasAnyTTL metadata_snapshot); simpl.
    + destruct (DataPart.all_ttl_calculated part); simpl; rewrite IH; simpl; [done|].
      by rewrite !orb_true_r.
    + rewrite IH. simpl. done.
Qed.

(** X23.  What [prepare] decides about expired values.  The TTL
    information of the new part is that of the source parts, merged in
    their order.  [force_ttl] is set exactly when the table has a TTL and
    some source part has TTL values that were not calculated.  Expired
    values are removed exactly when the TTL-merges blocker is not set and
    either [force_ttl] is set or the merged part has a minimal TTL that
    is not after the time of the merge; the cancellation closure keeps
    that decision. *)
Theorem prepare_decides_ttl_eviction env global_ctx ctx again global_ctx' ctx'
        new_data_part' :
  prepare env global_ctx ctx = Return (again, global_ctx', ctx') ->
  GlobalCtx.new_data_part global_ctx' = Some new_data_part' ->
  let args := GlobalCtx.args global_ctx in
  let metadata_snapshot := MergeTaskArgs.metadata_snapshot args in
  let parts := FuturePart.parts (MergeTaskArgs.future_part args) in
  let part_min_ttl := TTLInfos.part_min_ttl (NewPart.ttl_infos new_data_part') in
  NewPart.ttl_infos new_data_part'
  = foldl ttl_infos_update TTLInfos.empty (DataPart.ttl_infos <$> parts)
  /\ HorizontalCtx.force_ttl ctx' = some_ttl_not_calculated metadata_snapshot parts
  /\ HorizontalCtx.need_remove_expired_values ctx'
     = (HorizontalCtx.force_ttl ctx'
        || negb (part_min_ttl =? 0)%N
           && (part_min_ttl <=? MergeTaskArgs.time_of_merge args)%N)
       && negb (Env.ttl_merges_blocker env)
  /\ HorizontalCtx.is_cancelled_need_remove ctx'
     = HorizontalCtx.need_remove_expired_values ctx'.
Proof.
  intros Hprepare Hpart. cbv zeta.
  apply prepare_phases in Hprepare
    as (_ & _ & _ & g1 & part1 & c1 & g2 & c2 & d & g3 & c3
        & Hphase1 & Hphase2 & _ & Hphase3 & Hphase4).
  (* the columns and the TTL information *)
  unfold prepare_columns_and_ttl in Hphase1.
  bind_inv Hphase1 column_sets Hextract.
  rewrite prepare_ttl_of_parts in Hphase1. simpl in Hphase1.
  injection Hphase1 as <- <- <-.
  (* the algorithm *)
  assert (Hctx2 : HorizontalCtx.force_ttl c2
                  = some_ttl_not_calculated
                      (MergeTaskArgs.metadata_snapshot (GlobalCtx.args global_ctx))
                      (FuturePart.parts
                         (MergeTaskArgs.future_part (GlobalCtx.args global_ctx)))
                  /\ HorizontalCtx.need_remove_expired_values c2
                     = (let need_remove :=
                          if negb (TTLInfos.part_min_ttl
                                     (foldl ttl_infos_update TTLInfos.empty
                                        (DataPart.ttl_infos
                                           <$> FuturePart.parts
                                                 (MergeTaskArgs.future_part
                                                    (GlobalCtx.args global_ctx))))
                                   =? 0)%N
                             && (TTLInfos.part_min_ttl
                                   (foldl ttl_infos_update TTLInfos.empty
                                      (DataPart.ttl_infos
                                         <$> FuturePart.parts
                                               (MergeTaskArgs.future_part
                                                  (GlobalCtx.args global_ctx))))
                                 <=? MergeTaskArgs.time_of_merge
                                       (GlobalCtx.args global_ctx))%N
                          then true
                          else some_ttl_not_calculated
                                 (MergeTaskArgs.metadata_snapshot
                                    (GlobalCtx.args global_ctx))
                                 (FuturePart.parts
                                    (MergeTaskArgs.future_part
                                       (GlobalCtx.args global_ctx))) in
                        if need_remove && Env.ttl_merges_blocker env then false
                        else need_remove)).
  { unfold prepare_algorithm in Hphase2. simpl in Hphase2.
    destruct (chooseMergeAlgorithm _ _); [done| |]; by injection Hphase2 as <- <-. }
  destruct Hctx2 as [Hforce2 Hneed2].
  (* the row-ids maps *)
  assert (Hctx3 : HorizontalCtx.force_ttl c3 = HorizontalCtx.force_ttl c2
                  /\ HorizontalCtx.need_remove_expired_values c3
                     = HorizontalCtx.need_remove_expired_values c2).
  { unfold prepare_row_ids_maps in Hphase3.
    destruct (Decouple.can_be_decouple _); [|by injection Hphase3 as <- <-].
    destruct (HorizontalCtx.rows_sources_write_buf c2); simpl in Hphase3.
    - bind_inv Hphase3 file Hfile. by injection Hphase3 as <- <-.
    - by injection Hphase3 as <- <-. }
  destruct Hctx3 as [Hforce3 Hneed3].
  (* the stream *)
  unfold prepare_stream, createMergedStream in Hphase4.
  destruct (FuturePart.parts (MergeTaskArgs.future_part (GlobalCtx.args g3)));
    [done|].
  simpl in Hphase4.
  destruct (if negb (HorizontalCtx.need_remove_expired_values c3) then _ else _)
    as [part4 sets4] eqn:Hskip.
  injection Hphase4 as <- <-. simpl in *.
  injection Hpart as <-.
  assert (Hinfos : NewPart.ttl_infos part4
                   = foldl ttl_infos_update TTLInfos.empty
                       (DataPart.ttl_infos
                          <$> FuturePart.parts
                                (MergeTaskArgs.future_part (GlobalCtx.args global_ctx)))).
  { destruct (HorizontalCtx.need_remove_expired_values c3); simpl in Hskip.
    - by injection Hskip as <- <-.
    - unfold skip_expired_columns in Hskip. by injection Hskip as <- <-. }
  rewrite Hinfos, Hforce3, Hforce2, Hneed3, Hneed2.
  split; [done|]. split; [done|]. split; [|done].
  destruct (negb _ && _), (some_ttl_not_calculated _ _), (Env.ttl_merges_blocker env);
    done.
Qed.
End TTLEviction.

(** ** All the gathering columns of a vertical merge *)

Section AllColumns.
Context `{Engine}.

(** One column, as part of a longer run of the cycle. *)
Lemma gather_steps_column env global_ctx ctx column :
  GlobalCtx.chosen_merge_algorithm global_ctx = MergeAlgorithm.Vertical ->
  VerticalCtx.column_num_for_vertical_merge ctx
  < GlobalCtx.gathering_column_names_size global_ctx ->
  Env.merges_blocker env = false ->
  Env.is_cancelled env = false ->
  VerticalCtx.vertical_merge_one_column_state ctx = OneColumnState.NEED_PREPARE ->
  ColumnSets.gathering_columns (GlobalCtx.column_sets global_ctx)
    !! VerticalCtx.it_name_and_type ctx = Some column ->
  is_Some (VerticalCtx.rows_sources_read_buf ctx) ->
  elements_written 0
    (World.column_pipeline (GlobalCtx.world global_ctx) (NameAndTypePair.name column))
  = GlobalCtx.rows_written global_ctx ->
  exists global_ctx' ctx',
    (forall n,
       gather_steps env
         (length (World.column_pipeline (GlobalCtx.world global_ctx)
                    (NameAndTypePair.name column)) + 3 + n) global_ctx ctx
       = gather_steps env n global_ctx' ctx')
    /\ GlobalCtx.chosen_merge_algorithm global_ctx' = MergeAlgorithm.Vertical
    /\ GlobalCtx.gathering_column_names_size global_ctx'
       = GlobalCtx.gathering_column_names_size global_ctx
    /\ GlobalCtx.column_sets global_ctx' = GlobalCtx.column_sets global_ctx
    /\ GlobalCtx.world global_ctx' = GlobalCtx.world global_ctx
    /\ GlobalCtx.rows_written global_ctx' = GlobalCtx.rows_written global_ctx
    /\ MergeListElement.columns_written (GlobalCtx.merge_list_element global_ctx')
       = MergeListElement.columns_written (GlobalCtx.merge_list_element global_ctx) + 1
    /\ VerticalCtx.vertical_merge_one_column_state ctx' = OneColumnState.NEED_PREPARE
    /\ VerticalCtx.column_num_for_vertical_merge ctx'
       = VerticalCtx.column_num_for_vertical_merge ctx + 1
    /\ VerticalCtx.it_name_and_type ctx' = VerticalCtx.it_name_and_type ctx + 1
    /\ VerticalCtx.rows_sources_read_buf ctx' = VerticalCtx.rows_sources_read_buf ctx.
Proof.
  intros Hvertical Hmore Hblocker Hcancel Hstate Hcolumn [read_buf Hread] Helements.
  set (blocks := World.column_pipeline (GlobalCtx.world global_ctx)
                   (NameAndTypePair.name column)) in *.
  assert (Hsteps :
            forall n,
              gather_steps env (length blocks + 3 + n) global_ctx ctx
              = gather_steps env (S n) global_ctx
                  (VerticalCtx.with_vertical_merge_one_column_state
                     OneColumnState.NEED_FINISH
                     (VerticalCtx.with_column_elems_written
                        (elements_written 0 blocks)
                        (VerticalCtx.with_executor (Some [])
                           (VerticalCtx.with_vertical_merge_one_column_state
                              OneColumnState.NEED_EXECUTE
                              (VerticalCtx.with_column_elems_written 0%N
                                 (VerticalCtx.with_column_to
                                    (Some (NameAndTypePair.name column))
                                    (VerticalCtx.with_executor (Some blocks) ctx)))))))).
  { intros n. replace (length blocks + 3 + n) with (S (length blocks + 1 + S n)) by lia.
    cbn [gather_steps]. unfold executeVerticalMergeForAllColumns at 1.
    rewrite Hvertical, bool_decide_true by done. simpl negb. cbv iota.
    destruct (Nat.leb_spec (GlobalCtx.gathering_column_names_size global_ctx)
                           (VerticalCtx.column_num_for_vertical_merge ctx)); [lia|].
    rewrite Hstate. unfold prepareVerticalMergeForOneColumn.
    rewrite (at_index_Some _ _ _ Hcolumn), Hread. simpl mbind. cbv iota beta.
    fold blocks. by rewrite (gather_steps_pull env (S n) global_ctx _ blocks). }
  assert (Hfinal :
            exists global_ctx' ctx',
              executeVerticalMergeForAllColumns env global_ctx
                (VerticalCtx.with_vertical_merge_one_column_state
                   OneColumnState.NEED_FINISH
                   (VerticalCtx.with_column_elems_written
                      (elements_written 0 blocks)
                      (VerticalCtx.with_executor (Some [])
                         (VerticalCtx.with_vertical_merge_one_column_state
                            OneColumnState.NEED_EXECUTE
                            (VerticalCtx.with_column_elems_written 0%N
                               (VerticalCtx.with_column_to
                                  (Some (NameAndTypePair.name column))
                                  (VerticalCtx.with_executor (Some blocks) ctx)))))))
              = Return (true, global_ctx', ctx')
              /\ GlobalCtx.chosen_merge_algorithm global_ctx' = MergeAlgorithm.Vertical
              /\ GlobalCtx.gathering_column_names_size global_ctx'
                 = GlobalCtx.gathering_column_names_size global_ctx
              /\ GlobalCtx.column_sets global_ctx' = GlobalCtx.column_sets global_ctx
              /\ GlobalCtx.world global_ctx' = GlobalCtx.world global_ctx
              /\ GlobalCtx.rows_written global_ctx' = GlobalCtx.rows_written global_ctx
              /\ MergeListElement.columns_written
                   (GlobalCtx.merge_list_element global_ctx')
                 = MergeListElement.columns_written
                     (GlobalCtx.merge_list_element global_ctx) + 1
              /\ VerticalCtx.vertical_merge_one_column_state ctx'
                 = OneColumnState.NEED_PREPARE
              /\ VerticalCtx.column_num_for_vertical_merge ctx'
                 = VerticalCtx.column_num_for_vertical_merge ctx + 1
              /\ VerticalCtx.it_name_and_type ctx' = VerticalCtx.it_name_and_type ctx + 1
              /\ VerticalCtx.rows_sources_read_buf ctx'
                 = VerticalCtx.rows_sources_read_buf ctx).
  { unfold executeVerticalMergeForAllColumns.
    rewrite Hvertical, bool_decide_true by done. simpl negb. cbv iota.
    simpl VerticalCtx.column_num_for_vertical_merge.
    destruct (Nat.leb_spec (GlobalCtx.gathering_column_names_size global_ctx)
                           (VerticalCtx.column_num_for_vertical_merge ctx)); [lia|].
    simpl VerticalCtx.vertical_merge_one_column_state. cbv iota.
    unfold finalizeVerticalMergeForOneColumn.
    simpl VerticalCtx.it_name_and_type.
    rewrite (at_index_Some _ _ _ Hcolumn). simpl mbind. cbv beta.
    rewrite Hblocker, Hcancel. simpl orb. cbv iota. simpl.
    rewrite Helements, N.eqb_refl. simpl.
    eexists _, _. split; [reflexivity|]. simpl. done. }
  destruct Hfinal as (global_ctx' & ctx' & Hfinal & Hrest).
  exists global_ctx', ctx'. split; [|done].
  intros n. rewrite Hsteps. cbn [gather_steps]. by rewrite Hfinal.
Qed.

(** The calls that the columns take: for every column, one to prepare
    it, one for every block of its pipeline, one that finds the pipeline
    empty, and one to finalize it. *)
Definition column_calls (world : World.t) (columns : list NameAndTypePair.t) : nat :=
  sum_list ((fun column =>
               length (World.column_pipeline world (NameAndTypePair.name column)) + 3)
              <$> columns).

Lemma gather_steps_columns env remaining :
  forall global_ctx ctx,
    GlobalCtx.chosen_merge_algorithm global_ctx = MergeAlgorithm.Vertical ->
    Env.merges_blocker env = false ->
    Env.is_cancelled env = false ->
    VerticalCtx.vertical_merge_one_column_state ctx = OneColumnState.NEED_PREPARE ->
    VerticalCtx.it_name_and_type ctx = VerticalCtx.column_num_for_vertical_merge ctx ->
    GlobalCtx.gathering_column_names_size global_ctx
    = length (ColumnSets.gathering_columns (GlobalCtx.column_sets global_ctx)) ->
    VerticalCtx.column_num_for_vertical_merge ctx
    <= GlobalCtx.gathering_column_names_size global_ctx ->
    is_Some (VerticalCtx.rows_sources_read_buf ctx) ->
    drop (VerticalCtx.column_num_for_vertical_merge ctx)
         (ColumnSets.gathering_columns (GlobalCtx.column_sets global_ctx)) = remaining ->
    (forall column,
       column ∈ remaining ->
       elements_written 0
         (World.column_pipeline (GlobalCtx.world global_ctx)
            (NameAndTypePair.name column))
       = GlobalCtx.rows_written global_ctx) ->
    exists global_ctx' ctx',
      gather_steps env (column_calls (GlobalCtx.world global_ctx) remaining)
                   global_ctx ctx
      = Return (true, global_ctx', ctx')
      /\ executeVerticalMergeForAllColumns env global_ctx' ctx'
         = Return (false, global_ctx', ctx')
      /\ VerticalCtx.column_num_for_vertical_merge ctx'
         = GlobalCtx.gathering_column_names_size global_ctx
      /\ MergeListElement.columns_written (GlobalCtx.merge_list_element global_ctx')
         = MergeListElement.columns_written (GlobalCtx.merge_list_element global_ctx)
           + length remaining
      /\ GlobalCtx.rows_written global_ctx' = GlobalCtx.rows_written global_ctx.
Proof.
  induction remaining as [|column rest IH];
    intros global_ctx ctx Hvertical Hblocker Hcancel Hstate Hit Hsize Hle Hread Hdrop
           Hcounts.
  - assert (Hdone : GlobalCtx.gathering_column_names_size global_ctx
                    <= VerticalCtx.column_num_for_vertical_merge ctx).
    { apply (f_equal length) in Hdrop. rewrite length_drop in Hdrop. simpl in Hdrop.
      lia. }
    exists global_ctx, ctx. split; [done|]. split.
    + unfold executeVerticalMergeForAllColumns.
      rewrite Hvertical, bool_decide_true by done. simpl.
      by rewrite (proj2 (Nat.leb_le _ _) Hdone).
    + split; [lia|by rewrite Nat.add_0_r].
  - assert (Hcolumn : ColumnSets.gathering_columns (GlobalCtx.column_sets global_ctx)
                        !! VerticalCtx.column_num_for_vertical_merge ctx = Some column).
    { rewrite <- (Nat.add_0_r (VerticalCtx.column_num_for_vertical_merge ctx)).
      by rewrite <- lookup_drop, Hdrop. }
    assert (Hmore : VerticalCtx.column_num_for_vertical_merge ctx
                    < GlobalCtx.gathering_column_names_size global_ctx).
    { rewrite Hsize. by eapply lookup_lt_Some. }
    destruct (gather_steps_column env global_ctx ctx column)
      as (g1 & c1 & Hsteps & Hvertical1 & Hsize1 & Hsets1 & Hworld1 & Hrows1 & Hwritten1
          & Hstate1 & Hnum1 & Hit1 & Hread1); try done.
    { by rewrite Hit. }
    { apply Hcounts. by left. }
    destruct (IH g1 c1) as (g' & c' & Hrest & Hend & Hnum & Hwritten & Hrows);
      try done.
    { by rewrite Hit1, Hnum1, Hit. }
    { by rewrite Hsize1, Hsets1. }
    { rewrite Hsize1, Hnum1. lia. }
    { by rewrite Hread1. }
    { rewrite Hsets1, Hnum1. rewrite <- drop_drop, Hdrop. done. }
    { intros other Hin. rewrite Hworld1, Hrows1. apply Hcounts. by right. }
    exists g', c'. unfold column_calls. rewrite fmap_cons. cbn [sum_list sum_list_with].
    fold (column_calls (GlobalCtx.world global_ctx) rest).
    rewrite Hsteps. rewrite <- Hworld1, Hrest.
    split; [done|]. split; [done|]. split; [by rewrite Hnum, Hsize1|].
    split; [rewrite Hwritten, Hwritten1; simpl; lia|]. by rewrite Hrows, Hrows1.
Qed.

(** X24.  A vertical merge gathers every gathering column, in the order
    of the columns.  With no cancellation, and when the pipeline of every
    gathering column delivers as many elements as rows were written, the
    cycle of [executeVerticalMergeForAllColumns] asks to be called again
    once to prepare each column, once for every block of its pipeline,
    once to find the pipeline empty and once to finalize the column; the
    call after these finds every column done and ends the cycle, with one
    more column written for every gathering column and [rows_written]
    as it was. *)
Theorem every_gathering_column_is_gathered env global_ctx ctx :
  let columns := ColumnSets.gathering_columns (GlobalCtx.column_sets global_ctx) in
  GlobalCtx.chosen_merge_algorithm global_ctx = MergeAlgorithm.Vertical ->
  Env.merges_blocker env = false ->
  Env.is_cancelled env = false ->
  VerticalCtx.vertical_merge_one_column_state ctx = OneColumnState.NEED_PREPARE ->
  VerticalCtx.column_num_for_vertical_merge ctx = 0 ->
  VerticalCtx.it_name_and_type ctx = 0 ->
  GlobalCtx.gathering_column_names_size global_ctx = length columns ->
  is_Some (VerticalCtx.rows_sources_read_buf ctx) ->
  (forall column,
     column ∈ columns ->
     elements_written 0
       (World.column_pipeline (GlobalCtx.world global_ctx) (NameAndTypePair.name column))
     = GlobalCtx.rows_written global_ctx) ->
  exists global_ctx' ctx',
    gather_steps env (column_calls (GlobalCtx.world global_ctx) columns) global_ctx ctx
    = Return (true, global_ctx', ctx')
    /\ executeVerticalMergeForAllColumns env global_ctx' ctx'
       = Return (false, global_ctx', ctx')
    /\ VerticalCtx.column_num_for_vertical_merge ctx' = length columns
    /\ MergeListElement.columns_written (GlobalCtx.merge_list_element global_ctx')
       = MergeListElement.columns_written (GlobalCtx.merge_list_element global_ctx)
         + length columns
    /\ GlobalCtx.rows_written global_ctx' = GlobalCtx.rows_written global_ctx.
Proof.
  cbv zeta. intros Hvertical Hblocker Hcancel Hstate Hnum Hit Hsize Hread Hcounts.
  destruct (gather_steps_columns env
              (ColumnSets.gathering_columns (GlobalCtx.column_sets global_ctx))
              global_ctx ctx)
    as (g' & c' & Hsteps & Hend & Hdone & Hwritten & Hrows); try done.
  - by rewrite Hit, Hnum.
  - rewrite Hnum. lia.
  - by rewrite Hnum.
  - exists g', c'. split; [done|]. split; [done|]. split; [by rewrite Hdone|]. done.
Qed.
End AllColumns.
(** ** The forward maps, read off the rows-sources stream *)

(** Record [p] of the rows-sources stream stands for a row of the new part
    that is taken from old row [old_row_id] of the source part
    [source_num], and [new_row_id] is the row id of that row in the new
    part.  The record is not a skipped one (in the modes that look at the
    skip flag); its source part is read in order, so that the old row is
    the one at the part offset found after as many offsets as earlier
    records name the source part; and the rows of the new part are numbered
    in the order of the records that are kept. *)
Definition record_gives (collapsing : bool) (part_offsets : list (list N))
    (rows_sources : list RowSourcePart.t) (source_num : nat) (old_row_id : N)
    (p : nat) (new_row_id : N) : Prop :=
  exists row_source offsets,
    rows_sources !! p = Some row_source
    /\ (collapsing = true -> RowSourcePart.getSkipFlag row_source = false)
    /\ RowSourcePart.getSourceNum row_source = source_num
    /\ part_offsets !! source_num = Some offsets
    /\ offsets !! records_from source_num (take p rows_sources) = Some old_row_id
    /\ new_row_id = N.of_nat (length (kept_records collapsing (take p rows_sources))).

(** The new-part row id of an old row: the one the last record that is
    taken from the old row gives.  (When no part offset occurs twice in a
    source part, there is at most one such record.) *)
Definition new_row_of (collapsing : bool) (part_offsets : list (list N))
    (rows_sources : list RowSourcePart.t) (source_num : nat) (old_row_id : N)
    (new_row_id : N) : Prop :=
  exists p,
    record_gives collapsing part_offsets rows_sources source_num old_row_id p new_row_id
    /\ forall p' new_row_id',
         p < p' ->
         ~ record_gives collapsing part_offsets rows_sources source_num old_row_id
             p' new_row_id'.

(** The old row has no row in the new part. *)
Definition row_not_kept (collapsing : bool) (part_offsets : list (list N))
    (rows_sources : list RowSourcePart.t) (source_num : nat) (old_row_id : N) : Prop :=
  forall p new_row_id,
    ~ record_gives collapsing part_offsets rows_sources source_num old_row_id p new_row_id.

Lemma record_gives_lt collapsing part_offsets rows_sources source_num old_row_id p
      new_row_id :
  record_gives collapsing part_offsets rows_sources source_num old_row_id p new_row_id ->
  p < length rows_sources.
Proof. intros (row_source & offsets & Hp & _). by eapply lookup_lt_Some. Qed.

Lemma record_gives_app collapsing part_offsets processed rest source_num old_row_id p
      new_row_id :
  p < length processed ->
  record_gives collapsing part_offsets (processed ++ rest) source_num old_row_id p new_row_id
  <-> record_gives collapsing part_offsets processed source_num old_row_id p new_row_id.
Proof.
  intros Hp. unfold record_gives.
  rewrite lookup_app_l by done. by rewrite take_app_le by lia.
Qed.

Lemma record_gives_last collapsing part_offsets processed row_source source_num
      old_row_id new_row_id :
  record_gives collapsing part_offsets (processed ++ [row_source]) source_num old_row_id
    (length processed) new_row_id
  <-> (collapsing = true -> RowSourcePart.getSkipFlag row_source = false)
      /\ RowSourcePart.getSourceNum row_source = source_num
      /\ (exists offsets,
            part_offsets !! source_num = Some offsets
            /\ offsets !! records_from source_num processed = Some old_row_id)
      /\ new_row_id = N.of_nat (length (kept_records collapsing processed)).
Proof.
  unfold record_gives. rewrite take_app_length. split.
  - intros (row_source0 & offsets & Hp & Hkept & Hsource & Hoffsets & Hoffset & Hnew).
    rewrite list_lookup_middle in Hp by done. injection Hp as <-.
    split; [done|]. split; [done|]. split; [by exists offsets|done].
  - intros (Hkept & Hsource & (offsets & Hoffsets & Hoffset) & Hnew).
    exists row_source, offsets. by rewrite list_lookup_middle.
Qed.

(** The last record is not taken from the old row: nothing changes. *)
Lemma new_row_of_other collapsing part_offsets processed row_source source_num
      old_row_id new_row_id :
  (forall new_row_id',
     ~ record_gives collapsing part_offsets (processed ++ [row_source]) source_num
         old_row_id (length processed) new_row_id') ->
  new_row_of collapsing part_offsets (processed ++ [row_source]) source_num old_row_id
    new_row_id
  <-> new_row_of collapsing part_offsets processed source_num old_row_id new_row_id.
Proof.
  intros Hlast. unfold new_row_of. split.
  - intros (p & Hp & Hlater).
    pose proof (record_gives_lt _ _ _ _ _ _ _ Hp) as Hlt.
    rewrite length_app in Hlt. simpl in Hlt.
    destruct (decide (p = length processed)) as [->|Hne]; [by apply Hlast in Hp|].
    exists p. split; [apply record_gives_app in Hp; [done|lia]|].
    intros p' new_row_id' Hp' Hgives.
    pose proof (record_gives_lt _ _ _ _ _ _ _ Hgives) as Hlt'.
    apply (Hlater p' new_row_id' Hp'). apply record_gives_app; [lia|done].
  - intros (p & Hp & Hlater).
    pose proof (record_gives_lt _ _ _ _ _ _ _ Hp) as Hlt.
    exists p. split; [by apply record_gives_app|].
    intros p' new_row_id' Hp' Hgives.
    pose proof (record_gives_lt _ _ _ _ _ _ _ Hgives) as Hlt'.
    rewrite length_app in Hlt'. simpl in Hlt'.
    destruct (decide (p' = length processed)) as [->|Hne]; [by apply Hlast in Hgives|].
    apply (Hlater p' new_row_id' Hp'). apply record_gives_app in Hgives; [done|lia].
Qed.

(** The last record is taken from the old row: it decides. *)
Lemma new_row_of_last collapsing part_offsets processed row_source source_num
      old_row_id new_row_id new_row_id' :
  record_gives collapsing part_offsets (processed ++ [row_source]) source_num old_row_id
    (length processed) new_row_id ->
  new_row_of collapsing part_offsets (processed ++ [row_source]) source_num old_row_id
    new_row_id'
  <-> new_row_id' = new_row_id.
Proof.
  intros Hlast. unfold new_row_of. split.
  - intros (p & Hp & Hlater).
    pose proof (record_gives_lt _ _ _ _ _ _ _ Hp) as Hlt.
    rewrite length_app in Hlt. simpl in Hlt.
    destruct (decide (p = length processed)) as [->|Hne].
    + apply record_gives_last in Hp as (_ & _ & _ & ->).
      by apply record_gives_last in Hlast as (_ & _ & _ & ->).
    + exfalso. apply (Hlater (length processed) new_row_id); [lia|done].
  - intros ->. exists (length processed). split; [done|].
    intros p' new_row_id' Hp' Hgives.
    pose proof (record_gives_lt _ _ _ _ _ _ _ Hgives) as Hlt'.
    rewrite length_app in Hlt'. simpl in Hlt'. lia.
Qed.

(** Without a part offset that occurs twice, an old row is read once. *)
Lemma record_gives_once collapsing part_offsets rows_sources source_num old_row_id
      p new_row_id p' new_row_id' :
  Forall NoDup part_offsets ->
  record_gives collapsing part_offsets rows_sources source_num old_row_id p new_row_id ->
  record_gives collapsing part_offsets rows_sources source_num old_row_id p' new_row_id' ->
  p = p'.
Proof.
  intros Hdistinct (r & offsets & Hp & _ & Hsource & Hoffsets & Hoffset & _)
         (r' & offsets' & Hp' & _ & Hsource' & Hoffsets' & Hoffset' & _).
  assert (offsets' = offsets) as -> by congruence.
  assert (Hdist : NoDup offsets).
  { rewrite Forall_forall in Hdistinct. apply Hdistinct.
    by eapply list_elem_of_lookup_2. }
  pose proof (NoDup_lookup _ _ _ _ Hdist Hoffset Hoffset') as Hsame.
  destruct (Nat.lt_total p p') as [Hlt|[->|Hlt]]; [|done|].
  - exfalso.
    assert (Hcount : records_from source_num (take p rows_sources)
                     < records_from source_num (take p' rows_sources)).
    { replace (take p rows_sources) with (take p (take p' rows_sources))
        by (rewrite take_take; f_equal; lia).
      rewrite <- Hsource. apply records_from_take_lt.
      rewrite lookup_take_lt by lia. done. }
    lia.
  - exfalso.
    assert (Hcount : records_from source_num (take p' rows_sources)
                     < records_from source_num (take p rows_sources)).
    { replace (take p' rows_sources) with (take p' (take p rows_sources))
        by (rewrite take_take; f_equal; lia).
      rewrite <- Hsource'. apply records_from_take_lt.
      rewrite lookup_take_lt by lia. done. }
    lia.
Qed.

Lemma new_row_of_once collapsing part_offsets rows_sources source_num old_row_id
      new_row_id :
  Forall NoDup part_offsets ->
  new_row_of collapsing part_offsets rows_sources source_num old_row_id new_row_id
  <-> exists p,
        record_gives collapsing part_offsets rows_sources source_num old_row_id p
          new_row_id.
Proof.
  intros Hdistinct. split.
  - intros (p & Hp & _). by exists p.
  - intros (p & Hp). exists p. split; [done|].
    intros p' new_row_id' Hlt Hgives.
    pose proof (record_gives_once _ _ _ _ _ _ _ _ _ Hdistinct Hp Hgives). lia.
Qed.

Lemma row_not_kept_other collapsing part_offsets processed row_source source_num
      old_row_id :
  (forall new_row_id',
     ~ record_gives collapsing part_offsets (processed ++ [row_source]) source_num
         old_row_id (length processed) new_row_id') ->
  row_not_kept collapsing part_offsets (processed ++ [row_source]) source_num old_row_id
  <-> row_not_kept collapsing part_offsets processed source_num old_row_id.
Proof.
  intros Hlast. unfold row_not_kept. split; intros Hnone p new_row_id Hgives.
  - pose proof (record_gives_lt _ _ _ _ _ _ _ Hgives) as Hlt.
    apply (Hnone p new_row_id). by apply record_gives_app.
  - pose proof (record_gives_lt _ _ _ _ _ _ _ Hgives) as Hlt.
    rewrite length_app in Hlt. simpl in Hlt.
    destruct (decide (p = length processed)) as [->|Hne]; [by apply Hlast in Hgives|].
    apply (Hnone p new_row_id). apply record_gives_app in Hgives; [done|lia].
Qed.

Section ForwardExact.
Context `{Engine}.

(** The map of every source part holds, for an old row, the row id of
    the new row that the records read so far take from it, and nothing
    for an old row that none of them is taken from. *)
Definition replay_exact (collapsing : bool) (part_offsets : list (list N))
    (processed : list RowSourcePart.t) (st : Replay) : Prop :=
  forall source_num ids old_row_id,
    parts_new_row_ids st !! source_num = Some ids ->
    (forall new_row_id,
       ids !! old_row_id = Some new_row_id
       <-> new_row_of collapsing part_offsets processed source_num old_row_id new_row_id)
    /\ (ids !! old_row_id = None
        <-> row_not_kept collapsing part_offsets processed source_num old_row_id).

Lemma skipped_record_exact part_offsets processed st row_source :
  RowSourcePart.getSkipFlag row_source = true ->
  replay_exact true part_offsets processed st ->
  replay_exact true part_offsets (processed ++ [row_source]) st.
Proof.
  intros Hskip Hexact source_num ids old_row_id Hids.
  assert (Hlast : forall new_row_id',
            ~ record_gives true part_offsets (processed ++ [row_source]) source_num
                old_row_id (length processed) new_row_id').
  { intros new_row_id' Hgives. apply record_gives_last in Hgives as (Hkept & _).
    specialize (Hkept eq_refl). congruence. }
  destruct (Hexact source_num ids old_row_id Hids) as [Hsome Hnone].
  split.
  - intros new_row_id. rewrite Hsome. symmetry. by apply new_row_of_other.
  - rewrite Hnone. symmetry. by apply row_not_kept_other.
Qed.

Lemma record_new_row_id_exact (collapsing : bool) part_offsets processed st
      row_source st' :
  (collapsing = true -> RowSourcePart.getSkipFlag row_source = false) ->
  replay_follows collapsing part_offsets processed st ->
  replay_consistent st ->
  replay_exact collapsing part_offsets processed st ->
  record_new_row_id part_offsets st (RowSourcePart.getSourceNum row_source)
  = Return st' ->
  replay_exact collapsing part_offsets (processed ++ [row_source]) st'.
Proof.
  intros Hkept (Hcursors & Hlenids & Hcount & Hlen & _) [Hnext _] Hexact Hrecord.
  set (recorded := RowSourcePart.getSourceNum row_source) in *.
  unfold record_new_row_id in Hrecord.
  bind_inv Hrecord offsets Hoffsets. bind_inv Hrecord cursor Hcursor.
  bind_inv Hrecord old_part_offset Hoffset. bind_inv Hrecord ids0 Hids0.
  apply at_index_Return in Hoffsets, Hcursor, Hoffset, Hids0.
  injection Hrecord as <-.
  rewrite Hcount in Hcursor by by eapply lookup_lt_Some.
  injection Hcursor as <-. rewrite Nat2N.id in Hoffset.
  assert (Hgives :
            record_gives collapsing part_offsets (processed ++ [row_source]) recorded
              old_part_offset (length processed) (new_part_row_id st)).
  { apply record_gives_last. split; [done|]. split; [done|].
    split; [by exists offsets|]. by rewrite Hnext, Hlen. }
  assert (Hother :
            forall source_num old_row_id,
              (source_num, old_row_id) <> (recorded, old_part_offset) ->
              forall new_row_id',
                ~ record_gives collapsing part_offsets (processed ++ [row_source])
                    source_num old_row_id (length processed) new_row_id').
  { intros source_num old_row_id Hne new_row_id' Hlast.
    apply record_gives_last in Hlast
      as (_ & Hsource & (offsets' & Hoffsets' & Hoffset') & _).
    fold recorded in Hsource. subst source_num.
    apply Hne. f_equal. congruence. }
  intros source_num ids old_row_id Hids. simpl in Hids.
  destruct (decide ((source_num, old_row_id) = (recorded, old_part_offset)))
    as [[= -> ->]|Hne].
  - rewrite list_lookup_insert_eq in Hids by by eapply lookup_lt_Some.
    injection Hids as <-. rewrite lookup_insert_eq. split.
    + intros new_row_id. rewrite (new_row_of_last _ _ _ _ _ _ _ _ Hgives).
      split; [by intros [= <-]|by intros ->].
    + split; [done|]. intros Hnone. by apply Hnone in Hgives.
  - assert (Hold : exists ids1,
               parts_new_row_ids st !! source_num = Some ids1
               /\ ids !! old_row_id = ids1 !! old_row_id).
    { destruct (decide (source_num = recorded)) as [->|Hsource].
      - rewrite list_lookup_insert_eq in Hids by by eapply lookup_lt_Some.
        injection Hids as <-. exists ids0. split; [done|].
        rewrite lookup_insert_ne; [done|]. intros <-. done.
      - rewrite list_lookup_insert_ne in Hids by done. by exists ids. }
    destruct Hold as (ids1 & Hids1 & ->).
    destruct (Hexact source_num ids1 old_row_id Hids1) as [Hsome Hnone].
    split.
    + intros new_row_id. rewrite Hsome. symmetry.
      apply new_row_of_other. by apply Hother.
    + rewrite Hnone. symmetry. apply row_not_kept_other. by apply Hother.
Qed.

Lemma advance_source_exact (collapsing : bool) part_offsets processed st source_num st' :
  replay_exact collapsing part_offsets processed st ->
  advance_source st source_num = Return st' ->
  replay_exact collapsing part_offsets processed st'.
Proof.
  intros Hexact Hadvance.
  apply advance_source_follows in Hadvance as (cursor & _ & _ & Hids & _).
  unfold replay_exact. by rewrite Hids.
Qed.

Lemma replay_record_exact (collapsing : bool) part_offsets processed st row_source st' :
  replay_follows collapsing part_offsets processed st ->
  replay_consistent st ->
  replay_exact collapsing part_offsets processed st ->
  (if collapsing then replay_record_collapsing part_offsets
   else replay_record_plain part_offsets) st row_source = Return st' ->
  replay_exact collapsing part_offsets (processed ++ [row_source]) st'.
Proof.
  intros Hfollows Hconsistent Hexact Hstep.
  destruct collapsing; unfold replay_record_collapsing, replay_record_plain in Hstep;
    bind_inv Hstep st1 Hrecord.
  - destruct (RowSourcePart.getSkipFlag row_source) eqn:Hskip; simpl in Hrecord.
    + injection Hrecord as <-.
      eapply advance_source_exact; [|done]. by apply skipped_record_exact.
    + eapply advance_source_exact; [|done].
      by eapply record_new_row_id_exact.
  - eapply advance_source_exact; [|done].
    by eapply record_new_row_id_exact.
Qed.

Lemma replay_exact_fold (collapsing : bool) part_offsets rows_sources processed st st' :
  (N.of_nat (length processed + length rows_sources) < UInt64.modulus)%N ->
  replay_follows collapsing part_offsets processed st ->
  replay_consistent st ->
  replay_exact collapsing part_offsets processed st ->
  fold_outcome
    (if collapsing then replay_record_collapsing part_offsets
     else replay_record_plain part_offsets) rows_sources st = Return st' ->
  replay_exact collapsing part_offsets (processed ++ rows_sources) st'.
Proof.
  revert processed st.
  induction rows_sources as [|row_source rest IH];
    intros processed st Hrange Hfollows Hconsistent Hexact Hfold; simpl in Hfold.
  - injection Hfold as <-. by rewrite app_nil_r.
  - bind_inv Hfold st1 Hstep. simpl in Hrange.
    pose proof (replay_record_exact collapsing _ processed _ _ _
                  Hfollows Hconsistent Hexact Hstep) as Hexact1.
    pose proof Hfollows as (_ & _ & _ & Hlen & _).
    pose proof (length_kept_records_le collapsing processed) as Hle.
    apply (replay_record_consistent collapsing) in Hstep as Hconsistent1;
      [|lia|done].
    destruct Hconsistent1 as [Hconsistent1 _].
    apply (replay_record_follows collapsing _ processed) in Hstep; [|lia|done].
    replace (processed ++ row_source :: rest)
      with ((processed ++ [row_source]) ++ rest) by by rewrite <- app_assoc.
    apply (IH _ st1); [|done..]. rewrite length_app. simpl. lia.
Qed.

Lemma replayed_exact mode parts rows_sources st :
  (N.of_nat (length rows_sources) < UInt64.modulus)%N ->
  replayed mode parts rows_sources = Return st ->
  replay_exact (is_collapsing_mode mode) (read_part_offsets <$> parts) rows_sources st.
Proof.
  intros Hrange Hreplay. unfold replayed in Hreplay.
  apply (replay_exact_fold (is_collapsing_mode mode) (read_part_offsets <$> parts)
           rows_sources [] (replay_start (length parts))).
  - done.
  - unfold replay_follows, replay_start. simpl.
    rewrite !length_replicate, length_fmap.
    split; [done|]. split; [done|]. split.
    + intros source_num Hsource. by rewrite lookup_replicate_2.
    + split; [by destruct (is_collapsing_mode mode)|]. intros p row_source Hp.
      by rewrite lookup_nil in Hp.
  - split; [done|]. intros source ids old_row_id new_row_id Hids Hid.
    simpl in Hids. apply lookup_replicate in Hids as [-> _]. done.
  - intros source_num ids old_row_id Hids. simpl in Hids.
    apply lookup_replicate in Hids as [-> _]. split.
    + intros new_row_id. rewrite lookup_empty. split; [done|].
      intros (p & Hp & _). apply record_gives_lt in Hp. simpl in Hp. lia.
    + split; [|done]. intros _ p new_row_id Hp.
      apply record_gives_lt in Hp. simpl in Hp. lia.
  - by destruct (is_collapsing_mode mode).
Qed.
End ForwardExact.

Section ForwardMaps.
Context `{Engine}.


End ForwardMaps.
(** ** The rows marked as deleted, read off the rows-sources stream *)

Section DeletedRowsOfStream.
Context `{Engine}.

(** X10.  The bitmap updates of [generateRowIdsMap].  In Collapsing,
    Replacing and VersionedCollapsing mode, every source part that has a
    row from which no kept record of the rows-sources stream is taken
    gets one update for every vector index of the in-memory metadata of
    the table, in the order of the source parts and of the indexes; the
    update holds as many row ids as the part has rows: the rows that were
    not kept in ascending order, followed by zeros; such a part is stored
    on disk, or the call would have raised.  A source part that lost no
    row gets none, and in the other modes no update is made at all. *)
Theorem collapsing_modes_mark_deleted_rows global_ctx ctx rows_sources
        again global_ctx' ctx' :
  let args := GlobalCtx.args global_ctx in
  let parts := FuturePart.parts (MergeTaskArgs.future_part args) in
  let collapsing :=
    is_collapsing_mode (MergingParams.mode (MergeTaskArgs.merging_params args)) in
  let part_offsets := read_part_offsets <$> parts in
  let vector_indices :=
    StorageMetadata.vector_indices (MergeTaskArgs.in_memory_metadata args) in
  Decouple.inverted_row_ids_map_file_path (GlobalCtx.decouple global_ctx) <> "" ->
  HorizontalCtx.rows_sources_write_buf ctx = Some rows_sources ->
  (N.of_nat (length rows_sources) < UInt64.modulus)%N ->
  generateRowIdsMap global_ctx ctx = Return (again, global_ctx', ctx') ->
  (collapsing = false ->
   GlobalCtx.bitmap_updates global_ctx' = GlobalCtx.bitmap_updates global_ctx)
  /\ (collapsing = true ->
      exists ids_of : list (gmap N N),
        length ids_of = length parts
        /\ (forall i ids old_row_id,
              ids_of !! i = Some ids ->
              ids !! old_row_id = None
              <-> row_not_kept collapsing part_offsets rows_sources i old_row_id)
        /\ GlobalCtx.bitmap_updates global_ctx'
           = GlobalCtx.bitmap_updates global_ctx
             ++ concat ((fun source : DataPart.t * gmap N N =>
                           bitmap_updates_of vector_indices source.1 source.2)
                          <$> zip parts ids_of)
        /\ (forall update,
              update ∈ concat ((fun source : DataPart.t * gmap N N =>
                                  bitmap_updates_of vector_indices source.1 source.2)
                                 <$> zip parts ids_of) ->
              exists i part ids,
                parts !! i = Some part
                /\ ids_of !! i = Some ids
                /\ BitmapUpdate.part_name update = DataPart.name part
                /\ BitmapUpdate.index_name update
                   ∈ VectorIndexDescription.name <$> vector_indices
                /\ DataPart.storage_on_disk part = true
                /\ missing_rows ids (DataPart.rows_count part) <> []
                /\ BitmapUpdate.row_ids update
                   = deleted_row_ids ids (DataPart.rows_count part)
                /\ length (BitmapUpdate.row_ids update)
                   = N.to_nat (DataPart.rows_count part))).
Proof.
  cbv zeta. intros Hpath Hbuf Hrange. unfold generateRowIdsMap.
  rewrite decide_False by done. rewrite Hbuf. simpl. intros Hgenerate.
  bind_inv Hgenerate rows_sources_file Hfile.
  rewrite lookup_insert_eq in Hgenerate. simpl in Hgenerate.
  bind_inv Hgenerate new_data_part Hpart.
  bind_inv Hgenerate built Hbuild. destruct built as [[inverted bufs] updates].
  simpl in Hgenerate.
  destruct (if decide (GlobalCtx.chosen_merge_algorithm global_ctx
                       = MergeAlgorithm.Horizontal) then _ else _)
    as [tmp_disk ctx1].
  bind_inv Hgenerate files Hflush. injection Hgenerate as <- <- <-. simpl.
  pose proof Hbuild as Hspec.
  apply build_row_ids_maps_spec in Hspec as (st & Hreplay & _).
  pose proof (replayed_follows _ _ _ _ Hrange Hreplay) as (_ & Hids & _).
  pose proof (replayed_exact _ _ _ _ Hrange Hreplay) as Hexact.
  rewrite length_fmap in Hids.
  unfold build_row_ids_maps in Hbuild. unfold replayed in Hreplay.
  destruct (is_collapsing_mode _) eqn:Hmode.
  - split; [done|]. intros _. exists (parts_new_row_ids st).
    split; [done|].
    split; [intros i ids old_row_id Hi; by apply (Hexact i ids old_row_id Hi)|].
    rewrite Hreplay in Hbuild. simpl in Hbuild.
    bind_inv Hbuild written Hwrite. destruct written as [bufs1 updates1].
    injection Hbuild as _ _ <-.
    apply write_row_ids_maps_collapsing_updates in Hwrite as (sources & Hsources & ->).
    pose proof Hsources as Hzip. apply sources_in_order in Hzip; [|done]. subst sources.
    split; [done|].
    intros update Hupdate.
    apply list_elem_of_In, in_concat in Hupdate as (group & Hgroup & Hin).
    apply list_elem_of_In in Hgroup, Hin.
    apply list_elem_of_fmap in Hgroup as ([part ids] & -> & Hsource). simpl in Hin.
    apply list_elem_of_lookup in Hsource as [i Hsource].
    assert (Hi : seq 0 (length (FuturePart.parts
                                  (MergeTaskArgs.future_part (GlobalCtx.args global_ctx))))
                   !! i = Some i).
    { apply lookup_seq. split; [done|]. apply lookup_lt_Some in Hsource.
      rewrite length_zip_with in Hsource. lia. }
    destruct (Forall2_lookup_lr _ _ _ _ _ _ Hsources Hi Hsource)
      as (Hpart' & Hids' & Hdisk). simpl in Hpart', Hids', Hdisk.
    unfold bitmap_updates_of in Hin.
    destruct (missing_rows ids (DataPart.rows_count part)) as [|first others] eqn:Hmissing;
      [by apply elem_of_nil in Hin|].
    apply list_elem_of_fmap in Hin as (vec_index_desc & -> & Hindex). simpl.
    exists i, part, ids. split; [done|]. split; [done|]. split; [done|].
    split; [by apply list_elem_of_fmap_2|].
    split.
    { apply Hdisk; [done|]. intros Hnone. rewrite Hnone in Hindex.
      by apply elem_of_nil in Hindex. }
    split; [by rewrite Hmissing|]. split; [done|]. apply length_deleted_row_ids.
  - split; [|done]. intros _.
    bind_inv Hbuild st1 Hreplay1. bind_inv Hbuild bufs1 Hwrite.
    by injection Hbuild as _ _ <-.
Qed.
End DeletedRowsOfStream.
(** ** Where the cancellation flags are read *)

Section FlagsRead.
Context `{Engine}.
Context {Child : Type}.
Variable child_create : MergeTaskArgs.t -> Child.
Variable child_execute : Env.t -> Child -> outcome (bool * Child).
Variable child_future : Child -> outcome NewPart.t.

(** The steps of a task that look at the flags: [prepare] and
    [executeImpl]; in a vertical merge, the pull for a gathering column
    and the finalization of the column; and, in the projections stage, a
    step that steps a nested task. *)
Definition reads_flags (task : MergeTask.t Child) : bool :=
  match MergeTask.stage task with
  | ExecuteAndFinalizeHorizontalPart subtasks_iterator _ =>
      (subtasks_iterator <? 2)%nat
  | VerticalMergeStage subtasks_iterator ctx =>
      (subtasks_iterator =? 1)%nat
      && bool_decide (GlobalCtx.chosen_merge_algorithm (MergeTask.global_ctx task)
                      = MergeAlgorithm.Vertical)
      && (VerticalCtx.column_num_for_vertical_merge ctx
          <? GlobalCtx.gathering_column_names_size (MergeTask.global_ctx task))%nat
      && match VerticalCtx.vertical_merge_one_column_state ctx with
         | OneColumnState.NEED_PREPARE => false
         | _ => true
         end
  | MergeProjectionsStage subtasks_iterator ctx =>
      (subtasks_iterator =? 1)%nat
      && bool_decide (is_Some (ProjectionsCtx.tasks_for_projections ctx
                                 !! ProjectionsCtx.projections_iterator ctx))
  | Finished => false
  end.

(** Every other step does the same whatever the flags are. *)
Lemma execute_ignores_flags (task : MergeTask.t Child) env env' :
  reads_flags task = false ->
  execute child_create child_execute child_future env task
  = execute child_create child_execute child_future env' task.
Proof.
  unfold reads_flags, execute.
  destruct (MergeTask.stage task) as [it ctx|it ctx|it ctx|]; [| | |done].
  - destruct it as [|[|it] ]; [done|done|]. intros _.
    unfold horizontal_execute. by destruct it.
  - intros Hquiet. unfold vertical_execute.
    destruct it as [|[|it] ]; [done| |by destruct it].
    unfold executeVerticalMergeForAllColumns. simpl in Hquiet.
    destruct (bool_decide (GlobalCtx.chosen_merge_algorithm (MergeTask.global_ctx task)
                           = MergeAlgorithm.Vertical)); simpl in *; [|done].
    destruct (Nat.ltb_spec (VerticalCtx.column_num_for_vertical_merge ctx)
                (GlobalCtx.gathering_column_names_size (MergeTask.global_ctx task)))
      as [Hlt|Hge]; simpl in Hquiet.
    + rewrite (proj2 (Nat.leb_gt _ _) Hlt).
      by destruct (VerticalCtx.vertical_merge_one_column_state ctx).
    + by rewrite (proj2 (Nat.leb_le _ _) Hge).
  - intros Hquiet. unfold projections_execute.
    destruct it as [|[|it] ]; [done| |by destruct it].
    unfold executeProjections. simpl in Hquiet.
    destruct (ProjectionsCtx.tasks_for_projections ctx
                !! ProjectionsCtx.projections_iterator ctx) as [child|]; [|done].
    rewrite bool_decide_true in Hquiet by by eexists. done.
Qed.
End FlagsRead.

Section NestedFlags.
Context `{Engine}.

(** A nested task does not look at the cancel flag of the merge. *)
Lemma projection_execute_flags env env' (task : ProjectionTask) :
  Env.merges_blocker env = Env.merges_blocker env' ->
  Env.ttl_merges_blocker env = Env.ttl_merges_blocker env' ->
  projection_execute env task = projection_execute env' task.
Proof.
  intros Hblocker Httl. unfold projection_execute, projection_env.
  by rewrite Hblocker, Httl.
Qed.

(** C8, amended.  The cancellation flags are looked at in [prepare], at
    every [executeImpl] step, in the vertical stage of a vertical merge
    before every pull for a column and when the column is finalized, and
    by the nested tasks of the projections stage.  At [prepare] and
    [executeImpl] a set merges blocker or cancel flag raises Aborted with
    the message "Cancelled merging parts" and no block is pulled; in the
    vertical stage the pull is skipped, that step returns, and the next
    step finalizes the column and raises Aborted.  A step that leaves work
    to do never resolves the promise.  Every other step does the same
    whatever the flags are: a merge that is horizontal, not decoupled and
    without projections, whose flags are unset during the block loop, runs
    to its promise whatever the flags are afterwards.  In the projections
    stage a step that steps a nested task depends on the two blockers
    only, not on the cancel flag of the merge, and with the merges blocker
    set it raises Aborted when the nested task is at its [prepare] or in
    its block loop. *)
Theorem cancellation_checkpoints (worlds : string -> World.t) env global_ctx :
  cancelled env ->
  (forall ctx, prepare env global_ctx ctx = Throw ABORTED "Cancelled merging parts")
  /\ (forall ctx, executeImpl env global_ctx ctx = Throw ABORTED "Cancelled merging parts")
  /\ (forall ctx,
        executeVerticalMergeForOneColumn env global_ctx ctx
        = Return (false, global_ctx, ctx))
  /\ (forall ctx,
        is_Some (ColumnSets.gathering_columns (GlobalCtx.column_sets global_ctx)
                   !! VerticalCtx.it_name_and_type ctx) ->
        finalizeVerticalMergeForOneColumn env global_ctx ctx
        = Throw ABORTED "Cancelled merging parts")
  /\ (forall ctx env',
        cancelled env' ->
        GlobalCtx.chosen_merge_algorithm global_ctx = MergeAlgorithm.Vertical ->
        VerticalCtx.column_num_for_vertical_merge ctx
        < GlobalCtx.gathering_column_names_size global_ctx ->
        VerticalCtx.vertical_merge_one_column_state ctx = OneColumnState.NEED_EXECUTE ->
        is_Some (ColumnSets.gathering_columns (GlobalCtx.column_sets global_ctx)
                   !! VerticalCtx.it_name_and_type ctx) ->
        exists task',
          merge_execute worlds env
            {| MergeTask.global_ctx := global_ctx;
               MergeTask.stage := VerticalMergeStage 1 ctx |}
          = Return (true, task')
          /\ GlobalCtx.rows_written (MergeTask.global_ctx task')
             = GlobalCtx.rows_written global_ctx
          /\ merge_execute worlds env' task'
             = Throw ABORTED "Cancelled merging parts")
  /\ (forall (task task' : PartMergeTask) env0,
        merge_execute worlds env0 task = Return (true, task') ->
        GlobalCtx.promise (MergeTask.global_ctx task')
        = GlobalCtx.promise (MergeTask.global_ctx task))
  /\ (forall (task : PartMergeTask) env1 env2,
        reads_flags task = false ->
        merge_execute worlds env1 task = merge_execute worlds env2 task)
  /\ (forall (envs : nat -> Env.t) step ctx executor new_data_part,
        let blocks := MergingExecutor.remaining executor in
        let d := GlobalCtx.decouple global_ctx in
        let task : PartMergeTask :=
          {| MergeTask.global_ctx := global_ctx;
             MergeTask.stage := ExecuteAndFinalizeHorizontalPart 1 ctx |} in
        GlobalCtx.merging_executor global_ctx = Some executor ->
        (MergingExecutor.rows_sources_out executor = true ->
         is_Some (HorizontalCtx.rows_sources_write_buf ctx)) ->
        (forall n, n <= length blocks -> no_flag_set (envs (step + n))) ->
        GlobalCtx.chosen_merge_algorithm global_ctx <> MergeAlgorithm.Vertical ->
        Decouple.inverted_row_ids_map_file_path d = "" ->
        Decouple.can_be_decouple d = false ->
        Decouple.only_one_vpart_merged d = false ->
        GlobalCtx.new_data_part global_ctx = Some new_data_part ->
        StorageMetadata.projections
          (MergeTaskArgs.metadata_snapshot (GlobalCtx.args global_ctx)) = [] ->
        exists task',
          (forall fuel,
             length blocks + 8 <= fuel ->
             run (fun args =>
                    MergeTask_create
                      (worlds (FuturePart.name (MergeTaskArgs.future_part args))) args)
                 projection_execute task_future fuel step envs task
             = Return (Some task'))
          /\ MergeTask.stage task' = Finished
          /\ (NewPart.rows_count <$> GlobalCtx.promise (MergeTask.global_ctx task'))
             = Some (counted Pulled.rows (GlobalCtx.rows_written global_ctx) blocks))
  /\ (forall (task : PartMergeTask) env1 env2 subtasks_iterator ctx,
        MergeTask.stage task = MergeProjectionsStage subtasks_iterator ctx ->
        Env.merges_blocker env1 = Env.merges_blocker env2 ->
        Env.ttl_merges_blocker env1 = Env.ttl_merges_blocker env2 ->
        merge_execute worlds env1 task = merge_execute worlds env2 task)
  /\ (forall ctx (child : ProjectionTask) subtasks_iterator child_ctx,
        Env.merges_blocker env = true ->
        ProjectionsCtx.tasks_for_projections ctx
          !! ProjectionsCtx.projections_iterator ctx = Some child ->
        MergeTask.stage child
        = ExecuteAndFinalizeHorizontalPart subtasks_iterator child_ctx ->
        subtasks_iterator < 2 ->
        merge_execute worlds env
          {| MergeTask.global_ctx := global_ctx;
             MergeTask.stage := MergeProjectionsStage 1 ctx |}
        = Throw ABORTED "Cancelled merging parts").
Proof.
  intros Hcancelled.
  destruct (cancelled_steps
              (fun args =>
                 MergeTask_create
                   (worlds (FuturePart.name (MergeTaskArgs.future_part args))) args)
              projection_execute task_future env global_ctx Hcancelled)
    as (Hprepare & Himpl & Hpull & Hfinish & Hvertical & Hpromise).
  split; [done|]. split; [done|]. split; [done|]. split; [done|].
  split; [exact Hvertical|]. split; [exact Hpromise|].
  split; [|split; [|split] ].
  - intros task env1 env2. apply execute_ignores_flags.
  - intros envs step ctx executor new_data_part blocks d task
           Hexecutor Hbuf Hquiet Halgorithm Hpath Hdecouple Hone Hpart Hprojections.
    destruct (plain_merge_steps
                (fun args =>
                   MergeTask_create
                     (worlds (FuturePart.name (MergeTaskArgs.future_part args))) args)
                projection_execute task_future envs step global_ctx ctx executor
                new_data_part Hexecutor Hbuf Hquiet Halgorithm Hpath Hdecouple Hone Hpart
                Hprojections)
      as (_ & task' & Hrun & Hstage & Hpromised & _).
    exists task'. split; [exact Hrun|]. split; [exact Hstage|].
    by rewrite Hpromised.
  - intros [g stage] env1 env2 it ctx Hstage Hblocker Httl.
    simpl in Hstage. subst stage. unfold merge_execute, execute. simpl.
    unfold projections_execute.
    destruct it as [|[|it] ]; [done| |done].
    unfold executeProjections.
    destruct (_ !! _) as [child|]; [|done].
    by rewrite (projection_execute_flags env1 env2 child Hblocker Httl).
  - intros ctx child it child_ctx Hblocker Hchild Hstage Hit.
    unfold merge_execute, execute. simpl. unfold projections_execute, executeProjections.
    unfold ProjectionTask in *. rewrite Hchild.
    assert (Hnested : projection_execute env child
                      = Throw ABORTED "Cancelled merging parts").
    { unfold projection_execute, execute. rewrite Hstage. unfold horizontal_execute.
      assert (Hset : cancelled (projection_env env)) by (left; exact Hblocker).
      destruct (cancelled_steps (fun _ => tt) (fun _ _ => Undefined) (fun _ => Undefined)
                  (projection_env env) (MergeTask.global_ctx child) Hset)
        as (Hprepare' & Himpl' & _).
      destruct it as [|[|it] ]; [by rewrite Hprepare'|by rewrite Himpl'|lia]. }
    by rewrite Hnested.
Qed.
End NestedFlags.

(** * Concrete instances *)

Section Instances.
#[local] Existing Instance Examples.engine.

Definition no_projection_worlds : string -> World.t := fun _ => Examples.world [] [].

(** *** C5 *)



(** *** C1 *)

(** Two sources with a built index, one row each with the same key, in
    Replacing mode: the row of the first source is replaced. *)
Definition replacing_task : PartMergeTask :=
  MergeTask_create
    (Examples.world [Examples.pulled 1 [Examples.skipped 0; Examples.emitted 1]] [1%N])
    (Examples.merge_args MergingParams.Replacing
       [Examples.part "A" 1 Examples.built; Examples.part "B" 1 Examples.built]
       (Examples.metadata true []) (Examples.settings 1 true)).


(** The merge of the scenario S1, with both vector indexes built, once
    all blocks are pulled. *)
Definition two_by_two_pulled : GlobalCtx.t * HorizontalCtx.t :=
  let task :=
    Examples.two_by_two (Examples.part "A" 2 Examples.built)
      (Examples.part "B" 2 Examples.built)
      MergingParams.Ordinary (Examples.metadata true []) (Examples.settings 1 true) in
  default (MergeTask.global_ctx task, HorizontalCtx_initial)
    (Examples.horizontal_state
       (merge_steps no_projection_worlds [Env.quiet; Env.quiet; Env.quiet] task)).

(** *** C2 *)

(** A new task over the source parts [parts], with the setting
    [enable_decouple_vector_index] on. *)
Definition eligibility_task (parts : list DataPart.t) : PartMergeTask :=
  MergeTask_create
    (Examples.world [Examples.pulled 2 [Examples.emitted 0; Examples.emitted 0]] [2%N])
    (Examples.merge_args MergingParams.Ordinary parts
       (Examples.metadata true []) (Examples.settings 1 true)).

Definition prepared_flags (parts : list DataPart.t) : option (bool * bool) :=
  Examples.decouple_flags
    (prepare Env.quiet (MergeTask.global_ctx (eligibility_task parts))
             HorizontalCtx_initial).

Definition every_non_empty_source_is_built (parts : list DataPart.t) : Prop :=
  forall part, part ∈ parts -> DataPart.rows_count part <> 0%N ->
               DataPart.vector_index part !! "v_idx" = Some VectorIndexState.BUILT.

(** C2, as stated, fails, in three ways.  The only source part is not
    empty and has a built index: [prepare] ends with [can_be_decouple]
    cleared (and [only_one_vpart_merged] set).  A non-empty source part
    has no built index, and an empty one has: the empty part is counted
    twice and [can_be_decouple] is set.  Every non-empty source part has
    a built index, and an empty one carries no index: the empty part is
    not counted and [can_be_decouple] stays cleared. *)
Lemma single_built_source_is_not_decoupled :
  (every_non_empty_source_is_built [Examples.part "A" 2 Examples.built]
   /\ prepared_flags [Examples.part "A" 2 Examples.built] = Some (false, true))
  /\ (~ every_non_empty_source_is_built
          [Examples.part "A" 2 Examples.built; Examples.part "B" 2 Examples.pending;
           Examples.part "C" 0 Examples.built]
      /\ prepared_flags
           [Examples.part "A" 2 Examples.built; Examples.part "B" 2 Examples.pending;
            Examples.part "C" 0 Examples.built] = Some (true, false))
  /\ (every_non_empty_source_is_built
        [Examples.part "A" 2 Examples.built; Examples.part "B" 2 Examples.built;
         Examples.part "C" 0 ∅]
      /\ prepared_flags
           [Examples.part "A" 2 Examples.built; Examples.part "B" 2 Examples.built;
            Examples.part "C" 0 ∅] = Some (false, false)).
Proof.
  split; [|split]; (split; [|vm_compute; reflexivity]).
  - intros part Hin _. apply list_elem_of_singleton in Hin as ->. reflexivity.
  - intros Hall.
    assert (Hin : Examples.part "B" 2 Examples.pending
                  ∈ [Examples.part "A" 2 Examples.built;
                     Examples.part "B" 2 Examples.pending;
                     Examples.part "C" 0 Examples.built])
      by (right; left).
    specialize (Hall _ Hin). discriminate Hall. discriminate.
  - intros part Hin Hrows.
    apply elem_of_cons in Hin as [->|Hin]; [reflexivity|].
    apply elem_of_cons in Hin as [->|Hin]; [reflexivity|].
    apply list_elem_of_singleton in Hin as ->. by destruct Hrows.
Qed.

(** Two sources with a built index and an empty source whose index is
    not built: the counts add up, and the part is decoupled. *)
Lemma can_be_decouple_iff_reusable_witness :
  let parts := [Examples.part "A" 2 Examples.built; Examples.part "B" 2 Examples.built;
                Examples.part "C" 0 Examples.pending] in
  let vector_indices := StorageMetadata.vector_indices (Examples.metadata true []) in
  (counted_eligible vector_indices parts <-> some_index_reusable vector_indices parts)
  /\ exists d,
       checkDecouple (Examples.settings 1 true) vector_indices parts Decouple_initial
       = Return d
       /\ (Decouple.can_be_decouple d = true
           <-> some_index_reusable vector_indices parts
               /\ ~ single_source_without_lwd parts)
       /\ Decouple.can_be_decouple d = true.
Proof.
  intros parts vector_indices.
  destruct (can_be_decouple_iff_reusable (Child := unit) (fun _ => Undefined)
              (Examples.settings 1 true) vector_indices parts Decouple_initial)
    as (_ & _ & Hon & _).
  - reflexivity.
  - reflexivity.
  - destruct Hon as (Hcounted & d & Hd & Hcan & _).
    + reflexivity.
    + discriminate.
    + intros vec_index Hindex part Hin Hrows.
      apply list_elem_of_singleton in Hindex as ->.
      apply elem_of_cons in Hin as [->|Hin]; [discriminate Hrows|].
      apply elem_of_cons in Hin as [->|Hin]; [discriminate Hrows|].
      apply list_elem_of_singleton in Hin as ->.
      exists VectorIndexState.PENDING. split; [reflexivity|discriminate].
    + split; [exact Hcounted|]. exists d. split; [exact Hd|]. split; [exact Hcan|].
      vm_compute in Hd. injection Hd as <-. reflexivity.
Defined.

(** *** C4 and C9 *)

(** A vertical merge of two sources of two rows, stepped under [envs]. *)
Definition vertical_after (envs : list Env.t) : GlobalCtx.t * VerticalCtx.t :=
  let task :=
    Examples.two_by_two (Examples.part "A" 2 ∅) (Examples.part "B" 2 ∅)
      MergingParams.Ordinary (Examples.metadata false []) (Examples.settings 1 false) in
  default (MergeTask.global_ctx task, horizontal_getContextForNextStage HorizontalCtx_initial)
    (Examples.vertical_state (merge_steps no_projection_worlds envs task)).

Lemma rows_sources_count_is_enforced_witness :
  exists global_ctx' ctx',
    prepareVerticalMergeForAllColumns
      (vertical_after (replicate 4 Env.quiet)).1 (vertical_after (replicate 4 Env.quiet)).2
    = Return (false, global_ctx', ctx')
    /\ VerticalCtx.rows_sources_read_buf ctx'
       = Some [Examples.emitted 0; Examples.emitted 1;
               Examples.emitted 0; Examples.emitted 1]
    /\ VerticalCtx.column_num_for_vertical_merge ctx' = 0.
Proof.
  destruct (rows_sources_count_is_enforced
              (vertical_after (replicate 4 Env.quiet)).1
              (vertical_after (replicate 4 Env.quiet)).2)
    as [Hvertical _].
  edestruct (Hvertical [Examples.emitted 0; Examples.emitted 1;
                        Examples.emitted 0; Examples.emitted 1])
    as [Hchecked _].
  - vm_compute. reflexivity.
  - vm_compute. reflexivity.
  - vm_compute. reflexivity.
  - vm_compute. reflexivity.
  - destruct Hchecked as (_ & Hequal & _).
    + left. simpl. lia.
    + apply Hequal. vm_compute. reflexivity.
Defined.

(** C4, as stated, fails: a Summing merge of two sources of two rows
    with a built index is horizontal and decoupled, so that the
    rows-sources file is opened, and read when the row-ids maps are
    written; the summing transform is not handed the buffer, and once all
    blocks are pulled the stream has no entry, no row was filtered, and
    four rows were read from sources of four rows.  Nothing checks the
    count: the merge runs to its end and promises the part, with forward
    maps that hold the sentinel only. *)
Lemma summing_merge_leaves_the_stream_empty :
  let parts := [Examples.part "A" 2 Examples.built; Examples.part "B" 2 Examples.built] in
  let task : PartMergeTask :=
    MergeTask_create
      (Examples.world
         [Examples.pulled 4 [Examples.emitted 0; Examples.emitted 1;
                             Examples.emitted 0; Examples.emitted 1]] [4%N])
      (Examples.merge_args MergingParams.Summing parts
         (Examples.metadata true []) (Examples.settings 1 true)) in
  let pulled :=
    Examples.horizontal_state
      (merge_steps no_projection_worlds [Env.quiet; Env.quiet; Env.quiet] task) in
  ((fun state : GlobalCtx.t * HorizontalCtx.t =>
      (Decouple.can_be_decouple (GlobalCtx.decouple state.1),
       HorizontalCtx.rows_sources_write_buf state.2,
       GlobalCtx.input_rows_filtered state.1,
       MergeListElement.rows_read (GlobalCtx.merge_list_element state.1))) <$> pulled)
  = Some (true, Some [], 0%N, 4%N)
  /\ foldr N.add 0%N (DataPart.rows_count <$> parts) = 4%N
  /\ Examples.promised_rows
       (merge_run no_projection_worlds 30 (fun _ => Env.quiet) task) = Some 4%N
  /\ Examples.row_ids_maps
       (merge_run no_projection_worlds 30 (fun _ => Env.quiet) task)
     = ([ [UInt64.MAX; UInt64.MAX]; [UInt64.MAX; UInt64.MAX] ], Some []).
Proof. repeat split; vm_compute; reflexivity. Qed.

(** C9, as stated, fails: the merge is cancelled while the column [x] is
    gathered; no element of the column is written against four rows of
    the key, and finalizing the column raises Aborted, not LogicalError. *)
Lemma cancelled_column_raises_aborted :
  let state := vertical_after (replicate 6 Env.quiet ++ [Examples.blocker_set]) in
  GlobalCtx.rows_written state.1 = 4%N
  /\ VerticalCtx.column_elems_written state.2 = 0%N
  /\ finalizeVerticalMergeForOneColumn Examples.blocker_set state.1 state.2
     = Throw ABORTED "Cancelled merging parts".
Proof. repeat split; vm_compute; reflexivity. Qed.

Lemma finalize_one_column_checks_counts_witness :
  let state := vertical_after (replicate 8 Env.quiet) in
  exists global_ctx' ctx',
    finalizeVerticalMergeForOneColumn Env.quiet state.1 state.2
    = Return (global_ctx', ctx')
    /\ VerticalCtx.column_num_for_vertical_merge ctx'
       = VerticalCtx.column_num_for_vertical_merge state.2 + 1.
Proof.
  intros state.
  destruct (finalize_one_column_checks_counts Env.quiet state.1 state.2
              (Examples.column "x") "x") as (_ & _ & Hequal & _).
  - vm_compute. reflexivity.
  - vm_compute. reflexivity.
  - apply Hequal.
    + unfold cancelled. simpl. intros [Hset|Hset]; discriminate Hset.
    + vm_compute. reflexivity.
Defined.

(** *** C7 *)

(** Two sources; both have a part of the aggregate projection [by_k], only
    the first has a part of the projection [by_x]. *)
Definition projected_context : GlobalCtx.t :=
  let by_k := {[ "by_k" := Examples.part "by_k" 1 ∅ ]} in
  let args :=
    Examples.merge_args MergingParams.Ordinary
      [ Examples.with_projection_parts
          (<[ "by_x" := Examples.part "by_x" 2 ∅ ]> by_k) (Examples.part "A" 2 ∅);
        Examples.with_projection_parts by_k (Examples.part "B" 2 ∅) ]
      (Examples.metadata false
         [ {| ProjectionDescription.name := "by_k";
              ProjectionDescription.type := ProjectionDescription.Aggregate;
              ProjectionDescription.columns := [Examples.column "k"];
              ProjectionDescription.sorting_key_columns := ["k"] |};
           {| ProjectionDescription.name := "by_x";
              ProjectionDescription.type := ProjectionDescription.Normal;
              ProjectionDescription.columns := [Examples.column "x"];
              ProjectionDescription.sorting_key_columns := ["x"] |} ])
      (Examples.settings 1 false) in
  GlobalCtx.with_new_data_part (Some (build_new_data_part args))
    (MergeTask.global_ctx (MergeTask_create (Child := ProjectionTask)
                             (Examples.world [] []) args)).


(** *** C6 *)

(** Three sources with the rows A, C, A, C: the second source is empty
    and its index is not built. *)
Definition with_empty_source : PartMergeTask :=
  MergeTask_create
    (Examples.world
       [Examples.pulled 4 [Examples.emitted 0; Examples.emitted 2;
                           Examples.emitted 0; Examples.emitted 2]] [4%N])
    (Examples.merge_args MergingParams.Ordinary
       [Examples.part "A" 2 Examples.built; Examples.part "B" 0 Examples.pending;
        Examples.part "C" 2 Examples.built]
       (Examples.metadata true []) (Examples.settings 100 true)).

(** C6, as stated, fails: the second source is empty, and the directory
    of the decoupled part holds a forward row-ids map for it. *)
Lemma empty_source_has_forward_map_file :
  (DataPart.rows_count <$>
     FuturePart.parts
       (MergeTaskArgs.future_part
          (GlobalCtx.args (MergeTask.global_ctx with_empty_source)))) !! 1
  = Some 0%N
  /\ Examples.promised_files
       (merge_run no_projection_worlds 30 (fun _ => Env.quiet) with_empty_source)
     = [ "store/tmp_merge_all_1_2_1/merged-inverted_row_sources_map.vidx3";
         "store/tmp_merge_all_1_2_1/merged-inverted_row_ids_map.vidx3";
         "store/tmp_merge_all_1_2_1/merged-1-B-row_ids_map.vidx3";
         "store/tmp_merge_all_1_2_1/merged-2-C-v_idx.vidx3";
         "store/tmp_merge_all_1_2_1/merged-2-C-row_ids_map.vidx3";
         "store/tmp_merge_all_1_2_1/merged-0-A-v_idx.vidx3";
         "store/tmp_merge_all_1_2_1/merged-0-A-row_ids_map.vidx3" ].
Proof. split; vm_compute; reflexivity. Qed.

(** The same merge when only the finalizer is left to run:  the context,
    the part under construction, and what the decouple branch of the
    finalizer makes of them. *)
Definition before_finalizer : GlobalCtx.t :=
  Eval vm_compute in
    default (MergeTask.global_ctx with_empty_source)
      (Examples.projections_state
         (merge_steps no_projection_worlds (replicate 9 Env.quiet) with_empty_source)).

Definition part_before_finalizer : NewPart.t :=
  Eval vm_compute in
    default (build_new_data_part (GlobalCtx.args before_finalizer))
      (GlobalCtx.new_data_part before_finalizer).

Definition finalized : GlobalCtx.t * NewPart.t :=
  Eval vm_compute in
    match finalize_decouple before_finalizer part_before_finalizer with
    | Return result => result
    | _ => (before_finalizer, part_before_finalizer)
    end.

Definition finalized_checksums : gmap string Checksum.t :=
  Eval vm_compute in
    default ∅ (NewPart.vector_index_checksums finalized.2 !! "v_idx").

(** The same merge once its blocks are pulled, and once its row-ids maps
    are written. *)
Definition with_empty_pulled : GlobalCtx.t * HorizontalCtx.t :=
  Eval vm_compute in
    default (MergeTask.global_ctx with_empty_source, HorizontalCtx_initial)
      (Examples.horizontal_state
         (merge_steps no_projection_worlds (replicate 3 Env.quiet) with_empty_source)).

Definition with_empty_mapped : GlobalCtx.t * HorizontalCtx.t :=
  Eval vm_compute in
    match generateRowIdsMap with_empty_pulled.1 with_empty_pulled.2 with
    | Return (_, global_ctx, ctx) => (global_ctx, ctx)
    | _ => with_empty_pulled
    end.

(** The index [v_idx] gets its checksums, which list the forward map of
    the third source and not the one of the second, empty source; the
    file of the forward map of the second source is written, without any
    entry. *)
Lemma decouple_checksums_and_map_files_witness :
  finalize_decouple before_finalizer part_before_finalizer = Return finalized
  /\ (exists checksums,
        NewPart.vector_index_checksums finalized.2 !! "v_idx" = Some checksums
        /\ is_Some (checksums !! "merged-2-C-row_ids_map.vidx3")
        /\ ~ is_Some (checksums !! "merged-1-B-row_ids_map.vidx3"))
  /\ (exists new_data_part',
        GlobalCtx.new_data_part with_empty_mapped.1 = Some new_data_part'
        /\ NewPart.files new_data_part'
             !! "store/tmp_merge_all_1_2_1/merged-1-B-row_ids_map.vidx3"
           = Some (IntText [])).
Proof.
  assert (Hfinal : finalize_decouple before_finalizer part_before_finalizer
                   = Return (finalized.1, finalized.2))
    by (vm_compute; reflexivity).
  split; [exact Hfinal|]. split.
  - destruct (proj1 (decouple_checksums_and_map_files before_finalizer)
                part_before_finalizer finalized.1 finalized.2 "v_idx" Hfinal)
      as [Hmoved _].
    destruct Hmoved as (checksums & Hchecksums & Hlisted).
    + split; [|split].
      * eexists. split; [left|]; reflexivity.
      * vm_compute. reflexivity.
      * exists 0, (Examples.part "A" 2 Examples.built).
        split; [vm_compute; reflexivity|discriminate].
    + exists checksums. split; [exact Hchecksums|]. split.
      * apply Hlisted. right. left. exists 2, (Examples.part "C" 2 Examples.built).
        split; [vm_compute; reflexivity|]. split; [discriminate|].
        vm_compute. reflexivity.
      * assert (Hfinalized : NewPart.vector_index_checksums finalized.2 !! "v_idx"
                             = Some finalized_checksums)
          by (vm_compute; reflexivity).
        rewrite Hfinalized in Hchecksums. injection Hchecksums as <-.
        intros [checksum Hfile]. vm_compute in Hfile. discriminate Hfile.
  - destruct (proj2 (proj2 (proj2 (decouple_checksums_and_map_files with_empty_pulled.1)))
                with_empty_pulled.2 false with_empty_mapped.1 with_empty_mapped.2
                1 (Examples.part "B" 0 Examples.pending)
                "store/tmp_merge_all_1_2_1/merged-1-B-row_ids_map.vidx3")
      as (new_data_part' & forward & Hpart & _ & Hfile & Hempty).
    + vm_compute. discriminate.
    + apply (bool_decide_unpack _). vm_compute. exact I.
    + vm_compute. reflexivity.
    + vm_compute. reflexivity.
    + vm_compute. reflexivity.
    + exists new_data_part'. split; [exact Hpart|].
      rewrite Hfile. rewrite Hempty; reflexivity.
Defined.

(** *** C8 *)

(** A horizontal merge of two sources of two rows. *)
Definition horizontal_task : PartMergeTask :=
  Examples.two_by_two (Examples.part "A" 2 ∅) (Examples.part "B" 2 ∅)
    MergingParams.Ordinary (Examples.metadata false []) (Examples.settings 100 false).

(** C8, as stated, fails: the merges blocker is set once the last block is
    pulled and stays set; no later step looks at it, and the merge
    promises the new part with all four rows. *)
Lemma blocker_after_last_block_is_ignored :
  let env := fun step => if (step <? 3)%nat then Env.quiet else Examples.blocker_set in
  cancelled (env 3)
  /\ Examples.promised_rows (merge_run no_projection_worlds 30 env horizontal_task)
     = Some 4%N.
Proof. split; [left|]; vm_compute; reflexivity. Qed.
End Instances.

(** * Concrete instances of the further properties *)

Section MoreInstances.
#[local] Existing Instance Examples.engine.

(** *** The split of the columns *)

Lemma extract_splits_storage_columns_witness :
  exists sets,
    extractMergingAndGatheringColumns
      [Examples.column "k"; Examples.column "x"] ["k"] []
      (Examples.params MergingParams.Ordinary) ColumnSets.empty = Return sets
    /\ ColumnSets.merging_columns sets = [Examples.column "k"]
    /\ ColumnSets.gathering_columns sets = [Examples.column "x"].
Proof.
  destruct (extract_splits_storage_columns
              [Examples.column "k"; Examples.column "x"] ["k"] []
              (Examples.params MergingParams.Ordinary))
    as [Hsplit _].
  destruct Hsplit as (sets & Hextract & Hmerging & Hgathering & _).
  - right. discriminate.
  - exists sets. split; [exact Hextract|]. split.
    + rewrite Hmerging. vm_compute. reflexivity.
    + rewrite Hgathering. vm_compute. reflexivity.
Defined.

(** A source part whose column [x] has a finished TTL. *)
Definition part_with_expired_x (name : string) : DataPart.t :=
  {| DataPart.name := name;
     DataPart.rows_count := 2;
     DataPart.part_type := MergeTreeDataPartType.Wide;
     DataPart.marks_count := 1;
     DataPart.part_offsets := [0%N; 1%N];
     DataPart.vector_index := ∅;
     DataPart.has_lightweight_delete := false;
     DataPart.ttl_infos :=
       {| TTLInfos.part_min_ttl := 0; TTLInfos.columns_ttl := [("x", true)] |};
     DataPart.all_ttl_calculated := true;
     DataPart.projection_parts := ∅;
     DataPart.storage_on_disk := true |}.

(** A new task over two such parts, and what [prepare] makes of it. *)
Definition task_with_expired_x : PartMergeTask :=
  Examples.two_by_two (part_with_expired_x "A") (part_with_expired_x "B")
    MergingParams.Ordinary (Examples.metadata false []) (Examples.settings 100 false).

Definition prepared_with_expired_x : GlobalCtx.t * HorizontalCtx.t :=
  Eval vm_compute in
    default (MergeTask.global_ctx task_with_expired_x, HorizontalCtx_initial)
      (Examples.horizontal_state
         (merge_steps no_projection_worlds [Env.quiet] task_with_expired_x)).

Lemma prepare_splits_columns_witness :
  ColumnSets.merging_columns (GlobalCtx.column_sets prepared_with_expired_x.1)
  = [Examples.column "k"]
  /\ ColumnSets.gathering_columns (GlobalCtx.column_sets prepared_with_expired_x.1) = [].
Proof.
  destruct (prepare_splits_columns Env.quiet
              (MergeTask.global_ctx task_with_expired_x) HorizontalCtx_initial
              false prepared_with_expired_x.1 prepared_with_expired_x.2)
    as (new_data_part' & Hpart & _ & [(_ & Hmerging & Hgathering)|(Hvertical & _)]).
  - reflexivity.
  - vm_compute. reflexivity.
  - split; [|exact Hgathering]. rewrite Hmerging.
    vm_compute in Hpart. injection Hpart as <-. vm_compute. reflexivity.
  - vm_compute in Hvertical. discriminate Hvertical.
Defined.

Lemma prepare_records_expired_columns_witness :
  (NewPart.expired_columns
     <$> GlobalCtx.new_data_part prepared_with_expired_x.1) = Some {[ "x" ]}.
Proof.
  destruct (GlobalCtx.new_data_part prepared_with_expired_x.1)
    as [new_data_part'|] eqn:Hpart; [|vm_compute in Hpart; discriminate Hpart].
  destruct (prepare_records_expired_columns Env.quiet
              (MergeTask.global_ctx task_with_expired_x) HorizontalCtx_initial
              false prepared_with_expired_x.1 prepared_with_expired_x.2 new_data_part')
    as [_ Hskipped].
  - split; reflexivity.
  - vm_compute. reflexivity.
  - exact Hpart.
  - destruct Hskipped as [Hexpired _]; [reflexivity|].
    simpl. rewrite Hexpired. vm_compute in Hpart. injection Hpart as <-.
    vm_compute. reflexivity.
Defined.

(** *** The rows-sources file and the block loop *)

(** A new task over two sources with a built index (the scenario S1),
    and the task once prepared, once its blocks are pulled, and once
    its row-ids maps are written. *)
Definition decoupled_task : PartMergeTask :=
  Examples.two_by_two (Examples.part "A" 2 Examples.built)
    (Examples.part "B" 2 Examples.built)
    MergingParams.Ordinary (Examples.metadata true []) (Examples.settings 1 true).

Definition after_steps (steps : nat) (task : PartMergeTask)
    : GlobalCtx.t * HorizontalCtx.t :=
  default (MergeTask.global_ctx task, HorizontalCtx_initial)
    (Examples.horizontal_state
       (merge_steps no_projection_worlds (replicate steps Env.quiet) task)).

Definition mapped (state : GlobalCtx.t * HorizontalCtx.t)
    : GlobalCtx.t * HorizontalCtx.t :=
  match generateRowIdsMap state.1 state.2 with
  | Return (_, global_ctx, ctx) => (global_ctx, ctx)
  | _ => state
  end.

Definition decoupled_prepared : GlobalCtx.t * HorizontalCtx.t :=
  Eval vm_compute in after_steps 1 decoupled_task.

Definition decoupled_pulled : GlobalCtx.t * HorizontalCtx.t :=
  Eval vm_compute in after_steps 3 decoupled_task.

Definition decoupled_mapped : GlobalCtx.t * HorizontalCtx.t :=
  Eval vm_compute in mapped decoupled_pulled.

Lemma prepare_opens_rows_sources_witness :
  HorizontalCtx.rows_sources_write_buf decoupled_prepared.2 = Some []
  /\ HorizontalCtx.rows_sources_file decoupled_prepared.2
     = Some {| TemporaryFile.path := rows_sources_file_path;
               TemporaryFile.kept := true |}.
Proof.
  destruct (prepare_opens_rows_sources Env.quiet
              (MergeTask.global_ctx decoupled_task) HorizontalCtx_initial
              false decoupled_prepared.1 decoupled_prepared.2)
    as [Hopened _].
  - split; reflexivity.
  - reflexivity.
  - reflexivity.
  - vm_compute. reflexivity.
  - destruct Hopened as (Hbuf & Hfile & _). split; [exact Hbuf|exact Hfile].
Defined.

Lemma executeImpl_drains_pipeline_witness :
  exists global_ctx' ctx',
    executeImpl_loop Env.quiet 2 decoupled_prepared.1 decoupled_prepared.2
    = Return (Some (global_ctx', ctx'))
    /\ GlobalCtx.rows_written global_ctx' = 4%N
    /\ HorizontalCtx.rows_sources_write_buf ctx'
       = Some [Examples.emitted 0; Examples.emitted 1;
               Examples.emitted 0; Examples.emitted 1].
Proof.
  destruct (executeImpl_drains_pipeline Env.quiet
              decoupled_prepared.1 decoupled_prepared.2
              {| MergingExecutor.remaining :=
                   [Examples.pulled 4 [Examples.emitted 0; Examples.emitted 1;
                                       Examples.emitted 0; Examples.emitted 1]];
                 MergingExecutor.rows_sources_out := true |} 2)
    as (global_ctx' & ctx' & Hloop & Hrows & _ & _ & _ & Hbuf & _).
  - vm_compute. reflexivity.
  - reflexivity.
  - reflexivity.
  - reflexivity.
  - intros _. vm_compute. eexists. reflexivity.
  - simpl. lia.
  - exists global_ctx', ctx'. split; [exact Hloop|]. split.
    + rewrite Hrows. vm_compute. reflexivity.
    + rewrite Hbuf. vm_compute. reflexivity.
Defined.

(** *** The vertical stage *)

(** The vertical merge of two sources of two rows, when the gathering of
    the column [x] starts, when the column is to be finalized, and after
    that. *)
Definition gathering_starts : GlobalCtx.t * VerticalCtx.t :=
  Eval vm_compute in vertical_after (replicate 5 Env.quiet).

Definition column_gathered : GlobalCtx.t * VerticalCtx.t :=
  Eval vm_compute in vertical_after (replicate 8 Env.quiet).

Definition column_finalized : GlobalCtx.t * VerticalCtx.t :=
  Eval vm_compute in vertical_after (replicate 9 Env.quiet).

Lemma vertical_cycle_goes_column_by_column_witness :
  VerticalCtx.column_num_for_vertical_merge column_finalized.2
  = VerticalCtx.column_num_for_vertical_merge column_gathered.2 + 1
  /\ VerticalCtx.vertical_merge_one_column_state column_finalized.2
     = OneColumnState.NEED_PREPARE.
Proof.
  destruct (vertical_cycle_goes_column_by_column Env.quiet
              column_gathered.1 column_gathered.2 true
              column_finalized.1 column_finalized.2)
    as (_ & _ & [[Hsame _]|(Hnext & _ & _ & Hstate & _)] & _).
  - vm_compute. reflexivity.
  - vm_compute in Hsame. discriminate Hsame.
  - split; [exact Hnext|exact Hstate].
Defined.

Lemma gathering_a_column_witness :
  exists global_ctx' ctx',
    gather_steps Env.quiet 4 gathering_starts.1 gathering_starts.2
    = Return (true, global_ctx', ctx')
    /\ VerticalCtx.column_num_for_vertical_merge ctx' = 1
    /\ VerticalCtx.column_elems_written ctx' = 4%N.
Proof.
  destruct (gathering_a_column Env.quiet gathering_starts.1 gathering_starts.2
              (Examples.column "x")) as [Hequal _].
  - vm_compute. reflexivity.
  - vm_compute. lia.
  - reflexivity.
  - reflexivity.
  - vm_compute. reflexivity.
  - vm_compute. reflexivity.
  - vm_compute. eexists. reflexivity.
  - destruct Hequal as (global_ctx' & ctx' & Hsteps & _ & Hnum & _ & Helems & _).
    + vm_compute. reflexivity.
    + exists global_ctx', ctx'. split; [exact Hsteps|]. split.
      * rewrite Hnum. vm_compute. reflexivity.
      * rewrite Helems. vm_compute. reflexivity.
Defined.

(** What [finalizeVerticalMergeForOneColumn] itself leaves. *)
Definition column_stream_finished : GlobalCtx.t * VerticalCtx.t :=
  Eval vm_compute in
    match finalizeVerticalMergeForOneColumn Env.quiet
            column_gathered.1 column_gathered.2 with
    | Return state => state
    | _ => column_gathered
    end.

Lemma delayed_streams_are_bounded_witness :
  length (VerticalCtx.delayed_streams column_stream_finished.2)
  = 1 `min` VerticalCtx.max_delayed_streams column_gathered.2.
Proof.
  destruct (delayed_streams_are_bounded Env.quiet
              column_gathered.1 column_gathered.2
              column_stream_finished.1 column_stream_finished.2)
    as (column_to & _ & _ & Hlength & _).
  - vm_compute. reflexivity.
  - rewrite Hlength. vm_compute. reflexivity.
Defined.

(** *** The row-ids maps *)

Lemma inverted_map_follows_rows_sources_witness :
  exists inverted,
    Decouple.inverted_row_ids_map_buf (GlobalCtx.decouple decoupled_mapped.1)
    = Some inverted
    /\ length inverted = 4.
Proof.
  destruct (inverted_map_follows_rows_sources
              decoupled_pulled.1 decoupled_pulled.2
              [Examples.emitted 0; Examples.emitted 1;
               Examples.emitted 0; Examples.emitted 1]
              false decoupled_mapped.1 decoupled_mapped.2)
    as (inverted & new_data_part' & Hbuf & _ & _ & Hlength & _).
  - vm_compute. discriminate.
  - vm_compute. reflexivity.
  - vm_compute. reflexivity.
  - vm_compute. reflexivity.
  - exists inverted. split; [exact Hbuf|]. rewrite Hlength. vm_compute. reflexivity.
Defined.

(** The Replacing merge of two sources of one row with the same key,
    once its block is pulled and once its row-ids maps are written. *)
Definition replacing_pulled : GlobalCtx.t * HorizontalCtx.t :=
  Eval vm_compute in after_steps 3 replacing_task.

Definition replacing_mapped : GlobalCtx.t * HorizontalCtx.t :=
  Eval vm_compute in mapped replacing_pulled.

Lemma row_ids_maps_only_when_decoupled_witness :
  Decouple.inverted_row_ids_map_file_path (GlobalCtx.decouple decoupled_prepared.1) <> ""
  /\ generateRowIdsMap prepared_with_expired_x.1 prepared_with_expired_x.2
     = Return (false, prepared_with_expired_x.1, prepared_with_expired_x.2).
Proof.
  split.
  - apply (row_ids_maps_only_when_decoupled Env.quiet
             (MergeTask.global_ctx decoupled_task) HorizontalCtx_initial
             false decoupled_prepared.1 decoupled_prepared.2).
    + reflexivity.
    + vm_compute. reflexivity.
    + vm_compute. reflexivity.
  - apply (row_ids_maps_only_when_decoupled Env.quiet
             (MergeTask.global_ctx task_with_expired_x) HorizontalCtx_initial
             false prepared_with_expired_x.1 prepared_with_expired_x.2).
    + reflexivity.
    + vm_compute. reflexivity.
    + vm_compute. reflexivity.
Defined.

(** *** The last stages *)

(** The horizontal merge of two sources when only the finalizer is
    left, and the task the finalizer leaves. *)
Definition before_last_step : PartMergeTask :=
  Eval vm_compute in
    match merge_steps no_projection_worlds (replicate 9 Env.quiet) horizontal_task with
    | Return task => task
    | _ => horizontal_task
    end.

Definition after_last_step : PartMergeTask :=
  Eval vm_compute in
    match merge_execute no_projection_worlds Env.quiet before_last_step with
    | Return (_, task) => task
    | _ => before_last_step
    end.

Lemma execute_ends_with_the_promise_witness :
  exists new_data_part,
    GlobalCtx.promise (MergeTask.global_ctx after_last_step) = Some new_data_part
    /\ NewPart.rows_count new_data_part = 4%N.
Proof.
  destruct (execute_ends_with_the_promise
              (fun args =>
                 MergeTask_create
                   (no_projection_worlds (FuturePart.name (MergeTaskArgs.future_part args)))
                   args)
              projection_execute task_future Env.quiet before_last_step after_last_step)
    as (ctx & new_data_part & _ & _ & Hpromise & _ & _ & Hrows & _).
  - vm_compute. reflexivity.
  - exists new_data_part. split; [exact Hpromise|]. rewrite Hrows. vm_compute. reflexivity.
Defined.

Lemma finalize_decouple_moves_rows_sources_witness :
  NewPart.files finalized.2
    !! (NewPart.full_path part_before_finalizer +:+ inverted_row_sources_map_filename)
  = Some (RowSources [Examples.emitted 0; Examples.emitted 2;
                      Examples.emitted 0; Examples.emitted 2])
  /\ GlobalCtx.tmp_disk finalized.1 !! rows_sources_file_path = None.
Proof.
  destruct (finalize_decouple_moves_rows_sources
              before_finalizer part_before_finalizer finalized.1 finalized.2)
    as (records & Hrecords & Hfile & _ & Hgone & _).
  - vm_compute. reflexivity.
  - split; [|exact Hgone]. rewrite Hfile.
    vm_compute in Hrecords. injection Hrecords as <-. reflexivity.
Defined.

(** The same merge when it enters the vertical stage. *)
Definition horizontal_in_vertical_stage : GlobalCtx.t * VerticalCtx.t :=
  Eval vm_compute in
    default (MergeTask.global_ctx horizontal_task,
             horizontal_getContextForNextStage HorizontalCtx_initial)
      (Examples.vertical_state
         (merge_steps no_projection_worlds (replicate 4 Env.quiet) horizontal_task)).

Lemma horizontal_merge_passes_vertical_stage_witness :
  exists task,
    merge_steps no_projection_worlds
      [Examples.blocker_set; Examples.blocker_set; Examples.blocker_set]
      {| MergeTask.global_ctx := horizontal_in_vertical_stage.1;
         MergeTask.stage := VerticalMergeStage 0 horizontal_in_vertical_stage.2 |}
    = Return task
    /\ MergeTask.stage task
       = MergeProjectionsStage 0
           {| ProjectionsCtx.tasks_for_projections := [];
              ProjectionsCtx.projections_iterator := 0 |}.
Proof.
  destruct (horizontal_merge_passes_vertical_stage
              (fun args =>
                 MergeTask_create
                   (no_projection_worlds (FuturePart.name (MergeTaskArgs.future_part args)))
                   args)
              projection_execute task_future
              Examples.blocker_set Examples.blocker_set Examples.blocker_set
              horizontal_in_vertical_stage.1 horizontal_in_vertical_stage.2)
    as (task1 & task2 & Hfirst & Hsecond & Hthird).
  - vm_compute. discriminate.
  - eexists. split.
    + change (merge_execute no_projection_worlds Examples.blocker_set
                {| MergeTask.global_ctx := horizontal_in_vertical_stage.1;
                   MergeTask.stage :=
                     VerticalMergeStage 0 horizontal_in_vertical_stage.2 |}
              = Return (true, task1)) in Hfirst.
      change (merge_execute no_projection_worlds Examples.blocker_set task1
              = Return (true, task2)) in Hsecond.
      change (execute _ _ _ Examples.blocker_set task2)
        with (merge_execute no_projection_worlds Examples.blocker_set task2) in Hthird.
      cbn [merge_steps].
      rewrite Hfirst. simpl. rewrite Hsecond. simpl. rewrite Hthird. reflexivity.
    + reflexivity.
Defined.

(** The nested task of the projection [by_k], created and stepped once. *)
Definition projections_prepared : ProjectionsCtx.t ProjectionTask :=
  Eval vm_compute in
    match mergeMinMaxIndexAndPrepareProjections
            (fun args =>
               MergeTask_create
                 (no_projection_worlds (FuturePart.name (MergeTaskArgs.future_part args)))
                 args)
            projected_context
            {| ProjectionsCtx.tasks_for_projections := [];
               ProjectionsCtx.projections_iterator := 0 |} with
    | Return (_, _, ctx) => ctx
    | _ => {| ProjectionsCtx.tasks_for_projections := [];
              ProjectionsCtx.projections_iterator := 0 |}
    end.

Definition projection_stepped : ProjectionsCtx.t ProjectionTask :=
  Eval vm_compute in
    match executeProjections projection_execute Env.quiet
            projected_context projections_prepared with
    | Return (_, _, ctx) => ctx
    | _ => projections_prepared
    end.

Lemma executeProjections_steps_one_task_witness :
  length (ProjectionsCtx.tasks_for_projections projection_stepped) = 1
  /\ ProjectionsCtx.projections_iterator projection_stepped = 0.
Proof.
  destruct (executeProjections_steps_one_task projection_execute Env.quiet
              projected_context projections_prepared
              true projected_context projection_stepped)
    as (_ & _ & _ & Hstep).
  - vm_compute. reflexivity.
  - destruct Hstep as (task & more & task' & Htask & Hexecute & Htasks & Hiterator & _);
      [reflexivity|].
    vm_compute in Htask. injection Htask as <-.
    vm_compute in Hexecute. injection Hexecute as <- <-.
    split.
    + rewrite Htasks. reflexivity.
    + rewrite Hiterator. reflexivity.
Defined.

(** *** The directory of the new part *)

Definition into_existing_directory : PartMergeTask :=
  MergeTask_create
    {| World.directory_exists := true;
       World.merged_pipeline := [];
       World.column_pipeline := fun _ => [] |}
    (Examples.merge_args MergingParams.Ordinary
       [Examples.part "A" 2 ∅; Examples.part "B" 2 ∅]
       (Examples.metadata false []) (Examples.settings 100 false)).

Lemma prepare_refuses_existing_directory_witness :
  prepare Env.quiet (MergeTask.global_ctx into_existing_directory) HorizontalCtx_initial
  = Throw DIRECTORY_ALREADY_EXISTS
      "Directory store/tmp_merge_all_1_2_1/ already exists".
Proof.
  destruct (prepare_refuses_existing_directory Env.quiet
              (MergeTask.global_ctx into_existing_directory) HorizontalCtx_initial)
    as [Hthrow _].
  - reflexivity.
  - reflexivity.
  - reflexivity.
  - reflexivity.
  - rewrite Hthrow. vm_compute. reflexivity.
Defined.
End MoreInstances.

Lemma direct_io_when_sizes_reach_setting_witness :
  read_with_direct_io 25 [10%N; 20%N] = true
  /\ read_with_direct_io 0 [10%N; 20%N] = false.
Proof.
  destruct (direct_io_when_sizes_reach_setting 25 [10%N; 20%N]) as (_ & _ & Hreached).
  destruct (direct_io_when_sizes_reach_setting 0 [10%N; 20%N]) as (Hzero & _).
  split.
  - apply Hreached; [reflexivity|]. split; [discriminate|]. vm_compute. discriminate.
  - apply Hzero. reflexivity.
Defined.

Section WholeRunInstance.
#[local] Existing Instance Examples.engine.

(** The horizontal merge of two sources, once prepared. *)
Definition horizontal_prepared : GlobalCtx.t * HorizontalCtx.t :=
  Eval vm_compute in after_steps 1 horizontal_task.

Definition horizontal_new_part : NewPart.t :=
  Eval vm_compute in
    default (build_new_data_part (GlobalCtx.args horizontal_prepared.1))
      (GlobalCtx.new_data_part horizontal_prepared.1).

(** The merges blocker is set once the block loop is over. *)
Lemma plain_merge_runs_to_the_promise_witness :
  let env := fun step => if (step <? 2)%nat then Env.quiet else Examples.blocker_set in
  exists task',
    merge_run no_projection_worlds 9 env
      {| MergeTask.global_ctx := horizontal_prepared.1;
         MergeTask.stage := ExecuteAndFinalizeHorizontalPart 1 horizontal_prepared.2 |}
    = Return (Some task')
    /\ (NewPart.rows_count <$> GlobalCtx.promise (MergeTask.global_ctx task'))
       = Some 4%N.
Proof.
  intros env.
  destruct (plain_merge_runs_to_the_promise
              (fun args =>
                 MergeTask_create
                   (no_projection_worlds (FuturePart.name (MergeTaskArgs.future_part args)))
                   args)
              projection_execute task_future env 0
              horizontal_prepared.1 horizontal_prepared.2
              {| MergingExecutor.remaining :=
                   [Examples.pulled 4 [Examples.emitted 0; Examples.emitted 1;
                                       Examples.emitted 0; Examples.emitted 1]];
                 MergingExecutor.rows_sources_out := false |}
              horizontal_new_part)
    as [_ (task' & Hrun & _ & Hpromise & _)].
  - vm_compute. reflexivity.
  - discriminate.
  - intros n Hn. simpl in Hn.
    destruct n as [|[|n]]; [repeat split; reflexivity..|lia].
  - vm_compute. discriminate.
  - reflexivity.
  - reflexivity.
  - reflexivity.
  - reflexivity.
  - reflexivity.
  - exists task'. split.
    + apply Hrun. simpl. lia.
    + etrans; [exact (f_equal (fmap NewPart.rows_count) Hpromise)|].
      vm_compute. reflexivity.
Defined.
End WholeRunInstance.

Section ForwardCoverInstance.
#[local] Existing Instance Examples.engine.

End ForwardCoverInstance.

Section SingleVPartInstance.
#[local] Existing Instance Examples.engine.

(** A source with two rows and a built index, merged with an empty
    source whose index is not built. *)
Definition one_vpart_and_an_empty_part : list DataPart.t :=
  [Examples.part "A" 2 Examples.built; Examples.part "B" 0 Examples.pending].

Definition single_vpart_decision : Decouple.t :=
  Eval vm_compute in
    match checkDecouple (Examples.settings 1 true)
            (StorageMetadata.vector_indices (Examples.metadata true []))
            one_vpart_and_an_empty_part Decouple_initial with
    | Return d => d
    | _ => Decouple_initial
    end.

Lemma single_vpart_keeps_its_indexes_witness :
  exists part,
    one_vpart_and_an_empty_part !! 0 = Some part
    /\ List.filter non_empty one_vpart_and_an_empty_part = [part]
    /\ Decouple.all_parts_have_vector_index single_vpart_decision !! "v_idx"
       = Some true.
Proof.
  destruct (single_vpart_keeps_its_indexes (Examples.settings 1 true)
              (StorageMetadata.vector_indices (Examples.metadata true []))
              one_vpart_and_an_empty_part Decouple_initial single_vpart_decision)
    as (part & Hfilter & Hpart & _ & _ & _).
  - discriminate.
  - intros vec_index Hindex part Hin Hrows.
    apply list_elem_of_singleton in Hindex as ->.
    apply elem_of_cons in Hin as [->|Hin]; [discriminate Hrows|].
    apply list_elem_of_singleton in Hin as ->.
    eexists. split; [vm_compute; reflexivity|discriminate].
  - reflexivity.
  - reflexivity.
  - reflexivity.
  - vm_compute. reflexivity.
  - reflexivity.
  - exists part. split; [exact Hpart|]. split; [exact Hfilter|].
    vm_compute. reflexivity.
Defined.
End SingleVPartInstance.

Section ProjectionsLoopInstance.
#[local] Existing Instance Examples.engine.

(** The nested task stepped under no flag until it reports its end, at
    most [fuel] times. *)
Fixpoint stepped_to_end (fuel : nat) (task : ProjectionTask) : ProjectionTask :=
  match fuel with
  | 0 => task
  | S fuel =>
      match projection_execute Env.quiet task with
      | Return (true, task') => stepped_to_end fuel task'
      | Return (false, task') => task'
      | _ => task
      end
  end.

(** The nested task of the projection [by_k], new and at its end. *)
Definition by_k_task : ProjectionTask :=
  Eval vm_compute in
    match ProjectionsCtx.tasks_for_projections projections_prepared with
    | task :: _ => task
    | [] => MergeTask_create (Examples.world [] []) (GlobalCtx.args projected_context)
    end.

Definition by_k_finished : ProjectionTask :=
  Eval vm_compute in stepped_to_end 20 by_k_task.

Lemma projections_run_one_after_another_witness :
  executeProjections_loop projection_execute Env.quiet 10
    projected_context projections_prepared
  = Return (Some {| ProjectionsCtx.tasks_for_projections := [by_k_finished];
                    ProjectionsCtx.projections_iterator := 1 |}).
Proof.
  destruct (projections_run_one_after_another projection_execute Env.quiet
              projected_context [by_k_task] [(8, by_k_finished)])
    as [_ Hends].
  - constructor; [|constructor]. cbn [child_runs fst snd].
    repeat (eexists; split; [vm_compute; reflexivity|]).
    vm_compute. reflexivity.
  - apply (Hends 10). vm_compute. lia.
Defined.
End ProjectionsLoopInstance.

Section TTLEvictionInstance.
#[local] Existing Instance Examples.engine.

(** A merge whose first source has a part minimum TTL (50) before the
    time of the merge (100), and what [prepare] makes of it. *)
Definition task_with_expired_ttl : PartMergeTask :=
  Examples.two_by_two (Examples.with_part_min_ttl 50 (Examples.part "A" 2 ∅))
    (Examples.part "B" 2 ∅)
    MergingParams.Ordinary (Examples.metadata false []) (Examples.settings 1 false).

Definition prepared_with_expired_ttl : GlobalCtx.t * HorizontalCtx.t :=
  Eval vm_compute in after_steps 1 task_with_expired_ttl.

Definition part_with_expired_ttl : NewPart.t :=
  Eval vm_compute in
    default (build_new_data_part (GlobalCtx.args prepared_with_expired_ttl.1))
      (GlobalCtx.new_data_part prepared_with_expired_ttl.1).

Lemma prepare_decides_ttl_eviction_witness :
  HorizontalCtx.need_remove_expired_values prepared_with_expired_ttl.2 = true
  /\ HorizontalCtx.force_ttl prepared_with_expired_ttl.2 = false.
Proof.
  destruct (prepare_decides_ttl_eviction Env.quiet
              (MergeTask.global_ctx task_with_expired_ttl) HorizontalCtx_initial
              false prepared_with_expired_ttl.1 prepared_with_expired_ttl.2
              part_with_expired_ttl)
    as (_ & Hforce & Hneed & _).
  - vm_compute. reflexivity.
  - reflexivity.
  - split.
    + rewrite Hneed. vm_compute. reflexivity.
    + rewrite Hforce. vm_compute. reflexivity.
Defined.
End TTLEvictionInstance.

Section AllColumnsInstance.
#[local] Existing Instance Examples.engine.

(** The vertical merge of two sources gathers its one gathering column,
    [x], in four calls. *)
Lemma every_gathering_column_is_gathered_witness :
  exists global_ctx' ctx',
    gather_steps Env.quiet 4 gathering_starts.1 gathering_starts.2
    = Return (true, global_ctx', ctx')
    /\ executeVerticalMergeForAllColumns Env.quiet global_ctx' ctx'
       = Return (false, global_ctx', ctx')
    /\ VerticalCtx.column_num_for_vertical_merge ctx' = 1.
Proof.
  destruct (every_gathering_column_is_gathered Env.quiet
              gathering_starts.1 gathering_starts.2)
    as (global_ctx' & ctx' & Hsteps & Hend & Hnum & _).
  - vm_compute. reflexivity.
  - reflexivity.
  - reflexivity.
  - vm_compute. reflexivity.
  - vm_compute. reflexivity.
  - vm_compute. reflexivity.
  - vm_compute. reflexivity.
  - vm_compute. eexists. reflexivity.
  - intros column Hin. change (column ∈ [Examples.column "x"]) in Hin.
    apply list_elem_of_singleton in Hin as ->. vm_compute. reflexivity.
  - exists global_ctx', ctx'. split; [exact Hsteps|]. split; [exact Hend|].
    rewrite Hnum. vm_compute. reflexivity.
Defined.
End AllColumnsInstance.

Section RevisedInstances.
#[local] Existing Instance Examples.engine.

(** *** The forward maps and the stream *)


(** *** The rows marked as deleted *)

(** The Replacing merge of two sources of one row with the same key: the
    row of the first source is not kept, and its bitmap is updated for
    the vector index of the table. *)
Lemma collapsing_modes_mark_deleted_rows_witness :
  exists ids_of : list (gmap N N),
    (forall i ids old_row_id,
       ids_of !! i = Some ids ->
       ids !! old_row_id = None
       <-> row_not_kept true [[0%N]; [0%N]]
             [Examples.skipped 0; Examples.emitted 1] i old_row_id)
    /\ [ {| BitmapUpdate.part_name := "A";
            BitmapUpdate.index_name := "v_idx";
            BitmapUpdate.row_ids := [0%N] |} ]
       = concat ((fun source : DataPart.t * gmap N N =>
                    bitmap_updates_of
                      (StorageMetadata.vector_indices (Examples.metadata true []))
                      source.1 source.2)
                   <$> zip [Examples.part "A" 1 Examples.built;
                            Examples.part "B" 1 Examples.built] ids_of).
Proof.
  destruct (collapsing_modes_mark_deleted_rows
              replacing_pulled.1 replacing_pulled.2
              [Examples.skipped 0; Examples.emitted 1]
              false replacing_mapped.1 replacing_mapped.2)
    as [_ Hcollapsing].
  - vm_compute. discriminate.
  - vm_compute. reflexivity.
  - vm_compute. reflexivity.
  - vm_compute. reflexivity.
  - destruct Hcollapsing as (ids_of & _ & Hnone & Hupdates & _); [reflexivity|].
    exists ids_of. split; [exact Hnone|]. exact Hupdates.
Defined.
(** *** Cancellation *)

(** With the merges blocker set, [prepare] raises Aborted.  Set once the
    block loop of a horizontal merge without projections is over, the
    blocker is not looked at, and the merge promises its four rows.  Set
    when the nested task of a projection is about to be prepared, it makes
    the step of the projections stage raise Aborted. *)
Lemma cancellation_checkpoints_witness :
  let late := fun step => if (step <? 2)%nat then Env.quiet else Examples.blocker_set in
  prepare Examples.blocker_set (MergeTask.global_ctx horizontal_task)
    HorizontalCtx_initial
  = Throw ABORTED "Cancelled merging parts"
  /\ (exists task',
        merge_run no_projection_worlds 9 late
          {| MergeTask.global_ctx := horizontal_prepared.1;
             MergeTask.stage := ExecuteAndFinalizeHorizontalPart 1 horizontal_prepared.2 |}
        = Return (Some task')
        /\ (NewPart.rows_count <$> GlobalCtx.promise (MergeTask.global_ctx task'))
           = Some 4%N)
  /\ merge_execute no_projection_worlds Examples.blocker_set
       {| MergeTask.global_ctx := projected_context;
          MergeTask.stage := MergeProjectionsStage 1 projections_prepared |}
     = Throw ABORTED "Cancelled merging parts".
Proof.
  intros late. split; [|split].
  - destruct (cancellation_checkpoints no_projection_worlds
                Examples.blocker_set (MergeTask.global_ctx horizontal_task))
      as (Hprepare & _); [left; reflexivity|].
    apply Hprepare.
  - destruct (cancellation_checkpoints no_projection_worlds
                Examples.blocker_set horizontal_prepared.1)
      as (_ & _ & _ & _ & _ & _ & _ & Hlate & _); [left; reflexivity|].
    destruct (Hlate late 0 horizontal_prepared.2
                {| MergingExecutor.remaining :=
                     [Examples.pulled 4 [Examples.emitted 0; Examples.emitted 1;
                                         Examples.emitted 0; Examples.emitted 1]];
                   MergingExecutor.rows_sources_out := false |}
                horizontal_new_part)
      as (task' & Hrun & _ & Hpromise).
    + vm_compute. reflexivity.
    + discriminate.
    + intros n Hn. simpl in Hn.
      destruct n as [|[|n] ]; [repeat split; reflexivity..|lia].
    + vm_compute. discriminate.
    + reflexivity.
    + reflexivity.
    + reflexivity.
    + reflexivity.
    + reflexivity.
    + exists task'. split.
      * apply Hrun. simpl. lia.
      * etrans; [exact Hpromise|]. vm_compute. reflexivity.
  - destruct (cancellation_checkpoints no_projection_worlds
                Examples.blocker_set projected_context)
      as (_ & _ & _ & _ & _ & _ & _ & _ & _ & Hnested); [left; reflexivity|].
    eapply (Hnested projections_prepared).
    + reflexivity.
    + vm_compute. reflexivity.
    + vm_compute. reflexivity.
    + lia.
Defined.
End RevisedInstances.
